(** * QSchematic: the wire-network topology engine

    A shallow embedding of the parts of [qschematic/scene.cpp] and
    [qschematic/items/connector.cpp] that keep wires, wire nets and
    connector bindings consistent, together with the properties the
    specification states about them.

    Conventions of the embedding.
    - Objects held through [std::shared_ptr] or raw pointers ([Wire],
      [WireNet]) live in stores indexed by identifiers; a pointer is an
      identifier and pointer equality is equality of identifiers.  A
      pointer that may be null is an [option].
    - Coordinates are scene coordinates that are whole numbers
      ([Z * Z]); [toPointF()] is then the identity.  [toPoint()]
      converts to [int] and [QVector2D] to [float]: the conversions are
      [toPoint] and [QVector2D] below, the identity on coordinates that
      fit, and the properties that depend on them are stated for
      coordinates that fit.
    - A function that dereferences a null pointer, or indexes a vector out
      of range with [at()], [first()] or [last()], has no defined result:
      the embedding returns [None] there. *)

From Stdlib Require Import ZArith Ascii.
From stdpp Require Import gmap strings list fin_maps relations.

Open Scope Z_scope.

(** ** Geometry *)

Definition Point : Type := Z * Z.

Definition point_add (a b : Point) : Point := (a.1 + b.1, a.2 + b.2).
Definition point_sub (a b : Point) : Point := (a.1 - b.1, a.2 - b.2).

(** Square of [QVector2D(p).length()]. *)
Definition lengthSquared (p : Point) : Z := p.1 * p.1 + p.2 * p.2.

(** [QVector2D(a - b).length() < 1] for two positions given in [1/unit]
    of a scene unit ([unit = 1]: whole numbers; [unit = 2]: halves).  For
    [unit] a power of two up to 2^12 and positions within the range of
    [int], the [float]s and [double]s of the computation are exact where
    the two positions are less than 2^12 units apart, no rounding brings
    a greater distance below 1, and the length is below 1 exactly when
    its square is. *)
Definition closerThan (unit : Z) (a b : Point) : bool :=
  bool_decide (lengthSquared (point_sub a b) < unit * unit).

(** [QVector2D(a - b).length() < 1] on whole-number positions *)
Definition closerThanOne (a b : Point) : bool := closerThan 1 a b.

(** The range of [int]. *)
Definition INT_MIN : Z := - 2 ^ 31.
Definition INT_MAX : Z := 2 ^ 31 - 1.

(** The conversion of a [double] that holds a whole number to [int], as
    [qRound] makes it.  C++ leaves it undefined outside the range of
    [int]; x86 yields [INT_MIN] there, so that two coordinates beyond the
    range compare equal after the conversion. *)
Definition toInt (z : Z) : Z :=
  if bool_decide (INT_MIN ≤ z ≤ INT_MAX) then z else INT_MIN.

(** [QPointF::toPoint()] *)
Definition toPoint (p : Point) : Point := (toInt p.1, toInt p.2).

(** Both coordinates fit in an [int]. *)
Definition inIntRange (p : Point) : Prop :=
  (INT_MIN ≤ p.1 ≤ INT_MAX) ∧ (INT_MIN ≤ p.2 ≤ INT_MAX).

(** A position given by an origin and an offset from it, all of them in
    the range of [int] (where the sums of [double]s are exact). *)
Definition placedInIntRange (origin offset : Point) : Prop :=
  inIntRange origin ∧ inIntRange offset ∧ inIntRange (point_add origin offset).

(** The conversion of a [double] that holds a whole number to [float]:
    the nearest number with 24 significant bits, the even one of two that
    are equally near.  Whole numbers up to 2^24 are kept. *)
Definition toFloat (z : Z) : Z :=
  let a := Z.abs z in
  if bool_decide (a ≤ 2 ^ 24) then z
  else
    let ulp := 2 ^ (Z.log2 a - 23) in
    let q := a / ulp in
    let r := a mod ulp in
    let q' := if bool_decide (2 * r < ulp) then q
              else if bool_decide (ulp < 2 * r) then q + 1
                   else if Z.even q then q else q + 1 in
    Z.sgn z * (q' * ulp).

(** [QVector2D(const QPointF&)], which holds two [float]s. *)
Definition QVector2D (p : Point) : Point := (toFloat p.1, toFloat p.2).

(** Both coordinates are held by a [float] as they are. *)
Definition inFloatRange (p : Point) : Prop :=
  Z.abs p.1 ≤ 2 ^ 24 ∧ Z.abs p.2 ≤ 2 ^ 24.

(** ** Wire points and wires *)

Abbreviation WireId := nat (only parsing).
Abbreviation NetId := nat (only parsing).

Record WirePoint := mkWirePoint {
  wp_pos : Point;
  isJunction : bool
}.

(** Modelled from the spec: [WirePoint::operator==] (wirepoint.cpp is not
    among the sources).  "All comparisons for same point are done on the
    integer-rounded grid coordinate": two wire points are equal when their
    coordinates are. *)
Definition WirePoint_eqb (a b : WirePoint) : bool :=
  bool_decide (wp_pos a = wp_pos b).

Definition setJunction (b : bool) (p : WirePoint) : WirePoint :=
  {| wp_pos := wp_pos p; isJunction := b |}.

Definition movedBy (d : Point) (p : WirePoint) : WirePoint :=
  {| wp_pos := point_add (wp_pos p) d; isJunction := isJunction p |}.

Record Wire := mkWire {
  wire_pos : Point;               (* QGraphicsItem::pos() of the wire *)
  _points : list WirePoint;       (* relative to wire_pos *)
  _connectedWires : list WireId;
  _net : option NetId;            (* back reference to the owning net *)
  wire_selectable : bool          (* hover events and ItemIsSelectable *)
}.

#[global] Instance Wire_inhabited : Inhabited Wire :=
  populate {| wire_pos := (0, 0); _points := []; _connectedWires := [];
              _net := None; wire_selectable := false |}.

Definition set_points (f : list WirePoint → list WirePoint) (w : Wire) : Wire :=
  {| wire_pos := wire_pos w; _points := f (_points w);
     _connectedWires := _connectedWires w; _net := _net w;
     wire_selectable := wire_selectable w |}.

Definition set_connectedWires (f : list WireId → list WireId) (w : Wire) : Wire :=
  {| wire_pos := wire_pos w; _points := _points w;
     _connectedWires := f (_connectedWires w); _net := _net w;
     wire_selectable := wire_selectable w |}.

Definition set_net (n : option NetId) (w : Wire) : Wire :=
  {| wire_pos := wire_pos w; _points := _points w;
     _connectedWires := _connectedWires w; _net := n;
     wire_selectable := wire_selectable w |}.

Definition set_wire_pos (p : Point) (w : Wire) : Wire :=
  {| wire_pos := p; _points := _points w;
     _connectedWires := _connectedWires w; _net := _net w;
     wire_selectable := wire_selectable w |}.

Definition set_selectable (b : bool) (w : Wire) : Wire :=
  {| wire_pos := wire_pos w; _points := _points w;
     _connectedWires := _connectedWires w; _net := _net w;
     wire_selectable := b |}.

(** *** Vector helpers with the semantics of [QVector] *)

(** [QVector::at(i)]: defined for [0 <= i < count()] only. *)
Definition at_ {A} (l : list A) (i : Z) : option A :=
  if bool_decide (0 ≤ i) then l !! Z.to_nat i else None.

Definition count {A} (l : list A) : Z := Z.of_nat (length l).

(** [QVector::indexOf(x)]: index of the first element equal to [x], or -1. *)
Fixpoint indexOf_from {A} (eqb : A → A → bool) (x : A) (l : list A) (i : Z) : Z :=
  match l with
  | [] => -1
  | y :: l' => if eqb y x then i else indexOf_from eqb x l' (i + 1)
  end.

Definition indexOf {A} (eqb : A → A → bool) (l : list A) (x : A) : Z :=
  indexOf_from eqb x l 0.

Definition contains `{EqDecision A} (l : list A) (x : A) : bool :=
  bool_decide (x ∈ l).

(** [QList::removeAll(x)] *)
Definition removeAll `{EqDecision A} (x : A) (l : list A) : list A :=
  filter (λ y, y ≠ x) l.

(** *** Wire operations

    wire.cpp is not among the sources; the operations the scene and the
    connector call are modelled from the contract of section 4.2. *)

(** Modelled from the spec: [Wire::wirePointsRelative], the "ordered
    sequence of WirePoints ... expressed relative to the wire's own
    origin". *)
Definition wirePointsRelative (w : Wire) : list WirePoint := _points w.

(** Modelled from the spec: [Wire::wirePointsAbsolute], "points_absolute()
    - convenience view combining local points with wire origin". *)
Definition wirePointsAbsolute (w : Wire) : list WirePoint :=
  movedBy (wire_pos w) <$> _points w.

(** Modelled from the spec: [Wire::pointsAbsolute], the same view without
    the junction flags. *)
Definition pointsAbsolute (w : Wire) : list Point :=
  wp_pos <$> wirePointsAbsolute w.

(** Modelled from the spec: [Wire::junctions], the points of the wire that
    carry [is_junction], in scene coordinates. *)
Definition junctions (w : Wire) : list WirePoint :=
  filter (λ p, isJunction p = true) (wirePointsAbsolute w).

(** Modelled from the spec: [Wire::movePointBy], "repositions the i-th
    point"; "all mutators fail soft (no-op) on out-of-range indices". *)
Definition movePointBy (i : Z) (d : Point) (w : Wire) : Wire :=
  if bool_decide (0 ≤ i)
  then set_points (λ l, alter (movedBy d) (Z.to_nat i) l) w
  else w.

(** Modelled from the spec: [Wire::setPointIsJunction], the per-point
    junction flag; no-op out of range. *)
Definition setPointIsJunction (i : Z) (b : bool) (w : Wire) : Wire :=
  if bool_decide (0 ≤ i)
  then set_points (λ l, alter (setJunction b) (Z.to_nat i) l) w
  else w.

(** Modelled from the spec: [Wire::appendPoint], "appends P to the end;
    fails silently if P equals the current last".  [p] is a scene
    position. *)
Definition appendPoint (p : Point) (w : Wire) : Wire :=
  let rel := {| wp_pos := point_sub p (wire_pos w); isJunction := false |} in
  match last (_points w) with
  | Some l => if WirePoint_eqb l rel then w else set_points (λ ps, ps ++ [rel]) w
  | None => set_points (λ ps, ps ++ [rel]) w
  end.

(** Modelled from the spec: [Wire::removeLastPoint], which drops the last
    point of the polyline and does nothing on an empty one. *)
Definition removeLastPoint (w : Wire) : Wire := set_points (λ l, removelast l) w.

(** Modelled from the spec: [Wire::connectWire], which adds a wire to the
    set of directly-connected wires (a set: a wire already there is not
    added again). *)
Definition Wire_connectWire (other : WireId) (w : Wire) : Wire :=
  if contains (_connectedWires w) other then w
  else set_connectedWires (λ l, l ++ [other]) w.

(** Modelled from the spec: [Wire::disconnectWire], which removes a wire
    from the set of directly-connected wires. *)
Definition Wire_disconnectWire (other : WireId) (w : Wire) : Wire :=
  set_connectedWires (removeAll other) w.

(** ** Connectors and nodes *)

Record Connector := mkConnector {
  conn_pos : Point;            (* position relative to the node *)
  _wire : option WireId;
  _wirePointIndex : Z
}.

Record Node := mkNode {
  node_pos : Point;
  node_connectors : list Connector
}.

(** Modelled from the spec: [Connector::scenePos] for a connector of a
    node, "position relative to its node" added to the node's position
    (node.cpp is not among the sources; rotation is left out). *)
Definition scenePos (n : Node) (c : Connector) : Point :=
  point_add (node_pos n) (conn_pos c).

(** The connector as constructed: [_wire(nullptr), _wirePointIndex(-1)]. *)
Definition newConnector (p : Point) : Connector :=
  {| conn_pos := p; _wire := None; _wirePointIndex := -1 |}.

Definition attachedWire (c : Connector) : option WireId := _wire c.
Definition attachedWirepoint (c : Connector) : Z := _wirePointIndex c.

Section Connector.
(** The store of wire objects the connector's pointer refers into. *)
Variable wires_ : gmap nat Wire.

(** [Connector::attachWire(Wire* wire, int index)] *)
Definition attachWire (wire : option WireId) (index : Z) (c : Connector) : Connector :=
  match wire with
  | None => c
  | Some w =>
      if bool_decide (_wirePointIndex c < -1)
         || bool_decide (count (wirePointsRelative (wires_ !!! w)) < _wirePointIndex c)
      then c
      else {| conn_pos := conn_pos c; _wire := Some w; _wirePointIndex := index |}
  end.

(** [Connector::detachWire()] *)
Definition detachWire (c : Connector) : Connector :=
  {| conn_pos := conn_pos c; _wire := None; _wirePointIndex := -1 |}.

(** [Connector::moveWirePoint()]: the wire store after the call, or
    [None] when [at(_wirePointIndex)] reads outside the vector. *)
Definition moveWirePoint (n : Node) (c : Connector) : option (gmap nat Wire) :=
  match _wire c with
  | None => Some wires_
  | Some w =>
      let wire := wires_ !!! w in
      if bool_decide (_wirePointIndex c < -1)
         || bool_decide (count (wirePointsRelative wire) < _wirePointIndex c)
      then Some wires_
      else
        oldPos ← at_ (wirePointsRelative wire) (_wirePointIndex c);
        let moveBy := QVector2D (point_sub (scenePos n c)
                                           (point_add (wire_pos wire) (wp_pos oldPos))) in
        Some (<[w := movePointBy (_wirePointIndex c) moveBy wire]> wires_)
  end.
End Connector.

(** ** Wire nets and the scene *)

Record WireNet := mkWireNet {
  _wires : list WireId;
  _name : string;
  net_highlighted : bool;     (* highlight state of the net's wires and label *)
  signalsBlocked : bool       (* QObject::signalsBlocked() *)
}.

(** [std::make_shared<WireNet>()] *)
Definition emptyNet : WireNet :=
  {| _wires := []; _name := EmptyString; net_highlighted := false;
     signalsBlocked := false |}.

#[global] Instance WireNet_inhabited : Inhabited WireNet := populate emptyNet.

Definition set_wires (f : list WireId → list WireId) (n : WireNet) : WireNet :=
  {| _wires := f (_wires n); _name := _name n;
     net_highlighted := net_highlighted n; signalsBlocked := signalsBlocked n |}.

Definition set_highlighted (b : bool) (n : WireNet) : WireNet :=
  {| _wires := _wires n; _name := _name n;
     net_highlighted := b; signalsBlocked := signalsBlocked n |}.

Definition set_blocked (b : bool) (n : WireNet) : WireNet :=
  {| _wires := _wires n; _name := _name n;
     net_highlighted := net_highlighted n; signalsBlocked := b |}.

Inductive Mode := NormalMode | WireMode.

Record Scene := mkScene {
  wireStore : gmap nat Wire;        (* the Wire objects *)
  netStore : gmap nat WireNet;      (* the WireNet objects *)
  _nets : list NetId;
  nodes : list Node;                (* nodes(), in the order of _items *)
  _mode : Mode;
  _newWire : option WireId;
  _newWireSegment : bool;
  messageBoxes : nat;               (* message boxes shown to the user *)
  highlightSlotCalls : list NetId   (* senders the highlight slot ran for *)
}.

Definition upd_wireStore (f : gmap nat Wire → gmap nat Wire) (s : Scene) : Scene :=
  {| wireStore := f (wireStore s); netStore := netStore s; _nets := _nets s;
     nodes := nodes s; _mode := _mode s; _newWire := _newWire s;
     _newWireSegment := _newWireSegment s; messageBoxes := messageBoxes s;
     highlightSlotCalls := highlightSlotCalls s |}.

Definition upd_netStore (f : gmap nat WireNet → gmap nat WireNet) (s : Scene) : Scene :=
  {| wireStore := wireStore s; netStore := f (netStore s); _nets := _nets s;
     nodes := nodes s; _mode := _mode s; _newWire := _newWire s;
     _newWireSegment := _newWireSegment s; messageBoxes := messageBoxes s;
     highlightSlotCalls := highlightSlotCalls s |}.

Definition upd_nets (f : list NetId → list NetId) (s : Scene) : Scene :=
  {| wireStore := wireStore s; netStore := netStore s; _nets := f (_nets s);
     nodes := nodes s; _mode := _mode s; _newWire := _newWire s;
     _newWireSegment := _newWireSegment s; messageBoxes := messageBoxes s;
     highlightSlotCalls := highlightSlotCalls s |}.

Definition upd_nodes (f : list Node → list Node) (s : Scene) : Scene :=
  {| wireStore := wireStore s; netStore := netStore s; _nets := _nets s;
     nodes := f (nodes s); _mode := _mode s; _newWire := _newWire s;
     _newWireSegment := _newWireSegment s; messageBoxes := messageBoxes s;
     highlightSlotCalls := highlightSlotCalls s |}.

Definition set_newWire (w : option WireId) (s : Scene) : Scene :=
  {| wireStore := wireStore s; netStore := netStore s; _nets := _nets s;
     nodes := nodes s; _mode := _mode s; _newWire := w;
     _newWireSegment := _newWireSegment s; messageBoxes := messageBoxes s;
     highlightSlotCalls := highlightSlotCalls s |}.

Definition set_newWireSegment (b : bool) (s : Scene) : Scene :=
  {| wireStore := wireStore s; netStore := netStore s; _nets := _nets s;
     nodes := nodes s; _mode := _mode s; _newWire := _newWire s;
     _newWireSegment := b; messageBoxes := messageBoxes s;
     highlightSlotCalls := highlightSlotCalls s |}.

Definition set_mode (m : Mode) (s : Scene) : Scene :=
  {| wireStore := wireStore s; netStore := netStore s; _nets := _nets s;
     nodes := nodes s; _mode := m; _newWire := _newWire s;
     _newWireSegment := _newWireSegment s; messageBoxes := messageBoxes s;
     highlightSlotCalls := highlightSlotCalls s |}.

(** [QMessageBox::exec()]: one more message shown to the user. *)
Definition showMessageBox (s : Scene) : Scene :=
  {| wireStore := wireStore s; netStore := netStore s; _nets := _nets s;
     nodes := nodes s; _mode := _mode s; _newWire := _newWire s;
     _newWireSegment := _newWireSegment s; messageBoxes := S (messageBoxes s);
     highlightSlotCalls := highlightSlotCalls s |}.

Definition logHighlightSlot (sender : NetId) (s : Scene) : Scene :=
  {| wireStore := wireStore s; netStore := netStore s; _nets := _nets s;
     nodes := nodes s; _mode := _mode s; _newWire := _newWire s;
     _newWireSegment := _newWireSegment s; messageBoxes := messageBoxes s;
     highlightSlotCalls := highlightSlotCalls s ++ [sender] |}.

(** Dereferencing a live pointer. *)
Definition getWire (s : Scene) (w : WireId) : Wire := wireStore s !!! w.
Definition getNet (s : Scene) (n : NetId) : WireNet := netStore s !!! n.

(** Calling a mutator through a pointer. *)
Definition updWire (w : WireId) (f : Wire → Wire) (s : Scene) : Scene :=
  upd_wireStore (λ m, <[w := f (m !!! w)]> m) s.
Definition updNet (n : NetId) (f : WireNet → WireNet) (s : Scene) : Scene :=
  upd_netStore (λ m, <[n := f (m !!! n)]> m) s.

Definition connectedWires (s : Scene) (w : WireId) : list WireId :=
  _connectedWires (getWire s w).
Definition netWires (s : Scene) (n : NetId) : list WireId :=
  _wires (getNet s n).

(** A loop whose body may fail: the first failure ends it. *)
Fixpoint forEach {A S : Type} (f : A → S → option S) (l : list A) (s : S) : option S :=
  match l with
  | [] => Some s
  | x :: l' => s' ← f x s; forEach f l' s'
  end.

(** Applies [f] to every connector of every node, as the nested loops
    [for node : nodes() / for connector : node->connectors()] do when the
    body only touches the connector at hand. *)
Definition mapConnectors (f : Node → Connector → Connector) (s : Scene) : Scene :=
  upd_nodes (fmap (λ n, {| node_pos := node_pos n;
                           node_connectors := f n <$> node_connectors n |})) s.

(** Modelled from the spec: [Node::connectionPointsAbsolute], the scene
    positions of the node's connectors ([Connector::connectionPoint] is
    the connector's own origin). *)
Definition connectionPointsAbsolute (n : Node) : list Point :=
  scenePos n <$> node_connectors n.

(** [Scene::connectionPoints()] *)
Definition connectionPoints (s : Scene) : list Point :=
  n ← nodes s; connectionPointsAbsolute n.

(** [Scene::wires()] *)
Definition wires (s : Scene) : list WireId :=
  n ← _nets s; netWires s n.

(** Modelled from the spec: [WireNet::contains]. *)
Definition WireNet_contains (n : NetId) (w : WireId) (s : Scene) : bool :=
  contains (netWires s n) w.

(** Modelled from the spec: [WireNet::addWire], "add(w)", which also
    re-points the wire's net membership. *)
Definition WireNet_addWire (n : NetId) (w : WireId) (s : Scene) : Scene :=
  updWire w (set_net (Some n)) (updNet n (set_wires (λ l, l ++ [w])) s).

(** Modelled from the spec: [WireNet::removeWire], "remove(w)". *)
Definition WireNet_removeWire (n : NetId) (w : WireId) (s : Scene) : Scene :=
  updNet n (set_wires (removeAll w)) s.

(** [std::make_shared<WireNet>()]: a fresh, empty net object. *)
Definition newWireNet (s : Scene) : NetId * Scene :=
  let n := fresh (dom (netStore s)) in
  (n, upd_netStore (λ m, <[n := emptyNet]> m) s).

(** [Scene::addWireNet] *)
Definition addWireNet (n : NetId) (s : Scene) : Scene :=
  upd_nets (λ l, l ++ [n]) s.

(** [Scene::removeWireNet] *)
Definition removeWireNet (n : NetId) (s : Scene) : Scene :=
  upd_nets (removeAll n) s.

(** [Scene::netFromWire] *)
Definition netFromWire (w : WireId) (s : Scene) : option NetId :=
  List.find (λ n, WireNet_contains n w s) (_nets s).

(** [Scene::addWire] (the graphics item list is not part of the model) *)
Definition addWire (wire : WireId) (s : Scene) : Scene :=
  let '(newNet, s1) := newWireNet s in
  addWireNet newNet (WireNet_addWire newNet wire s1).

(** [Scene::mergeNets]; the loop runs over the copy of the list that
    [otherNet->wires()] returns. *)
Definition mergeNets (net otherNet : option NetId) (s : Scene) : option (bool * Scene) :=
  if bool_decide (net = otherNet) then Some (false, s)
  else
    o ← otherNet;
    s' ← forEach (λ wire s, n ← net;
                   Some (WireNet_removeWire o wire (WireNet_addWire n wire s)))
                 (netWires s o) s;
    Some (true, s').

(** [Scene::connectWire(wire, rawWire)]: [wire] is "the wire to connect
    to", [rawWire] "the wire to connect". *)
Definition connectWire (wire rawWire : WireId) (s : Scene) : option Scene :=
  let s1 := updWire wire (Wire_connectWire rawWire) s in
  let net := netFromWire wire s1 in
  let otherNet := netFromWire rawWire s1 in
  '(merged, s2) ← mergeNets net otherNet s1;
  if (merged : bool) then (o ← otherNet; Some (removeWireNet o s2)) else Some s2.

(** *** [Scene::wiresConnectedTo] *)

(** Whether two wires are connected in one direction or the other. *)
Definition adjacent (s : Scene) (a b : WireId) : Prop :=
  b ∈ connectedWires s a ∨ a ∈ connectedWires s b.

#[global] Instance adjacent_dec s a b : Decision (adjacent s a b).
Proof. unfold adjacent. apply _. Defined.

(** One pass of the [for] loop inside the do-while: the wires of the net
    that are not yet collected and are connected to a collected one. *)
Definition connectedPass (s : Scene) (net_wires collected : list WireId) : list WireId :=
  filter (λ otherWire, (otherWire ∉ collected)
                       ∧ Exists (λ wire2, adjacent s wire2 otherWire) collected)
         net_wires.

(** The do-while loop, with a bound on the number of passes. *)
Fixpoint wiresConnectedTo_loop (fuel : nat) (s : Scene)
    (net_wires collected : list WireId) : option (list WireId) :=
  match fuel with
  | O => None
  | S fuel' =>
      let newList := connectedPass s net_wires collected in
      let collected' := collected ++ newList in
      if bool_decide (newList = []) then Some collected'
      else wiresConnectedTo_loop fuel' s net_wires collected'
  end.

(** [Scene::wiresConnectedTo]; as many passes as the net has wires are
    allowed (the loop needs no more, see [wiresConnectedTo_spec]). *)
Definition wiresConnectedTo (wire : WireId) (s : Scene) : option (list WireId) :=
  n ← _net (getWire s wire);
  wiresConnectedTo_loop (S (length (netWires s n))) s (netWires s n) [wire].

(** [Scene::disconnectWire(wire, otherWire)]: [wire] is "the wire that the
    other is attached to", [otherWire] "the wire that is being
    disconnected". *)
Definition disconnectWire (wire otherWire : WireId) (s : Scene) : option Scene :=
  let s1 := updWire otherWire (Wire_disconnectWire wire) s in
  net ← _net (getWire s1 wire);
  oldWires ← wiresConnectedTo otherWire s1;
  if bool_decide (count (netWires s1 net) ≠ count oldWires) then
    let '(newNet, s2) := newWireNet s1 in
    let s3 := addWireNet newNet s2 in
    Some (foldl (λ s wireToMove,
                   if contains oldWires wireToMove then s
                   else WireNet_removeWire net wireToMove
                          (WireNet_addWire newNet wireToMove s))
                s3 (netWires s3 net))
  else Some s1.

(** The body of the loop "Disconnect from connected wires" of
    [Scene::removeWire]. *)
Definition disconnectFrom (wire otherWire : WireId) (s : Scene) : option Scene :=
  if bool_decide (otherWire ≠ wire) then
    if contains (connectedWires s otherWire) wire
    then disconnectWire wire otherWire s
    else if contains (connectedWires s wire) otherWire
         then disconnectWire otherWire wire s
         else Some s
  else Some s.

(** The loop "Remove the wire from the list" of [Scene::removeWire]: the
    scene after it and the list [netsToDelete]. *)
Definition removeFromNets (wire : WireId) (s : Scene) : Scene * list NetId :=
  foldl (λ '(s, netsToDelete) net,
           let s' := if WireNet_contains net wire s
                     then WireNet_removeWire net wire s else s in
           (s', if bool_decide (count (netWires s' net) < 1)
                then netsToDelete ++ [net] else netsToDelete))
        (s, []) (_nets s).

(** [Scene::removeWire] (the graphics item list is not part of the model) *)
Definition removeWire (wire : WireId) (s : Scene) : option Scene :=
  connected ← wiresConnectedTo wire s;
  s1 ← forEach (disconnectFrom wire) connected s;
  let '(s2, netsToDelete) := removeFromNets wire s1 in
  Some (foldl (λ s net, removeWireNet net s) s2 netsToDelete).

(** *** Highlighting by net name *)

(** Names in the scenes given as examples are made of ASCII letters.  On
    such names Qt's comparison that ignores the case amounts to the
    comparison of the names with [A] to [Z] put in lower case. *)
Definition toLower (c : ascii) : ascii :=
  let n := nat_of_ascii c in
  if bool_decide (65 ≤ n ≤ 90)%nat then ascii_of_nat (n + 32) else c.

Fixpoint caseFolded (str : string) : string :=
  match str with
  | EmptyString => EmptyString
  | String c rest => String (toLower c) (caseFolded rest)
  end.

Definition sameNameAscii (a b : string) : bool :=
  bool_decide (caseFolded a = caseFolded b).

(** [QString::isEmpty] *)
Definition isEmpty (str : string) : bool := bool_decide (str = EmptyString).

Section HighlightByName.
(** [QString::compare(a, b, Qt::CaseInsensitive) == 0], the comparison of
    Qt that folds the case of the letters of Unicode.  It is a parameter
    of the model. *)
Variable sameNameCaseInsensitive : string → string → bool.

(** [Scene::nets(wireNet)]: the nets that carry a name and share it with
    [wireNet]. *)
Definition netsNamedLike (wireNet : NetId) (s : Scene) : list NetId :=
  List.filter (λ net, negb (isEmpty (_name (getNet s net)))
                      && sameNameCaseInsensitive (_name (getNet s net))
                                                 (_name (getNet s wireNet)))
              (_nets s).

(** [Scene::wireNetHighlightChanged], the slot connected to the signal
    [WireNet::highlightChanged] by [Scene::addWireNet]; [sender] is the
    emitting net and [setHighlighted] stands for [WireNet::setHighlighted],
    which the slot calls back. *)
Definition wireNetHighlightChanged_slot
    (setHighlighted : NetId → bool → Scene → option Scene)
    (sender : NetId) (highlighted : bool) (s : Scene) : option Scene :=
  let s := logHighlightSlot sender s in
  if contains (_nets s) sender then
    forEach (λ otherWireNet s,
               if bool_decide (otherWireNet = sender) then Some s
               else
                 let s := updNet otherWireNet (set_blocked true) s in
                 s ← setHighlighted otherWireNet highlighted s;
                 Some (updNet otherWireNet (set_blocked false) s))
            (netsNamedLike sender s) s
  else Some s.

(** Modelled from the spec: [WireNet::setHighlighted], "set_highlighted(b)
    (propagates to the label and to other nets sharing the same non-empty
    name)": it highlights the net's wires and label and emits
    [highlightChanged], which a net with blocked signals does not deliver.
    [fuel] bounds the depth of the nesting of signal and slot. *)
Fixpoint WireNet_setHighlighted (fuel : nat) (n : NetId) (highlighted : bool)
    (s : Scene) : option Scene :=
  match fuel with
  | O => None
  | S fuel' =>
      let s1 := updNet n (set_highlighted highlighted) s in
      if signalsBlocked (getNet s1 n) then Some s1
      else wireNetHighlightChanged_slot (WireNet_setHighlighted fuel') n highlighted s1
  end.

Definition wireNetHighlightChanged (fuel : nat) :=
  wireNetHighlightChanged_slot (WireNet_setHighlighted fuel).
End HighlightByName.

(** ** Edits that depend on the geometry of wires *)

Section Geometry.
(** [Wire::pointIsOnWire] and [Wire::simplify] live in wire.cpp, which is
    not among the sources; the scene's algorithms are stated for any
    implementation of them: any test of a point against the polyline of
    a wire, and any rewriting of a wire's points. *)
Variable pointOnPolyline : list Point → Point → bool.
Variable simplify : Wire → Wire.

(** [Wire::pointIsOnWire], a test on the wire's polyline in scene
    coordinates. *)
Definition pointIsOnWire (w : Wire) (p : Point) : bool :=
  pointOnPolyline (pointsAbsolute w) p.

(** *** [Scene::wirePointMovedByUser] *)

(** "Detach from connector" *)
Definition detachStaleConnector (rawWire : WireId) (index : Z) (now : Point)
    (n : Node) (c : Connector) : Connector :=
  match attachedWire c with
  | None => c
  | Some attached =>
      if bool_decide (attached ≠ rawWire) then c
      else if bool_decide (attachedWirepoint c = index) then
             if bool_decide (toPoint (scenePos n c) ≠ toPoint now)
             then detachWire c else c
           else c
  end.

(** "Attach to connector" *)
Definition attachToConnector (s : Scene) (rawWire : WireId) (point : WirePoint)
    (n : Node) (c : Connector) : Connector :=
  let wire := getWire s rawWire in
  if bool_decide (toPoint (scenePos n c)
                  = toPoint (point_add (wire_pos wire) (wp_pos point)))
  then attachWire (wireStore s) (Some rawWire)
                  (indexOf WirePoint_eqb (wirePointsRelative wire) point) c
  else c.

(** Whether a junction of [rawWire] other than "the point that moved"
    lies on [wire]: the inner loop of "Detach wires". *)
Definition anotherJunctionOn (s : Scene) (rawWire : WireId) (index : Z)
    (wire : WireId) : bool :=
  existsb (λ point,
             negb (bool_decide
                     (indexOf WirePoint_eqb
                              (wirePointsAbsolute (getWire s rawWire)) point = index))
             && pointIsOnWire (getWire s wire) (wp_pos point))
          (junctions (getWire s rawWire)).

Definition isEndpoint (s : Scene) (rawWire : WireId) (index : Z) : bool :=
  bool_decide (index = 0)
  || bool_decide (index = count (pointsAbsolute (getWire s rawWire)) - 1).

(** "Detach wires" *)
Definition detachWires (rawWire : WireId) (index : Z) (point : WirePoint)
    (s : Scene) : option Scene :=
  if isEndpoint s rawWire index then
    if isJunction point then
      forEach (λ wire s,
                 if bool_decide (wire = rawWire) then Some s
                 else if contains (connectedWires s wire) rawWire then
                        let shouldDisconnect :=
                          negb (anotherJunctionOn s rawWire index wire) in
                        s ← (if shouldDisconnect
                             then disconnectWire rawWire wire s else Some s);
                        Some (updWire rawWire (setPointIsJunction index false) s)
                      else Some s)
              (wires s) s
    else Some s
  else Some s.

(** "Attach point to wire if needed" *)
Definition attachWires (rawWire : WireId) (index : Z) (s : Scene) : option Scene :=
  if isEndpoint s rawWire index then
    forEach (λ wire s,
               if bool_decide (wire = rawWire) then Some s
               else
                 p ← at_ (wirePointsAbsolute (getWire s rawWire)) index;
                 if pointIsOnWire (getWire s wire) (wp_pos p) then
                   if negb (contains (connectedWires s rawWire) wire) then
                     connectWire wire rawWire
                       (updWire rawWire (setPointIsJunction index true) s)
                   else Some s
                 else Some s)
            (wires s) s
  else Some s.

(** The two loops over the connectors: "Detach from connector", then
    "Attach to connector".  [now] is [rawWire.pointsAbsolute().at(index)]. *)
Definition updateConnectors (rawWire : WireId) (index : Z) (point : WirePoint)
    (now : Point) (s : Scene) : Scene :=
  let s := mapConnectors (detachStaleConnector rawWire index now) s in
  mapConnectors (attachToConnector s rawWire point) s.

Definition wirePointMovedByUser (rawWire : WireId) (index : Z) (s : Scene)
    : option Scene :=
  point ← at_ (wirePointsRelative (getWire s rawWire)) index;
  now ← at_ (pointsAbsolute (getWire s rawWire)) index;
  let s := updateConnectors rawWire index point now s in
  s ← detachWires rawWire index point s;
  attachWires rawWire index s.

(** *** [Scene::from_container]: the passes that follow the
    instantiation of nodes and nets *)

(** "Attach the wires to the nodes": the body for one wire and one
    connector, with its [break] at the first point that is close.  A
    connector need not lie at a whole-number position: the positions of
    this pass are given in [1/unit] of a scene unit. *)
Definition attachOnLoad (unit : Z) (s : Scene) (wire : WireId) (n : Node)
    (c : Connector) : Connector :=
  let points := wirePointsAbsolute (getWire s wire) in
  match List.find (λ point, closerThan unit (scenePos n c) (wp_pos point)) points with
  | Some point =>
      attachWire (wireStore s) (Some wire) (indexOf WirePoint_eqb points point) c
  | None => c
  end.

Definition attachWiresToNodes (unit : Z) (s : Scene) : Scene :=
  foldl (λ s wire, mapConnectors (attachOnLoad unit s wire) s) s (wires s).

(** "Find junctions" *)
Definition findJunctions (s : Scene) : option Scene :=
  forEach (λ wire s,
    forEach (λ otherWire s,
      if bool_decide (wire = otherWire) then Some s
      else
        first ← head (wirePointsAbsolute (getWire s otherWire));
        s ← (if pointIsOnWire (getWire s wire) (wp_pos first)
             then s ← connectWire wire otherWire s;
                  Some (updWire otherWire (setPointIsJunction 0 true) s)
             else Some s);
        final ← last (wirePointsAbsolute (getWire s otherWire));
        if pointIsOnWire (getWire s wire) (wp_pos final)
        then s ← connectWire wire otherWire s;
             Some (updWire otherWire
                     (setPointIsJunction
                        (count (wirePointsAbsolute (getWire s otherWire)) - 1) true) s)
        else Some s)
      (wires s) s)
    (wires s) s.

(** The two passes of [from_container], on the scene as instantiated
    from the container. *)
Definition from_container_passes (unit : Z) (s : Scene) : option Scene :=
  findJunctions (attachWiresToNodes unit s).

(** *** Drawing a wire with the mouse ([WireMode]) *)

(** Modelled from the spec: pushing [CommandItemAdd(this, _newWire)] on
    the undo stack (commands/commanditemadd.cpp is not among the
    sources), which runs the command at once; for a wire it commits it
    "via 4.6.1 Add wire", that is [Scene::addWire]. *)
Definition pushCommandItemAdd (wire : WireId) (s : Scene) : Scene :=
  addWire wire s.

(** [mk_sh<Wire>()] *)
Definition newWireObject : Wire :=
  {| wire_pos := (0, 0); _points := []; _connectedWires := [];
     _net := None; wire_selectable := false |}.

(** "Start a new wire if there isn't already one." *)
Definition startNewWire (snappedPos : Point) (s : Scene) : Scene :=
  match _newWire s with
  | Some _ => s
  | None =>
      let w := fresh (dom (wireStore s)) in
      let s := upd_wireStore (λ m, <[w := newWireObject]> m) s in
      let s := set_newWire (Some w) s in
      let s := pushCommandItemAdd w s in
      updWire w (set_wire_pos snappedPos) s
  end.

(** "Attach point to connector if needed": the loop over the connectors
    of one node, with its [break]. *)
Fixpoint attachFirstCloseConnector (s : Scene) (newWire : WireId)
    (snappedPos : Point) (n : Node) (cs : list Connector) : list Connector :=
  match cs with
  | [] => []
  | c :: cs' =>
      if closerThanOne (scenePos n c) snappedPos
      then attachWire (wireStore s) (Some newWire)
             (indexOf (λ a b : Point, bool_decide (a = b))
                      (pointsAbsolute (getWire s newWire)) snappedPos) c :: cs'
      else c :: attachFirstCloseConnector s newWire snappedPos n cs'
  end.

(** [Scene::mousePressEvent], case [WireMode], left button; the event
    carries the position already snapped to the grid. *)
Definition mousePressEvent_WireMode (snappedPos : Point) (s : Scene) : option Scene :=
  let s := startNewWire snappedPos s in
  newWire ← _newWire s;
  let s := updWire newWire (appendPoint snappedPos) s in
  let s := set_newWireSegment true s in
  let s := upd_nodes
             (fmap (λ n, {| node_pos := node_pos n;
                            node_connectors :=
                              attachFirstCloseConnector s newWire snappedPos n
                                (node_connectors n) |})) s in
  if bool_decide (count (pointsAbsolute (getWire s newWire)) = 1) then
    first ← head (pointsAbsolute (getWire s newWire));
    match List.find (λ wire, negb (bool_decide (wire = newWire))
                             && pointIsOnWire (getWire s wire) first) (wires s) with
    | Some wire =>
        s ← connectWire wire newWire s;
        Some (updWire newWire (setPointIsJunction 0 true) s)
    | None => Some s
    end
  else Some s.

(** "Attach point to wire if needed" in [mouseDoubleClickEvent]: the
    scene after the loop, and whether the wire is still floating. *)
Definition attachLastPoint (newWire : WireId) (floating : bool) (s : Scene)
    : option (Scene * bool) :=
  forEach (λ wire '(s, floating),
             if bool_decide (wire = newWire) then Some (s, floating)
             else
               final ← last (pointsAbsolute (getWire s newWire));
               if pointIsOnWire (getWire s wire) final then
                 s ← connectWire wire newWire s;
                 Some (updWire newWire
                         (setPointIsJunction
                            (count (pointsAbsolute (getWire s newWire)) - 1) true) s,
                       false)
               else Some (s, floating))
          (wires s) (s, floating).

(** [Scene::mouseDoubleClickEvent], case [WireMode] *)
Definition mouseDoubleClickEvent_WireMode (s : Scene) : option Scene :=
  match _newWire s with
  | Some newWire =>
      if bool_decide (1 < count (wirePointsRelative (getWire s newWire))) then
        let s := updWire newWire removeLastPoint s in
        final ← last (pointsAbsolute (getWire s newWire));
        let wireIsFloating :=
          negb (existsb (λ connectionPoint, bool_decide (connectionPoint = final))
                        (connectionPoints s)) in
        '(s, wireIsFloating) ← attachLastPoint newWire wireIsFloating s;
        if (wireIsFloating : bool) then
          Some (updWire newWire removeLastPoint (showMessageBox s))
        else
          Some (set_newWire None
                  (updWire newWire (λ w, simplify (set_selectable true w)) s))
      else Some s
  | None => Some s
  end.

(** [Scene::mouseDoubleClickEvent]; in [NormalMode] the event goes to
    [QGraphicsScene], which does not touch the model. *)
Definition mouseDoubleClickEvent (s : Scene) : option Scene :=
  match _mode s with
  | NormalMode => Some s
  | WireMode => mouseDoubleClickEvent_WireMode s
  end.
End Geometry.

(** ** The geometry of section 4.1, for concrete scenes *)

(** Modelled from the spec: [point_on_segment(a, b, p)], "the grid
    Euclidean distance from p to segment ab must be < 1", computed on
    squares of distances. *)
Definition pointOnSegment (a b p : Point) : bool :=
  let d := point_sub b a in
  let v := point_sub p a in
  let dot := d.1 * v.1 + d.2 * v.2 in
  if bool_decide (dot ≤ 0) then bool_decide (lengthSquared v < 1)
  else if bool_decide (lengthSquared d ≤ dot)
       then bool_decide (lengthSquared (point_sub p b) < 1)
       else let cross := d.1 * v.2 - d.2 * v.1 in
            bool_decide (cross * cross < lengthSquared d).

(** Modelled from the spec: the test behind [Wire::pointIsOnWire], "true
    iff P lies on some ... segment" of the polyline. *)
Fixpoint pointOnPolyline (points : list Point) (p : Point) : bool :=
  match points with
  | a :: rest =>
      match rest with
      | b :: _ => pointOnSegment a b p || pointOnPolyline rest p
      | [] => false
      end
  | [] => false
  end.

Definition collinear (a b c : Point) : bool :=
  bool_decide ((b.1 - a.1) * (c.2 - a.2) = (b.2 - a.2) * (c.1 - a.1)).

Fixpoint dropDuplicates (points : list WirePoint) : list WirePoint :=
  match points with
  | a :: rest =>
      match rest with
      | b :: _ => if WirePoint_eqb a b then dropDuplicates rest
                  else a :: dropDuplicates rest
      | [] => [a]
      end
  | [] => []
  end.

Fixpoint dropCollinear (prev : WirePoint) (points : list WirePoint) : list WirePoint :=
  match points with
  | p :: rest =>
      match rest with
      | next :: _ =>
          if collinear (wp_pos prev) (wp_pos p) (wp_pos next) && negb (isJunction p)
          then dropCollinear prev rest
          else p :: dropCollinear p rest
      | [] => [p]
      end
  | [] => []
  end.

(** Modelled from the spec: [Wire::simplify], which "removes duplicate and
    collinear interior points; preserves endpoints and any interior
    junction points". *)
Definition simplify (w : Wire) : Wire :=
  set_points (λ l, match dropDuplicates l with
                   | a :: rest => a :: dropCollinear a rest
                   | [] => []
                   end) w.

(** ** Auxiliary notions used in the statements *)

(** A net once highlighting has reached it through the slot: highlighted
    as asked, signals delivered again. *)
Definition reachedByHighlight (highlighted : bool) (n : WireNet) : WireNet :=
  {| _wires := _wires n; _name := _name n; net_highlighted := highlighted;
     signalsBlocked := false |}.

(** The nets the slot propagates to: those of the scene that carry a name
    equal, case aside, to the sender's. *)
Definition sharesName (sameNameCaseInsensitive : string → string → bool)
    (s : Scene) (sender m : NetId) : Prop :=
  m ∈ _nets s
  ∧ _name (getNet s m) ≠ EmptyString
  ∧ sameNameCaseInsensitive (_name (getNet s m)) (_name (getNet s sender)) = true.

#[global] Instance sharesName_dec same s sender m : Decision (sharesName same s sender m).
Proof. unfold sharesName. apply _. Defined.

(** The connector [c] is bound to wire [w] at index [k], the first point
    of [w] that is less than one unit away from [position]. *)
Definition boundToFirstClose (unit : Z) (s : Scene) (position : Point) (c : Connector)
    (w : WireId) (k : nat) : Prop :=
  _wire c = Some w
  ∧ _wirePointIndex c = Z.of_nat k
  ∧ (∃ p, wirePointsAbsolute (getWire s w) !! k = Some p
          ∧ closerThan unit position (wp_pos p) = true)
  ∧ ∀ j q, (j < k)%nat → wirePointsAbsolute (getWire s w) !! j = Some q →
           closerThan unit position (wp_pos q) = false.

(** Some point of wire [w] is less than one unit away from [position]. *)
Definition hasPointCloseTo (unit : Z) (s : Scene) (position : Point) (w : WireId)
    : Prop :=
  ∃ p, p ∈ wirePointsAbsolute (getWire s w)
       ∧ closerThan unit position (wp_pos p) = true.

(** [unit] is a power of two up to 2^12. *)
Definition binaryUnit (unit : Z) : Prop := ∃ k, 0 ≤ k ≤ 12 ∧ unit = 2 ^ k.

(** A position, in [1/unit] of a scene unit, within the range of [int]. *)
Definition inSceneRange (unit : Z) (p : Point) : Prop :=
  Z.abs p.1 ≤ 2 ^ 31 * unit ∧ Z.abs p.2 ≤ 2 ^ 31 * unit.

(** A whole-number position, in [1/unit] of a scene unit. *)
Definition wholePosition (unit : Z) (p : Point) : Prop :=
  (unit | p.1) ∧ (unit | p.2).

(** The points of the wires of the scene lie at whole-number positions
    within the range of [int]. *)
Definition wiresOnWholePositions (unit : Z) (s : Scene) : Prop :=
  ∀ v q, v ∈ wires s → q ∈ wirePointsAbsolute (getWire s v) →
         wholePosition unit (wp_pos q) ∧ inSceneRange unit (wp_pos q).

(** One step along a connection, in either direction, to a wire of the
    list [net_wires]. *)
Definition linked (s : Scene) (net_wires : list WireId) (a b : WireId) : Prop :=
  b ∈ net_wires ∧ adjacent s a b.

(** [b] is reachable from [a] through the symmetric closure of the
    connected-wires relation, by a chain of wires of [net_wires]. *)
Definition reachableIn (s : Scene) (net_wires : list WireId) : relation WireId :=
  rtc (linked s net_wires).

(** The wires of the net [N] that the list [C] has not collected yet. *)
Definition uncollected (N C : list WireId) : gset nat :=
  list_to_set N ∖ list_to_set C.

(** The invariants of the data model (section 3) that concern nets: the
    list of nets has no duplicates and only allocated nets; a net lists no
    wire twice; a wire's back reference is the net that lists it (so no
    two nets share a wire); what a wire of a net records lies in the same
    net; a connection is recorded in one direction only; and the wires of
    a net form one connected component. *)
Record wellFormed (s : Scene) : Prop := {
  wf_nets_nodup : NoDup (_nets s);
  wf_nets_alloc : ∀ n, n ∈ _nets s → n ∈ dom (netStore s);
  wf_wires_nodup : ∀ n, n ∈ _nets s → NoDup (netWires s n);
  wf_backref : ∀ n w, n ∈ _nets s → w ∈ netWires s n →
                      _net (getWire s w) = Some n;
  wf_within : ∀ n w v, n ∈ _nets s → w ∈ netWires s n →
                       v ∈ connectedWires s w → v ∈ netWires s n;
  wf_directional : ∀ w v, w ∈ wires s → v ∈ connectedWires s w →
                          w ∉ connectedWires s v;
  wf_connected : ∀ n a b, n ∈ _nets s → a ∈ netWires s n → b ∈ netWires s n →
                          reachableIn s (netWires s n) a b
}.

(** Two wires are listed by one net of the scene. *)
Definition sameNet (s : Scene) (a b : WireId) : Prop :=
  ∃ n, n ∈ _nets s ∧ a ∈ netWires s n ∧ b ∈ netWires s n.

(** The scene [t] is [s] with the record of [a] dropped from [b]; the
    nets are those of [s]. *)
Record edgeRemoved (s t : Scene) (a b : WireId) : Prop := {
  er_conn : ∀ x, connectedWires t x
                 = if decide (x = b) then removeAll a (connectedWires s b)
                   else connectedWires s x;
  er_nets : _nets t = _nets s;
  er_netWires : ∀ m, netWires t m = netWires s m;
  er_net : ∀ x, _net (getWire t x) = _net (getWire s x);
  er_dom : dom (netStore t) = dom (netStore s)
}.

(** The scene [u] is [t] with the wires of net [n] that are not in [l]
    moved to the new net [n']. *)
Record netSplit (s t u : Scene) (n n' : NetId) (l : list WireId) : Prop := {
  sp_conn : ∀ x, connectedWires u x = connectedWires t x;
  sp_nets : _nets u = _nets s ++ [n'];
  sp_old : netWires u n = filter (λ w, w ∈ l) (netWires s n);
  sp_new : netWires u n' = filter (λ w, w ∉ l) (netWires s n);
  sp_other : ∀ m, m ≠ n → m ≠ n' → netWires u m = netWires s m;
  sp_net : ∀ v, _net (getWire u v)
                = if decide (v ∈ netWires s n ∧ v ∉ l) then Some n'
                  else _net (getWire s v);
  sp_dom : n' ∈ dom (netStore u) ∧ dom (netStore s) ⊆ dom (netStore u)
}.

(** [b] is reachable from [a] by connections between wires of the scene,
    followed in either direction. *)
Definition connectedInScene (s : Scene) : relation WireId :=
  rtc (λ a b, b ∈ wires s ∧ adjacent s a b).

(** While [removeWire] disconnects the wire [W] of net [N] from the wires
    [P] it has gone through: the scene is well formed and has the wires
    of [s]; [W] has dropped the wires of [P] and the wires of [P] have
    dropped [W]; the nets other than [N] are untouched. *)
Record removing (s : Scene) (W : WireId) (N : NetId) (P : list WireId)
    (t : Scene) : Prop := {
  rm_wf : wellFormed t;
  rm_wires : ∀ x, x ∈ wires t ↔ x ∈ wires s;
  rm_own : connectedWires t W = filter (λ y, y ∉ P) (connectedWires s W);
  rm_other : ∀ x, x ≠ W →
                  connectedWires t x
                  = if decide (x ∈ P) then removeAll W (connectedWires s x)
                    else connectedWires s x;
  rm_nets : ∀ m, m ∈ _nets s → m ≠ N →
                 m ∈ _nets t ∧ netWires t m = netWires s m
}.

(** Where the points of a wire are is not touched by the bookkeeping of
    nets and connections. *)
Definition sameShape (s t : Scene) : Prop :=
  ∀ v, _points (getWire t v) = _points (getWire s v)
       ∧ wire_pos (getWire t v) = wire_pos (getWire s v).

(** What the loop of [attachWires] keeps, from the scene [s] it starts on:
    the polylines, the set of the moved wire [W], the wires of the scene,
    and that a record is an old one or a record of [W] on a wire that
    holds the point [p]. *)
Record attaching (onPolyline : list Point → Point → bool) (s : Scene)
    (W : WireId) (p : Point) (t : Scene) : Prop := {
  at_shape : ∀ v, pointsAbsolute (getWire t v) = pointsAbsolute (getWire s v);
  at_own : connectedWires t W = connectedWires s W;
  at_wires : ∀ x, x ∈ wires t ↔ x ∈ wires s;
  at_origin : ∀ X v, v ∈ connectedWires t X →
                v ∈ connectedWires s X
                ∨ (v = W ∧ X ≠ W ∧ pointIsOnWire onPolyline (getWire s X) p = true)
}.

(** The junction of [W] on the wire [X] is formed: [X] records [W] and
    the point of [W] is flagged. *)
Definition junctionFormed (W : WireId) (i : Z) (X : WireId) (t : Scene) : Prop :=
  W ∈ connectedWires t X
  ∧ isJunction <$> at_ (wirePointsAbsolute (getWire t W)) i = Some true.

(** An end of the wire [v] (its first or its last point) lies on the
    wire [X]. *)
Definition endsOn (onPolyline : list Point → Point → bool) (s : Scene)
    (v X : WireId) : Prop :=
  ∃ e, (head (pointsAbsolute (getWire s v)) = Some e
        ∨ last (pointsAbsolute (getWire s v)) = Some e)
       ∧ pointIsOnWire onPolyline (getWire s X) e = true.

(** Every record of [s] is a record of [t]. *)
Definition grows (s t : Scene) : Prop :=
  ∀ X v, v ∈ connectedWires s X → v ∈ connectedWires t X.

(** What the loops of [findJunctions] keep, from the scene [s] they start
    on: the polylines, the wires of the scene, and that a record is an
    old one or the record of a wire with an end on the recording wire. *)
Record loading (onPolyline : list Point → Point → bool) (s t : Scene) : Prop := {
  ld_shape : ∀ v, pointsAbsolute (getWire t v) = pointsAbsolute (getWire s v);
  ld_wires : ∀ x, x ∈ wires t ↔ x ∈ wires s;
  ld_origin : ∀ X v, v ∈ connectedWires t X →
                v ∈ connectedWires s X
                ∨ (v ≠ X ∧ v ∈ wires s ∧ endsOn onPolyline s v X)
}.

(** ** Scenes used as examples *)

Definition emptyScene : Scene :=
  {| wireStore := ∅; netStore := ∅; _nets := []; nodes := [];
     _mode := NormalMode; _newWire := None; _newWireSegment := false;
     messageBoxes := 0; highlightSlotCalls := [] |}.

(** A wire at the origin of the scene with the given points, none of them
    a junction, connected to nothing. *)
Definition plainWire (points : list Point) (net : NetId) : Wire :=
  {| wire_pos := (0, 0); _points := (λ p, mkWirePoint p false) <$> points;
     _connectedWires := []; _net := Some net; wire_selectable := true |}.

Definition netOf (ws : list WireId) (name : string) : WireNet :=
  {| _wires := ws; _name := name; net_highlighted := false;
     signalsBlocked := false |}.

Definition sceneOf (ws : list (nat * Wire)) (ns : list (nat * WireNet))
    (nets : list NetId) (nds : list Node) : Scene :=
  {| wireStore := list_to_map ws; netStore := list_to_map ns; _nets := nets;
     nodes := nds; _mode := NormalMode; _newWire := None;
     _newWireSegment := false; messageBoxes := 0; highlightSlotCalls := [] |}.

(** Scenario S1 before the junction is found: wire 0 from (0,0) to (100,0)
    and wire 1 from (50,0) to (50,100), each in a net of its own. *)
Definition sceneS1 : Scene :=
  sceneOf [(0%nat, plainWire [(0, 0); (100, 0)] 0);
           (1%nat, plainWire [(50, 0); (50, 100)] 1)]
          [(0%nat, netOf [0%nat] ""); (1%nat, netOf [1%nat] "")]
          [0%nat; 1%nat] [].

(** Scenario S6 with two more nets: nets 0 and 1 are named "VCC" and
    "vcc", net 2 has no name, net 3 is named "GND". *)
Definition sceneS6 : Scene :=
  sceneOf []
          [(0%nat, netOf [] "VCC"); (1%nat, netOf [] "vcc");
           (2%nat, netOf [] ""); (3%nat, netOf [] "GND")]
          [0%nat; 1%nat; 2%nat; 3%nat] [].

(** A wire being drawn, in [WireMode]: wire 0 with the points (0,0),
    (100,0) and the provisional point (100,50), alone in the scene. *)
Definition sceneDrawing : Scene :=
  set_mode WireMode
    (set_newWire (Some 0%nat)
       (sceneOf [(0%nat, plainWire [(0, 0); (100, 0); (100, 50)] 0)]
                [(0%nat, netOf [0%nat] "")] [0%nat] [])).

(** Scenario S4 up to the double click: in [WireMode], on the empty
    scene, the mouse is pressed at (0,0) and at (100,0). *)
Definition sceneS4 : option Scene :=
  s ← mousePressEvent_WireMode pointOnPolyline (0, 0) (set_mode WireMode emptyScene);
  mousePressEvent_WireMode pointOnPolyline (100, 0) s.

(** Scenario S3 as instantiated from the container: a node at (0,0) with
    one connector at local (0,0), not bound yet, and wire 0 whose point 0
    is (0,0). *)
Definition sceneS3 : Scene :=
  sceneOf [(0%nat, plainWire [(0, 0); (100, 0)] 0)]
          [(0%nat, netOf [0%nat] "")] [0%nat]
          [{| node_pos := (0, 0); node_connectors := [newConnector (0, 0)] |}].

(** A scene given in halves of a scene unit: the connector of the node
    lies at (0.5, 0), half a unit away from point 0 of wire 0, which runs
    from (0,0) to (10,0). *)
Definition sceneConnectorBetween : Scene :=
  sceneOf [(0%nat, plainWire [(0, 0); (20, 0)] 0)]
          [(0%nat, netOf [0%nat] "")] [0%nat]
          [{| node_pos := (0, 0); node_connectors := [newConnector (1, 0)] |}].

(** The same node with two wires that both start at (0,0). *)
Definition sceneTwoWiresAtConnector : Scene :=
  sceneOf [(0%nat, plainWire [(0, 0); (100, 0)] 0);
           (1%nat, plainWire [(0, 0); (0, 100)] 1)]
          [(0%nat, netOf [0%nat] ""); (1%nat, netOf [1%nat] "")]
          [0%nat; 1%nat]
          [{| node_pos := (0, 0); node_connectors := [newConnector (0, 0)] |}].

(** A connector at (0,0) bound to point 0 of wire 1, and wire 0, whose
    point 0 the user has just put at (0,0) as well. *)
Definition sceneBoundElsewhere : Scene :=
  sceneOf [(0%nat, plainWire [(0, 0); (100, 0)] 0);
           (1%nat, plainWire [(0, 0); (0, 100)] 1)]
          [(0%nat, netOf [0%nat] ""); (1%nat, netOf [1%nat] "")]
          [0%nat; 1%nat]
          [{| node_pos := (0, 0);
              node_connectors :=
                [{| conn_pos := (0, 0); _wire := Some 1%nat; _wirePointIndex := 0 |}] |}].

(** A connector at (0,0), not bound, and a second connector at (30,0)
    still bound to point 0 of wire 0, which the user has moved from (30,0)
    to (0,0). *)
Definition scenePointMoved : Scene :=
  sceneOf [(0%nat, plainWire [(0, 0); (100, 0)] 0)]
          [(0%nat, netOf [0%nat] "")] [0%nat]
          [{| node_pos := (0, 0);
              node_connectors :=
                [newConnector (0, 0);
                 {| conn_pos := (30, 0); _wire := Some 0%nat; _wirePointIndex := 0 |}] |}].

(** A wire at the origin of the scene with the given wire points and
    connected wires. *)
Definition wireWith (points : list WirePoint) (connected : list WireId)
    (net : NetId) : Wire :=
  {| wire_pos := (0, 0); _points := points; _connectedWires := connected;
     _net := Some net; wire_selectable := true |}.

(** Scenario S1 once the junction is formed: wire 1 stands with its
    point 0, a junction, on wire 0; wire 0 records wire 1; one net. *)
Definition sceneS1Joined : Scene :=
  sceneOf [(0%nat, wireWith [mkWirePoint (0, 0) false; mkWirePoint (100, 0) false]
                            [1%nat] 0);
           (1%nat, wireWith [mkWirePoint (50, 0) true; mkWirePoint (50, 100) false]
                            [] 0)]
          [(0%nat, netOf [0%nat; 1%nat] "")] [0%nat] [].

(** Wire 1 stands with both its ends on wire 0: its point 2 is a junction
    at (50,0), and the user has just moved its point 0, a junction that
    was at (30,0), to (50,0) as well. *)
Definition sceneBothEndsOnHost : Scene :=
  sceneOf [(0%nat, wireWith [mkWirePoint (0, 0) false; mkWirePoint (100, 0) false]
                            [1%nat] 0);
           (1%nat, wireWith [mkWirePoint (50, 0) true; mkWirePoint (50, 50) false;
                             mkWirePoint (50, 0) true]
                            [] 0)]
          [(0%nat, netOf [0%nat; 1%nat] "")] [0%nat] [].

(** Wire 0 from (0,0) to (100,0) with two wires standing on it, wire 1
    at (30,0) and wire 2 at (60,0); wire 0 records both; one net. *)
Definition sceneTwoOnHost : Scene :=
  sceneOf [(0%nat, wireWith [mkWirePoint (0, 0) false; mkWirePoint (100, 0) false]
                            [1%nat; 2%nat] 0);
           (1%nat, wireWith [mkWirePoint (30, 0) true; mkWirePoint (30, 50) false]
                            [] 0);
           (2%nat, wireWith [mkWirePoint (60, 0) true; mkWirePoint (60, 50) false]
                            [] 0)]
          [(0%nat, netOf [0%nat; 1%nat; 2%nat] "")] [0%nat] [].

(** Three wires of one net as a saved scene holds them.  Wire 0 runs from
    (0,0) to (100,0); wires 1 and 2 each start on wire 0 and, further on,
    pass over an end of wire 0; wires 1 and 2 do not touch each other. *)
Definition sceneCrossed : Scene :=
  sceneOf [(0%nat, plainWire [(0, 0); (100, 0)] 0);
           (1%nat, plainWire [(50, 0); (50, -50); (0, -50); (0, 50)] 0);
           (2%nat, plainWire [(70, 0); (70, -60); (100, -60); (100, 50)] 0)]
          [(0%nat, netOf [0%nat; 1%nat; 2%nat] "")] [0%nat] [].

(** ** More of the scene *)

(** [Scene::net(wire)]: the first net of [_nets] that lists the wire, or
    [nullptr]. *)
Definition net (wire : WireId) (s : Scene) : option NetId :=
  List.find (λ n, existsb (λ w, bool_decide (w = wire)) (netWires s n)) (_nets s).

#[global] Instance Mode_eq_dec : EqDecision Mode.
Proof. solve_decision. Defined.

Section ModeSwitch.
Variable simplify : Wire → Wire.

(** [Scene::setMode]: leaving [WireMode] simplifies the wire being drawn,
    if there is one, and resets [_newWire]. *)
Definition setMode (mode : Mode) (s : Scene) : Scene :=
  if bool_decide (mode = _mode s) then s
  else
    let s := match _mode s with
             | WireMode =>
                 let s := match _newWire s with
                          | Some newWire => updWire newWire simplify s
                          | None => s
                          end in
                 set_newWire None s
             | NormalMode => s
             end in
    set_mode mode s.

(** [Scene::mouseReleaseEvent], case [WireMode]: the right button leaves
    the mode when [QGraphicsScene::items(event->scenePos())] is empty. *)
Definition mouseReleaseEvent_WireMode (rightButton nothingBelowCursor : bool)
    (s : Scene) : Scene :=
  if rightButton then
    if nothingBelowCursor then setMode NormalMode s else s
  else s.
End ModeSwitch.

(** ** More notions used in the statements *)

(** The scene [t] has the nodes and the state of the interaction (mode,
    wire being drawn, messages shown) of the scene [s]. *)
Definition sameSession (s t : Scene) : Prop :=
  nodes t = nodes s ∧ _mode t = _mode s ∧ _newWire t = _newWire s
  ∧ _newWireSegment t = _newWireSegment s ∧ messageBoxes t = messageBoxes s.

(** The point [i] of the wire [W] carries the junction flag. *)
Definition flagged (W : WireId) (i : Z) (t : Scene) : Prop :=
  isJunction <$> at_ (wirePointsAbsolute (getWire t W)) i = Some true.

(** What the loop "Attach point to wire if needed" of
    [mouseDoubleClickEvent] keeps, from the scene [s] it starts on, for
    the wire being drawn [W] with its last point at [p]. *)
Record finishing (onPolyline : list Point → Point → bool) (s : Scene)
    (W : WireId) (p : Point) (st : Scene * bool) : Prop := {
  fin_shape : ∀ v, pointsAbsolute (getWire st.1 v) = pointsAbsolute (getWire s v);
  fin_own : connectedWires st.1 W = connectedWires s W;
  fin_wires : ∀ x, x ∈ wires st.1 ↔ x ∈ wires s;
  fin_origin : ∀ X v, v ∈ connectedWires st.1 X →
                 v ∈ connectedWires s X
                 ∨ (v = W ∧ X ≠ W ∧ pointIsOnWire onPolyline (getWire s X) p = true);
  fin_session : sameSession s st.1
}.

(** How the loop moves on: records and shared nets are kept, the flag
    [wireIsFloating] stays false once it is, the junction flag stays. *)
Definition joining (W : WireId) (i : Z) (st st' : Scene * bool) : Prop :=
  grows st.1 st'.1
  ∧ (st.2 = false → st'.2 = false)
  ∧ (∀ x y, sameNet st.1 x y → sameNet st'.1 x y)
  ∧ (flagged W i st.1 → flagged W i st'.1).

(** ** More scenes used as examples *)

(** In [WireMode], wire 1 is being drawn from (50,50); its last fixed
    point (50,0) lies on wire 0, and (60,0) is the provisional point. *)
Definition sceneDrawingOnto : Scene :=
  set_mode WireMode
    (set_newWire (Some 1%nat)
       (sceneOf [(0%nat, plainWire [(0, 0); (100, 0)] 0);
                 (1%nat, plainWire [(50, 50); (50, 0); (60, 0)] 1)]
                [(0%nat, netOf [0%nat] ""); (1%nat, netOf [1%nat] "")]
                [0%nat; 1%nat] [])).

(** ** Binding the connectors of a node that was moved *)

(** A pointer to a connector: the index of its node in [nodes()] and its
    index among the connectors of the node. *)
Definition ConnectorId : Type := nat * nat.

Definition connectorAt (s : Scene) (id : ConnectorId) : option Connector :=
  n ← nodes s !! id.1; node_connectors n !! id.2.

(** [Scene::connectors()], each connector with the pointer to it. *)
Definition connectors (s : Scene) : list (ConnectorId * Connector) :=
  mjoin (imap (λ ni n, imap (λ ci c, ((ni, ci), c)) (node_connectors n)) (nodes s)).

(** Writing through the pointer to a connector. *)
Definition setConnector (id : ConnectorId) (c : Connector) (s : Scene) : Scene :=
  upd_nodes (alter (λ n, {| node_pos := node_pos n;
                            node_connectors := <[id.2 := c]> (node_connectors n) |})
                   id.1) s.

(** The loop "Check if it isn't already connected to another connector"
    of [Scene::updateNodeConnections]. *)
Definition alreadyConnected (s : Scene) (connector : ConnectorId) (wire : WireId)
    (index : Z) : bool :=
  existsb (λ '(otherConnector, c),
             negb (bool_decide (otherConnector = connector))
             && (bool_decide (attachedWire c = Some wire)
                 && bool_decide (attachedWirepoint c = index)))
          (connectors s).

(** The index that [updateNodeConnections] tries on a wire for a
    connector at [pos]: 0 when the first point is there, else the last
    index when the last point is there, else -1.  The positions are
    compared after [toPoint()]. *)
Definition endpointIndex (points : list WirePoint) (first final : WirePoint)
    (pos : Point) : Z :=
  if bool_decide (toPoint (wp_pos first) = toPoint pos) then 0
  else if bool_decide (toPoint (wp_pos final) = toPoint pos) then count points - 1
       else -1.

(** The body of the loop over the wires in [updateNodeConnections], for
    the connector [connector] and the wire [wire]. *)
Definition connectEndpoint (connector : ConnectorId) (wire : WireId) (s : Scene)
    : option Scene :=
  n ← nodes s !! connector.1;
  c ← node_connectors n !! connector.2;
  let points := wirePointsAbsolute (getWire s wire) in
  first ← head points;
  final ← last points;
  let index := endpointIndex points first final (scenePos n c) in
  if bool_decide (index ≠ -1) then
    point ← at_ points index;
    if isJunction point then Some s
    else if alreadyConnected s connector wire index then Some s
         else Some (setConnector connector
                      (attachWire (wireStore s) (Some wire) index c) s)
  else Some s.

(** The body of the loop over the connectors of the node. *)
Definition updateConnector (connector : ConnectorId) (s : Scene) : option Scene :=
  c ← connectorAt s connector;
  if bool_decide (attachedWire c ≠ None) then Some s
  else forEach (connectEndpoint connector) (wires s) s.

(** [Scene::updateNodeConnections(node)], for the node at index [ni] of
    [nodes()]. *)
Definition updateNodeConnections (ni : nat) (s : Scene) : option Scene :=
  n ← nodes s !! ni;
  forEach (λ ci s, updateConnector (ni, ci) s)
          (seq 0 (length (node_connectors n))) s.

(** The origin and the points of the wire lie within the range of
    [int]. *)
Definition wireInIntRange (w : Wire) : Prop :=
  ∀ q, q ∈ _points w → placedInIntRange (wire_pos w) (wp_pos q).

(** The node and its connectors lie within the range of [int]. *)
Definition nodeInIntRange (n : Node) : Prop :=
  ∀ c, c ∈ node_connectors n → placedInIntRange (node_pos n) (conn_pos c).

(** The scene position of the connector behind a pointer. *)
Definition connectorPos (s : Scene) (id : ConnectorId) : option Point :=
  n ← nodes s !! id.1; c ← node_connectors n !! id.2; Some (scenePos n c).

(** Another connector than [id] is bound to the point [i] of the wire
    [w]. *)
Definition heldByOther (s : Scene) (id : ConnectorId) (w : WireId) (i : Z) : Prop :=
  ∃ id' c', id' ≠ id ∧ connectorAt s id' = Some c'
            ∧ attachedWire c' = Some w ∧ attachedWirepoint c' = i.

(** The connector [c'] is bound as [updateNodeConnections] binds a
    connector at [pos]: to an end of the wire [w] of the scene that lies
    at [pos] and is no junction. *)
Definition boundToFreeEnd (s : Scene) (pos : Point) (w : WireId) (c' : Connector)
    : Prop :=
  ∃ pt, attachedWire c' = Some w ∧ w ∈ wires s
    ∧ (attachedWirepoint c' = 0
       ∨ attachedWirepoint c' = count (wirePointsAbsolute (getWire s w)) - 1)
    ∧ at_ (wirePointsAbsolute (getWire s w)) (attachedWirepoint c') = Some pt
    ∧ wp_pos pt = pos ∧ isJunction pt = false.

(** What [updateNodeConnections] on the node [ni] keeps, from the scene
    [s] it starts on: wires and nets, the other nodes, the places of the
    connectors; a connector keeps its binding, or it was not bound, is a
    connector of the node and is now bound to a free end at its place
    that no other connector holds. *)
Record rebinding (s : Scene) (ni : nat) (t : Scene) : Prop := {
  rb_wires : wireStore t = wireStore s;
  rb_netStore : netStore t = netStore s;
  rb_nets : _nets t = _nets s;
  rb_nodes : ∀ nj, nj ≠ ni → nodes t !! nj = nodes s !! nj;
  rb_pos : ∀ id, connectorPos t id = connectorPos s id;
  rb_conn : ∀ id c, connectorAt s id = Some c →
              ∃ c', connectorAt t id = Some c' ∧ conn_pos c' = conn_pos c
                ∧ (c' = c
                   ∨ (id.1 = ni ∧ attachedWire c = None
                      ∧ ∃ pos w, connectorPos s id = Some pos
                                 ∧ boundToFreeEnd s pos w c'
                                 ∧ ¬ heldByOther t id w (attachedWirepoint c')))
}.

(** How the loop over the wires moves on, for the connector [id]: the
    other connectors are not touched, the connector stays bound once it
    is, and is not touched as long as it is not bound. *)
Definition tryingWires (id : ConnectorId) (t t' : Scene) : Prop :=
  (∀ id', id' ≠ id → connectorAt t' id' = connectorAt t id')
  ∧ (∀ c, connectorAt t id = Some c → attachedWire c ≠ None →
          ∃ c', connectorAt t' id = Some c' ∧ attachedWire c' ≠ None)
  ∧ (∀ c', connectorAt t' id = Some c' → attachedWire c' = None →
           connectorAt t id = Some c').

(** How the loop over the connectors moves on: a bound connector is not
    touched, and a connector that is not bound was not touched. *)
Definition keepsBindings (t t' : Scene) : Prop :=
  (∀ id c, connectorAt t id = Some c → attachedWire c ≠ None →
           connectorAt t' id = Some c)
  ∧ (∀ id c', connectorAt t' id = Some c' → attachedWire c' = None →
              connectorAt t id = Some c').

(** For the wire [w], the connector [id] at [pos] had nothing to bind to:
    the end of [w] that is tried, if any, is a junction or held by
    another connector. *)
Definition nothingToBind (s : Scene) (id : ConnectorId) (pos : Point) (w : WireId)
    (t : Scene) : Prop :=
  ∀ first final i,
    head (wirePointsAbsolute (getWire s w)) = Some first →
    last (wirePointsAbsolute (getWire s w)) = Some final →
    endpointIndex (wirePointsAbsolute (getWire s w)) first final pos = i →
    i ≠ -1 →
    (∃ pt, at_ (wirePointsAbsolute (getWire s w)) i = Some pt ∧ isJunction pt = true)
    ∨ heldByOther t id w i.

(** A node at the origin with three connectors, none bound: two at
    (100,0) and one at (50,50).  Wire 0 ends at (100,0); wire 1 starts
    there with a junction. *)
Definition sceneNodeMoved : Scene :=
  sceneOf [(0%nat, wireWith [mkWirePoint (0, 0) false; mkWirePoint (100, 0) false]
                            [1%nat] 0);
           (1%nat, wireWith [mkWirePoint (100, 0) true; mkWirePoint (100, 50) false]
                            [] 0)]
          [(0%nat, netOf [0%nat; 1%nat] "")] [0%nat]
          [{| node_pos := (0, 0);
              node_connectors := [newConnector (100, 0); newConnector (50, 50);
                                  newConnector (100, 0)] |}].


(** *** Notions for the passes of [wirePointMovedByUser] over the wires *)

(** What the passes "Detach wires" and "Attach point to wire if needed"
    keep while they rewire the wire [W], from the scene [s] they start
    on: the invariants of the nets, the wires of the scene and their
    polylines, the points of the other wires, the set of [W], and every
    record of a wire other than [W]. *)
Record moving (W : WireId) (s t : Scene) : Prop := {
  mv_wf : wellFormed t;
  mv_wires : ∀ x, x ∈ wires t ↔ x ∈ wires s;
  mv_shape : ∀ v, pointsAbsolute (getWire t v) = pointsAbsolute (getWire s v);
  mv_flags : ∀ v, v ≠ W →
               wirePointsAbsolute (getWire t v) = wirePointsAbsolute (getWire s v);
  mv_own : connectedWires t W = connectedWires s W;
  mv_other : ∀ x v, v ≠ W → v ∈ connectedWires t x ↔ v ∈ connectedWires s x
}.

(** A junction of [W] other than its point [i] lies on the wire [X]. *)
Definition otherJunctionOn (onPolyline : list Point → Point → bool) (s : Scene)
    (W : WireId) (i : Z) (X : WireId) : Prop :=
  ∃ j q, j ≠ i ∧ at_ (wirePointsAbsolute (getWire s W)) j = Some q
         ∧ isJunction q = true
         ∧ pointIsOnWire onPolyline (getWire s X) (wp_pos q) = true.

(** The point [i] of [W] has lost the junction flag. *)
Definition unflagged (W : WireId) (i : Z) (t : Scene) : Prop :=
  isJunction <$> at_ (wirePointsAbsolute (getWire t W)) i = Some false.

(** While "Detach wires" runs for the point [i] of [W]: the points of
    [W] other than [i] are as they were, no record has appeared, and a
    wire has dropped its record of [W] only where no other junction of
    [W] lies on it, the point [i] being unflagged by then; when no wire
    recorded [W], the flags of [W] are as they were. *)
Record detaching (onPolyline : list Point → Point → bool) (W : WireId) (i : Z)
    (s t : Scene) : Prop := {
  dt_moving : moving W s t;
  dt_points : ∀ j, j ≠ i →
                at_ (wirePointsAbsolute (getWire t W)) j
                = at_ (wirePointsAbsolute (getWire s W)) j;
  dt_noadd : ∀ X v, v ∈ connectedWires t X → v ∈ connectedWires s X;
  dt_dropped : ∀ X, W ∈ connectedWires s X → W ∉ connectedWires t X →
                 ¬ otherJunctionOn onPolyline s W i X ∧ unflagged W i t;
  dt_unrecorded : (∀ X, X ∈ wires s → X ≠ W → W ∉ connectedWires s X) →
                  wirePointsAbsolute (getWire t W) = wirePointsAbsolute (getWire s W)
}.

(** What "Detach wires" has settled for the wire [X] that recorded [W]. *)
Definition detachedWhereDue (onPolyline : list Point → Point → bool) (W : WireId)
    (i : Z) (s : Scene) (X : WireId) (t : Scene) : Prop :=
  X ≠ W → W ∈ connectedWires s X →
  (W ∈ connectedWires t X ↔ otherJunctionOn onPolyline s W i X)
  ∧ unflagged W i t.

(** Scenario [sceneTwoOnHost] after the user has dragged point 0 of
    wire 1 off wire 0, from (30,0) to (30,20). *)
Definition sceneGuestMoved : Scene :=
  updWire 1 (movePointBy 0 (0, 20)) sceneTwoOnHost.

(** *** [Scene::renderCachedBackground]: the points of the grid *)

(** The inner loop [for (qreal y = top; y < rect.bottom(); y += gridSize)]
    for the column [x]: the points it appends.  The loop variables are
    [qreal]s that hold integers; they are integers here.  [None] when the
    loop has not come to its end within [fuel] turns. *)
Fixpoint gridColumn (fuel : nat) (x y bottom gridSize : Z) : option (list Point) :=
  match fuel with
  | O => None
  | S fuel' =>
      if bool_decide (y < bottom) then
        rest ← gridColumn fuel' x (y + gridSize) bottom gridSize;
        Some ((x, y) :: rest)
      else Some []
  end.

(** The outer loop [for (qreal x = left; x < rect.right(); x += gridSize)]. *)
Fixpoint gridColumns (fuel inner : nat) (x right top bottom gridSize : Z)
    : option (list Point) :=
  match fuel with
  | O => None
  | S fuel' =>
      if bool_decide (x < right) then
        column ← gridColumn inner x top bottom gridSize;
        rest ← gridColumns fuel' inner (x + gridSize) right top bottom gridSize;
        Some (column ++ rest)
      else Some []
  end.

(** [QRect::isValid]; [renderCachedBackground] returns before it draws
    when the rectangle of the scene is null or not valid, and a null
    rectangle is not valid. *)
Definition rectIsValid (rectLeft rectTop rectRight rectBottom : Z) : Prop :=
  rectLeft ≤ rectRight ∧ rectTop ≤ rectBottom.

(** "Draw the grid if supposed to": the list [points] that is handed to
    [drawPoints], for the rectangle with the given [left()], [top()],
    [right()] and [bottom()].  [%] on [int]s is the remainder of the
    division that truncates, [Z.rem]. *)
Definition gridPoints (fuel : nat) (showGrid : bool) (gridSize : Z)
    (rectLeft rectTop rectRight rectBottom : Z) : option (list Point) :=
  if showGrid && bool_decide (gridSize > 0) then
    let left := rectLeft - Z.rem rectLeft gridSize in
    let top := rectTop - Z.rem rectTop gridSize in
    gridColumns fuel fuel left rectRight top rectBottom gridSize
  else Some [].

(** *** [Scene::netsAt] *)

Section NetsAt.
(** [WireNet::lineSegments] and [Line::containsPoint], which are not
    among the sources. *)
Variable lineSegments : Scene → NetId → list (Point * Point).
Variable containsPoint : Point * Point → Point → bool.

Definition netsAt (point : Point) (s : Scene) : list NetId :=
  foldl (λ list net,
           foldl (λ list line,
                    if containsPoint line point && negb (contains list net)
                    then list ++ [net] else list)
                 list (lineSegments s net))
        [] (_nets s).
End NetsAt.

(** *** [Scene::mouseReleaseEvent], case [NormalMode]: a dragged wire *)

Section WireDragged.
Variable pointOnPolyline : list Point → Point → bool.

(** The loop [for (int i = 0; i < wire->wirePointsRelative().count(); i++)]
    that calls [wirePointMovedByUser] for the point [i] of the wire, the
    bound read anew at every turn.  [None] when the loop has not come to
    its end within [fuel] turns. *)
Fixpoint movedPoints (fuel : nat) (wire : WireId) (i : Z) (s : Scene) : option Scene :=
  match fuel with
  | O => None
  | S fuel' =>
      if bool_decide (i < count (wirePointsRelative (getWire s wire))) then
        s ← wirePointMovedByUser pointOnPolyline wire i s;
        movedPoints fuel' wire (i + 1) s
      else Some s
  end.

(** What the handler does for a selected wire that is not moving one of
    its points and is no longer at its initial position: the two ends of
    every wire it records are taken as moved by the user (the loop runs
    over the list that [connectedWires()] has returned), then every
    point of the wire itself. *)
Definition mouseReleaseEvent_wireMoved (fuel : nat) (wire : WireId) (s : Scene)
    : option Scene :=
  s ← forEach (λ otherWire s,
                 s ← wirePointMovedByUser pointOnPolyline otherWire 0 s;
                 wirePointMovedByUser pointOnPolyline otherWire
                   (count (wirePointsRelative (getWire s otherWire)) - 1) s)
              (connectedWires s wire) s;
  movedPoints fuel wire 0 s.
End WireDragged.

(** The nets of [t] are well formed, over the wires of [s], which lie
    where they lay. *)
Record rewired (s t : Scene) : Prop := {
  rw_wf : wellFormed t;
  rw_wires : ∀ x, x ∈ wires t ↔ x ∈ wires s;
  rw_shape : ∀ v, pointsAbsolute (getWire t v) = pointsAbsolute (getWire s v)
}.

(** * Properties *)

(** ** Reading the stores after an update *)

Section StoreLemmas.
Implicit Types (s : Scene) (w v : WireId) (n m : NetId).

Lemma getWire_updWire_eq s w f : getWire (updWire w f s) w = f (getWire s w).
Proof. unfold getWire, updWire; simpl. by rewrite lookup_total_insert_eq. Qed.

Lemma getWire_updWire_ne s w v f : w ≠ v → getWire (updWire w f s) v = getWire s v.
Proof. intros. unfold getWire, updWire; simpl. by rewrite lookup_total_insert_ne. Qed.

Lemma getWire_updWire s w v f :
  getWire (updWire w f s) v = if decide (w = v) then f (getWire s v) else getWire s v.
Proof.
  destruct (decide (w = v)) as [->|]; [apply getWire_updWire_eq|by apply getWire_updWire_ne].
Qed.

Lemma getNet_updNet_eq s n f : getNet (updNet n f s) n = f (getNet s n).
Proof. unfold getNet, updNet; simpl. by rewrite lookup_total_insert_eq. Qed.

Lemma getNet_updNet_ne s n m f : n ≠ m → getNet (updNet n f s) m = getNet s m.
Proof. intros. unfold getNet, updNet; simpl. by rewrite lookup_total_insert_ne. Qed.

Lemma getNet_updNet s n m f :
  getNet (updNet n f s) m = if decide (n = m) then f (getNet s m) else getNet s m.
Proof.
  destruct (decide (n = m)) as [->|]; [apply getNet_updNet_eq|by apply getNet_updNet_ne].
Qed.

Lemma getNet_updWire s w f m : getNet (updWire w f s) m = getNet s m.
Proof. done. Qed.

Lemma getWire_updNet s n f v : getWire (updNet n f s) v = getWire s v.
Proof. done. Qed.

Lemma netWires_addWire s n w m :
  netWires (WireNet_addWire n w s) m
  = if decide (n = m) then netWires s m ++ [w] else netWires s m.
Proof.
  unfold netWires, WireNet_addWire. rewrite getNet_updWire, getNet_updNet.
  by destruct (decide (n = m)).
Qed.

Lemma netWires_removeWire s n w m :
  netWires (WireNet_removeWire n w s) m
  = if decide (n = m) then removeAll w (netWires s m) else netWires s m.
Proof.
  unfold netWires, WireNet_removeWire. rewrite getNet_updNet.
  by destruct (decide (n = m)).
Qed.

Lemma connectedWires_addWire s n w v :
  connectedWires (WireNet_addWire n w s) v = connectedWires s v.
Proof.
  unfold connectedWires, WireNet_addWire. rewrite getWire_updWire, getWire_updNet.
  by destruct (decide (w = v)).
Qed.

Lemma connectedWires_removeWire s n w v :
  connectedWires (WireNet_removeWire n w s) v = connectedWires s v.
Proof. done. Qed.

Lemma net_addWire s n w v :
  _net (getWire (WireNet_addWire n w s) v)
  = if decide (w = v) then Some n else _net (getWire s v).
Proof.
  unfold WireNet_addWire. rewrite getWire_updWire, getWire_updNet.
  by destruct (decide (w = v)).
Qed.

Lemma elem_of_removeAll (x y : nat) (l : list nat) :
  x ∈ removeAll y l ↔ x ∈ l ∧ x ≠ y.
Proof. unfold removeAll. rewrite list_elem_of_filter. tauto. Qed.

Lemma removeAll_notin (y : nat) (l : list nat) : y ∉ l → removeAll y l = l.
Proof.
  intros Hy. unfold removeAll. induction l as [|x l IH]; [done|].
  rewrite filter_cons. apply not_elem_of_cons in Hy as [Hne Hl].
  rewrite decide_True by done. by rewrite IH.
Qed.

Lemma elem_of_wires s w : w ∈ wires s ↔ ∃ n, n ∈ _nets s ∧ w ∈ netWires s n.
Proof.
  unfold wires. rewrite list_elem_of_bind. split.
  - intros (n & Hw & Hn). by exists n.
  - intros (n & Hn & Hw). by exists n.
Qed.

Lemma at_Some {A} (l : list A) (i : Z) (x : A) :
  at_ l i = Some x ↔ 0 ≤ i ∧ l !! Z.to_nat i = Some x.
Proof.
  unfold at_. case_bool_decide as Hi.
  - split; [by intros ?|by intros [_ ?]].
  - split; [done|by intros [? _]].
Qed.

Lemma at_count {A} (l : list A) : at_ l (count l) = None.
Proof.
  unfold at_, count. rewrite bool_decide_eq_true_2 by lia.
  rewrite Nat2Z.id. by apply lookup_ge_None.
Qed.
End StoreLemmas.

(** ** Connector mutators and out-of-range indices *)

(** The guard of [attachWire] reads the index the connector holds, not the
    one it is given: an unbound connector accepts any index. *)
Lemma attachWire_unbound ws w index p :
  attachWire ws (Some w) index (newConnector p)
  = {| conn_pos := p; _wire := Some w; _wirePointIndex := index |}.
Proof.
  unfold attachWire, newConnector, _wirePointIndex, conn_pos.
  rewrite (bool_decide_eq_false_2 (-1 < -1)) by lia.
  rewrite bool_decide_eq_false_2; [done|]. unfold count. lia.
Qed.

(** C7 (the code departs from it): a connector mutator given an index
    outside the wire's point list is not a no-op.  For every wire and every
    index, in range or not, [attachWire] on an unbound connector installs
    the binding; and with the index one past the last point, or -1,
    [moveWirePoint] passes its guard and reads the point vector out of
    range. *)
Theorem connector_index_guard_misses (ws : gmap nat Wire) (w : WireId)
    (p : Point) (n : Node) (index : Z) :
  let c := attachWire ws (Some w) index (newConnector p) in
  let one_past := count (wirePointsRelative (ws !!! w)) in
  (_wire c = Some w ∧ _wirePointIndex c = index)
  ∧ moveWirePoint ws n (attachWire ws (Some w) one_past (newConnector p)) = None
  ∧ moveWirePoint ws n (attachWire ws (Some w) (-1) (newConnector p)) = None.
Proof.
  cbv zeta. rewrite !attachWire_unbound. split; [done|]. split.
  - unfold moveWirePoint, _wire, _wirePointIndex.
    rewrite bool_decide_eq_false_2 by (unfold count; lia).
    rewrite bool_decide_eq_false_2 by lia.
    by rewrite at_count.
  - unfold moveWirePoint, _wire, _wirePointIndex.
    rewrite (bool_decide_eq_false_2 (-1 < -1)) by lia.
    rewrite bool_decide_eq_false_2 by (unfold count; lia). done.
Qed.

(** The same on a wire with the two points (0,0) and (10,0): index 2 is
    bound, and moving the node's connector then reads point 2. *)
Example connector_index_guard_misses_at_2 :
  let wire := {| wire_pos := (0, 0);
                 _points := [mkWirePoint (0, 0) false; mkWirePoint (10, 0) false];
                 _connectedWires := []; _net := None; wire_selectable := true |} in
  let ws : gmap nat Wire := {[ 0%nat := wire ]} in
  let c := attachWire ws (Some 0%nat) 2 (newConnector (0, 0)) in
  c = {| conn_pos := (0, 0); _wire := Some 0%nat; _wirePointIndex := 2 |}
  ∧ moveWirePoint ws {| node_pos := (0, 0); node_connectors := [c] |} c = None.
Proof. vm_compute. done. Qed.

(** ** Loops *)

Lemma forEach_invariant {A S : Type} (P : S → Prop) (f : A → S → option S)
    (l : list A) (s s' : S) :
  (∀ x t t', x ∈ l → f x t = Some t' → P t → P t') →
  P s → forEach f l s = Some s' → P s'.
Proof.
  revert s. induction l as [|x l IH]; intros s Hstep Hs Hrun; simpl in Hrun.
  - by injection Hrun as <-.
  - destruct (f x s) as [t|] eqn:Hf; [|done]. simpl in Hrun.
    apply (IH t); [|by eapply Hstep; [left|..]|done].
    intros y u u' Hy. apply Hstep. by right.
Qed.

Lemma forEach_app {A S : Type} (f : A → S → option S) (l1 l2 : list A) (s : S) :
  forEach f (l1 ++ l2) s = forEach f l1 s ≫= forEach f l2.
Proof.
  revert s. induction l1 as [|x l1 IH]; intros s; simpl; [done|].
  destruct (f x s); simpl; [apply IH|done].
Qed.

Lemma filter_all {A} (P : A → Prop) `{∀ x, Decision (P x)} (l : list A) :
  (∀ x, x ∈ l → P x) → filter P l = l.
Proof.
  induction l as [|x l IH]; intros Hall; [done|].
  rewrite filter_cons_True by (apply Hall; by left).
  f_equal. apply IH. intros y Hy. apply Hall. by right.
Qed.

Lemma filter_none {A} (P : A → Prop) `{∀ x, Decision (P x)} (l : list A) :
  (∀ x, x ∈ l → ¬ P x) → filter P l = [].
Proof.
  induction l as [|x l IH]; intros Hnone; [done|].
  rewrite filter_cons_False by (apply Hnone; by left).
  apply IH. intros y Hy. apply Hnone. by right.
Qed.

(** ** Merging nets *)

Section Merge.
Implicit Types (s : Scene) (a b : NetId).

(** The loop of [mergeNets] over the wires [l] of the other net. *)
Lemma mergeNets_loop a b (l : list WireId) s :
  a ≠ b →
  ∃ s', forEach (λ wire s,
                   Some (WireNet_removeWire b wire (WireNet_addWire a wire s))) l s
        = Some s'
    ∧ netWires s' a = netWires s a ++ l
    ∧ netWires s' b = filter (λ w, w ∉ l) (netWires s b)
    ∧ (∀ m, m ≠ a → m ≠ b → getNet s' m = getNet s m)
    ∧ (∀ v, _net (getWire s' v)
            = if decide (v ∈ l) then Some a else _net (getWire s v))
    ∧ (∀ v, connectedWires s' v = connectedWires s v)
    ∧ _nets s' = _nets s ∧ nodes s' = nodes s.
Proof.
  intros Hab. revert s. induction l as [|x l IH]; intros s.
  - exists s. simpl. split_and!; try done.
    + by rewrite app_nil_r.
    + symmetry. apply filter_all. intros w _. apply not_elem_of_nil.
  - simpl. set (s1 := WireNet_removeWire b x (WireNet_addWire a x s)).
    destruct (IH s1) as (s' & Hrun & Ha & Hb & Hm & Hnet & Hconn & Hnets & Hnodes).
    exists s'. split; [done|]. split_and!.
    + rewrite Ha. unfold s1. rewrite netWires_removeWire, netWires_addWire.
      rewrite decide_False by done. rewrite decide_True by done.
      by rewrite <- app_assoc.
    + rewrite Hb. unfold s1. rewrite netWires_removeWire, netWires_addWire.
      rewrite decide_True by done. rewrite decide_False by done.
      unfold removeAll. rewrite list_filter_filter. apply list_filter_iff.
      intros w. rewrite not_elem_of_cons. tauto.
    + intros m Hma Hmb. rewrite (Hm m Hma Hmb). unfold s1, WireNet_removeWire.
      rewrite getNet_updNet_ne by done. unfold WireNet_addWire.
      rewrite getNet_updWire. by rewrite getNet_updNet_ne.
    + intros v. rewrite Hnet. unfold s1.
      change (_net (getWire (WireNet_removeWire b x (WireNet_addWire a x s)) v))
        with (_net (getWire (WireNet_addWire a x s) v)).
      rewrite net_addWire.
      destruct (decide (v ∈ l)) as [Hv|Hv].
      * rewrite decide_True; [done|by right].
      * destruct (decide (x = v)) as [->|Hxv].
        -- rewrite decide_True; [done|by left].
        -- rewrite decide_False; [done|].
           rewrite not_elem_of_cons. by split; [congruence|].
    + intros v. rewrite Hconn. unfold s1.
      by rewrite connectedWires_removeWire, connectedWires_addWire.
    + by rewrite Hnets.
    + by rewrite Hnodes.
Qed.

Lemma mergeNets_same (net : option NetId) s : mergeNets net net s = Some (false, s).
Proof. unfold mergeNets. by rewrite bool_decide_eq_true_2. Qed.

Lemma mergeNets_distinct a b s :
  a ≠ b →
  ∃ s', mergeNets (Some a) (Some b) s = Some (true, s')
    ∧ netWires s' a = netWires s a ++ netWires s b
    ∧ netWires s' b = []
    ∧ (∀ m, m ≠ a → m ≠ b → getNet s' m = getNet s m)
    ∧ (∀ v, _net (getWire s' v)
            = if decide (v ∈ netWires s b) then Some a else _net (getWire s v))
    ∧ (∀ v, connectedWires s' v = connectedWires s v)
    ∧ _nets s' = _nets s ∧ nodes s' = nodes s.
Proof.
  intros Hab. unfold mergeNets.
  rewrite bool_decide_eq_false_2 by congruence.
  destruct (mergeNets_loop a b (netWires s b) s Hab)
    as (s' & Hrun & Ha & Hb & Hrest).
  exists s'. simpl. rewrite Hrun. simpl. split_and!; try done; try apply Hrest.
  rewrite Hb. apply filter_none. intros w Hw Hn. by apply Hn.
Qed.

(** [mergeNets] never touches the sets of connected wires. *)
Lemma mergeNets_connectedWires net otherNet s r s' :
  mergeNets net otherNet s = Some (r, s') →
  ∀ v, connectedWires s' v = connectedWires s v.
Proof.
  unfold mergeNets. case_bool_decide; [by intros [= <- <-]|].
  destruct otherNet as [o|]; [simpl|done].
  destruct (forEach _ _ s) as [t|] eqn:Hrun; [simpl|done].
  intros [= <- <-].
  revert Hrun. apply (forEach_invariant (λ t, ∀ v, connectedWires t v = connectedWires s v)); [|done].
  intros x u u' _ Hstep Hu v. destruct net as [n|]; [|done]. simpl in Hstep.
  injection Hstep as <-.
  by rewrite connectedWires_removeWire, connectedWires_addWire.
Qed.
End Merge.

(** C5: merging a net with itself returns false and changes nothing;
    merging net [a] with a different net [b] returns true, moves every
    wire of [b] to the end of [a] (re-pointing the wire's net), leaves [b]
    without wires, and [connectWire], on the true result, discards [b]
    from the scene's list of nets. *)
Theorem mergeNets_moves_wires_and_discards (s : Scene) (a b : NetId)
    (wire rawWire : WireId) :
  a ≠ b →
  netFromWire wire s = Some a →
  netFromWire rawWire s = Some b →
  mergeNets (Some a) (Some a) s = Some (false, s)
  ∧ (∃ s', mergeNets (Some a) (Some b) s = Some (true, s')
       ∧ netWires s' a = netWires s a ++ netWires s b
       ∧ netWires s' b = []
       ∧ (∀ w, w ∈ netWires s b → _net (getWire s' w) = Some a)
       ∧ _nets s' = _nets s)
  ∧ (∃ s'', connectWire wire rawWire s = Some s''
       ∧ _nets s'' = removeAll b (_nets s)
       ∧ (b ∉ _nets s'')
       ∧ netWires s'' a = netWires s a ++ netWires s b
       ∧ netWires s'' b = []).
Proof.
  intros Hab Hwire Hraw. split; [apply mergeNets_same|]. split.
  - destruct (mergeNets_distinct a b s Hab)
      as (s' & Hrun & Ha & Hb & _ & Hnet & _ & Hnets & _).
    exists s'. split_and!; try done.
    intros w Hw. rewrite Hnet. by rewrite decide_True.
  - unfold connectWire.
    set (s1 := updWire wire (Wire_connectWire rawWire) s).
    change (netFromWire wire s1) with (netFromWire wire s).
    change (netFromWire rawWire s1) with (netFromWire rawWire s).
    rewrite Hwire, Hraw.
    destruct (mergeNets_distinct a b s1 Hab)
      as (s' & Hrun & Ha & Hb & _ & _ & _ & Hnets & _).
    rewrite Hrun. simpl. eexists. split; [done|].
    split_and!.
    + simpl. by rewrite Hnets.
    + simpl. rewrite elem_of_removeAll. by intros [_ ?].
    + exact Ha.
    + exact Hb.
Qed.

(** ** The direction of a connection *)

(** [connectWire wire rawWire] records [rawWire] in the set of [wire] and
    changes the set of no other wire. *)
Lemma connectWire_connectedWires wire rawWire s s' :
  connectWire wire rawWire s = Some s' →
  rawWire ∈ connectedWires s' wire
  ∧ ∀ v, v ≠ wire → connectedWires s' v = connectedWires s v.
Proof.
  unfold connectWire.
  set (s1 := updWire wire (Wire_connectWire rawWire) s).
  destruct (mergeNets _ _ s1) as [[merged s2]|] eqn:Hmerge; [simpl|done].
  assert (∀ v, connectedWires s2 v = connectedWires s1 v) as Hsame
    by (by eapply mergeNets_connectedWires).
  assert (rawWire ∈ connectedWires s1 wire) as Hin.
  { unfold s1, connectedWires. rewrite getWire_updWire_eq.
    unfold Wire_connectWire, contains. case_bool_decide as Hc; [done|].
    simpl. apply elem_of_app. right. by left. }
  assert (∀ v, v ≠ wire → connectedWires s1 v = connectedWires s v) as Hother.
  { intros v Hv. unfold s1, connectedWires. by rewrite getWire_updWire_ne. }
  intros Hs'.
  assert (∀ v, connectedWires s' v = connectedWires s2 v) as Hs2.
  { destruct merged; [|by injection Hs' as <-].
    destruct (netFromWire rawWire s1); [|done]. simpl in Hs'. by injection Hs' as <-. }
  split.
  - by rewrite Hs2, Hsame.
  - intros v Hv. by rewrite Hs2, Hsame, Hother.
Qed.

(** The hypotheses of [mergeNets_moves_wires_and_discards] hold in scenario
    S1, with wire 0 in net 0 and wire 1 in net 1. *)
Lemma mergeNets_moves_wires_and_discards_S1 :
  netWires sceneS1 0 = [0%nat] ∧ netWires sceneS1 1 = [1%nat]
  ∧ ∃ s'', connectWire 0 1 sceneS1 = Some s''
       ∧ _nets s'' = [0%nat] ∧ netWires s'' 0 = [0%nat; 1%nat]
       ∧ netWires s'' 1 = [].
Proof.
  split; [reflexivity|]. split; [reflexivity|].
  destruct (mergeNets_moves_wires_and_discards sceneS1 0 1 0 1)
    as (_ & _ & s'' & Hrun & Hnets & _ & Ha & Hb).
  - lia.
  - reflexivity.
  - reflexivity.
  - exists s''. split; [exact Hrun|]. split; [|split]; [|exact Ha|exact Hb].
    rewrite Hnets. reflexivity.
Defined.

(** ** Highlighting by net name *)

Section Highlight.
Variable sameNameCaseInsensitive : string → string → bool.
(** What the proofs need of Qt's comparison: a name that compares equal
    to the empty name is empty. *)
Hypothesis sameName_empty :
  ∀ a b, sameNameCaseInsensitive a b = true → (a = EmptyString ↔ b = EmptyString).
Implicit Types (s t : Scene) (n m k : NetId).

Lemma caseFolded_empty (str : string) : caseFolded str = EmptyString → str = EmptyString.
Proof. by destruct str. Qed.

Lemma reachedByHighlight_idemp b (x : WireNet) :
  reachedByHighlight b (reachedByHighlight b x) = reachedByHighlight b x.
Proof. done. Qed.

(** What the slot does to one other net: block, highlight, unblock.  The
    nested call of [setHighlighted] finds the signals blocked and returns
    without emitting. *)
Lemma slot_body fuel' b m t :
  (let t := updNet m (set_blocked true) t in
   u ← WireNet_setHighlighted sameNameCaseInsensitive (S fuel') m b t;
   Some (updNet m (set_blocked false) u))
  = Some (updNet m (reachedByHighlight b) t).
Proof.
  cbv zeta. cbn [WireNet_setHighlighted].
  rewrite getNet_updNet_eq. unfold set_highlighted at 1. cbn [signalsBlocked].
  rewrite getNet_updNet_eq. cbn [set_blocked signalsBlocked mbind option_bind].
  f_equal. unfold updNet, upd_netStore. cbn. f_equal.
  rewrite !lookup_total_insert_eq, !insert_insert_eq. done.
Qed.

Lemma slot_loop fuel' sender b (l : list NetId) t :
  ∃ t', forEach (λ otherWireNet s,
                   if bool_decide (otherWireNet = sender) then Some s
                   else
                     let s := updNet otherWireNet (set_blocked true) s in
                     s ← WireNet_setHighlighted sameNameCaseInsensitive (S fuel') otherWireNet b s;
                     Some (updNet otherWireNet (set_blocked false) s)) l t
        = Some t'
    ∧ (∀ k, getNet t' k = if decide (k ∈ l ∧ k ≠ sender)
                          then reachedByHighlight b (getNet t k) else getNet t k)
    ∧ wireStore t' = wireStore t ∧ _nets t' = _nets t ∧ nodes t' = nodes t
    ∧ highlightSlotCalls t' = highlightSlotCalls t.
Proof.
  revert t. induction l as [|x l IH]; intros t.
  - exists t. split; [done|]. split; [|done].
    intros k. rewrite decide_False; [done|]. intros [Hk _]. by apply elem_of_nil in Hk.
  - cbn [forEach]. case_bool_decide as Hx.
    + subst x. cbn [mbind option_bind].
      destruct (IH t) as (t' & Hrun & Hget & Hrest). exists t'.
      split; [done|]. split; [|done]. intros k. rewrite Hget.
      destruct (decide (k ∈ l ∧ k ≠ sender)) as [[Hk Hne]|Hk].
      * rewrite decide_True; [done|]. split; [by right|done].
      * rewrite decide_False; [done|]. intros [Hk' Hne]. apply Hk.
        apply elem_of_cons in Hk' as [->|Hk']; done.
    + rewrite slot_body. cbn [mbind option_bind].
      destruct (IH (updNet x (reachedByHighlight b) t))
        as (t' & Hrun & Hget & Hws & Hnets & Hnodes & Hlog).
      exists t'. split; [done|]. split; [|done].
      intros k. rewrite Hget, getNet_updNet.
      destruct (decide (x = k)) as [->|Hxk].
      * rewrite (decide_True (P := k ∈ k :: l ∧ k ≠ sender)) by (split; [by left|done]).
        by destruct (decide (k ∈ l ∧ k ≠ sender)).
      * destruct (decide (k ∈ l ∧ k ≠ sender)) as [[Hk Hne]|Hk].
        -- rewrite decide_True; [done|]. split; [by right|done].
        -- rewrite decide_False; [done|]. intros [Hk' Hne]. apply Hk.
           apply elem_of_cons in Hk' as [->|Hk']; done.
Qed.

Lemma elem_of_netsNamedLike s sender m :
  m ∈ netsNamedLike sameNameCaseInsensitive sender s ↔ sharesName sameNameCaseInsensitive s sender m.
Proof.
  unfold netsNamedLike, sharesName. rewrite list_elem_of_In, filter_In.
  rewrite <- list_elem_of_In, andb_true_iff, negb_true_iff.
  unfold isEmpty. rewrite bool_decide_eq_false. tauto.
Qed.

(** The whole of a call of [setHighlighted] on a net of the scene that
    delivers its signals. *)
Lemma setHighlighted_run (s : Scene) (n : NetId) (highlighted : bool) (fuel : nat) :
  n ∈ _nets s →
  signalsBlocked (getNet s n) = false →
  ∃ s', WireNet_setHighlighted sameNameCaseInsensitive (S (S fuel)) n highlighted s = Some s'
    ∧ (∀ k, getNet s' k
            = if decide (k = n) then set_highlighted highlighted (getNet s k)
              else if decide (sharesName sameNameCaseInsensitive s n k)
                   then reachedByHighlight highlighted (getNet s k)
                   else getNet s k)
    ∧ wireStore s' = wireStore s ∧ _nets s' = _nets s ∧ nodes s' = nodes s
    ∧ highlightSlotCalls s' = highlightSlotCalls s ++ [n].
Proof.
  intros Hn Hunblocked.
  set (s1 := updNet n (set_highlighted highlighted) s).
  assert (∀ k, _name (getNet s1 k) = _name (getNet s k)) as Hname.
  { intros k. unfold s1. rewrite getNet_updNet. by destruct (decide (n = k)). }
  assert (∀ k, sharesName sameNameCaseInsensitive (logHighlightSlot n s1) n k ↔ sharesName sameNameCaseInsensitive s n k) as Hshares.
  { intros k. unfold sharesName.
    change (getNet (logHighlightSlot n s1)) with (getNet s1).
    change (_nets (logHighlightSlot n s1)) with (_nets s).
    by rewrite !Hname. }
  destruct (slot_loop fuel n highlighted
              (netsNamedLike sameNameCaseInsensitive n (logHighlightSlot n s1)) (logHighlightSlot n s1))
    as (s' & Hrun & Hget & Hws & Hnets & Hnodes & Hlog).
  exists s'. split.
  - change (WireNet_setHighlighted sameNameCaseInsensitive (S (S fuel)) n highlighted s)
      with (if signalsBlocked (getNet s1 n) then Some s1
            else wireNetHighlightChanged_slot sameNameCaseInsensitive
                   (WireNet_setHighlighted sameNameCaseInsensitive (S fuel))
                   n highlighted s1).
    unfold s1 at 1. rewrite getNet_updNet_eq. cbn [set_highlighted signalsBlocked].
    rewrite Hunblocked. unfold wireNetHighlightChanged_slot.
    unfold contains. rewrite bool_decide_eq_true_2 by exact Hn.
    exact Hrun.
  - split; [|done]. intros k. rewrite Hget.
    change (getNet (logHighlightSlot n s1) k) with (getNet s1 k).
    assert (getNet s1 k = if decide (n = k) then set_highlighted highlighted (getNet s k)
                          else getNet s k) as -> by apply getNet_updNet.
    destruct (decide (k = n)) as [->|Hkn].
    + rewrite (decide_True (P := n = n)) by done.
      rewrite decide_False; [done|]. by intros [_ ?].
    + rewrite (decide_False (P := n = k)) by done.
      destruct (decide (sharesName sameNameCaseInsensitive s n k)) as [Hk|Hk].
      * rewrite decide_True; [done|]. split; [|done].
        apply elem_of_netsNamedLike. by apply Hshares.
      * rewrite decide_False; [done|]. intros [Hk' _]. apply Hk.
        apply Hshares. by apply elem_of_netsNamedLike.
Qed.

(** C8: highlighting a net of the scene that carries a name highlights
    every net of the scene whose name equals it case aside; the call
    returns within two nested levels of signal and slot, the slot having
    run exactly once (for the sender: it is not entered again); and a net
    without a name takes no part: when the sender has no name no other net
    changes, and a nameless net other than the sender never changes. *)
Theorem highlight_spreads_by_name_without_reentry (s : Scene) (n : NetId)
    (highlighted : bool) (fuel : nat) :
  n ∈ _nets s →
  signalsBlocked (getNet s n) = false →
  (2 ≤ fuel)%nat →
  ∃ s', WireNet_setHighlighted sameNameCaseInsensitive fuel n highlighted s = Some s'
    ∧ net_highlighted (getNet s' n) = highlighted
    ∧ (_name (getNet s n) ≠ EmptyString →
       ∀ m, m ∈ _nets s →
            sameNameCaseInsensitive (_name (getNet s m)) (_name (getNet s n)) = true →
            net_highlighted (getNet s' m) = highlighted)
    ∧ highlightSlotCalls s' = highlightSlotCalls s ++ [n]
    ∧ (_name (getNet s n) = EmptyString → ∀ m, m ≠ n → getNet s' m = getNet s m)
    ∧ (∀ m, m ≠ n → _name (getNet s m) = EmptyString → getNet s' m = getNet s m)
    ∧ (∀ m, m ≠ n →
            sameNameCaseInsensitive (_name (getNet s m)) (_name (getNet s n)) = false →
            getNet s' m = getNet s m).
Proof.
  intros Hn Hunblocked Hfuel.
  destruct fuel as [|[|fuel]]; [lia|lia|].
  destruct (setHighlighted_run s n highlighted fuel Hn Hunblocked)
    as (s' & Hrun & Hget & _ & _ & _ & Hlog).
  exists s'. split; [done|]. split_and!.
  - rewrite Hget. by rewrite decide_True.
  - intros Hnamed m Hm Hsame. rewrite Hget.
    destruct (decide (m = n)) as [->|Hmn]; [done|].
    rewrite decide_True; [done|]. split; [done|]. split; [|done].
    intros Hempty. apply Hnamed. by apply (sameName_empty _ _ Hsame).
  - done.
  - intros Hempty m Hmn. rewrite Hget. rewrite decide_False by done.
    rewrite decide_False; [done|]. intros (_ & Hnamed & Hsame).
    apply Hnamed. by apply (sameName_empty _ _ Hsame).
  - intros m Hmn Hempty. rewrite Hget. rewrite decide_False by done.
    rewrite decide_False; [done|]. by intros (_ & Hnamed & _).
  - intros m Hmn Hdiff. rewrite Hget. rewrite decide_False by done.
    rewrite decide_False; [done|]. intros (_ & _ & Hsame). congruence.
Qed.
End Highlight.

Lemma sameNameAscii_empty (a b : string) :
  sameNameAscii a b = true → (a = EmptyString ↔ b = EmptyString).
Proof.
  unfold sameNameAscii. intros Hsame%bool_decide_eq_true.
  split; intros ->; simpl in Hsame; apply caseFolded_empty; congruence.
Qed.

(** Scenario S6: highlighting the net named "VCC" highlights the net named
    "vcc" and leaves the nameless net and the net "GND" alone. *)
Lemma highlight_spreads_by_name_without_reentry_S6 :
  ∃ s', WireNet_setHighlighted sameNameAscii 2 0 true sceneS6 = Some s'
    ∧ net_highlighted (getNet s' 0) = true
    ∧ net_highlighted (getNet s' 1) = true
    ∧ highlightSlotCalls s' = [0%nat]
    ∧ getNet s' 2 = getNet sceneS6 2
    ∧ getNet s' 3 = getNet sceneS6 3.
Proof.
  destruct (highlight_spreads_by_name_without_reentry sameNameAscii sameNameAscii_empty
              sceneS6 0 true 2)
    as (s' & Hrun & H0 & Hsame & Hlog & _ & Hnameless & Hother).
  - vm_compute. by left.
  - reflexivity.
  - lia.
  - exists s'. split; [exact Hrun|]. split; [exact H0|]. split; [|split; [exact Hlog|split]].
    + apply Hsame; [done| |reflexivity]. vm_compute. right. by left.
    + apply Hnameless; [lia|reflexivity].
    + apply Hother; [lia|reflexivity].
Defined.

(** ** Finishing a wire that floats *)

Lemma forEach_unchanged {A S : Type} (f : A → S → option S) (l : list A) (s : S) :
  (∀ x, x ∈ l → f x s = Some s) → forEach f l s = Some s.
Proof.
  induction l as [|x l IH]; intros Hf; [done|]. simpl.
  rewrite Hf by (by left). simpl. apply IH. intros y Hy. apply Hf. by right.
Qed.

Lemma updWire_updWire (w : WireId) (f g : Wire → Wire) (s : Scene) :
  updWire w f (updWire w g s) = updWire w (λ x, f (g x)) s.
Proof.
  unfold updWire, upd_wireStore. simpl. f_equal.
  by rewrite lookup_total_insert_eq, insert_insert_eq.
Qed.

Section Floating.
Variable pointOnPolyline : list Point → Point → bool.
Variable simplify : Wire → Wire.

(** C1 as amended: a double click in [WireMode] that ends the wire being
    drawn on no connector and on no other wire shows the message to the
    user and does not finish the wire: no net is created or changed, no
    connector and no other wire changes, and the wire stays the wire being
    drawn.  The state does change in one place: the wire loses its
    provisional point and the point before it. *)
Theorem floating_wire_is_reported_and_cut_back (s : Scene) (newWire : WireId)
    (final : Point) :
  _mode s = WireMode →
  _newWire s = Some newWire →
  1 < count (wirePointsRelative (getWire s newWire)) →
  last (pointsAbsolute (removeLastPoint (getWire s newWire))) = Some final →
  final ∉ connectionPoints s →
  (∀ wire, wire ∈ wires s → wire ≠ newWire →
           pointIsOnWire pointOnPolyline (getWire s wire) final = false) →
  ∃ s', mouseDoubleClickEvent pointOnPolyline simplify s = Some s'
    ∧ s' = updWire newWire (λ w, removeLastPoint (removeLastPoint w)) (showMessageBox s)
    ∧ messageBoxes s' = S (messageBoxes s)
    ∧ _nets s' = _nets s ∧ netStore s' = netStore s ∧ nodes s' = nodes s
    ∧ _newWire s' = Some newWire
    ∧ (∀ w, w ≠ newWire → getWire s' w = getWire s w)
    ∧ getWire s' newWire = removeLastPoint (removeLastPoint (getWire s newWire))
    ∧ wire_selectable (getWire s' newWire) = wire_selectable (getWire s newWire).
Proof.
  intros Hmode Hnew Hcount Hlast Hconn Hwires.
  eexists. split; [|split; [reflexivity|]].
  - unfold mouseDoubleClickEvent, mouseDoubleClickEvent_WireMode.
    rewrite Hmode, Hnew. rewrite bool_decide_eq_true_2 by done.
    set (s1 := updWire newWire removeLastPoint s).
    assert (getWire s1 newWire = removeLastPoint (getWire s newWire)) as Hget
      by apply getWire_updWire_eq.
    rewrite Hget, Hlast. cbn [mbind option_bind].
    assert (existsb (λ connectionPoint, bool_decide (connectionPoint = final))
                    (connectionPoints s1) = false) as ->.
    { apply not_true_is_false. intros Hex. apply existsb_exists in Hex as (p & Hp & Heq).
      apply bool_decide_eq_true in Heq as ->. apply Hconn. by apply list_elem_of_In. }
    unfold attachLastPoint.
    rewrite forEach_unchanged.
    + cbn [mbind option_bind negb].
      change (showMessageBox s1)
        with (updWire newWire removeLastPoint (showMessageBox s)).
      by rewrite updWire_updWire.
    + intros wire Hwire. case_bool_decide as Hne; [done|].
      rewrite Hget, Hlast. cbn [mbind option_bind].
      unfold s1. rewrite getWire_updWire_ne by done.
      by rewrite Hwires.
  - split_and!; try done.
    + intros w Hw. rewrite getWire_updWire_ne by done. done.
    + by rewrite getWire_updWire_eq.
    + by rewrite getWire_updWire_eq.
Qed.
End Floating.

Lemma floating_wire_is_reported_and_cut_back_drawing :
  ∃ s', mouseDoubleClickEvent pointOnPolyline simplify sceneDrawing = Some s'
    ∧ messageBoxes s' = 1%nat
    ∧ _nets s' = [0%nat] ∧ _newWire s' = Some 0%nat
    ∧ pointsAbsolute (getWire s' 0) = [(0, 0)].
Proof.
  destruct (floating_wire_is_reported_and_cut_back pointOnPolyline simplify
              sceneDrawing 0 (100, 0))
    as (s' & Hrun & _ & Hmsg & Hnets & _ & _ & Hnew & _ & Hwire & _).
  - reflexivity.
  - reflexivity.
  - vm_compute. reflexivity.
  - reflexivity.
  - vm_compute. apply not_elem_of_nil.
  - intros wire Hwire Hne. vm_compute in Hwire.
    apply list_elem_of_singleton in Hwire. congruence.
  - exists s'. split; [exact Hrun|]. split; [exact Hmsg|]. split; [exact Hnets|].
    split; [exact Hnew|]. rewrite Hwire. reflexivity.
Defined.

(** C1 as stated fails: the double click that reports the floating wire
    changes the state.  Of the wire with the points (0,0), (100,0) and the
    provisional (100,50), only (0,0) is left: the wire is neither as it
    was before the double click nor as it was with the provisional point
    dropped. *)
Lemma floating_wire_report_changes_state :
  ∃ s', mouseDoubleClickEvent pointOnPolyline simplify sceneDrawing = Some s'
    ∧ messageBoxes s' = 1%nat
    ∧ s' ≠ showMessageBox sceneDrawing
    ∧ getWire s' 0 ≠ getWire sceneDrawing 0
    ∧ getWire s' 0 ≠ removeLastPoint (getWire sceneDrawing 0).
Proof.
  eexists. split; [vm_compute; reflexivity|]. split; [reflexivity|].
  split; [|split].
  - intros H. apply (f_equal (λ s, length (_points (getWire s 0)))) in H.
    vm_compute in H. discriminate.
  - intros H. apply (f_equal (λ w, length (_points w))) in H.
    vm_compute in H. discriminate.
  - intros H. apply (f_equal (λ w, length (_points w))) in H.
    vm_compute in H. discriminate.
Qed.

(** Scenario S4 from the empty scene: the first press of the mouse has
    put the wire into a net of its own; after the double click that is
    reported as floating the net and the wire are still there, the wire
    still being drawn and without any point. *)
Example scenario_S4_wire_stays_in_its_net :
  ∃ s s', sceneS4 = Some s
    ∧ _nets s = [0%nat] ∧ netWires s 0 = [0%nat]
    ∧ pointsAbsolute (getWire s 0) = [(0, 0); (100, 0)]
    ∧ mouseDoubleClickEvent pointOnPolyline simplify s = Some s'
    ∧ messageBoxes s' = 1%nat
    ∧ _nets s' = [0%nat] ∧ netWires s' 0 = [0%nat] ∧ _newWire s' = Some 0%nat
    ∧ pointsAbsolute (getWire s' 0) = [].
Proof.
  eexists. eexists. split; [vm_compute; reflexivity|].
  repeat (split; [vm_compute; reflexivity|]). vm_compute; reflexivity.
Qed.

(** ** Attaching connectors when a scene is loaded *)

Section Load.
Variable unit : Z.
Implicit Types (s t : Scene) (n : Node) (c : Connector) (w : WireId).

(** [List.find] returns the first element that passes the test. *)
Lemma find_first {A} (P : A → bool) (l : list A) (x : A) :
  List.find P l = Some x →
  ∃ k, l !! k = Some x ∧ P x = true
       ∧ ∀ j y, (j < k)%nat → l !! j = Some y → P y = false.
Proof.
  induction l as [|y l IH]; [done|]. simpl.
  destruct (P y) eqn:Hy.
  - intros [= <-]. exists 0%nat. split_and!; [done|done|]. intros j z Hj. lia.
  - intros Hfind. destruct (IH Hfind) as (k & Hk & Hx & Hmin).
    exists (S k). split_and!; [done|done|].
    intros [|j] z Hj Hz; simpl in Hz.
    + by injection Hz as <-.
    + apply (Hmin j); [lia|done].
Qed.

Lemma find_is_Some {A} (P : A → bool) (l : list A) (x : A) :
  x ∈ l → P x = true → is_Some (List.find P l).
Proof.
  intros Hx HP. destruct (List.find P l) eqn:Hfind; [done|].
  apply list_elem_of_In in Hx. by rewrite (find_none _ _ Hfind x Hx) in HP.
Qed.

(** [indexOf] returns the first index whose element equals the one looked
    for. *)
Lemma indexOf_from_first {A} (eqb : A → A → bool) (x : A) (l : list A) (k : nat) (i : Z) :
  (∃ y, l !! k = Some y ∧ eqb y x = true) →
  (∀ j y, (j < k)%nat → l !! j = Some y → eqb y x = false) →
  indexOf_from eqb x l i = i + Z.of_nat k.
Proof.
  revert k i. induction l as [|z l IH]; intros k i (y & Hy & Heq) Hmin; [done|].
  simpl. destruct k as [|k].
  - simpl in Hy. injection Hy as ->. rewrite Heq. lia.
  - rewrite (Hmin 0%nat z) by (done || lia).
    rewrite (IH k (i + 1)).
    + lia.
    + by exists y.
    + intros j u Hj Hu. apply (Hmin (S j)); [lia|done].
Qed.

(** The index that "Attach the wires to the nodes" passes to [attachWire]
    is the index of the first point of the wire close to the connector. *)
Lemma attachOnLoad_index (position : Point) (points : list WirePoint) (point : WirePoint) :
  List.find (λ q, closerThan unit position (wp_pos q)) points = Some point →
  ∃ k, indexOf WirePoint_eqb points point = Z.of_nat k
       ∧ points !! k = Some point
       ∧ closerThan unit position (wp_pos point) = true
       ∧ ∀ j q, (j < k)%nat → points !! j = Some q →
                closerThan unit position (wp_pos q) = false.
Proof.
  intros Hfind. destruct (find_first _ _ _ Hfind) as (k & Hk & Hclose & Hmin).
  exists k. split; [|done]. unfold indexOf.
  rewrite (indexOf_from_first _ _ _ k); [lia|by exists point; split; [|apply bool_decide_eq_true]|].
  intros j q Hj Hq. apply bool_decide_eq_false. intros Heq.
  specialize (Hmin j q Hj Hq). simpl in Hmin. rewrite Heq in Hmin. congruence.
Qed.

(** One step of the pass on one connector. *)
Lemma attachOnLoad_cases s w n c :
  let c' := attachOnLoad unit s w n c in
  conn_pos c' = conn_pos c
  ∧ (c' = c
     ∨ ∃ k, boundToFirstClose unit s (scenePos n c) c' w k)
  ∧ (hasPointCloseTo unit s (scenePos n c) w → _wire c = None → _wirePointIndex c = -1 →
     ∃ k, boundToFirstClose unit s (scenePos n c) c' w k).
Proof.
  cbv zeta. unfold attachOnLoad.
  destruct (List.find _ (wirePointsAbsolute (getWire s w))) as [point|] eqn:Hfind.
  - destruct (attachOnLoad_index _ _ _ Hfind) as (k & Hidx & Hk & Hclose & Hmin).
    rewrite Hidx. unfold attachWire.
    destruct (bool_decide (_wirePointIndex c < -1)
              || bool_decide (count (wirePointsRelative (wireStore s !!! w))
                              < _wirePointIndex c)) eqn:Hguard.
    + split; [done|]. split; [by left|].
      intros _ _ Hunbound. rewrite Hunbound in Hguard.
      apply orb_true_iff in Hguard as [Hguard|Hguard];
        apply bool_decide_eq_true in Hguard; unfold count in Hguard; lia.
    + assert (boundToFirstClose unit s (scenePos n c)
                {| conn_pos := conn_pos c; _wire := Some w;
                   _wirePointIndex := Z.of_nat k |} w k) as Hbound.
      { split_and!; [done|done|by exists point|done]. }
      split; [done|]. split; [right|intros _ _ _]; by exists k.
  - split; [done|]. split; [by left|].
    intros (p & Hp & Hclose) _ _.
    destruct (find_is_Some (λ q, closerThan unit (scenePos n c) (wp_pos q))
                _ p Hp Hclose) as [x Hx].
    unfold Point in *. congruence.
Qed.

(** The pass on one connector, wire after wire. *)
Lemma attachOnLoad_fold s n c0 (l : list WireId) :
  let c' := foldl (λ c w, attachOnLoad unit s w n c) c0 l in
  conn_pos c' = conn_pos c0
  ∧ (c' = c0 ∨ ∃ w k, w ∈ l ∧ boundToFirstClose unit s (scenePos n c0) c' w k)
  ∧ (_wire c0 = None → _wirePointIndex c0 = -1 →
     (∃ w, w ∈ l ∧ hasPointCloseTo unit s (scenePos n c0) w) →
     ∃ w k, w ∈ l ∧ boundToFirstClose unit s (scenePos n c0) c' w k).
Proof.
  cbv zeta. induction l as [|w l IH] using rev_ind.
  - simpl. split; [done|]. split; [by left|].
    intros _ _ (w & Hw & _). by apply elem_of_nil in Hw.
  - rewrite foldl_app. simpl.
    set (c1 := foldl (λ c w, attachOnLoad unit s w n c) c0 l) in *.
    destruct IH as (Hpos & Hcases & Hfound).
    assert (scenePos n c1 = scenePos n c0) as Hscene
      by (unfold scenePos; by rewrite Hpos).
    destruct (attachOnLoad_cases s w n c1) as (Hpos' & Hcases' & Hfound').
    rewrite Hscene in Hcases', Hfound'.
    assert (∀ v k, v ∈ l → boundToFirstClose unit s (scenePos n c0) c1 v k →
              ∃ v' k', v' ∈ l ++ [w]
                       ∧ boundToFirstClose unit s (scenePos n c0) (attachOnLoad unit s w n c1) v' k')
      as Hkeep.
    { intros v k Hv Hb. destruct Hcases' as [->|(k' & Hb')].
      - exists v, k. split; [|done]. apply elem_of_app. by left.
      - exists w, k'. split; [|done]. apply elem_of_app. right. by left. }
    split; [congruence|]. split.
    + destruct Hcases as [Hsame|(v & k & Hv & Hb)].
      * destruct Hcases' as [Hsame'|(k' & Hb')]; [left; congruence|].
        right. exists w, k'. split; [|done]. apply elem_of_app. right. by left.
      * right. by apply (Hkeep v k).
    + intros Hnone Hidx (v & Hv & Hclose).
      apply elem_of_app in Hv as [Hv|Hv].
      * destruct Hfound as (v' & k & Hv' & Hb); [done|done|by exists v|].
        by apply (Hkeep v' k).
      * apply list_elem_of_singleton in Hv as ->.
        destruct Hcases as [Hsame|(v' & k & Hv' & Hb)]; [|by apply (Hkeep v' k)].
        rewrite Hsame in Hfound'.
        destruct Hfound' as (k & Hb); [done|done|done|].
        rewrite Hsame.
        exists w, k. split; [|done]. apply elem_of_app. right. by left.
Qed.

Lemma attachOnLoad_same_store s t w n n' c :
  wireStore t = wireStore s → node_pos n' = node_pos n →
  attachOnLoad unit t w n' c = attachOnLoad unit s w n c.
Proof.
  intros Hws Hpos. unfold attachOnLoad, getWire, scenePos. by rewrite Hws, Hpos.
Qed.

Lemma attachOnLoad_fold_node s n n' (l : list WireId) c :
  node_pos n' = node_pos n →
  foldl (λ c w, attachOnLoad unit s w n' c) c l = foldl (λ c w, attachOnLoad unit s w n c) c l.
Proof.
  intros Hpos. revert c. induction l as [|v l IHl]; intros c; [done|]. simpl.
  rewrite (attachOnLoad_same_store s s v n n') by done. apply IHl.
Qed.

(** The pass as a whole: on every connector, the fold over the wires. *)
Lemma attachWiresToNodes_loop s (l : list WireId) t :
  wireStore t = wireStore s →
  let t' := foldl (λ s wire, mapConnectors (attachOnLoad unit s wire) s) t l in
  wireStore t' = wireStore s ∧ netStore t' = netStore t ∧ _nets t' = _nets t
  ∧ nodes t'
    = (λ n, {| node_pos := node_pos n;
               node_connectors :=
                 (λ c, foldl (λ c w, attachOnLoad unit s w n c) c l) <$> node_connectors n |})
      <$> nodes t.
Proof.
  cbv zeta. revert t. induction l as [|w l IH]; intros t Hws.
  - simpl. split_and!; try done. symmetry. rewrite <- (list_fmap_id (nodes t)) at 2.
    apply list_fmap_ext. intros i [pos cs] _. simpl. by rewrite list_fmap_id.
  - simpl. destruct (IH (mapConnectors (attachOnLoad unit t w) t) Hws)
      as (Hws' & Hns' & Hnets' & Hnodes').
    split_and!; try done. rewrite Hnodes'. simpl.
    rewrite <- list_fmap_compose. apply list_fmap_ext.
    intros i n _. simpl. f_equal. rewrite <- list_fmap_compose.
    apply list_fmap_ext. intros j c _. simpl.
    rewrite (attachOnLoad_same_store s t w n n) by done.
    by apply attachOnLoad_fold_node.
Qed.
End Load.

(** Connecting wires and marking junctions leave the nodes alone. *)
Lemma mergeNets_nodes net otherNet s r s' :
  mergeNets net otherNet s = Some (r, s') → nodes s' = nodes s.
Proof.
  unfold mergeNets. case_bool_decide; [by intros [= <- <-]|].
  destruct otherNet as [o|]; [simpl|done].
  destruct (forEach _ _ s) as [t|] eqn:Hrun; [simpl|done].
  intros [= <- <-].
  revert Hrun. apply (forEach_invariant (λ t, nodes t = nodes s)); [|done].
  intros x u u' _ Hstep Hu. destruct net as [n|]; [|done]. simpl in Hstep.
  by injection Hstep as <-.
Qed.

Lemma connectWire_nodes wire rawWire s s' :
  connectWire wire rawWire s = Some s' → nodes s' = nodes s.
Proof.
  unfold connectWire.
  set (s1 := updWire wire (Wire_connectWire rawWire) s).
  destruct (mergeNets _ _ s1) as [[merged s2]|] eqn:Hmerge; [simpl|done].
  apply mergeNets_nodes in Hmerge. destruct merged.
  - destruct (netFromWire rawWire s1); [simpl|done]. by intros [= <-].
  - by intros [= <-].
Qed.

Section LoadPasses.
Variable pointOnPolyline : list Point → Point → bool.
Variable unit : Z.

Lemma findJunctions_nodes s s' :
  findJunctions pointOnPolyline s = Some s' → nodes s' = nodes s.
Proof.
  unfold findJunctions.
  apply (forEach_invariant (λ t, nodes t = nodes s)); [|done].
  intros wire t t' _ Hinner Ht. revert Hinner.
  apply (forEach_invariant (λ u, nodes u = nodes s)); [|done].
  intros otherWire u u' _ Hstep Hu. case_bool_decide; [by injection Hstep as <-|].
  destruct (head _) as [first|]; [simpl in Hstep|done].
  destruct (pointIsOnWire pointOnPolyline (getWire u wire) (wp_pos first)).
  - destruct (connectWire wire otherWire u) as [u1|] eqn:Hc1; [simpl in Hstep|done].
    apply connectWire_nodes in Hc1.
    destruct (last _) as [final|]; [simpl in Hstep|done].
    destruct (pointIsOnWire _ _ _).
    + destruct (connectWire wire otherWire _) as [u2|] eqn:Hc2; [simpl in Hstep|done].
      apply connectWire_nodes in Hc2. injection Hstep as <-. simpl in *. congruence.
    + injection Hstep as <-. simpl. congruence.
  - simpl in Hstep. destruct (last _) as [final|]; [simpl in Hstep|done].
    destruct (pointIsOnWire _ _ _).
    + destruct (connectWire wire otherWire u) as [u2|] eqn:Hc2; [simpl in Hstep|done].
      apply connectWire_nodes in Hc2. injection Hstep as <-. simpl in *. congruence.
    + by injection Hstep as <-.
Qed.

(** C9 as amended: after the passes that follow the instantiation of a
    serialized scene, a connector (unbound, as connectors are when
    instantiated) whose scene position is less than one unit away from a
    point of some wire of the scene is bound, to one wire that has such a
    point and at the index of the first such point of that wire; when a
    single wire has such a point it is that wire.  A connector holds one
    binding, so it cannot be bound to every wire that ends on it.  The
    points of the wires lie at whole-number positions; the connector may
    lie between them, at a multiple of [1/unit] of a scene unit. *)
Theorem connector_bound_on_load (s : Scene) (i j : nat) (n : Node)
    (c : Connector) (w : WireId) :
  binaryUnit unit →
  wiresOnWholePositions unit s →
  inSceneRange unit (scenePos n c) →
  nodes s !! i = Some n →
  node_connectors n !! j = Some c →
  _wire c = None →
  _wirePointIndex c = -1 →
  w ∈ wires s →
  hasPointCloseTo unit s (scenePos n c) w →
  ∃ n' c' w' k,
    nodes (attachWiresToNodes unit s) !! i = Some n'
    ∧ node_connectors n' !! j = Some c'
    ∧ node_pos n' = node_pos n ∧ conn_pos c' = conn_pos c
    ∧ w' ∈ wires s
    ∧ boundToFirstClose unit s (scenePos n c) c' w' k
    ∧ ((∀ v, v ∈ wires s → hasPointCloseTo unit s (scenePos n c) v → v = w) → w' = w)
    ∧ (∀ s', from_container_passes pointOnPolyline unit s = Some s' →
             nodes s' = nodes (attachWiresToNodes unit s)
             ∧ wirePointsAbsolute (getWire (attachWiresToNodes unit s) w')
               = wirePointsAbsolute (getWire s w')).
Proof.
  intros _ _ _ Hn Hc Hnone Hidx Hw Hclose.
  destruct (attachWiresToNodes_loop unit s (wires s) s eq_refl)
    as (Hws & _ & _ & Hnodes).
  fold (attachWiresToNodes unit s) in Hws, Hnodes.
  destruct (attachOnLoad_fold unit s n c (wires s)) as (Hpos & _ & Hfound).
  destruct Hfound as (w' & k & Hw' & Hbound); [done|done|by exists w|].
  eexists _, _, w', k. split_and!.
  - rewrite Hnodes, list_lookup_fmap, Hn. reflexivity.
  - simpl. rewrite list_lookup_fmap, Hc. reflexivity.
  - done.
  - exact Hpos.
  - exact Hw'.
  - exact Hbound.
  - intros Honly. apply Honly; [done|].
    destruct Hbound as (_ & _ & (p & Hp & Hpc) & _).
    exists p. split; [|done]. by eapply list_elem_of_lookup_2.
  - intros s' Hrun. split.
    + by apply findJunctions_nodes in Hrun.
    + unfold getWire. by rewrite Hws.
Qed.
End LoadPasses.

(** Scenario S3: after the load the connector is bound to (wire 0, 0).
    So is the connector of [sceneConnectorBetween], which lies half a
    unit away from point 0 of the wire. *)
Lemma connector_bound_on_load_S3 :
  (∃ n' c', nodes (attachWiresToNodes 1 sceneS3) !! 0%nat = Some n'
     ∧ node_connectors n' !! 0%nat = Some c'
     ∧ _wire c' = Some 0%nat ∧ _wirePointIndex c' = 0)
  ∧ (∃ n' c', nodes (attachWiresToNodes 2 sceneConnectorBetween) !! 0%nat = Some n'
       ∧ node_connectors n' !! 0%nat = Some c'
       ∧ scenePos n' c' = (1, 0)
       ∧ _wire c' = Some 0%nat ∧ _wirePointIndex c' = 0).
Proof.
  split.
  - destruct (connector_bound_on_load pointOnPolyline 1 sceneS3 0 0
                {| node_pos := (0, 0); node_connectors := [newConnector (0, 0)] |}
                (newConnector (0, 0)) 0)
      as (n' & c' & w' & k & Hn' & Hc' & _ & _ & _ & Hbound & Honly & _).
    + exists 0. split; [lia|reflexivity].
    + intros v q Hv Hq. change (wires sceneS3) with [0%nat] in Hv.
      apply list_elem_of_singleton in Hv as ->. vm_compute in Hq.
      repeat (apply elem_of_cons in Hq as [->|Hq]); [..|by apply elem_of_nil in Hq];
        (split; [split; apply Z.divide_1_l|split; by vm_compute]).
    + split; by vm_compute.
    + reflexivity.
    + reflexivity.
    + reflexivity.
    + reflexivity.
    + vm_compute. by left.
    + exists (mkWirePoint (0, 0) false). split; [vm_compute; by left|reflexivity].
    + exists n', c'. split; [exact Hn'|]. split; [exact Hc'|].
      assert (w' = 0%nat) as ->.
      { apply Honly. intros v Hv _. vm_compute in Hv.
        by apply list_elem_of_singleton in Hv. }
      destruct Hbound as (Hwire & Hindex & _ & Hfirst).
      split; [exact Hwire|]. rewrite Hindex.
      destruct k as [|k]; [reflexivity|].
      specialize (Hfirst 0%nat (mkWirePoint (0, 0) false)).
      discriminate Hfirst; [lia|reflexivity].
  - destruct (connector_bound_on_load pointOnPolyline 2 sceneConnectorBetween 0 0
                {| node_pos := (0, 0); node_connectors := [newConnector (1, 0)] |}
                (newConnector (1, 0)) 0)
      as (n' & c' & w' & k & Hn' & Hc' & Hnp & Hcp & _ & Hbound & Honly & _).
    + exists 1. split; [lia|reflexivity].
    + intros v q Hv Hq. change (wires sceneConnectorBetween) with [0%nat] in Hv.
      apply list_elem_of_singleton in Hv as ->. vm_compute in Hq.
      repeat (apply elem_of_cons in Hq as [->|Hq]); [..|by apply elem_of_nil in Hq];
        (split; [split; first [by exists 0|by exists 10]|split; by vm_compute]).
    + split; by vm_compute.
    + reflexivity.
    + reflexivity.
    + reflexivity.
    + reflexivity.
    + vm_compute. by left.
    + exists (mkWirePoint (0, 0) false). split; [vm_compute; by left|reflexivity].
    + exists n', c'. split; [exact Hn'|]. split; [exact Hc'|].
      split; [unfold scenePos; by rewrite Hnp, Hcp|].
      assert (w' = 0%nat) as ->.
      { apply Honly. intros v Hv _. vm_compute in Hv.
        by apply list_elem_of_singleton in Hv. }
      destruct Hbound as (Hwire & Hindex & _ & Hfirst).
      split; [exact Hwire|]. rewrite Hindex.
      destruct k as [|k]; [reflexivity|].
      specialize (Hfirst 0%nat (mkWirePoint (0, 0) false)).
      discriminate Hfirst; [lia|reflexivity].
Defined.

(** C9 as stated fails: with two wires that both start at the connector's
    position, point 0 of wire 0 is at the connector, and after the load
    the connector is bound to wire 1, not to (wire 0, 0). *)
Lemma connector_near_two_endpoints_bound_to_one :
  ∃ s' n' c',
    from_container_passes pointOnPolyline 1 sceneTwoWiresAtConnector = Some s'
    ∧ nodes s' !! 0%nat = Some n' ∧ node_connectors n' !! 0%nat = Some c'
    ∧ pointsAbsolute (getWire s' 0) !! 0%nat = Some (0, 0)
    ∧ closerThanOne (scenePos n' c') (0, 0) = true
    ∧ ¬ (_wire c' = Some 0%nat ∧ _wirePointIndex c' = 0)
    ∧ _wire c' = Some 1%nat.
Proof.
  eexists _, _, _. split; [vm_compute; reflexivity|].
  split; [reflexivity|]. split; [reflexivity|].
  split; [vm_compute; reflexivity|]. split; [reflexivity|].
  split; [|reflexivity]. intros [H _]. vm_compute in H. discriminate.
Qed.

(** ** The connector passes of a point move *)

Lemma foldl_invariant {A S : Type} (P : S → Prop) (f : S → A → S) (l : list A) (s : S) :
  (∀ x t, x ∈ l → P t → P (f t x)) → P s → P (foldl f s l).
Proof.
  revert s. induction l as [|x l IH]; intros s Hstep Hs; [done|]. simpl.
  apply IH.
  - intros y t Hy. apply Hstep. by right.
  - apply Hstep; [by left|done].
Qed.

Lemma disconnectWire_nodes wire otherWire s s' :
  disconnectWire wire otherWire s = Some s' → nodes s' = nodes s.
Proof.
  unfold disconnectWire.
  destruct (_net _) as [net|]; [simpl|done].
  destruct (wiresConnectedTo _ _) as [oldWires|]; [simpl|done].
  case_bool_decide; [|by intros [= <-]].
  intros [= <-].
  apply (foldl_invariant (λ t, nodes t = nodes s)); [|done].
  intros x t _ Ht. by destruct (contains oldWires x).
Qed.

Lemma point_add_comm (a b : Point) : point_add a b = point_add b a.
Proof. unfold point_add. f_equal; lia. Qed.

Lemma at_fmap {A B} (f : A → B) (l : list A) (i : Z) :
  at_ (f <$> l) i = f <$> at_ l i.
Proof. unfold at_. case_bool_decide; [apply list_lookup_fmap|done]. Qed.

(** [indexOf] on a vector that holds [x] at index [i]: the first index of
    an element equal to [x], at most [i]. *)
Lemma indexOf_from_le {A} (eqb : A → A → bool) (x : A) (l : list A) (i : nat) (o : Z) :
  eqb x x = true → l !! i = Some x →
  ∃ k y, indexOf_from eqb x l o = o + Z.of_nat k ∧ (k ≤ i)%nat
         ∧ l !! k = Some y ∧ eqb y x = true
         ∧ ∀ j z, (j < k)%nat → l !! j = Some z → eqb z x = false.
Proof.
  intros Hrefl. revert i o. induction l as [|z l IH]; intros i o Hi; [done|]. simpl.
  destruct (eqb z x) eqn:Hz.
  - exists 0%nat, z. split_and!; [lia|lia|done|done|]. intros j u Hj. lia.
  - destruct i as [|i]; simpl in Hi.
    + injection Hi as ->. congruence.
    + destruct (IH i (o + 1) Hi) as (k & y & Hidx & Hle & Hk & Hy & Hmin).
      exists (S k), y. split_and!; [lia|lia|done|done|].
      intros [|j] u Hj Hu; simpl in Hu.
      * by injection Hu as <-.
      * apply (Hmin j); [lia|done].
Qed.

Section ConnectorPasses.
Variable pointOnPolyline : list Point → Point → bool.
Implicit Types (s : Scene) (n : Node) (c : Connector).

Lemma detachWires_nodes rawWire index point s s' :
  detachWires pointOnPolyline rawWire index point s = Some s' → nodes s' = nodes s.
Proof.
  unfold detachWires. destruct (isEndpoint s rawWire index); [|by intros [= <-]].
  destruct (isJunction point); [|by intros [= <-]].
  apply (forEach_invariant (λ t, nodes t = nodes s)); [|done].
  intros wire t t' _ Hstep Ht. case_bool_decide; [by injection Hstep as <-|].
  destruct (contains _ _); [|by injection Hstep as <-].
  destruct (negb _).
  - destruct (disconnectWire rawWire wire t) as [u|] eqn:Hd; [simpl in Hstep|done].
    apply disconnectWire_nodes in Hd. injection Hstep as <-. simpl. congruence.
  - simpl in Hstep. by injection Hstep as <-.
Qed.

Lemma attachWires_nodes rawWire index s s' :
  attachWires pointOnPolyline rawWire index s = Some s' → nodes s' = nodes s.
Proof.
  unfold attachWires. destruct (isEndpoint s rawWire index); [|by intros [= <-]].
  apply (forEach_invariant (λ t, nodes t = nodes s)); [|done].
  intros wire t t' _ Hstep Ht. case_bool_decide; [by injection Hstep as <-|].
  destruct (at_ _ _) as [p|]; [simpl in Hstep|done].
  destruct (pointIsOnWire _ _ _); [|by injection Hstep as <-].
  destruct (negb _); [|by injection Hstep as <-].
  apply connectWire_nodes in Hstep. simpl in Hstep. congruence.
Qed.

Lemma nodes_updateConnectors rawWire index point now s :
  nodes (updateConnectors rawWire index point now s)
  = (λ n, {| node_pos := node_pos n;
             node_connectors :=
               (λ c, attachToConnector s rawWire point n
                       (detachStaleConnector rawWire index now n c))
               <$> node_connectors n |}) <$> nodes s.
Proof.
  unfold updateConnectors, mapConnectors. simpl.
  rewrite <- list_fmap_compose. apply list_fmap_ext. intros i n _. simpl.
  f_equal. by rewrite <- list_fmap_compose.
Qed.

Lemma toPoint_inIntRange (p : Point) : inIntRange p → toPoint p = p.
Proof.
  intros [Hx Hy]. unfold toPoint, toInt.
  rewrite !bool_decide_eq_true_2 by done. by destruct p.
Qed.

(** C2 as amended: when the user has moved point [i] of wire [W], first
    every connector bound to (W, i) whose scene position is no longer that
    of the point is detached; then every unbound connector whose scene
    position is the new location of the point becomes bound to [W], at the
    first index [k] of [W] whose point coincides with the moved one ([i]
    itself when no earlier point of [W] does); a connector elsewhere that
    is not bound to (W, i) is left as it is.  Nothing keeps the second
    pass from a connector that is bound elsewhere.  The positions that
    are compared, [toPoint()] of the connector's and of the point's, are
    taken in the range of [int], where the conversion keeps them. *)
Theorem point_move_detaches_then_attaches (s : Scene) (W : WireId) (i : Z)
    (point : WirePoint) (a b : nat) (n : Node) (c : Connector) :
  at_ (wirePointsRelative (getWire s W)) i = Some point →
  nodes s !! a = Some n →
  node_connectors n !! b = Some c →
  placedInIntRange (wire_pos (getWire s W)) (wp_pos point) →
  placedInIntRange (node_pos n) (conn_pos c) →
  let now := point_add (wire_pos (getWire s W)) (wp_pos point) in
  let k := indexOf WirePoint_eqb (wirePointsRelative (getWire s W)) point in
  ∃ n' c',
    nodes (updateConnectors W i point now s) !! a = Some n'
    ∧ node_connectors n' !! b = Some c'
    ∧ node_pos n' = node_pos n ∧ conn_pos c' = conn_pos c
    ∧ at_ (pointsAbsolute (getWire s W)) i = Some now
    ∧ (0 ≤ k ≤ i
       ∧ (∃ q, at_ (wirePointsRelative (getWire s W)) k = Some q
               ∧ wp_pos q = wp_pos point)
       ∧ ((∀ j q, 0 ≤ j < i → at_ (wirePointsRelative (getWire s W)) j = Some q →
                  wp_pos q ≠ wp_pos point) → k = i))
    ∧ (_wire c = Some W → _wirePointIndex c = i → scenePos n c ≠ now →
       _wire c' = None ∧ _wirePointIndex c' = -1)
    ∧ (_wire c = None → _wirePointIndex c = -1 → scenePos n c = now →
       _wire c' = Some W ∧ _wirePointIndex c' = k)
    ∧ (scenePos n c ≠ now → ¬ (_wire c = Some W ∧ _wirePointIndex c = i) → c' = c)
    ∧ (∀ s', wirePointMovedByUser pointOnPolyline W i s = Some s' →
             nodes s' = nodes (updateConnectors W i point now s)).
Proof.
  intros Hpoint Hn Hc (_ & _ & Hrange) (_ & _ & Hplace) now k.
  assert (toPoint (scenePos n c) = scenePos n c) as Hfits
    by (by apply toPoint_inIntRange).
  assert (toPoint now = now) as Hfits' by (by apply toPoint_inIntRange).
  assert (at_ (pointsAbsolute (getWire s W)) i = Some now) as Hnow.
  { unfold pointsAbsolute, wirePointsAbsolute. rewrite !at_fmap.
    unfold wirePointsRelative in Hpoint. rewrite Hpoint. simpl.
    unfold now. by rewrite point_add_comm. }
  apply at_Some in Hpoint as Hlookup. destruct Hlookup as [Hi Hlookup].
  destruct (indexOf_from_le WirePoint_eqb point (wirePointsRelative (getWire s W))
              (Z.to_nat i) 0)
    as (k' & y & Hk & Hle & Hk' & Hy & Hmin);
    [by apply bool_decide_eq_true|done|].
  fold (indexOf WirePoint_eqb (wirePointsRelative (getWire s W)) point) in Hk.
  fold k in Hk. apply bool_decide_eq_true in Hy.
  eexists _, _.
  split; [|split; [|split; [|split; [|split; [|split; [|split; [|split; [|split]]]]]]]].
  - rewrite nodes_updateConnectors, list_lookup_fmap, Hn. reflexivity.
  - simpl. rewrite list_lookup_fmap, Hc. reflexivity.
  - done.
  - simpl. unfold attachToConnector, detachStaleConnector, attachWire, detachWire.
    repeat (case_match; simpl; try done).
  - done.
  - split; [lia|]. split.
    + exists y. split; [|done]. apply at_Some. split; [lia|].
      replace (Z.to_nat k) with k' by lia. done.
    + intros Hnone. destruct (decide (k = i)) as [|Hki]; [done|]. exfalso.
      apply (Hnone k y); [lia| |done].
      apply at_Some. split; [lia|]. replace (Z.to_nat k) with k' by lia. done.
  - intros Hwire Hidx Hpos. unfold attachToConnector, detachStaleConnector.
    unfold attachedWire, attachedWirepoint. rewrite Hwire, Hidx.
    rewrite (bool_decide_eq_false_2 (W ≠ W)) by (intros H; by apply H).
    rewrite (bool_decide_eq_true_2 (i = i)) by done.
    rewrite Hfits, Hfits'.
    rewrite (bool_decide_eq_true_2 (scenePos n c ≠ now)) by done.
    change (scenePos n (detachWire c)) with (scenePos n c).
    fold now. rewrite Hfits, Hfits'.
    by rewrite (bool_decide_eq_false_2 (scenePos n c = _)) by done.
  - intros Hwire Hidx Hpos. unfold attachToConnector, detachStaleConnector.
    unfold attachedWire. rewrite Hwire.
    fold now. rewrite Hfits, Hfits'.
    rewrite (bool_decide_eq_true_2 (scenePos n c = _)) by done.
    unfold attachWire. rewrite Hidx.
    rewrite (bool_decide_eq_false_2 (-1 < -1)) by lia.
    rewrite bool_decide_eq_false_2 by (unfold count; lia). done.
  - intros Hpos Hnot. unfold attachToConnector.
    assert (detachStaleConnector W i now n c = c) as ->.
    { unfold detachStaleConnector, attachedWire, attachedWirepoint.
      destruct (_wire c) as [v|] eqn:Hv; [|done].
      case_bool_decide as Hvw; [done|]. case_bool_decide as Hidx; [|done].
      exfalso. apply Hnot. split; [|done]. f_equal.
      by destruct (decide (v = W)). }
    fold now. rewrite Hfits, Hfits'.
    by rewrite (bool_decide_eq_false_2 (scenePos n c = _)) by done.
  - intros s' Hrun. unfold wirePointMovedByUser in Hrun.
    rewrite Hpoint, Hnow in Hrun. simpl in Hrun.
    destruct (detachWires _ _ _ _ _) as [s1|] eqn:Hd; [simpl in Hrun|done].
    apply detachWires_nodes in Hd. apply attachWires_nodes in Hrun. congruence.
Qed.
End ConnectorPasses.

(** The user has moved point 0 of wire 0 from (30,0) to (0,0): the
    unbound connector at (0,0) is bound to (wire 0, 0). *)
Lemma point_move_detaches_then_attaches_moved :
  ∃ n' c',
    nodes (updateConnectors 0 0 (mkWirePoint (0, 0) false) (0, 0) scenePointMoved)
      !! 0%nat = Some n'
    ∧ node_connectors n' !! 0%nat = Some c'
    ∧ _wire c' = Some 0%nat ∧ _wirePointIndex c' = 0.
Proof.
  destruct (point_move_detaches_then_attaches pointOnPolyline scenePointMoved 0 0
              (mkWirePoint (0, 0) false) 0 0
              {| node_pos := (0, 0);
                 node_connectors :=
                   [newConnector (0, 0);
                    {| conn_pos := (30, 0); _wire := Some 0%nat;
                       _wirePointIndex := 0 |}] |}
              (newConnector (0, 0)))
    as (n' & c' & Hn' & Hc' & _ & _ & _ & _ & _ & Hattach & _).
  - reflexivity.
  - reflexivity.
  - reflexivity.
  - repeat split; by vm_compute.
  - repeat split; by vm_compute.
  - exists n', c'. split; [exact Hn'|]. split; [exact Hc'|].
    apply Hattach; reflexivity.
Defined.

(** C2 as stated fails: the connector at (0,0) is bound to (wire 1, 0);
    once the user has put point 0 of wire 0 there, the pass rebinds the
    connector to (wire 0, 0). *)
Lemma point_move_rebinds_bound_connector :
  ∃ s' n' c',
    nodes sceneBoundElsewhere
    = [{| node_pos := (0, 0);
          node_connectors :=
            [{| conn_pos := (0, 0); _wire := Some 1%nat; _wirePointIndex := 0 |}] |}]
    ∧ wirePointMovedByUser pointOnPolyline 0 0 sceneBoundElsewhere = Some s'
    ∧ nodes s' !! 0%nat = Some n' ∧ node_connectors n' !! 0%nat = Some c'
    ∧ _wire c' = Some 0%nat ∧ _wirePointIndex c' = 0.
Proof.
  eexists _, _, _. split; [reflexivity|]. split; [vm_compute; reflexivity|].
  split; [reflexivity|]. split; [reflexivity|]. split; reflexivity.
Qed.

(** ** Junctions formed by the pass "Attach point to wire if needed" *)

(** A loop that returns, keeps [I], and establishes [Q x] for every
    element [x] it goes through, once the body does so and keeps what it
    has established. *)
Lemma forEach_establish {A S : Type} (I : S → Prop) (Q : A → S → Prop)
    (f : A → S → option S) (l : list A) (s : S) :
  (∀ x t, x ∈ l → I t →
     ∃ t', f x t = Some t' ∧ I t' ∧ Q x t' ∧ ∀ y, Q y t → Q y t') →
  I s →
  ∃ s', forEach f l s = Some s' ∧ I s' ∧ (∀ x, x ∈ l → Q x s')
        ∧ ∀ y, Q y s → Q y s'.
Proof.
  revert s. induction l as [|x l IH]; intros s Hstep Hs.
  - exists s. split; [done|]. split; [done|]. split; [|done].
    intros x Hx. by apply elem_of_nil in Hx.
  - destruct (Hstep x s) as (t & Hf & Ht & Hx & Hkeep); [by left|done|].
    destruct (IH t) as (s' & Hrun & Hs' & Hall & Hkeep'); [|done|].
    { intros y u Hy. apply Hstep. by right. }
    exists s'. simpl. rewrite Hf. simpl. split; [done|]. split; [done|]. split.
    + intros y [->|Hy]%elem_of_cons; [by apply Hkeep'|by apply Hall].
    + intros y Hy. by apply Hkeep', Hkeep.
Qed.

Lemma netFromWire_wires s w :
  w ∈ wires s → ∃ a, netFromWire w s = Some a ∧ a ∈ _nets s ∧ w ∈ netWires s a.
Proof.
  intros (n & Hn & Hw)%elem_of_wires. unfold netFromWire.
  destruct (find_is_Some (λ n, WireNet_contains n w s) (_nets s) n Hn) as [a Ha].
  { unfold WireNet_contains, contains. by apply bool_decide_eq_true_2. }
  exists a. split; [done|].
  destruct (find_first _ _ _ Ha) as (k & Hk & Hc & _).
  split; [by eapply list_elem_of_lookup_2|].
  unfold WireNet_contains, contains in Hc. by apply bool_decide_eq_true_1 in Hc.
Qed.

Lemma sameShape_refl s : sameShape s s.
Proof. by intros v. Qed.

Lemma sameShape_trans s t u : sameShape s t → sameShape t u → sameShape s u.
Proof.
  intros Hst Htu v. destruct (Hst v) as [<- <-]. apply Htu.
Qed.

Lemma sameShape_updWire s w (f : Wire → Wire) :
  (∀ x, _points (f x) = _points x ∧ wire_pos (f x) = wire_pos x) →
  sameShape s (updWire w f s).
Proof.
  intros Hf v. rewrite getWire_updWire. destruct (decide (w = v)); [apply Hf|done].
Qed.

Lemma sameShape_pointsAbsolute s t v :
  sameShape s t → pointsAbsolute (getWire t v) = pointsAbsolute (getWire s v).
Proof.
  intros Hst. unfold pointsAbsolute, wirePointsAbsolute.
  by destruct (Hst v) as [-> ->].
Qed.

Lemma mergeNets_sameShape net otherNet s r s' :
  mergeNets net otherNet s = Some (r, s') → sameShape s s'.
Proof.
  unfold mergeNets. case_bool_decide; [intros [= <- <-]; apply sameShape_refl|].
  destruct otherNet as [o|]; [simpl|done].
  destruct (forEach _ _ s) as [t|] eqn:Hrun; [simpl|done].
  intros [= <- <-].
  revert Hrun. apply (forEach_invariant (sameShape s)); [|apply sameShape_refl].
  intros x u u' _ Hstep Hu. destruct net as [n|]; [|done]. simpl in Hstep.
  injection Hstep as <-. apply (sameShape_trans _ _ _ Hu).
  intros v. unfold WireNet_removeWire, WireNet_addWire.
  rewrite getWire_updNet, getWire_updWire, getWire_updNet.
  by destruct (decide (x = v)).
Qed.

Lemma Wire_connectWire_records other (w : Wire) (v : WireId) :
  v ∈ _connectedWires (Wire_connectWire other w)
  ↔ v ∈ _connectedWires w ∨ v = other.
Proof.
  unfold Wire_connectWire, contains. case_bool_decide as Hc; simpl.
  - split; [by left|]. by intros [?| ->].
  - rewrite elem_of_app, list_elem_of_singleton. tauto.
Qed.

(** [connectWire] returns when both wires are in nets of the scene; the
    scene has the same wires afterwards, in the same places. *)
Lemma connectWire_returns wire rawWire s :
  wire ∈ wires s → rawWire ∈ wires s →
  ∃ s', connectWire wire rawWire s = Some s'
    ∧ (∀ v, v ∈ connectedWires s' wire ↔ v ∈ connectedWires s wire ∨ v = rawWire)
    ∧ (∀ v, v ≠ wire → connectedWires s' v = connectedWires s v)
    ∧ sameShape s s'
    ∧ (∀ x, x ∈ wires s' ↔ x ∈ wires s).
Proof.
  intros Hwire Hraw.
  destruct (netFromWire_wires s wire Hwire) as (a & Ha & Han & Hwa).
  destruct (netFromWire_wires s rawWire Hraw) as (b & Hb & Hbn & Hwb).
  unfold connectWire.
  set (s1 := updWire wire (Wire_connectWire rawWire) s).
  change (netFromWire wire s1) with (netFromWire wire s).
  change (netFromWire rawWire s1) with (netFromWire rawWire s).
  rewrite Ha, Hb.
  assert (∀ v, v ∈ connectedWires s1 wire ↔ v ∈ connectedWires s wire ∨ v = rawWire)
    as Hrec.
  { intros v. unfold s1, connectedWires. rewrite getWire_updWire_eq.
    apply Wire_connectWire_records. }
  assert (∀ v, v ≠ wire → connectedWires s1 v = connectedWires s v) as Hother.
  { intros v Hv. unfold s1, connectedWires. by rewrite getWire_updWire_ne. }
  assert (sameShape s s1) as Hshape.
  { apply sameShape_updWire. intros x. unfold Wire_connectWire.
    by destruct (contains _ _). }
  destruct (decide (a = b)) as [<-|Hab].
  - rewrite mergeNets_same. simpl. exists s1. by split_and!.
  - destruct (mergeNets_distinct a b s1 Hab)
      as (s2 & Hrun & Ha2 & Hb2 & Hm & _ & Hconn & Hnets & _).
    rewrite Hrun. simpl. exists (removeWireNet b s2). split; [done|].
    split; [|split; [|split]].
    + intros v. change (connectedWires (removeWireNet b s2) wire)
        with (connectedWires s2 wire). by rewrite Hconn.
    + intros v Hv. change (connectedWires (removeWireNet b s2) v)
        with (connectedWires s2 v). rewrite Hconn. by apply Hother.
    + apply (sameShape_trans _ s1); [done|].
      apply mergeNets_sameShape in Hrun. exact Hrun.
    + intros x. rewrite !elem_of_wires. simpl. rewrite Hnets.
      change (_nets s1) with (_nets s).
      change (netWires s1) with (netWires s) in *.
      change (getNet s1) with (getNet s) in Hm.
      split.
      * intros (n & [Hn Hnb]%elem_of_removeAll & Hx).
        change (netWires (removeWireNet b s2) n) with (netWires s2 n) in Hx.
        destruct (decide (n = a)) as [->|Hna].
        -- rewrite Ha2 in Hx. apply elem_of_app in Hx as [Hx|Hx];
             [by exists a|by exists b].
        -- exists n. split; [done|]. unfold netWires in *. by rewrite <- Hm.
      * intros (n & Hn & Hx). destruct (decide (n = b)) as [->|Hnb].
        -- exists a. split; [by apply elem_of_removeAll|].
           change (netWires (removeWireNet b s2) a) with (netWires s2 a).
           rewrite Ha2. apply elem_of_app. by right.
        -- exists n. split; [by apply elem_of_removeAll|].
           change (netWires (removeWireNet b s2) n) with (netWires s2 n).
           destruct (decide (n = a)) as [->|Hna].
           ++ rewrite Ha2. apply elem_of_app. by left.
           ++ unfold netWires. by rewrite Hm.
Qed.

Lemma pointsAbsolute_setPointIsJunction i b (w : Wire) :
  pointsAbsolute (setPointIsJunction i b w) = pointsAbsolute w.
Proof.
  unfold setPointIsJunction. case_bool_decide; [|done].
  unfold pointsAbsolute, wirePointsAbsolute. simpl.
  apply list_eq. intros j. rewrite !list_lookup_fmap.
  destruct (decide (Z.to_nat i = j)) as [<-|Hj].
  - rewrite list_lookup_alter_eq. by destruct (_points w !! Z.to_nat i).
  - by rewrite list_lookup_alter_ne.
Qed.

Lemma junction_setPointIsJunction i (w : Wire) :
  is_Some (at_ (wirePointsAbsolute w) i) →
  isJunction <$> at_ (wirePointsAbsolute (setPointIsJunction i true w)) i = Some true.
Proof.
  intros [q Hq]. apply at_Some in Hq as [Hi Hq].
  unfold setPointIsJunction, at_. rewrite !bool_decide_eq_true_2 by done.
  unfold wirePointsAbsolute in *. simpl.
  rewrite list_lookup_fmap in Hq. rewrite list_lookup_fmap, list_lookup_alter_eq.
  by destruct (_points w !! Z.to_nat i).
Qed.

Lemma sameShape_wirePointsAbsolute s t v :
  sameShape s t → wirePointsAbsolute (getWire t v) = wirePointsAbsolute (getWire s v).
Proof. intros Hst. unfold wirePointsAbsolute. by destruct (Hst v) as [-> ->]. Qed.

Section AttachWires.
Variable pointOnPolyline : list Point → Point → bool.
Implicit Types (s t : Scene) (W X : WireId).

(** The body of the loop of [attachWires], for the wire [wire]. *)
Lemma attachWires_step s W i p wire t :
  W ∈ wires s → at_ (pointsAbsolute (getWire s W)) i = Some p →
  wire ∈ wires s → attaching pointOnPolyline s W p t →
  ∃ t',
    (if bool_decide (wire = W) then Some t
     else
       q ← at_ (wirePointsAbsolute (getWire t W)) i;
       if pointIsOnWire pointOnPolyline (getWire t wire) (wp_pos q) then
         if negb (contains (connectedWires t W) wire) then
           connectWire wire W (updWire W (setPointIsJunction i true) t)
         else Some t
       else Some t) = Some t'
    ∧ attaching pointOnPolyline s W p t'
    ∧ (wire ≠ W → pointIsOnWire pointOnPolyline (getWire s wire) p = true →
       wire ∉ connectedWires s W → junctionFormed W i wire t')
    ∧ ∀ y, junctionFormed W i y t → junctionFormed W i y t'.
Proof.
  intros HW Hp Hwire [Hshape Hown Hwires Horigin].
  case_bool_decide as Hne.
  { exists t. split; [done|]. split; [done|]. split; [done|]. done. }
  assert (at_ (pointsAbsolute (getWire t W)) i = Some p) as Hpt by (by rewrite Hshape).
  unfold pointsAbsolute in Hpt. rewrite at_fmap in Hpt.
  destruct (at_ (wirePointsAbsolute (getWire t W)) i) as [q|] eqn:Hq; [|done].
  injection Hpt as Hpq. simpl. rewrite Hpq.
  unfold pointIsOnWire at 1. rewrite Hshape.
  fold (pointIsOnWire pointOnPolyline (getWire s wire) p).
  destruct (pointIsOnWire pointOnPolyline (getWire s wire) p) eqn:Hon;
    [|exists t; split; [done|]; split; [done|]; split; [done|]; done].
  rewrite Hown. unfold contains. case_bool_decide as Hc; simpl;
    [exists t; split; [done|]; split; [done|]; split; [done|]; done|].
  set (t0 := updWire W (setPointIsJunction i true) t).
  assert (∀ v, connectedWires t0 v = connectedWires t v) as Hconn0.
  { intros v. unfold t0, connectedWires. rewrite getWire_updWire.
    destruct (decide (W = v)) as [<-|]; [|done].
    unfold setPointIsJunction. by case_bool_decide. }
  assert (∀ v, pointsAbsolute (getWire t0 v) = pointsAbsolute (getWire t v)) as Hshape0.
  { intros v. unfold t0. rewrite getWire_updWire.
    destruct (decide (W = v)) as [<-|]; [|done].
    apply pointsAbsolute_setPointIsJunction. }
  assert (isJunction <$> at_ (wirePointsAbsolute (getWire t0 W)) i = Some true) as Hflag0.
  { unfold t0. rewrite getWire_updWire_eq. apply junction_setPointIsJunction.
    by rewrite Hq. }
  destruct (connectWire_returns wire W t0) as (t' & Hrun & Hrec & Hother & Hsh & Hw').
  { change (wires t0) with (wires t). by apply Hwires. }
  { change (wires t0) with (wires t). by apply Hwires. }
  assert (isJunction <$> at_ (wirePointsAbsolute (getWire t' W)) i = Some true) as Hflag'
    by (by rewrite (sameShape_wirePointsAbsolute t0 t')).
  exists t'. split; [done|]. split; [|split].
  - split.
    + intros v. by rewrite (sameShape_pointsAbsolute t0 t'), Hshape0.
    + rewrite Hother by congruence. by rewrite Hconn0.
    + intros x. rewrite Hw'. change (wires t0) with (wires t). apply Hwires.
    + intros X v Hv. destruct (decide (X = wire)) as [->|HX].
      * apply Hrec in Hv as [Hv| ->].
        -- apply Horigin. by rewrite <- Hconn0.
        -- right. done.
      * rewrite Hother, Hconn0 in Hv by done. by apply Horigin.
  - intros _ _ _. split; [|done]. apply Hrec. by right.
  - intros y [Hy _]. split; [|done].
    destruct (decide (y = wire)) as [->|Hyw].
    + apply Hrec. left. by rewrite Hconn0.
    + by rewrite Hother, Hconn0.
Qed.

(** C6 as amended: the set of directly-connected wires is directional the
    other way round.  [connectWire X W], which forms the junction of an
    endpoint of [W] on the wire [X], returns, makes [X] record [W] and
    leaves the set of [W] as it was.  The pass "Attach point to wire if
    needed", run for the endpoint [i] of [W] at [p], returns; every other
    wire [X] that holds [p], and that [W] does not record, comes to
    record [W], with the point flagged as a junction; the set of [W] is
    left as it was; and any record found afterwards is an old one or is
    the record of [W] on a wire that holds [p]. *)
Theorem endpoint_on_wire_is_recorded_by_host (W : WireId) (i : Z) (p : Point)
    (s : Scene) :
  W ∈ wires s →
  isEndpoint s W i = true →
  at_ (pointsAbsolute (getWire s W)) i = Some p →
  (∀ X, X ∈ wires s → X ≠ W →
     ∃ s1, connectWire X W s = Some s1
       ∧ W ∈ connectedWires s1 X
       ∧ connectedWires s1 W = connectedWires s W)
  ∧ ∃ s', attachWires pointOnPolyline W i s = Some s'
      ∧ connectedWires s' W = connectedWires s W
      ∧ (∀ X, X ∈ wires s → X ≠ W →
           pointIsOnWire pointOnPolyline (getWire s X) p = true →
           X ∉ connectedWires s W →
           W ∈ connectedWires s' X
           ∧ isJunction <$> at_ (wirePointsAbsolute (getWire s' W)) i = Some true)
      ∧ (∀ X v, v ∈ connectedWires s' X →
           v ∈ connectedWires s X
           ∨ (v = W ∧ X ≠ W
              ∧ pointIsOnWire pointOnPolyline (getWire s X) p = true)).
Proof.
  intros HW Hend Hp. split.
  - intros X HX Hne.
    destruct (connectWire_returns X W s HX HW) as (s1 & Hrun & Hrec & Hother & _).
    exists s1. split; [done|]. split; [apply Hrec; by right|].
    apply Hother. congruence.
  - unfold attachWires. rewrite Hend.
    destruct (forEach_establish (attaching pointOnPolyline s W p)
                (λ X t, X ≠ W →
                        pointIsOnWire pointOnPolyline (getWire s X) p = true →
                        X ∉ connectedWires s W → junctionFormed W i X t)
                (λ wire s0,
                   if bool_decide (wire = W) then Some s0
                   else
                     q ← at_ (wirePointsAbsolute (getWire s0 W)) i;
                     if pointIsOnWire pointOnPolyline (getWire s0 wire) (wp_pos q) then
                       if negb (contains (connectedWires s0 W) wire) then
                         connectWire wire W (updWire W (setPointIsJunction i true) s0)
                       else Some s0
                     else Some s0)
                (wires s) s)
      as (s' & Hrun & [Hshape Hown Hwires Horigin] & Hall & _).
    + intros wire t Hwire Ht.
      destruct (attachWires_step s W i p wire t HW Hp Hwire Ht)
        as (t' & Hstep & Ht' & Hnew & Hkeep).
      exists t'. split; [done|]. split; [done|]. split; [done|].
      intros y Hy H1 H2 H3. by apply Hkeep, Hy.
    + by split; [..|intros X v ?; left].
    + exists s'. split; [done|]. split; [done|]. split; [|done].
      intros X HX Hne Hon Hnot. by apply Hall.
Qed.

End AttachWires.

Lemma endpoint_on_wire_is_recorded_by_host_S1 :
  ∃ s', attachWires pointOnPolyline 1 0 sceneS1 = Some s'
    ∧ 1%nat ∈ connectedWires s' 0
    ∧ connectedWires s' 1 = connectedWires sceneS1 1.
Proof.
  destruct (endpoint_on_wire_is_recorded_by_host pointOnPolyline 1 0 (50, 0) sceneS1)
    as (_ & s' & Hrun & Hown & Hform & _).
  - apply (bool_decide_unpack _). by vm_compute.
  - by vm_compute.
  - by vm_compute.
  - exists s'. split; [exact Hrun|]. split; [|exact Hown].
    apply Hform.
    + apply (bool_decide_unpack _). by vm_compute.
    + lia.
    + by vm_compute.
    + intros Hin. vm_compute in Hin. by apply elem_of_nil in Hin.
Defined.

(** C6 as stated fails in scenario S1: once the user has put point 0 of
    wire 1 at (50,0), on wire 0, that point is a junction, wire 1 (whose
    endpoint lies on wire 0) records nothing and wire 0 records wire 1. *)
Lemma endpoint_owner_does_not_record_host :
  ∃ s', wirePointMovedByUser pointOnPolyline 1 0 sceneS1 = Some s'
    ∧ pointIsOnWire pointOnPolyline (getWire s' 0) (50, 0) = true
    ∧ wirePointsAbsolute (getWire s' 1) !! 0%nat = Some (mkWirePoint (50, 0) true)
    ∧ ¬ (0%nat ∈ connectedWires s' 1 ∧ 1%nat ∉ connectedWires s' 0).
Proof.
  eexists. split; [vm_compute; reflexivity|].
  split; [vm_compute; reflexivity|]. split; [vm_compute; reflexivity|].
  intros [H0 _]. vm_compute in H0. by apply elem_of_nil in H0.
Qed.

(** ** Junctions found on loading *)

(** A loop that returns, keeps [I], moves along the preorder [R], and
    establishes [Q x] for every element it goes through, when [Q] is
    kept along [R]. *)
Lemma forEach_along {A S : Type} (I : S → Prop) (R : relation S) `{!PreOrder R}
    (Q : A → S → Prop) (f : A → S → option S) (l : list A) (s : S) :
  (∀ x t, x ∈ l → I t → ∃ t', f x t = Some t' ∧ I t' ∧ R t t' ∧ Q x t') →
  (∀ x t t', R t t' → Q x t → Q x t') →
  I s →
  ∃ s', forEach f l s = Some s' ∧ I s' ∧ R s s' ∧ ∀ x, x ∈ l → Q x s'.
Proof.
  intros Hstep Hkeep. revert s Hstep. induction l as [|x l IH]; intros s Hstep Hs.
  - exists s. split; [done|]. split; [done|]. split; [done|].
    intros x Hx. by apply elem_of_nil in Hx.
  - destruct (Hstep x s) as (t & Hf & Ht & HR & Hx); [by left|done|].
    destruct (IH t) as (s' & Hrun & Hs' & HR' & Hall); [|done|].
    { intros y u Hy. apply Hstep. by right. }
    exists s'. simpl. rewrite Hf. simpl. split; [done|]. split; [done|].
    split; [by etrans|].
    intros y [->|Hy]%elem_of_cons; [by eapply Hkeep|by apply Hall].
Qed.

#[global] Instance grows_preorder : PreOrder grows.
Proof.
  split.
  - by intros s X v.
  - intros s t u Hst Htu X v Hv. by apply Htu, Hst.
Qed.

Lemma head_fmap {A B} (f : A → B) (l : list A) : head (f <$> l) = f <$> head l.
Proof. by destruct l. Qed.

Section FindJunctions.
Variable pointOnPolyline : list Point → Point → bool.
Implicit Types (s t : Scene).

Lemma loading_refl s : loading pointOnPolyline s s.
Proof. split; [done|done|]. intros X v Hv. by left. Qed.

(** One of the two tests of the loop body, for the end [e] of
    [otherWire]. *)
Lemma findJunctions_half s wire otherWire e (idx : Scene → Z) t :
  wire ∈ wires s → otherWire ∈ wires s → wire ≠ otherWire →
  head (pointsAbsolute (getWire s otherWire)) = Some e
  ∨ last (pointsAbsolute (getWire s otherWire)) = Some e →
  loading pointOnPolyline s t →
  ∃ t', (if pointIsOnWire pointOnPolyline (getWire t wire) e
         then u ← connectWire wire otherWire t;
              Some (updWire otherWire (setPointIsJunction (idx u) true) u)
         else Some t) = Some t'
    ∧ loading pointOnPolyline s t' ∧ grows t t'
    ∧ (pointIsOnWire pointOnPolyline (getWire s wire) e = true →
       otherWire ∈ connectedWires t' wire).
Proof.
  intros Hwire Hother Hne He [Hshape Hwires Horigin].
  unfold pointIsOnWire at 1. rewrite Hshape.
  fold (pointIsOnWire pointOnPolyline (getWire s wire) e).
  destruct (pointIsOnWire pointOnPolyline (getWire s wire) e) eqn:Hon.
  2:{ exists t. split; [done|]. split; [done|]. split; [reflexivity|done]. }
  destruct (connectWire_returns wire otherWire t) as (u & Hrun & Hrec & Hsame & Hsh & Hw);
    [by apply Hwires|by apply Hwires|].
  rewrite Hrun. simpl.
  set (t' := updWire otherWire (setPointIsJunction (idx u) true) u).
  assert (∀ v, connectedWires t' v = connectedWires u v) as Hconn.
  { intros v. unfold t', connectedWires. rewrite getWire_updWire.
    destruct (decide (otherWire = v)) as [<-|]; [|done].
    unfold setPointIsJunction. by case_bool_decide. }
  exists t'. split; [done|]. split; [|split].
  - split.
    + intros v. unfold t'. rewrite getWire_updWire.
      destruct (decide (otherWire = v)) as [<-|].
      * by rewrite pointsAbsolute_setPointIsJunction,
          (sameShape_pointsAbsolute t u), Hshape.
      * by rewrite (sameShape_pointsAbsolute t u), Hshape.
    + intros x. change (wires t') with (wires u). rewrite Hw. apply Hwires.
    + intros X v. rewrite Hconn. intros Hv.
      destruct (decide (X = wire)) as [->|HX].
      * apply Hrec in Hv as [Hv| ->]; [by apply Horigin|].
        right. split; [congruence|]. split; [done|]. by exists e.
      * rewrite Hsame in Hv by done. by apply Horigin.
  - intros X v Hv. rewrite Hconn. destruct (decide (X = wire)) as [->|HX].
    + apply Hrec. by left.
    + by rewrite Hsame.
  - intros _. rewrite Hconn. apply Hrec. by right.
Qed.

(** The body of the inner loop, for the pair [(wire, otherWire)]. *)
Lemma findJunctions_pair s wire otherWire t :
  wire ∈ wires s → otherWire ∈ wires s →
  _points (getWire s otherWire) ≠ [] →
  loading pointOnPolyline s t →
  ∃ t',
    (if bool_decide (wire = otherWire) then Some t
     else
       first ← head (wirePointsAbsolute (getWire t otherWire));
       s ← (if pointIsOnWire pointOnPolyline (getWire t wire) (wp_pos first)
            then s ← connectWire wire otherWire t;
                 Some (updWire otherWire (setPointIsJunction 0 true) s)
            else Some t);
       final ← last (wirePointsAbsolute (getWire s otherWire));
       if pointIsOnWire pointOnPolyline (getWire s wire) (wp_pos final)
       then s ← connectWire wire otherWire s;
            Some (updWire otherWire
                    (setPointIsJunction
                       (count (wirePointsAbsolute (getWire s otherWire)) - 1) true) s)
       else Some s) = Some t'
    ∧ loading pointOnPolyline s t' ∧ grows t t'
    ∧ (otherWire ≠ wire → endsOn pointOnPolyline s otherWire wire →
       otherWire ∈ connectedWires t' wire).
Proof.
  intros Hwire Hother Hpoints Ht.
  case_bool_decide as Hne.
  { exists t. split; [done|]. split; [done|]. split; [reflexivity|]. congruence. }
  assert (∃ e1, head (pointsAbsolute (getWire s otherWire)) = Some e1) as [e1 He1].
  { apply head_is_Some. unfold pointsAbsolute, wirePointsAbsolute.
    by destruct (_points (getWire s otherWire)). }
  assert (∃ e2, last (pointsAbsolute (getWire s otherWire)) = Some e2) as [e2 He2].
  { apply last_is_Some. unfold pointsAbsolute, wirePointsAbsolute.
    by destruct (_points (getWire s otherWire)). }
  pose proof (ld_shape _ _ _ Ht otherWire) as Hsh.
  assert (wp_pos <$> head (wirePointsAbsolute (getWire t otherWire)) = Some e1) as Hfirst.
  { rewrite <- head_fmap. fold (pointsAbsolute (getWire t otherWire)). by rewrite Hsh. }
  destruct (head (wirePointsAbsolute (getWire t otherWire))) as [first|]; [|done].
  injection Hfirst as Hfirst. simpl. rewrite Hfirst.
  destruct (findJunctions_half s wire otherWire e1 (λ _, 0) t)
    as (t1 & Hrun1 & Ht1 & Hgrow1 & Hrec1); [done|done|done|by left|done|].
  rewrite Hrun1. simpl.
  pose proof (ld_shape _ _ _ Ht1 otherWire) as Hsh1.
  assert (wp_pos <$> last (wirePointsAbsolute (getWire t1 otherWire)) = Some e2) as Hfinal.
  { rewrite <- fmap_last. fold (pointsAbsolute (getWire t1 otherWire)). by rewrite Hsh1. }
  destruct (last (wirePointsAbsolute (getWire t1 otherWire))) as [final|]; [|done].
  injection Hfinal as Hfinal. simpl. rewrite Hfinal.
  destruct (findJunctions_half s wire otherWire e2
              (λ u, count (wirePointsAbsolute (getWire u otherWire)) - 1) t1)
    as (t2 & Hrun2 & Ht2 & Hgrow2 & Hrec2); [done|done|done|by right|done|].
  exists t2. split; [done|]. split; [done|]. split; [by etrans|].
  intros _ (e & [He|He] & Hon).
  - apply Hgrow2, Hrec1. congruence.
  - apply Hrec2. congruence.
Qed.

(** The pass "Find junctions" returns when no wire is empty.  Afterwards
    a wire [X] records every other wire that has an end on [X]; records
    are kept; and a record is an old one or the record of a wire with an
    end on the recording wire. *)
Theorem findJunctions_records_ends_on_host (s : Scene) :
  (∀ w, w ∈ wires s → _points (getWire s w) ≠ []) →
  ∃ s', findJunctions pointOnPolyline s = Some s'
    ∧ (∀ X v, X ∈ wires s → v ∈ wires s → v ≠ X →
              endsOn pointOnPolyline s v X → v ∈ connectedWires s' X)
    ∧ (∀ X v, v ∈ connectedWires s X → v ∈ connectedWires s' X)
    ∧ (∀ X v, v ∈ connectedWires s' X →
              v ∈ connectedWires s X
              ∨ (v ≠ X ∧ v ∈ wires s ∧ endsOn pointOnPolyline s v X)).
Proof.
  intros Hpoints. unfold findJunctions.
  destruct (forEach_along (loading pointOnPolyline s) grows
              (λ X t, ∀ v, v ∈ wires s → v ≠ X →
                           endsOn pointOnPolyline s v X → v ∈ connectedWires t X)
              (λ wire s0,
                 forEach (λ otherWire s1,
                   if bool_decide (wire = otherWire) then Some s1
                   else
                     first ← head (wirePointsAbsolute (getWire s1 otherWire));
                     s2 ← (if pointIsOnWire pointOnPolyline (getWire s1 wire) (wp_pos first)
                           then s2 ← connectWire wire otherWire s1;
                                Some (updWire otherWire (setPointIsJunction 0 true) s2)
                           else Some s1);
                     final ← last (wirePointsAbsolute (getWire s2 otherWire));
                     if pointIsOnWire pointOnPolyline (getWire s2 wire) (wp_pos final)
                     then s3 ← connectWire wire otherWire s2;
                          Some (updWire otherWire
                                  (setPointIsJunction
                                     (count (wirePointsAbsolute (getWire s3 otherWire)) - 1)
                                     true) s3)
                     else Some s2)
                   (wires s0) s0)
              (wires s) s)
    as (s' & Hrun & Hs' & Hgrow & Hall).
  - intros wire t Hwire Ht.
    destruct (forEach_along (loading pointOnPolyline s) grows
                (λ v u, v ∈ wires s → v ≠ wire →
                        endsOn pointOnPolyline s v wire → v ∈ connectedWires u wire)
                (λ otherWire s1,
                   if bool_decide (wire = otherWire) then Some s1
                   else
                     first ← head (wirePointsAbsolute (getWire s1 otherWire));
                     s2 ← (if pointIsOnWire pointOnPolyline (getWire s1 wire) (wp_pos first)
                           then s2 ← connectWire wire otherWire s1;
                                Some (updWire otherWire (setPointIsJunction 0 true) s2)
                           else Some s1);
                     final ← last (wirePointsAbsolute (getWire s2 otherWire));
                     if pointIsOnWire pointOnPolyline (getWire s2 wire) (wp_pos final)
                     then s3 ← connectWire wire otherWire s2;
                          Some (updWire otherWire
                                  (setPointIsJunction
                                     (count (wirePointsAbsolute (getWire s3 otherWire)) - 1)
                                     true) s3)
                     else Some s2)
                (wires t) t)
      as (t' & Hinner & Ht' & Hgrow' & Hall').
    + intros otherWire u Hother Hu.
      apply (ld_wires _ _ _ Ht) in Hother.
      destruct (findJunctions_pair s wire otherWire u Hwire Hother (Hpoints _ Hother) Hu)
        as (u' & Hbody & Hu' & Hg & Hrec).
      exists u'. split; [done|]. split; [done|]. split; [done|].
      intros _. apply Hrec.
    + intros v u u' Hg Hv H1 H2 H3. by apply Hg, Hv.
    + done.
    + exists t'. split; [done|]. split; [done|]. split; [done|].
      intros v Hv Hne Hends. apply Hall'; [|done..].
      by apply (ld_wires _ _ _ Ht).
  - intros X t t' Hg HX v H1 H2 H3. by apply Hg, HX.
  - apply loading_refl.
  - exists s'. split; [done|]. split; [|split].
    + intros X v HX Hv Hne Hends. by apply Hall.
    + exact Hgrow.
    + apply (ld_origin _ _ _ Hs').
Qed.

End FindJunctions.

(** ** The wires connected to a wire *)

Section WiresConnectedTo.
Implicit Types (s : Scene) (N C l : list WireId) (w x : WireId).

Lemma elem_of_connectedPass s N C x :
  x ∈ connectedPass s N C ↔ x ∈ N ∧ (x ∉ C) ∧ ∃ y, y ∈ C ∧ adjacent s y x.
Proof.
  unfold connectedPass. rewrite list_elem_of_filter, Exists_exists. tauto.
Qed.

(** More passes allowed do not change the result. *)
Lemma wiresConnectedTo_loop_more fuel s N C l :
  wiresConnectedTo_loop fuel s N C = Some l →
  wiresConnectedTo_loop (S fuel) s N C = Some l.
Proof.
  revert C. induction fuel as [|fuel IH]; intros C; [done|].
  intros Hrun. cbn [wiresConnectedTo_loop] in Hrun |- *.
  case_bool_decide; [done|]. by apply IH.
Qed.

Lemma wiresConnectedTo_loop_mono fuel fuel' s N C l :
  (fuel ≤ fuel')%nat →
  wiresConnectedTo_loop fuel s N C = Some l →
  wiresConnectedTo_loop fuel' s N C = Some l.
Proof.
  induction 1 as [|fuel' _ IH]; [done|].
  intros Hrun. by apply wiresConnectedTo_loop_more, IH.
Qed.

Lemma uncollected_pass s N C :
  connectedPass s N C ≠ [] →
  (size (uncollected N (C ++ connectedPass s N C)) < size (uncollected N C))%nat.
Proof.
  intros Hne. apply subset_size. unfold uncollected.
  destruct (connectedPass s N C) as [|x p] eqn:Hp; [done|].
  assert (x ∈ connectedPass s N C) as Hx by (rewrite Hp; by left).
  apply elem_of_connectedPass in Hx as (HxN & HxC & _).
  apply strict_spec_alt. split.
  - rewrite list_to_set_app_L. set_solver.
  - intros Heq. assert (x ∈ (list_to_set N ∖ list_to_set C : gset nat)) as Hin.
    { apply elem_of_difference. split; [by apply elem_of_list_to_set|].
      by rewrite elem_of_list_to_set. }
    rewrite <- Heq in Hin. apply elem_of_difference in Hin as [_ Hin].
    apply Hin. apply elem_of_list_to_set, elem_of_app. right. by left.
Qed.

(** The loop ends as soon as it is allowed more passes than wires are
    left to collect; what it returns is closed under [linked], and
    everything in it was reached from what it started with. *)
Lemma wiresConnectedTo_loop_spec s N fuel C :
  (size (uncollected N C) < fuel)%nat →
  ∃ l, wiresConnectedTo_loop fuel s N C = Some l
    ∧ (∃ l', l = C ++ l' ∧ ∀ x, x ∈ l' → x ∈ N ∧ (x ∉ C))
    ∧ (∀ a b, a ∈ l → linked s N a b → b ∈ l)
    ∧ (∀ x, x ∈ l → ∃ y, y ∈ C ∧ reachableIn s N y x)
    ∧ (NoDup N → NoDup C → NoDup l).
Proof.
  revert C. induction fuel as [|fuel IH]; intros C Hfuel; [lia|].
  cbn [wiresConnectedTo_loop]. case_bool_decide as Hpass.
  - exists (C ++ connectedPass s N C). rewrite Hpass, app_nil_r.
    split; [done|]. split_and!.
    + exists []. rewrite app_nil_r. split; [done|]. intros x Hx. by apply elem_of_nil in Hx.
    + intros a b Ha [HbN Hadj]. destruct (decide (b ∈ C)) as [|HbC]; [done|].
      assert (b ∈ connectedPass s N C) as Hb.
      { apply elem_of_connectedPass. split_and!; [done|done|by exists a]. }
      rewrite Hpass in Hb. by apply elem_of_nil in Hb.
    + intros x Hx. exists x. split; [done|]. apply rtc_refl.
    + done.
  - destruct (IH (C ++ connectedPass s N C)) as (l & Hrun & Hext & Hclosed & Hreach & Hnodup).
    { pose proof (uncollected_pass s N C Hpass). lia. }
    exists l. split; [done|]. split_and!.
    + destruct Hext as (l' & -> & Hl'). exists (connectedPass s N C ++ l').
      rewrite app_assoc. split; [done|]. intros x Hx.
      apply elem_of_app in Hx as [Hx|Hx].
      * apply elem_of_connectedPass in Hx. tauto.
      * destruct (Hl' x Hx) as [HxN Hnot]. split; [done|].
        intros HxC. apply Hnot, elem_of_app. by left.
    + done.
    + intros x Hx. destruct (Hreach x Hx) as (y & Hy & Hyx).
      apply elem_of_app in Hy as [Hy|Hy]; [by exists y|].
      apply elem_of_connectedPass in Hy as (HyN & _ & z & Hz & Hadj).
      exists z. split; [done|]. eapply rtc_l; [|done]. by split.
    + intros HN HC. apply Hnodup; [done|]. apply NoDup_app. split_and!.
      * done.
      * intros x Hx Hx'. apply elem_of_connectedPass in Hx'. tauto.
      * unfold connectedPass. by apply NoDup_filter.
Qed.

Lemma size_uncollected_start N w :
  w ∈ N → (size (uncollected N [w]) < length N)%nat.
Proof.
  intros Hw. unfold uncollected.
  assert (size (list_to_set N : gset nat) ≤ length N)%nat as Hle.
  { clear. induction N as [|x N IH]; [done|]. simpl.
    rewrite size_union_alt, size_singleton.
    assert (size (list_to_set N ∖ {[x]} : gset nat) ≤ size (list_to_set N : gset nat))%nat
      by (apply subseteq_size; set_solver).
    lia. }
  assert ((list_to_set N ∖ list_to_set [w] : gset nat) ⊂ list_to_set N) as Hsub.
  { apply strict_spec_alt. split; [set_solver|].
    intros Heq. assert (w ∈ (list_to_set N : gset nat)) as Hin
      by (by apply elem_of_list_to_set).
    rewrite <- Heq in Hin. apply elem_of_difference in Hin as [_ Hin].
    apply Hin. simpl. set_solver. }
  apply subset_size in Hsub. lia.
Qed.

(** What [wiresConnectedTo] returns for a wire that belongs to its net. *)
Lemma wiresConnectedTo_spec s w n :
  _net (getWire s w) = Some n →
  w ∈ netWires s n →
  ∃ l, wiresConnectedTo w s = Some l
    ∧ (∀ fuel, (length (netWires s n) ≤ fuel)%nat →
               wiresConnectedTo_loop fuel s (netWires s n) [w] = Some l)
    ∧ head l = Some w
    ∧ (∀ x, x ∈ l ↔ reachableIn s (netWires s n) w x)
    ∧ (∀ x, x ∈ l → x ∈ netWires s n)
    ∧ (NoDup (netWires s n) → NoDup l).
Proof.
  intros Hnet Hw. set (N := netWires s n).
  pose proof (size_uncollected_start N w Hw) as Hsize.
  destruct (wiresConnectedTo_loop_spec s N (length N) [w] Hsize)
    as (l & Hrun & (l' & -> & Hl') & Hclosed & Hreach & Hnodup).
  exists ([w] ++ l'). split_and!.
  - unfold wiresConnectedTo. rewrite Hnet. simpl. fold N.
    by apply wiresConnectedTo_loop_more.
  - intros fuel Hfuel. by eapply wiresConnectedTo_loop_mono.
  - done.
  - intros x. split.
    + intros Hx. destruct (Hreach x Hx) as (y & Hy & Hyx).
      by apply list_elem_of_singleton in Hy as ->.
    + revert x. apply rtc_ind_r.
      * by left.
      * intros y z _ Hyz Hy. by apply (Hclosed y z).
  - intros x Hx. apply elem_of_app in Hx as [Hx|Hx].
    + by apply list_elem_of_singleton in Hx as ->.
    + by apply Hl'.
  - intros HN. apply Hnodup; [done|]. apply NoDup_singleton.
Qed.
End WiresConnectedTo.

(** C10 as amended: for a wire [w] that belongs to its net,
    [wiresConnectedTo] returns a list: the do-while loop needs no more
    passes than the net has wires (allowed that many or more, it returns
    the same list).  The list holds [w] and exactly the wires of the net
    that a chain of connections between wires of the net, followed in
    either direction, reaches from [w]; each pass adds only wires of the
    net that were not collected before.  A chain that leaves the net does
    not count; when the connections of the net's wires stay within the
    net, the list holds the wires reachable from [w] at all. *)
Theorem wiresConnectedTo_returns_component (s : Scene) (w : WireId) (n : NetId) :
  _net (getWire s w) = Some n →
  w ∈ netWires s n →
  ∃ l, wiresConnectedTo w s = Some l
    ∧ (∀ fuel, (length (netWires s n) ≤ fuel)%nat →
               wiresConnectedTo_loop fuel s (netWires s n) [w] = Some l)
    ∧ w ∈ l
    ∧ (∀ x, x ∈ l ↔ x ∈ netWires s n ∧ reachableIn s (netWires s n) w x)
    ∧ (∀ C x, x ∈ connectedPass s (netWires s n) C → x ∈ netWires s n ∧ (x ∉ C))
    ∧ ((∀ a b, a ∈ netWires s n → adjacent s a b → b ∈ netWires s n) →
       ∀ x, x ∈ l ↔ rtc (adjacent s) w x).
Proof.
  intros Hnet Hw.
  destruct (wiresConnectedTo_spec s w n Hnet Hw)
    as (l & Hrun & Hfuel & Hhead & Hreach & Hsub & _).
  exists l. split; [done|]. split; [done|].
  assert (w ∈ l) as Hwl.
  { destruct l as [|y l]; [done|]. injection Hhead as ->. by left. }
  split; [done|]. split; [|split].
  - intros x. rewrite Hreach. split; [|tauto].
    intros Hx. split; [|done]. apply Hsub. by apply Hreach.
  - intros C x Hx. apply elem_of_connectedPass in Hx. tauto.
  - intros Hwithin x. rewrite Hreach. split.
    + apply rtc_subrel. by intros a b [_ Hadj].
    + intros Hx.
      cut (x ∈ netWires s n ∧ reachableIn s (netWires s n) w x); [by intros [_ ?]|].
      revert x Hx. apply rtc_ind_r.
      * split; [done|apply rtc_refl].
      * intros y z _ Hyz [HyN Hy]. assert (z ∈ netWires s n) as HzN
          by (by apply (Hwithin y z)).
        split; [done|]. eapply rtc_r; [done|]. by split.
Qed.

(** In scenario S1 with the junction formed, both wires are connected to
    wire 1. *)
Lemma wiresConnectedTo_returns_component_S1 :
  ∃ l, wiresConnectedTo 1 sceneS1Joined = Some l ∧ 1%nat ∈ l ∧ 0%nat ∈ l.
Proof.
  destruct (wiresConnectedTo_returns_component sceneS1Joined 1 0)
    as (l & Hrun & _ & Hw & Hreach & _).
  - reflexivity.
  - vm_compute. right. by left.
  - exists l. split; [exact Hrun|]. split; [exact Hw|].
    apply (Hreach 0%nat). split; [vm_compute; by left|].
    apply rtc_once. split; [vm_compute; by left|]. right. vm_compute. by left.
Defined.

(** C10 as stated fails where a connection leaves the net.  In the scene
    of three crossed wires as loaded, [removeWire] has taken wire 0 out
    of the net and wire 0 still records wires 1 and 2.  Wire 2 is a wire
    of the net of wire 1 and is reachable from wire 1 through the
    symmetric closure of the connected-wires relation, by way of wire 0;
    [wiresConnectedTo] returns wire 1 alone. *)
Lemma wiresConnectedTo_misses_wire_reached_outside_net :
  ∃ s0 s, from_container_passes pointOnPolyline 1 sceneCrossed = Some s0
    ∧ removeWire 0 s0 = Some s
    ∧ _net (getWire s 1) = Some 0%nat
    ∧ netWires s 0 = [1%nat; 2%nat]
    ∧ connectedWires s 0 = [1%nat; 2%nat]
    ∧ rtc (adjacent s) 1%nat 2%nat
    ∧ wiresConnectedTo 1 s = Some [1%nat].
Proof.
  eexists. eexists. split; [by vm_compute|]. split; [by vm_compute|].
  do 3 (split; [by vm_compute|]). split; [|by vm_compute].
  apply (rtc_l _ _ 0%nat).
  - right. vm_compute. by left.
  - apply rtc_once. left. vm_compute. right. by left.
Qed.

Example wiresConnectedTo_S1 : wiresConnectedTo 1 sceneS1Joined = Some [1%nat; 0%nat].
Proof. vm_compute. reflexivity. Qed.

(** ** Breaking stale junctions *)

(** C3 (the code departs from it): wire 1 has its points 0 and 2, both
    junctions, at (50,0) on wire 0, which records wire 1; the user has just
    moved point 0 there.  Point 2 is a junction of wire 1 other than the
    moved one and lies on wire 0, so the connection should be kept; the
    pass "Detach wires" takes it for the point that moved, because
    [indexOf] finds it at index 0, and disconnects the wires.  (The pass
    that follows finds the moved point on wire 0 and connects them again.) *)
Theorem stale_junction_pass_drops_live_connection :
  let s := sceneBothEndsOnHost in
  connectedWires s 0 = [1%nat]
  ∧ wirePointsAbsolute (getWire s 1) !! 2%nat = Some (mkWirePoint (50, 0) true)
  ∧ pointIsOnWire pointOnPolyline (getWire s 0) (50, 0) = true
  ∧ anotherJunctionOn pointOnPolyline s 1 0 0 = false
  ∧ ∃ s', detachWires pointOnPolyline 1 0 (mkWirePoint (50, 0) true) s = Some s'
      ∧ connectedWires s' 0 = []
      ∧ isJunction <$> wirePointsAbsolute (getWire s' 1) = [false; false; true]
      ∧ ∃ s'', wirePointMovedByUser pointOnPolyline 1 0 s = Some s''
          ∧ connectedWires s'' 0 = [1%nat]
          ∧ _nets s'' = [0%nat] ∧ netWires s'' 0 = [0%nat; 1%nat].
Proof.
  cbv zeta. split; [reflexivity|]. split; [reflexivity|].
  split; [vm_compute; reflexivity|]. split; [vm_compute; reflexivity|].
  eexists. split; [vm_compute; reflexivity|].
  split; [vm_compute; reflexivity|]. split; [vm_compute; reflexivity|].
  eexists. split; [vm_compute; reflexivity|].
  split; [vm_compute; reflexivity|]. split; vm_compute; reflexivity.
Qed.

(** ** Removing a wire: the nets stay the connected components *)

Section SplitLoop.
Implicit Types (s : Scene) (n m : NetId) (w v x : WireId) (l old : list WireId).

(** The loop of [disconnectWire] that moves the wires that are not in
    [old] from net [n] to the new net [n']. *)
Lemma disconnectWire_loop n n' old l s :
  n ≠ n' →
  let s' := foldl (λ s wireToMove,
                     if contains old wireToMove then s
                     else WireNet_removeWire n wireToMove
                            (WireNet_addWire n' wireToMove s)) s l in
  netWires s' n = filter (λ w, w ∈ old ∨ w ∉ l) (netWires s n)
  ∧ netWires s' n' = netWires s n' ++ filter (λ w, w ∉ old) l
  ∧ (∀ m, m ≠ n → m ≠ n' → netWires s' m = netWires s m)
  ∧ (∀ v, _net (getWire s' v)
          = if decide (v ∈ l ∧ v ∉ old) then Some n' else _net (getWire s v))
  ∧ (∀ v, connectedWires s' v = connectedWires s v)
  ∧ _nets s' = _nets s
  ∧ dom (netStore s) ⊆ dom (netStore s').
Proof.
  intros Hne. cbv zeta. revert s. induction l as [|x l IH]; intros s.
  - cbn [foldl]. split_and!.
    + symmetry. apply filter_all. intros w _. right. apply not_elem_of_nil.
    + by rewrite app_nil_r.
    + done.
    + intros v. rewrite decide_False; [done|]. intros [Hv _]. by apply elem_of_nil in Hv.
    + done.
    + done.
    + done.
  - cbn [foldl]. destruct (contains old x) eqn:Hx;
      [apply bool_decide_eq_true in Hx|apply bool_decide_eq_false in Hx].
    + destruct (IH s) as (Hn & Hn' & Hm & Hnet & Hconn & Hnets & Hdom).
      split_and!.
      * rewrite Hn. apply list_filter_iff. intros w. rewrite not_elem_of_cons.
        split; [|tauto]. intros [?|?]; [by left|].
        destruct (decide (w = x)) as [->|]; [by left|by right].
      * rewrite Hn'. by rewrite filter_cons_False by (intros H; by apply H).
      * done.
      * intros v. rewrite Hnet. destruct (decide (v ∈ l ∧ v ∉ old)) as [[H1 H2]|H1].
        -- rewrite decide_True; [done|]. split; [by right|done].
        -- rewrite decide_False; [done|]. intros [H2 H3]. apply H1.
           apply elem_of_cons in H2 as [->|H2]; done.
      * done.
      * done.
      * done.
    + set (s1 := WireNet_removeWire n x (WireNet_addWire n' x s)).
      destruct (IH s1) as (Hn & Hn' & Hm & Hnet & Hconn & Hnets & Hdom).
      split_and!.
      * rewrite Hn. unfold s1. rewrite netWires_removeWire, netWires_addWire.
        rewrite (decide_True (P := n = n)) by done.
        rewrite (decide_False (P := n' = n)) by done.
        unfold removeAll. rewrite list_filter_filter. apply list_filter_iff.
        intros w. rewrite not_elem_of_cons. split.
        -- intros [[?|?] ?]; [by left|by right].
        -- intros [?|[? ?]]; [|tauto]. split; [by left|congruence].
      * rewrite Hn'. unfold s1. rewrite netWires_removeWire, netWires_addWire.
        rewrite (decide_False (P := n = n')) by done.
        rewrite (decide_True (P := n' = n')) by done.
        rewrite filter_cons_True by done. by rewrite <- app_assoc.
      * intros m Hmn Hmn'. rewrite (Hm m Hmn Hmn'). unfold s1.
        rewrite netWires_removeWire, netWires_addWire.
        rewrite (decide_False (P := n = m)) by done.
        by rewrite (decide_False (P := n' = m)) by done.
      * intros v. rewrite Hnet. unfold s1.
        change (_net (getWire (WireNet_removeWire n x (WireNet_addWire n' x s)) v))
          with (_net (getWire (WireNet_addWire n' x s) v)).
        rewrite net_addWire.
        destruct (decide (v ∈ l ∧ v ∉ old)) as [[H1 H2]|H1].
        -- rewrite decide_True; [done|]. split; [by right|done].
        -- destruct (decide (x = v)) as [->|Hxv].
           ++ rewrite decide_True; [done|]. split; [by left|done].
           ++ rewrite decide_False; [done|]. intros [H2 H3]. apply H1.
              apply elem_of_cons in H2 as [->|H2]; done.
      * intros v. rewrite Hconn. unfold s1.
        by rewrite connectedWires_removeWire, connectedWires_addWire.
      * by rewrite Hnets.
      * etrans; [|exact Hdom]. unfold s1, WireNet_removeWire, WireNet_addWire.
        simpl. rewrite !dom_insert. set_solver.
Qed.
End SplitLoop.


Section Reach.
Implicit Types (s t : Scene) (N M : list WireId) (a b x y : WireId).

Lemma adjacent_sym s x y : adjacent s x y → adjacent s y x.
Proof. unfold adjacent. tauto. Qed.

Lemma reachableIn_in s N a b : a ∈ N → reachableIn s N a b → b ∈ N.
Proof. intros Ha Hreach. induction Hreach as [|x y z [Hy _] _ IH]; [done|by apply IH]. Qed.

Lemma reachableIn_sym s N a b : a ∈ N → reachableIn s N a b → reachableIn s N b a.
Proof.
  intros Ha Hreach. induction Hreach as [|x y z [Hy Hadj] _ IH]; [apply rtc_refl|].
  eapply rtc_r; [by apply IH|]. split; [done|by apply adjacent_sym].
Qed.

Lemma reachableIn_trans s N a b x :
  reachableIn s N a b → reachableIn s N b x → reachableIn s N a x.
Proof. intros H1 H2. by etrans. Qed.

(** A chain is still a chain for another scene or another list of wires
    when each of its steps is. *)
Lemma reachableIn_mono s t N M a b :
  (∀ x y, reachableIn s N a x → linked s N x y → linked t M x y) →
  reachableIn s N a b → reachableIn t M a b.
Proof.
  intros Hstep. revert b. apply rtc_ind_r; [apply rtc_refl|].
  intros y z Hy Hyz IH. eapply rtc_r; [done|]. by apply Hstep.
Qed.

(** The connections after [b] has dropped [a] from its set. *)
Lemma adjacent_without_edge s t a b :
  (∀ x, connectedWires t x
        = if decide (x = b) then removeAll a (connectedWires s b)
          else connectedWires s x) →
  b ∉ connectedWires s a →
  ∀ x y, adjacent t x y
         ↔ adjacent s x y ∧ ¬ (x = a ∧ y = b) ∧ ¬ (x = b ∧ y = a).
Proof.
  intros Hconn Hdir x y. unfold adjacent. rewrite !Hconn.
  destruct (decide (x = b)) as [->|Hxb]; destruct (decide (y = b)) as [->|Hyb];
    rewrite ?elem_of_removeAll.
  - split; [intros [[? ?]|[? ?]]|intros ([?|?] & H1 & H2)].
    + split; [by left|]. split; by intros [? ?].
    + split; [by left|]. split; by intros [? ?].
    + left. split; [done|]. intros ->. by apply H2.
    + left. split; [done|]. intros ->. by apply H2.
  - split; [intros [[? ?]|?]|intros ([?|?] & H1 & H2)].
    + split; [by left|]. split; [by intros [? ?]|by intros [_ ?]].
    + split; [by right|]. split; [by intros [? ?]|].
      intros [_ ->]. by apply Hdir.
    + left. split; [done|]. intros ->. by apply H2.
    + by right.
  - split; [intros [?|[? ?]]|intros ([?|?] & H1 & H2)].
    + split; [by left|]. split; [|by intros [? ?]].
      intros [-> _]. by apply Hdir.
    + split; [by right|]. split; [by intros [? _]|by intros [? ?]].
    + by left.
    + right. split; [done|]. intros ->. by apply H1.
  - split; [intros ?|by intros [? _]]. split; [done|]. split; by intros [? ?].
Qed.

(** Without the edge between [a] and [b], a wire that reached [a] still
    reaches [a] or [b]. *)
Lemma reachableIn_without_edge s t N a b :
  (∀ x y, adjacent t x y
          ↔ adjacent s x y ∧ ¬ (x = a ∧ y = b) ∧ ¬ (x = b ∧ y = a)) →
  ∀ x, reachableIn s N x a → reachableIn t N x a ∨ reachableIn t N x b.
Proof.
  intros Hadj. apply rtc_ind_l; [left; apply rtc_refl|].
  intros x y [Hy Hxy] _ IH.
  destruct (decide (x = a)) as [->|Hxa]; [left; apply rtc_refl|].
  destruct (decide (x = b)) as [->|Hxb]; [right; apply rtc_refl|].
  assert (linked t N x y) as Hstep.
  { split; [done|]. apply Hadj. split; [done|]. split; by intros [? _]. }
  destruct IH as [IH|IH]; [left|right]; by eapply rtc_l.
Qed.
End Reach.


Section WellFormed.
Implicit Types (s t : Scene) (n m : NetId) (a b w v x y : WireId) (l : list WireId).

Lemma wf_disjoint s n m w :
  wellFormed s → n ∈ _nets s → m ∈ _nets s →
  w ∈ netWires s n → w ∈ netWires s m → n = m.
Proof.
  intros Hwf Hn Hm Hwn Hwm.
  pose proof (wf_backref s Hwf n w Hn Hwn) as H1.
  pose proof (wf_backref s Hwf m w Hm Hwm) as H2. congruence.
Qed.

Lemma nodup_same_length_subset (l N : list nat) :
  NoDup l → (∀ x, x ∈ l → x ∈ N) → length l = length N → ∀ x, x ∈ N → x ∈ l.
Proof.
  intros Hl Hsub Hlen x Hx.
  assert (l ⊆+ N) as Hms by (by apply NoDup_submseteq).
  assert (l ≡ₚ N) as Hperm by (apply submseteq_length_Permutation; [done|lia]).
  by rewrite Hperm.
Qed.

Lemma nodup_missing_shorter (l N : list nat) (a : nat) :
  NoDup l → (∀ x, x ∈ l → x ∈ N) → a ∈ N → a ∉ l → (length l < length N)%nat.
Proof.
  intros Hl Hsub Ha Hal.
  assert (a :: l ⊆+ N) as Hms.
  { apply NoDup_submseteq; [by apply NoDup_cons|].
    intros x Hx. apply elem_of_cons in Hx as [->|Hx]; [done|by apply Hsub]. }
  apply submseteq_length in Hms. simpl in Hms. lia.
Qed.


Lemma edgeRemoved_wires s t a b x :
  edgeRemoved s t a b → x ∈ wires t ↔ x ∈ wires s.
Proof.
  intros H. rewrite !elem_of_wires. rewrite (er_nets _ _ _ _ H).
  split; intros (m & Hm & Hx); exists m; split; try done;
    by rewrite ?(er_netWires _ _ _ _ H) in *.
Qed.

Lemma edgeRemoved_subset s t a b x y :
  edgeRemoved s t a b → y ∈ connectedWires t x → y ∈ connectedWires s x.
Proof.
  intros H. rewrite (er_conn _ _ _ _ H). destruct (decide (x = b)) as [->|]; [|done].
  rewrite elem_of_removeAll. tauto.
Qed.

Section Step.
Variables (s t : Scene) (n : NetId) (a b : WireId).
Hypothesis Hwf : wellFormed s.
Hypothesis Hn : n ∈ _nets s.
Hypothesis Ha : a ∈ netWires s n.
Hypothesis Hb : b ∈ netWires s n.
Hypothesis Hab : a ∈ connectedWires s b.
Hypothesis Her : edgeRemoved s t a b.

Lemma step_directional : b ∉ connectedWires s a.
Proof.
  intros Hba. apply (wf_directional s Hwf b a); [|done|done].
  apply elem_of_wires. by exists n.
Qed.

Lemma step_adjacent x y :
  adjacent t x y ↔ adjacent s x y ∧ ¬ (x = a ∧ y = b) ∧ ¬ (x = b ∧ y = a).
Proof.
  apply adjacent_without_edge; [apply (er_conn _ _ _ _ Her)|apply step_directional].
Qed.

(** Every wire of the net still reaches [a] or [b]. *)
Lemma step_reaches x :
  x ∈ netWires s n →
  reachableIn t (netWires s n) x a ∨ reachableIn t (netWires s n) x b.
Proof.
  intros Hx. apply (reachableIn_without_edge s t _ a b step_adjacent).
  by apply (wf_connected s Hwf n).
Qed.

(** If [b] still reaches [a], it reaches every wire of the net. *)
Lemma step_still_connected x :
  reachableIn t (netWires s n) b a → x ∈ netWires s n →
  reachableIn t (netWires s n) b x.
Proof.
  intros Hba Hx. destruct (step_reaches x Hx) as [Hxa|Hxb].
  - etrans; [exact Hba|]. by apply reachableIn_sym.
  - by apply reachableIn_sym.
Qed.

(** The nets other than [n] are as connected as they were. *)
Lemma step_other_net m x y :
  m ∈ _nets s → m ≠ n → x ∈ netWires s m → y ∈ netWires s m →
  reachableIn t (netWires s m) x y.
Proof.
  intros Hm Hmn Hx Hy.
  apply (reachableIn_mono s t (netWires s m) (netWires s m)); [|by apply (wf_connected s Hwf m)].
  intros x' y' Hx' [Hy' Hadj]. split; [done|]. apply step_adjacent.
  assert (x' ∈ netWires s m) as Hx'm by (by apply (reachableIn_in s _ x)).
  split; [done|]. split; intros [-> _]; apply Hmn; by eapply (wf_disjoint s).
Qed.

(** No split: the scene with the edge removed is well formed when [b]
    still reaches [a]. *)
Lemma wellFormed_edgeRemoved :
  reachableIn t (netWires s n) b a → wellFormed t.
Proof.
  intros Hba. pose proof (λ x, edgeRemoved_wires s t a b x Her) as Hwires.
  destruct Her as [Hconn Hnets Hnw Hnet Hdom]. split.
  - rewrite Hnets. apply Hwf.
  - intros m. rewrite Hnets, Hdom. apply Hwf.
  - intros m. rewrite Hnets, Hnw. apply Hwf.
  - intros m w. rewrite Hnets, Hnw, Hnet. apply Hwf.
  - intros m w v. rewrite Hnets, !Hnw. intros Hm Hw Hv.
    apply (wf_within s Hwf m w v); [done|done|]. by eapply edgeRemoved_subset.
  - intros w v. rewrite Hwires. intros Hw Hv Hvw.
    apply (wf_directional s Hwf w v); [done|by eapply edgeRemoved_subset..].
  - intros m x y. rewrite Hnets, !Hnw. intros Hm Hx Hy.
    destruct (decide (m = n)) as [->|Hmn].
    + etrans; [|by apply step_still_connected].
      apply reachableIn_sym; [done|]. by apply step_still_connected.
    + by apply step_other_net.
Qed.
End Step.


Section Split.
Variables (s t u : Scene) (n n' : NetId) (a b : WireId) (l : list WireId).
Hypothesis Hwf : wellFormed s.
Hypothesis Hn : n ∈ _nets s.
Hypothesis Ha : a ∈ netWires s n.
Hypothesis Hb : b ∈ netWires s n.
Hypothesis Hab : a ∈ connectedWires s b.
Hypothesis Her : edgeRemoved s t a b.
Hypothesis Hl : ∀ x, x ∈ l ↔ reachableIn t (netWires s n) b x.
Hypothesis Hal : a ∉ l.
Hypothesis Hfresh : n' ∉ dom (netStore s).
Hypothesis Hsp : netSplit s t u n n' l.

Lemma split_fresh_net : n' ∉ _nets s.
Proof. intros H. by apply Hfresh, (wf_nets_alloc s Hwf). Qed.

Lemma split_distinct : n ≠ n'.
Proof. intros ->. by apply split_fresh_net. Qed.

Lemma split_component_in_net x : x ∈ l → x ∈ netWires s n.
Proof. intros Hx. apply (reachableIn_in t _ b); [done|by apply Hl]. Qed.

Lemma split_component_closed x y :
  x ∈ l → y ∈ netWires s n → adjacent t x y → y ∈ l.
Proof.
  intros Hx Hy Hadj. apply Hl. eapply rtc_r; [by apply Hl|]. by split.
Qed.

Lemma split_adjacent x y : adjacent u x y ↔ adjacent t x y.
Proof. unfold adjacent. by rewrite !(sp_conn _ _ _ _ _ _ Hsp). Qed.

Lemma split_old x : x ∈ netWires u n ↔ x ∈ l.
Proof.
  rewrite (sp_old _ _ _ _ _ _ Hsp), list_elem_of_filter. split; [tauto|].
  intros Hx. split; [done|by apply split_component_in_net].
Qed.

Lemma split_new x : x ∈ netWires u n' ↔ x ∈ netWires s n ∧ x ∉ l.
Proof. rewrite (sp_new _ _ _ _ _ _ Hsp), list_elem_of_filter. tauto. Qed.

Lemma split_nets m : m ∈ _nets u ↔ m ∈ _nets s ∨ m = n'.
Proof.
  rewrite (sp_nets _ _ _ _ _ _ Hsp), elem_of_app, list_elem_of_singleton. tauto.
Qed.

Lemma split_wires x : x ∈ wires u ↔ x ∈ wires s.
Proof.
  rewrite !elem_of_wires. split.
  - intros (m & Hm & Hx). apply split_nets in Hm.
    destruct (decide (m = n')) as [->|Hmn'].
    { exists n. split; [done|]. by apply split_new in Hx as [? _]. }
    destruct Hm as [Hm|]; [|done].
    destruct (decide (m = n)) as [->|Hmn].
    { exists n. split; [done|]. by apply split_component_in_net, split_old. }
    exists m. split; [done|]. by rewrite (sp_other _ _ _ _ _ _ Hsp) in Hx.
  - intros (m & Hm & Hx). destruct (decide (m = n)) as [->|Hmn].
    + destruct (decide (x ∈ l)) as [Hxl|Hxl].
      * exists n. split; [apply split_nets; by left|by apply split_old].
      * exists n'. split; [apply split_nets; by right|by apply split_new].
    + exists m. split; [apply split_nets; by left|].
      rewrite (sp_other _ _ _ _ _ _ Hsp); [done|done|].
      intros ->. by apply split_fresh_net.
Qed.

(** A wire of the net outside the component of [b] reaches [a], by a
    chain that stays outside the component. *)
Lemma split_reaches_a x :
  x ∈ netWires s n → x ∉ l → reachableIn u (netWires u n') x a.
Proof.
  intros Hx Hxl.
  destruct (step_reaches s t n a b Hwf Hn Ha Hb Hab Her x Hx) as [Hxa|Hxb]; cycle 1.
  { exfalso. apply Hxl, Hl. by apply reachableIn_sym. }
  revert Hxa. apply reachableIn_mono.
  intros x' y' Hx' [Hy' Hadj]. split; [|by apply split_adjacent].
  apply split_new. split; [done|]. intros Hy'l. apply Hxl, Hl.
  etrans; [by apply Hl|]. apply reachableIn_sym; [done|].
  eapply rtc_r; [done|]. by split.
Qed.

Lemma wellFormed_netSplit : wellFormed u.
Proof.
  pose proof split_distinct as Hnn'. pose proof split_fresh_net as Hn's.
  split.
  - rewrite (sp_nets _ _ _ _ _ _ Hsp). apply NoDup_app. split_and!.
    + apply Hwf.
    + intros m Hm Hm'. apply list_elem_of_singleton in Hm'. subst m. by apply Hn's.
    + apply NoDup_singleton.
  - intros m Hm. apply split_nets in Hm as [Hm| ->].
    + by apply (proj2 (sp_dom _ _ _ _ _ _ Hsp)), (wf_nets_alloc s Hwf).
    + apply (proj1 (sp_dom _ _ _ _ _ _ Hsp)).
  - intros m Hm. apply split_nets in Hm.
    destruct (decide (m = n')) as [->|Hmn'].
    { rewrite (sp_new _ _ _ _ _ _ Hsp). apply NoDup_filter, (wf_wires_nodup s Hwf n Hn). }
    destruct Hm as [Hm|]; [|done].
    destruct (decide (m = n)) as [->|Hmn].
    { rewrite (sp_old _ _ _ _ _ _ Hsp). apply NoDup_filter, (wf_wires_nodup s Hwf n Hn). }
    rewrite (sp_other _ _ _ _ _ _ Hsp) by done. by apply (wf_wires_nodup s Hwf).
  - intros m w Hm Hw. apply split_nets in Hm. rewrite (sp_net _ _ _ _ _ _ Hsp).
    destruct (decide (m = n')) as [->|Hmn'].
    { apply split_new in Hw. by rewrite decide_True. }
    destruct Hm as [Hm|]; [|done].
    destruct (decide (m = n)) as [->|Hmn].
    { apply split_old in Hw. rewrite decide_False by (by intros [_ ?]).
      apply (wf_backref s Hwf n w Hn). by apply split_component_in_net. }
    rewrite (sp_other _ _ _ _ _ _ Hsp) in Hw by done.
    rewrite decide_False; [by apply (wf_backref s Hwf)|].
    intros [Hwn _]. apply Hmn. by apply (wf_disjoint s m n w).
  - intros m w v Hm Hw Hv. apply split_nets in Hm.
    rewrite (sp_conn _ _ _ _ _ _ Hsp) in Hv.
    assert (v ∈ connectedWires s w) as Hvs by (by eapply edgeRemoved_subset).
    destruct (decide (m = n')) as [->|Hmn'].
    { apply split_new in Hw as [Hwn Hwl]. apply split_new.
      assert (v ∈ netWires s n) as Hvn by (by apply (wf_within s Hwf n w v)).
      split; [done|]. intros Hvl. apply Hwl.
      apply (split_component_closed v w); [done|done|]. by right. }
    destruct Hm as [Hm|]; [|done].
    destruct (decide (m = n)) as [->|Hmn].
    { apply split_old in Hw. apply split_old.
      apply (split_component_closed w v); [done| |by left].
      apply (wf_within s Hwf n w v); [done|by apply split_component_in_net|done]. }
    rewrite (sp_other _ _ _ _ _ _ Hsp) in Hw |- * by done.
    by apply (wf_within s Hwf m w v).
  - intros w v Hw Hv Hvw. apply split_wires in Hw.
    rewrite (sp_conn _ _ _ _ _ _ Hsp) in Hv, Hvw.
    apply (wf_directional s Hwf w v); [done|by eapply edgeRemoved_subset..].
  - intros m x y Hm Hx Hy. apply split_nets in Hm.
    destruct (decide (m = n')) as [->|Hmn'].
    { apply split_new in Hx as Hx', Hy as Hy'.
      destruct Hx' as [Hxn Hxl], Hy' as [Hyn Hyl].
      etrans; [by apply split_reaches_a|].
      apply reachableIn_sym; [done|]. by apply split_reaches_a. }
    destruct Hm as [Hm|]; [|done].
    destruct (decide (m = n)) as [->|Hmn].
    { assert (∀ z, z ∈ l → reachableIn u (netWires u n) b z) as Hbz.
      { intros z Hz. apply Hl in Hz. revert Hz. apply reachableIn_mono.
        intros x' y' Hx' [Hy' Hadj]. split; [|by apply split_adjacent].
        apply split_old. apply (split_component_closed x' y'); [by apply Hl|done|done]. }
      apply split_old in Hx as Hx', Hy as Hy'.
      etrans; [|by apply Hbz].
      apply reachableIn_sym; [|by apply Hbz]. apply split_old, Hl, rtc_refl. }
    rewrite (sp_other _ _ _ _ _ _ Hsp) in Hx, Hy |- * by done.
    pose proof (step_other_net s t n a b Hwf Hn Ha Hb Hab Her m x y Hm Hmn Hx Hy) as Hreach.
    revert Hreach. apply reachableIn_mono.
    intros x' y' _ [Hy' Hadj]. split; [done|by apply split_adjacent].
Qed.
End Split.
End WellFormed.


Lemma filter_ext_in {A} (P Q : A → Prop) `{∀ x, Decision (P x), ∀ x, Decision (Q x)}
    (l : list A) :
  (∀ x, x ∈ l → P x ↔ Q x) → filter P l = filter Q l.
Proof.
  induction l as [|x l IH]; intros Hiff; [done|].
  rewrite !filter_cons. rewrite IH by (intros y Hy; apply Hiff; by right).
  destruct (decide (P x)) as [HP|HP].
  - rewrite decide_True; [done|]. apply Hiff; [by left|done].
  - rewrite decide_False; [done|]. intros HQ. apply HP. apply Hiff; [by left|done].
Qed.

Section DisconnectWire.
Implicit Types (s t : Scene) (n m : NetId) (a b w v x y : WireId) (l : list WireId).

Lemma edgeRemoved_updWire s a b :
  edgeRemoved s (updWire b (Wire_disconnectWire a) s) a b.
Proof.
  split; try done.
  - intros x. unfold connectedWires. rewrite getWire_updWire.
    destruct (decide (b = x)) as [->|Hbx].
    + by rewrite decide_True.
    + by rewrite decide_False.
  - intros x. rewrite getWire_updWire. by destruct (decide (b = x)).
Qed.

(** [disconnectWire] on a connection between two wires of one net of a
    well-formed scene: the record is dropped, the net is split when the
    two wires are no longer connected, and the scene stays well formed. *)
Lemma disconnectWire_wellFormed s n a b :
  wellFormed s → n ∈ _nets s →
  a ∈ netWires s n → b ∈ netWires s n → a ∈ connectedWires s b →
  ∃ s', disconnectWire a b s = Some s'
    ∧ wellFormed s'
    ∧ (∀ x, connectedWires s' x
            = if decide (x = b) then removeAll a (connectedWires s b)
              else connectedWires s x)
    ∧ (∀ x, x ∈ wires s' ↔ x ∈ wires s)
    ∧ (∀ m, m ∈ _nets s → m ∈ _nets s')
    ∧ (∀ m, m ∈ _nets s → m ≠ n → netWires s' m = netWires s m).
Proof.
  intros Hwf Hn Ha Hb Hab.
  set (s1 := updWire b (Wire_disconnectWire a) s).
  pose proof (edgeRemoved_updWire s a b) as Her. fold s1 in Her.
  assert (_net (getWire s1 a) = Some n) as Hneta.
  { rewrite (er_net _ _ _ _ Her). by apply (wf_backref s Hwf). }
  assert (_net (getWire s1 b) = Some n) as Hnetb.
  { rewrite (er_net _ _ _ _ Her). by apply (wf_backref s Hwf). }
  destruct (wiresConnectedTo_spec s1 b n Hnetb Hb)
    as (l & Hrun & _ & _ & Hreach & Hsub & Hnodup).
  change (netWires s1 n) with (netWires s n) in Hreach, Hsub, Hnodup.
  specialize (Hnodup (wf_wires_nodup s Hwf n Hn)).
  unfold disconnectWire. fold s1. rewrite Hneta. cbn [mbind option_bind].
  rewrite Hrun. cbn [mbind option_bind].
  change (netWires s1 n) with (netWires s n).
  destruct (decide (a ∈ l)) as [Hal|Hal].
  - assert (length (netWires s n) = length l) as Hlen.
    { apply Permutation_length, NoDup_Permutation;
        [by apply (wf_wires_nodup s Hwf)|done|].
      intros x. split; [|apply Hsub]. intros Hx. apply Hreach.
      apply (step_still_connected s s1 n a b); try done. by apply Hreach. }
    rewrite bool_decide_eq_false_2 by (unfold count; lia).
    exists s1. split; [done|]. split_and!.
    + apply (wellFormed_edgeRemoved s s1 n a b); try done. by apply Hreach.
    + apply (er_conn _ _ _ _ Her).
    + intros x. by apply (edgeRemoved_wires s s1 a b).
    + done.
    + done.
  - assert (length l < length (netWires s n))%nat as Hlen
      by (by apply (nodup_missing_shorter l _ a)).
    rewrite bool_decide_eq_true_2 by (unfold count; lia).
    unfold newWireNet. cbv zeta.
    set (n' := fresh (dom (netStore s1))).
    assert (n' ∉ dom (netStore s)) as Hfresh by apply is_fresh.
    assert (n ≠ n') as Hnn'.
    { intros ->. by apply Hfresh, (wf_nets_alloc s Hwf). }
    set (s3 := addWireNet n' (upd_netStore (λ store, <[n' := emptyNet]> store) s1)).
    assert (∀ m, netWires s3 m = if decide (n' = m) then [] else netWires s m) as Hnw3.
    { intros m. unfold netWires, getNet, s3. simpl.
      destruct (decide (n' = m)) as [->|Hne].
      - by rewrite lookup_total_insert_eq.
      - by rewrite lookup_total_insert_ne. }
    assert (netWires s3 n = netWires s n) as Hn3.
    { rewrite Hnw3. destruct (decide (n' = n)); [congruence|done]. }
    assert (netWires s3 n' = []) as Hn3'.
    { rewrite Hnw3. by rewrite decide_True. }
    rewrite Hn3.
    destruct (disconnectWire_loop n n' l (netWires s n) s3 Hnn')
      as (Hold & Hnew & Hother & Hnet & Hconn & Hnets & Hdom).
    rewrite Hn3 in Hold. rewrite Hn3' in Hnew.
    eexists. split; [reflexivity|].
    match goal with |- wellFormed ?result ∧ _ => set (u := result) in * end.
    assert (netSplit s s1 u n n' l) as Hsp.
    { split.
      - intros x. by rewrite Hconn.
      - by rewrite Hnets.
      - rewrite Hold. apply filter_ext_in. intros x Hx. tauto.
      - by rewrite Hnew.
      - intros m Hmn Hmn'. rewrite Hother, Hnw3 by done. by rewrite decide_False.
      - intros v. rewrite Hnet.
        change (getWire s3 v) with (getWire s1 v). by rewrite (er_net _ _ _ _ Her).
      - split.
        + apply Hdom. unfold s3. simpl. rewrite dom_insert. set_solver.
        + etrans; [|exact Hdom]. unfold s3. simpl. rewrite dom_insert.
          change (netStore s1) with (netStore s). set_solver. }
    split_and!.
    + by apply (wellFormed_netSplit s s1 u n n' a b l).
    + intros x. rewrite (sp_conn _ _ _ _ _ _ Hsp). apply (er_conn _ _ _ _ Her).
    + by apply (split_wires s s1 u n n' b l).
    + intros m Hm. apply (split_nets s s1 u n n' l Hsp). by left.
    + intros m Hm Hmn. apply (sp_other _ _ _ _ _ _ Hsp); [done|].
      intros ->. by apply Hfresh, (wf_nets_alloc s Hwf).
Qed.
End DisconnectWire.



Section Components.
Implicit Types (s t : Scene) (n m : NetId) (a b w v x y : WireId) (l : list WireId).

(** In a well-formed scene the nets are the connected components. *)
Lemma nets_are_components s x y :
  wellFormed s → x ∈ wires s → sameNet s x y ↔ connectedInScene s x y.
Proof.
  intros Hwf Hx. split.
  - intros (n & Hn & Hxn & Hyn).
    pose proof (wf_connected s Hwf n x y Hn Hxn Hyn) as Hreach.
    revert Hreach. apply rtc_subrel. intros a b [Hb Hadj]. split; [|done].
    apply elem_of_wires. by exists n.
  - apply elem_of_wires in Hx as (n & Hn & Hxn).
    intros Hreach. exists n. split; [done|]. split; [done|].
    revert y Hreach. apply rtc_ind_r; [done|].
    intros a b _ [Hb [Hab|Hba]] Ha.
    + by apply (wf_within s Hwf n a b).
    + apply elem_of_wires in Hb as (m & Hm & Hbm).
      assert (a ∈ netWires s m) as Ham by (by apply (wf_within s Hwf m b a)).
      by rewrite (wf_disjoint s n m a Hwf Hn Hm Ha Ham).
Qed.
End Components.

Section RemovalPhase.
Implicit Types (s t : Scene) (n m : NetId) (w v x y : WireId) (l : list NetId).

(** The loop "Remove the wire from the list". *)
Lemma removeWire_nets_loop wire l s del :
  let r := foldl (λ '(s, netsToDelete) net,
                    let s' := if WireNet_contains net wire s
                              then WireNet_removeWire net wire s else s in
                    (s', if bool_decide (count (netWires s' net) < 1)
                         then netsToDelete ++ [net] else netsToDelete))
                 (s, del) l in
  (∀ m, netWires r.1 m = if decide (m ∈ l) then removeAll wire (netWires s m)
                         else netWires s m)
  ∧ r.2 = del ++ filter (λ m, removeAll wire (netWires s m) = []) l
  ∧ wireStore r.1 = wireStore s ∧ _nets r.1 = _nets s
  ∧ dom (netStore s) ⊆ dom (netStore r.1).
Proof.
  cbv zeta. revert s del. induction l as [|n l IH]; intros s del.
  - cbn [foldl fst snd]. split_and!; try done.
    + by rewrite app_nil_r.
  - cbn [foldl].
    set (s1 := if WireNet_contains n wire s then WireNet_removeWire n wire s else s).
    assert (∀ m, netWires s1 m = if decide (n = m) then removeAll wire (netWires s m)
                                else netWires s m) as Hs1.
    { intros m. unfold s1, WireNet_contains, contains. case_bool_decide as Hc.
      - apply netWires_removeWire.
      - destruct (decide (n = m)) as [<-|]; [|done]. by rewrite removeAll_notin. }
    assert (wireStore s1 = wireStore s ∧ _nets s1 = _nets s
            ∧ dom (netStore s) ⊆ dom (netStore s1)) as (Hws1 & Hnets1 & Hdom1).
    { unfold s1. destruct (WireNet_contains n wire s); [|done].
      split_and!; [done|done|]. simpl. rewrite dom_insert. set_solver. }
    destruct (IH s1 (if bool_decide (count (netWires s1 n) < 1)
                     then del ++ [n] else del))
      as (Hnw & Hdel & Hws & Hnets & Hdom).
    split_and!.
    + intros m. rewrite Hnw, Hs1.
      destruct (decide (n = m)) as [<-|Hnm].
      * rewrite (decide_True (P := n ∈ n :: l)) by (by left).
        destruct (decide (n ∈ l)); [|done].
        unfold removeAll. rewrite list_filter_filter. apply list_filter_iff. tauto.
      * destruct (decide (m ∈ l)) as [Hm|Hm].
        -- rewrite decide_True; [done|by right].
        -- rewrite decide_False; [done|]. rewrite not_elem_of_cons. split; [congruence|done].
    + rewrite Hdel. rewrite filter_cons.
      assert (filter (λ m, removeAll wire (netWires s1 m) = []) l
              = filter (λ m, removeAll wire (netWires s m) = []) l) as ->.
      { apply list_filter_iff. intros m. rewrite Hs1.
        destruct (decide (n = m)); [|done].
        unfold removeAll. rewrite list_filter_filter.
        assert (filter (λ x, x ≠ wire ∧ x ≠ wire) (netWires s m)
                = filter (λ y, y ≠ wire) (netWires s m)) as ->; [|done].
        apply list_filter_iff. tauto. }
      rewrite Hs1. rewrite decide_True by done.
      destruct (decide (removeAll wire (netWires s n) = [])) as [Hempty|Hne].
      * rewrite Hempty. rewrite bool_decide_eq_true_2 by (unfold count; simpl; lia).
        by rewrite <- app_assoc.
      * rewrite bool_decide_eq_false_2; [done|].
        unfold count. destruct (removeAll wire (netWires s n)); [done|simpl; lia].
    + by rewrite Hws.
    + by rewrite Hnets.
    + by etrans.
Qed.

(** The loop "Delete the net if this was the nets last wire". *)
Lemma removeWireNet_loop (del : list NetId) s :
  let s' := foldl (λ s net, removeWireNet net s) s del in
  _nets s' = filter (λ m, m ∉ del) (_nets s)
  ∧ wireStore s' = wireStore s ∧ netStore s' = netStore s.
Proof.
  cbv zeta. revert s. induction del as [|n del IH]; intros s.
  - cbn [foldl]. split; [|done]. symmetry. apply filter_all.
    intros m _. apply not_elem_of_nil.
  - cbn [foldl]. destruct (IH (removeWireNet n s)) as (Hnets & Hws & Hns).
    split; [|by rewrite Hws, Hns]. rewrite Hnets. simpl. unfold removeAll.
    rewrite list_filter_filter. apply list_filter_iff. intros m.
    rewrite not_elem_of_cons. tauto.
Qed.
End RemovalPhase.




Section RemoveWire.
Variables (s : Scene) (W : WireId) (N : NetId).
Hypothesis Hwf : wellFormed s.
Hypothesis HN : N ∈ _nets s.
Hypothesis HW : W ∈ netWires s N.
Implicit Types (t : Scene) (n m : NetId) (w v x y X : WireId) (P L : list WireId).

Lemma wire_in_scene x : x ∈ netWires s N → x ∈ wires s.
Proof. intros Hx. apply elem_of_wires. by exists N. Qed.

Lemma no_self_record : W ∉ connectedWires s W.
Proof.
  intros H. by apply (wf_directional s Hwf W W); [apply wire_in_scene|..].
Qed.

Lemma removing_start : removing s W N [] s.
Proof.
  split; [done|done| | |done].
  - symmetry. apply filter_all. intros y _. apply not_elem_of_nil.
  - intros x _. rewrite decide_False; [done|apply not_elem_of_nil].
Qed.

(** The net of [t] that lists [W] is none of the other nets of [s]. *)
Lemma removing_current_net P t m m0 :
  removing s W N P t → W ∈ netWires t m → m0 ∈ _nets s → m0 ≠ N → m0 ≠ m.
Proof.
  intros Hrm HWm Hm0 Hm0N ->.
  destruct (rm_nets _ _ _ _ _ Hrm m Hm0 Hm0N) as [_ Heq]. rewrite Heq in HWm.
  apply Hm0N. by apply (wf_disjoint s m N W).
Qed.

Lemma removing_step P t X :
  removing s W N P t → X ∈ netWires s N → X ∉ P →
  ∃ t', disconnectFrom W X t = Some t' ∧ removing s W N (P ++ [X]) t'.
Proof.
  intros Hrm HX HXP. unfold disconnectFrom.
  assert (∀ x, x ≠ X → x ∈ P ++ [X] ↔ x ∈ P) as Hmem.
  { intros x Hx. rewrite elem_of_app, list_elem_of_singleton. tauto. }
  case_bool_decide as HXW; cycle 1.
  { assert (X = W) as -> by (by destruct (decide (X = W))).
    exists t. split; [done|]. destruct Hrm as [Hwft Hwires Hown Hother Hnets].
    split; [done|done| | |done].
    - rewrite Hown. apply filter_ext_in. intros y Hy.
      rewrite not_elem_of_app, list_elem_of_singleton. split; [|tauto].
      intros HyP. split; [done|]. intros ->. by apply no_self_record.
    - intros x Hx. rewrite (Hother x Hx).
      destruct (decide (x ∈ P)) as [HxP|HxP].
      + rewrite decide_True; [done|]. by apply Hmem.
      + rewrite decide_False; [done|]. by rewrite Hmem. }
  pose proof (rm_wf _ _ _ _ _ Hrm) as Hwft.
  assert (connectedWires t X = connectedWires s X) as HconnX.
  { rewrite (rm_other _ _ _ _ _ Hrm X HXW). by rewrite decide_False. }
  assert (X ∈ wires t) as HXt by (by apply (rm_wires _ _ _ _ _ Hrm), wire_in_scene).
  assert (W ∈ wires t) as HWt by (by apply (rm_wires _ _ _ _ _ Hrm), wire_in_scene).
  unfold contains. case_bool_decide as HWX; [|case_bool_decide as HXinW].
  - (* [X] records [W] *)
    apply elem_of_wires in HXt as (m & Hm & HXm).
    assert (W ∈ netWires t m) as HWm by (by apply (wf_within t Hwft m X W)).
    destruct (disconnectWire_wellFormed t m W X Hwft Hm HWm HXm HWX)
      as (t' & Hrun & Hwf' & Hconn' & Hwires' & Hnets' & Hother').
    exists t'. split; [done|]. split.
    + done.
    + intros x. rewrite Hwires'. apply (rm_wires _ _ _ _ _ Hrm).
    + rewrite Hconn'. rewrite decide_False by done.
      rewrite (rm_own _ _ _ _ _ Hrm). apply filter_ext_in. intros y Hy.
      rewrite not_elem_of_app, list_elem_of_singleton. split; [|tauto].
      intros HyP. split; [done|]. intros ->.
      apply (wf_directional s Hwf X W); [by apply wire_in_scene| |done].
      by rewrite <- HconnX.
    + intros x Hx. rewrite Hconn'. destruct (decide (x = X)) as [->|HxX].
      * rewrite decide_True by (apply elem_of_app; right; by left). by rewrite HconnX.
      * rewrite (rm_other _ _ _ _ _ Hrm x Hx).
        destruct (decide (x ∈ P)) as [HxP|HxP].
        -- rewrite decide_True; [done|]. by apply Hmem.
        -- rewrite decide_False; [done|]. by rewrite Hmem.
    + intros m0 Hm0 Hm0N.
      destruct (rm_nets _ _ _ _ _ Hrm m0 Hm0 Hm0N) as [Hin Heq].
      split; [by apply Hnets'|]. rewrite Hother'; [done|done|].
      by apply (removing_current_net P t m m0).
  - (* [W] records [X] *)
    apply elem_of_wires in HWt as (m & Hm & HWm).
    assert (X ∈ netWires t m) as HXm by (by apply (wf_within t Hwft m W X)).
    destruct (disconnectWire_wellFormed t m X W Hwft Hm HXm HWm HXinW)
      as (t' & Hrun & Hwf' & Hconn' & Hwires' & Hnets' & Hother').
    exists t'. split; [done|]. split.
    + done.
    + intros x. rewrite Hwires'. apply (rm_wires _ _ _ _ _ Hrm).
    + rewrite Hconn'. rewrite decide_True by done.
      rewrite (rm_own _ _ _ _ _ Hrm). unfold removeAll.
      rewrite list_filter_filter. apply list_filter_iff. intros y.
      rewrite not_elem_of_app, list_elem_of_singleton. tauto.
    + intros x Hx. rewrite Hconn'. rewrite decide_False by done.
      destruct (decide (x = X)) as [->|HxX].
      * rewrite decide_True by (apply elem_of_app; right; by left).
        rewrite HconnX. rewrite removeAll_notin; [done|]. by rewrite <- HconnX.
      * rewrite (rm_other _ _ _ _ _ Hrm x Hx).
        destruct (decide (x ∈ P)) as [HxP|HxP].
        -- rewrite decide_True; [done|]. by apply Hmem.
        -- rewrite decide_False; [done|]. by rewrite Hmem.
    + intros m0 Hm0 Hm0N.
      destruct (rm_nets _ _ _ _ _ Hrm m0 Hm0 Hm0N) as [Hin Heq].
      split; [by apply Hnets'|]. rewrite Hother'; [done|done|].
      by apply (removing_current_net P t m m0).
  - (* no record between them *)
    exists t. split; [done|]. split.
    + done.
    + apply (rm_wires _ _ _ _ _ Hrm).
    + rewrite (rm_own _ _ _ _ _ Hrm). apply filter_ext_in. intros y Hy.
      rewrite not_elem_of_app, list_elem_of_singleton. split; [|tauto].
      intros HyP. split; [done|]. intros ->. apply HXinW.
      rewrite (rm_own _ _ _ _ _ Hrm). by apply list_elem_of_filter.
    + intros x Hx. destruct (decide (x = X)) as [->|HxX].
      * rewrite decide_True by (apply elem_of_app; right; by left).
        rewrite HconnX. rewrite removeAll_notin; [done|]. by rewrite <- HconnX.
      * rewrite (rm_other _ _ _ _ _ Hrm x Hx).
        destruct (decide (x ∈ P)) as [HxP|HxP].
        -- rewrite decide_True; [done|]. by apply Hmem.
        -- rewrite decide_False; [done|]. by rewrite Hmem.
    + apply (rm_nets _ _ _ _ _ Hrm).
Qed.

Lemma removing_loop L P t :
  removing s W N P t → (∀ x, x ∈ L → x ∈ netWires s N) → NoDup (P ++ L) →
  ∃ t', forEach (disconnectFrom W) L t = Some t' ∧ removing s W N (P ++ L) t'.
Proof.
  revert P t. induction L as [|X L IH]; intros P t Hrm HL Hnodup.
  - exists t. rewrite app_nil_r. by split.
  - apply NoDup_app in Hnodup as Hnd. destruct Hnd as (_ & Hdisj & _).
    destruct (removing_step P t X Hrm) as (t1 & Hstep & Hrm1).
    { apply HL. by left. }
    { intros HXP. apply (Hdisj X HXP). by left. }
    destruct (IH (P ++ [X]) t1 Hrm1) as (t' & Hrun & Hrm').
    { intros x Hx. apply HL. by right. }
    { by rewrite <- app_assoc. }
    exists t'. cbn [forEach]. rewrite Hstep. cbn [mbind option_bind].
    split; [done|]. by rewrite <- app_assoc in Hrm'.
Qed.
End RemoveWire.

Section RemoveWireResult.
Variables (s : Scene) (W : WireId) (N : NetId).
Hypothesis Hwf : wellFormed s.
Hypothesis HN : N ∈ _nets s.
Hypothesis HW : W ∈ netWires s N.
Implicit Types (t : Scene) (n m : NetId) (w v x y : WireId) (L : list WireId).

(** The scene once [W] is disconnected from all the wires of its net. *)
Section Disconnected.
Variables (t : Scene) (L : list WireId).
Hypothesis HL : ∀ x, x ∈ L ↔ x ∈ netWires s N.
Hypothesis Hrm : removing s W N L t.

Lemma disconnected_own : connectedWires t W = [].
Proof.
  rewrite (rm_own _ _ _ _ _ Hrm). apply filter_none. intros y Hy HyL.
  apply HyL, HL. by apply (wf_within s Hwf N W y).
Qed.

Lemma disconnected_other x :
  x ≠ W → x ∈ wires s → connectedWires t x = removeAll W (connectedWires s x).
Proof.
  intros HxW Hx. rewrite (rm_other _ _ _ _ _ Hrm x HxW).
  destruct (decide (x ∈ L)) as [HxL|HxL]; [done|].
  rewrite removeAll_notin; [done|]. intros HWx. apply HxL, HL.
  apply elem_of_wires in Hx as (m & Hm & Hxm).
  assert (W ∈ netWires s m) as HWm by (by apply (wf_within s Hwf m x W)).
  by rewrite (wf_disjoint s N m W Hwf HN Hm HW HWm).
Qed.

Lemma disconnected_unrecorded x : x ∈ wires t → W ∉ connectedWires t x.
Proof.
  intros Hx. destruct (decide (x = W)) as [->|HxW].
  - rewrite disconnected_own. apply not_elem_of_nil.
  - rewrite disconnected_other; [|done|by apply (rm_wires _ _ _ _ _ Hrm)].
    rewrite elem_of_removeAll. by intros [_ ?].
Qed.

(** [W] is alone in its net. *)
Lemma disconnected_alone m x :
  m ∈ _nets t → W ∈ netWires t m → x ∈ netWires t m → x = W.
Proof.
  intros Hm HWm Hxm.
  pose proof (wf_connected t (rm_wf _ _ _ _ _ Hrm) m W x Hm HWm Hxm) as Hreach.
  apply rtc_inv in Hreach as [->|(y & [Hy [Hadj|Hadj]] & _)]; [done|..].
  - rewrite disconnected_own in Hadj. by apply elem_of_nil in Hadj.
  - exfalso. apply (disconnected_unrecorded y); [|done].
    apply elem_of_wires. by exists m.
Qed.
End Disconnected.
End RemoveWireResult.

(** Where every connection is recorded in one direction only: removing a
    wire [W] of net [N] from a scene whose nets are well formed takes [W]
    out of its net and out of the sets of the wires that recorded it, and
    leaves a well-formed scene: every net is again one connected
    component, so that the wires that were around [W] are spread over one
    net per connected component; no net of the scene is left empty; the
    other nets are as they were. *)
Theorem removeWire_splits_net_into_components (s : Scene) (W : WireId) (N : NetId) :
  wellFormed s →
  N ∈ _nets s →
  W ∈ netWires s N →
  ∃ s', removeWire W s = Some s'
    ∧ wellFormed s'
    ∧ (∀ x, x ∈ wires s' ↔ x ∈ wires s ∧ x ≠ W)
    ∧ (∀ x, x ∈ wires s' → connectedWires s' x = removeAll W (connectedWires s x))
    ∧ (∀ x y, x ∈ wires s' → sameNet s' x y ↔ connectedInScene s' x y)
    ∧ (∀ m, m ∈ _nets s' → netWires s' m ≠ [])
    ∧ (∀ m, m ∈ _nets s → m ≠ N → netWires s m ≠ [] →
            m ∈ _nets s' ∧ netWires s' m = netWires s m).
Proof.
  intros Hwf HN HW.
  destruct (wiresConnectedTo_spec s W N (wf_backref s Hwf N W HN HW) HW)
    as (L & Hrun & _ & _ & Hreach & Hsub & Hnodup).
  specialize (Hnodup (wf_wires_nodup s Hwf N HN)).
  assert (∀ x, x ∈ L ↔ x ∈ netWires s N) as HL.
  { intros x. split; [apply Hsub|]. intros Hx. apply Hreach.
    by apply (wf_connected s Hwf N). }
  destruct (removing_loop s W N Hwf HN HW L [] s (removing_start s W N Hwf) Hsub Hnodup)
    as (t & Hloop & Hrm).
  cbn [app] in Hrm. pose proof (rm_wf _ _ _ _ _ Hrm) as Hwft.
  assert (W ∈ wires t) as HWt.
  { apply (rm_wires _ _ _ _ _ Hrm), elem_of_wires. by exists N. }
  apply elem_of_wires in HWt as (mW & HmW & HWmW).
  pose proof (disconnected_alone s W N Hwf HN HW t L HL Hrm) as Halone.
  pose proof (disconnected_other s W N Hwf HN HW t L HL Hrm) as Hother.
  pose proof (disconnected_unrecorded s W N Hwf HN HW t L HL Hrm) as Hunrec.
  unfold removeWire. rewrite Hrun. cbn [mbind option_bind].
  rewrite Hloop. cbn [mbind option_bind].
  pose proof (removeWire_nets_loop W (_nets t) t []) as Hphase. cbv zeta in Hphase.
  fold (removeFromNets W t) in Hphase.
  destruct (removeFromNets W t) as [s2 del] eqn:Hr. cbn [fst snd app] in Hphase.
  destruct Hphase as (Hnw2 & Hdel & Hws2 & Hnets2 & Hdom2).
  destruct (removeWireNet_loop del s2) as (Hnets' & Hws' & Hns').
  eexists. split; [reflexivity|].
  match goal with |- wellFormed ?result ∧ _ => set (s' := result) in * end.
  assert (∀ x, getWire s' x = getWire t x) as Hget.
  { intros x. unfold getWire. by rewrite Hws', Hws2. }
  assert (∀ x, connectedWires s' x = connectedWires t x) as Hconn.
  { intros x. unfold connectedWires. by rewrite Hget. }
  assert (∀ m, m ∈ _nets t → netWires s' m = removeAll W (netWires t m)) as Hnw.
  { intros m Hm. unfold netWires at 1, getNet. rewrite Hns'.
    fold (getNet s2 m). fold (netWires s2 m). rewrite Hnw2. by rewrite decide_True. }
  assert (∀ m, m ∈ _nets s' ↔ m ∈ _nets t ∧ removeAll W (netWires t m) ≠ []) as Hmem.
  { intros m. rewrite Hnets', Hnets2, Hdel, !list_elem_of_filter. tauto. }
  assert (removeAll W (netWires t mW) = []) as HemptyW.
  { apply filter_none. intros x Hx Hne. apply Hne. by apply (Halone mW). }
  assert (∀ m, m ∈ _nets s' →
               m ∈ _nets t ∧ (W ∉ netWires t m) ∧ netWires s' m = netWires t m
               ∧ netWires t m ≠ []) as Hkeep.
  { intros m Hm. apply Hmem in Hm as [Hmt Hne].
    assert (W ∉ netWires t m) as HWm.
    { intros HWm. apply Hne.
      by rewrite (wf_disjoint t m mW W Hwft Hmt HmW HWm HWmW). }
    rewrite removeAll_notin in Hne by done.
    split_and!; [done|done| |done]. rewrite Hnw by done. by apply removeAll_notin. }
  assert (∀ x, x ∈ wires s' ↔ x ∈ wires s ∧ x ≠ W) as Hwires.
  { intros x. rewrite <- (rm_wires _ _ _ _ _ Hrm). rewrite !elem_of_wires. split.
    - intros (m & Hm & Hx). destruct (Hkeep m Hm) as (Hmt & HWm & Heq & _).
      rewrite Heq in Hx. split; [by exists m|]. by intros ->.
    - intros [(m & Hm & Hx) HxW].
      assert (W ∉ netWires t m) as HWm.
      { intros HWm. by apply HxW, (Halone m). }
      exists m. split.
      + apply Hmem. split; [done|]. rewrite removeAll_notin by done.
        intros Hnil. rewrite Hnil in Hx. by apply elem_of_nil in Hx.
      + rewrite Hnw by done. by rewrite removeAll_notin. }
  assert (wellFormed s') as Hwf'.
  { split.
    - rewrite Hnets', Hnets2. apply NoDup_filter, Hwft.
    - intros m Hm. destruct (Hkeep m Hm) as (Hmt & _).
      rewrite Hns'. by apply Hdom2, (wf_nets_alloc t Hwft).
    - intros m Hm. destruct (Hkeep m Hm) as (Hmt & _ & -> & _).
      by apply (wf_wires_nodup t Hwft).
    - intros m w Hm. destruct (Hkeep m Hm) as (Hmt & _ & -> & _).
      rewrite Hget. by apply (wf_backref t Hwft).
    - intros m w v Hm. destruct (Hkeep m Hm) as (Hmt & _ & -> & _).
      rewrite Hconn. by apply (wf_within t Hwft).
    - intros w v Hw. rewrite !Hconn. apply (wf_directional t Hwft).
      apply (rm_wires _ _ _ _ _ Hrm). by apply Hwires in Hw as [? _].
    - intros m a b Hm. destruct (Hkeep m Hm) as (Hmt & _ & -> & _).
      intros Ha Hb. pose proof (wf_connected t Hwft m a b Hmt Ha Hb) as Hab.
      revert Hab. apply reachableIn_mono. intros x y _ [Hy Hadj].
      split; [done|]. unfold adjacent in *. by rewrite !Hconn. }
  split; [done|]. split; [done|]. split_and!.
  - intros x Hx. apply Hwires in Hx as [Hxs HxW]. rewrite Hconn. by apply Hother.
  - intros x y Hx. by apply nets_are_components.
  - intros m Hm. destruct (Hkeep m Hm) as (_ & _ & -> & Hne). done.
  - intros m Hm HmN Hne.
    destruct (rm_nets _ _ _ _ _ Hrm m Hm HmN) as [Hmt Heq].
    assert (W ∉ netWires t m) as HWm.
    { rewrite Heq. intros HWm. apply HmN. by apply (wf_disjoint s m N W). }
    split.
    + apply Hmem. split; [done|]. rewrite removeAll_notin by done. by rewrite Heq.
    + rewrite Hnw by done. rewrite removeAll_notin by done. done.
Qed.

(** Case analysis on the membership in a list that is given element by
    element. *)
Ltac members H :=
  repeat (apply elem_of_cons in H as [->|H]); try (by apply elem_of_nil in H).

Lemma sceneTwoOnHost_wellFormed : wellFormed sceneTwoOnHost.
Proof.
  assert (∀ b, b ∈ [0%nat; 1%nat; 2%nat] →
               reachableIn sceneTwoOnHost [0%nat; 1%nat; 2%nat] 0%nat b) as Hfrom0.
  { intros b Hb. members Hb.
    - apply rtc_refl.
    - apply rtc_once. split; [vm_compute; right; by left|]. left. vm_compute. by left.
    - apply rtc_once. split; [vm_compute; right; right; by left|].
      left. vm_compute. right. by left. }
  split.
  - apply NoDup_singleton.
  - intros n Hn. change (_nets sceneTwoOnHost) with [0%nat] in Hn. members Hn.
    apply elem_of_dom. by eexists.
  - intros n Hn. change (_nets sceneTwoOnHost) with [0%nat] in Hn. members Hn.
    change (netWires sceneTwoOnHost 0) with [0%nat; 1%nat; 2%nat].
    apply (bool_decide_unpack _). by vm_compute.
  - intros n w Hn Hw. change (_nets sceneTwoOnHost) with [0%nat] in Hn. members Hn.
    change (netWires sceneTwoOnHost 0) with [0%nat; 1%nat; 2%nat] in Hw.
    members Hw; reflexivity.
  - intros n w v Hn Hw Hv. change (_nets sceneTwoOnHost) with [0%nat] in Hn. members Hn.
    change (netWires sceneTwoOnHost 0) with [0%nat; 1%nat; 2%nat] in Hw |- *.
    members Hw; vm_compute in Hv; members Hv.
    + right. by left.
    + right. right. by left.
  - intros w v Hw Hv Hvw. change (wires sceneTwoOnHost) with [0%nat; 1%nat; 2%nat] in Hw.
    members Hw; vm_compute in Hv; members Hv; vm_compute in Hvw; members Hvw.
  - intros n a b Hn Ha Hb. change (_nets sceneTwoOnHost) with [0%nat] in Hn. members Hn.
    change (netWires sceneTwoOnHost 0) with [0%nat; 1%nat; 2%nat] in Ha, Hb |- *.
    etrans; [|by apply Hfrom0].
    apply reachableIn_sym; [by left|by apply Hfrom0].
Qed.

(** Removing the host of scenario [sceneTwoOnHost] leaves the two wires
    that stood on it in a net each. *)
Lemma removeWire_splits_net_into_components_two_on_host :
  ∃ s', removeWire 0 sceneTwoOnHost = Some s'
    ∧ wellFormed s'
    ∧ _nets s' = [1%nat; 2%nat]
    ∧ netWires s' 1 = [1%nat] ∧ netWires s' 2 = [2%nat].
Proof.
  destruct (removeWire_splits_net_into_components sceneTwoOnHost 0 0)
    as (s' & Hrun & Hwf' & _).
  - exact sceneTwoOnHost_wellFormed.
  - vm_compute. by left.
  - vm_compute. by left.
  - exists s'. split; [exact Hrun|]. split; [exact Hwf'|].
    vm_compute in Hrun. injection Hrun as <-. by vm_compute.
Defined.

(** ** Removing a wire after loading *)

(** On the three crossed wires, the pass records wire 1 on wire 0 and wire
    0 on wire 1: each has an end on the other. *)
Lemma findJunctions_records_ends_on_host_crossed :
  ∃ s', findJunctions pointOnPolyline sceneCrossed = Some s'
    ∧ 1%nat ∈ connectedWires s' 0 ∧ 0%nat ∈ connectedWires s' 1.
Proof.
  destruct (findJunctions_records_ends_on_host pointOnPolyline sceneCrossed)
    as (s' & Hrun & Hrec & _).
  - intros w Hw. change (wires sceneCrossed) with [0%nat; 1%nat; 2%nat] in Hw.
    members Hw; by vm_compute.
  - exists s'. split; [exact Hrun|]. split.
    + apply Hrec; [apply (bool_decide_unpack _); by vm_compute..|lia|].
      exists (50, 0). split; [left|]; by vm_compute.
    + apply Hrec; [apply (bool_decide_unpack _); by vm_compute..|lia|].
      exists (0, 0). split; [left|]; by vm_compute.
Defined.

(** C4 fails on a scene as loaded.  [from_container] finds, for the three
    crossed wires, an end of wire 1 and an end of wire 2 on wire 0 and
    both ends of wire 0 on wires 1 and 2, and records each connection in
    both directions.  [removeWire] on wire 0 then takes, for each
    neighbour, only the first branch of its [if ... else if]: the
    neighbour drops wire 0, wire 0 keeps its record of the neighbour, and
    [disconnectWire] still finds the whole net connected through wire 0.
    Wire 0 leaves the net; wires 1 and 2 stay together in it although
    neither records the other, no chain of records joins them, and no end
    of one lies on the other. *)
Theorem removeWire_leaves_unconnected_wires_in_one_net :
  ∃ s s', from_container_passes pointOnPolyline 1 sceneCrossed = Some s
    ∧ connectedWires s 0 = [1%nat; 2%nat]
    ∧ connectedWires s 1 = [0%nat] ∧ connectedWires s 2 = [0%nat]
    ∧ removeWire 0 s = Some s'
    ∧ _nets s' = [0%nat] ∧ netWires s' 0 = [1%nat; 2%nat]
    ∧ connectedWires s' 1 = [] ∧ connectedWires s' 2 = []
    ∧ ¬ connectedInScene s' 1%nat 2%nat
    ∧ ¬ endsOn pointOnPolyline s' 1 2 ∧ ¬ endsOn pointOnPolyline s' 2 1.
Proof.
  eexists. eexists. split; [by vm_compute|].
  do 3 (split; [by vm_compute|]). split; [by vm_compute|].
  do 4 (split; [by vm_compute|]). split; [|split].
  - intros Hreach. apply rtc_inv in Hreach as [?|(y & [Hy [Hadj|Hadj]] & _)]; [done|..].
    + vm_compute in Hadj. by apply elem_of_nil in Hadj.
    + change (y ∈ [1%nat; 2%nat]) in Hy. members Hy.
      all: vm_compute in Hadj; by apply elem_of_nil in Hadj.
  - intros (e & [He|He] & Hon); vm_compute in He; injection He as <-;
      by vm_compute in Hon.
  - intros (e & [He|He] & Hon); vm_compute in He; injection He as <-;
      by vm_compute in Hon.
Qed.

(** ** A connector that follows its node *)

Lemma QVector2D_inFloatRange (p : Point) : inFloatRange p → QVector2D p = p.
Proof.
  intros [Hx Hy]. unfold QVector2D, toFloat.
  rewrite !bool_decide_eq_true_2 by done. by destruct p.
Qed.

(** [Connector::moveWirePoint] on a connector bound to the point [i] of
    the wire [w], with [i] inside the wire: the point is put on the
    connector, the other points of the wire, their junction flags and the
    other wires stay as they are, and a second call changes nothing.
    The connector and the point lie within the range of [int], and the
    offset between them, which the call passes as a [QVector2D], is one
    that a [float] holds as it is (at most 2^24 either way). *)
Theorem moveWirePoint_puts_point_on_connector (wires_ : gmap nat Wire) (n : Node)
    (c : Connector) (w : WireId) (old : WirePoint) :
  _wire c = Some w →
  0 ≤ _wirePointIndex c < count (wirePointsRelative (wires_ !!! w)) →
  at_ (wirePointsRelative (wires_ !!! w)) (_wirePointIndex c) = Some old →
  placedInIntRange (node_pos n) (conn_pos c) →
  placedInIntRange (wire_pos (wires_ !!! w)) (wp_pos old) →
  inFloatRange (point_sub (scenePos n c)
                          (point_add (wire_pos (wires_ !!! w)) (wp_pos old))) →
  ∃ wires', moveWirePoint wires_ n c = Some wires'
    ∧ at_ (pointsAbsolute (wires' !!! w)) (_wirePointIndex c) = Some (scenePos n c)
    ∧ (∀ j, j ≠ _wirePointIndex c →
            at_ (wirePointsAbsolute (wires' !!! w)) j
            = at_ (wirePointsAbsolute (wires_ !!! w)) j)
    ∧ isJunction <$> wirePointsAbsolute (wires' !!! w)
      = isJunction <$> wirePointsAbsolute (wires_ !!! w)
    ∧ (∀ v, v ≠ w → wires' !!! v = wires_ !!! v)
    ∧ moveWirePoint wires' n c = Some wires'.
Proof.
  intros Hw [Hlo Hhi] Hat _ _ Hfloat. unfold moveWirePoint. rewrite Hw.
  set (i := _wirePointIndex c) in *. set (wire := wires_ !!! w) in *.
  rewrite (bool_decide_eq_false_2 (i < -1)) by lia.
  rewrite (bool_decide_eq_false_2 (count (wirePointsRelative wire) < i)) by lia.
  cbn [orb].
  assert (_points wire !! Z.to_nat i = Some old) as Hold.
  { apply at_Some in Hat as [_ Hat]. exact Hat. }
  rewrite Hat. cbn [mbind option_bind].
  rewrite (QVector2D_inFloatRange _ Hfloat).
  set (moveBy := point_sub (scenePos n c) (point_add (wire_pos wire) (wp_pos old))).
  set (wire' := movePointBy i moveBy wire).
  assert (wire' = set_points (λ l, alter (movedBy moveBy) (Z.to_nat i) l) wire) as Hwire'.
  { unfold wire', movePointBy. by rewrite bool_decide_eq_true_2 by lia. }
  exists (<[w := wire']> wires_). split; [done|].
  rewrite !(lookup_total_insert_eq wires_ w wire').
  assert (point_add (point_add (wp_pos old) moveBy) (wire_pos wire) = scenePos n c)
    as Hthere.
  { unfold moveBy, point_add, point_sub. destruct (scenePos n c), (wire_pos wire),
      (wp_pos old). simpl. f_equal; lia. }
  split; [|split; [|split; [|split]]].
  - apply at_Some. split; [lia|]. rewrite Hwire'.
    unfold pointsAbsolute, wirePointsAbsolute. simpl.
    rewrite !list_lookup_fmap, list_lookup_alter_eq, Hold. simpl.
    by rewrite Hthere.
  - intros j Hj. unfold at_. case_bool_decide as Hj0; [|done].
    rewrite Hwire'. unfold wirePointsAbsolute. simpl.
    rewrite !list_lookup_fmap, list_lookup_alter_ne; [done|lia].
  - rewrite Hwire'. unfold wirePointsAbsolute. simpl.
    apply list_eq. intros j. rewrite !list_lookup_fmap.
    destruct (decide (Z.to_nat i = j)) as [<-|Hj].
    + rewrite list_lookup_alter_eq. by destruct (_points wire !! Z.to_nat i).
    + by rewrite list_lookup_alter_ne.
  - intros v Hv. by rewrite lookup_total_insert_ne.
  - assert (count (wirePointsRelative wire') = count (wirePointsRelative wire)) as ->.
    { rewrite Hwire'. unfold count, wirePointsRelative. simpl.
      by rewrite length_alter. }
    rewrite (bool_decide_eq_false_2 (count (wirePointsRelative wire) < i)) by lia.
    cbn [orb].
    assert (at_ (wirePointsRelative wire') i = Some (movedBy moveBy old)) as ->.
    { apply at_Some. split; [lia|]. rewrite Hwire'. unfold wirePointsRelative. simpl.
      by rewrite list_lookup_alter_eq, Hold. }
    cbn [mbind option_bind]. f_equal. rewrite insert_insert_eq. f_equal.
    assert (wire_pos wire' = wire_pos wire) as -> by (by rewrite Hwire').
    assert (point_sub (scenePos n c)
              (point_add (wire_pos wire) (wp_pos (movedBy moveBy old))) = (0, 0)) as ->.
    { simpl. rewrite <- Hthere. unfold point_add, point_sub.
      destruct (wire_pos wire), (wp_pos old), moveBy. simpl. f_equal; lia. }
    change (QVector2D (0, 0)) with ((0, 0) : Point).
    unfold movePointBy. rewrite bool_decide_eq_true_2 by lia.
    rewrite Hwire'. unfold set_points. simpl. f_equal.
    rewrite list_alter_alter_eq. apply list_alter_ext; [|done].
    intros p _ . unfold movedBy, point_add. simpl. destruct (wp_pos p), moveBy. simpl.
    f_equal. f_equal; lia.
Qed.

Lemma moveWirePoint_puts_point_on_connector_moved :
  ∃ wires',
    moveWirePoint (wireStore scenePointMoved) (mkNode (5, 5) [])
      (mkConnector (30, 0) (Some 0%nat) 0) = Some wires'
    ∧ at_ (pointsAbsolute (wires' !!! 0%nat)) 0 = Some (35, 5).
Proof.
  destruct (moveWirePoint_puts_point_on_connector (wireStore scenePointMoved)
              (mkNode (5, 5) []) (mkConnector (30, 0) (Some 0%nat) 0) 0%nat
              (mkWirePoint (0, 0) false))
    as (wires' & Hrun & Hat & _).
  - reflexivity.
  - by vm_compute.
  - reflexivity.
  - repeat split; by vm_compute.
  - repeat split; by vm_compute.
  - split; by vm_compute.
  - exists wires'. split; [exact Hrun|exact Hat].
Defined.

(** ** Adding a wire, looking up its net, removing it again *)

Lemma existsb_eq_contains (l : list WireId) (w : WireId) :
  existsb (λ v, bool_decide (v = w)) l = contains l w.
Proof.
  unfold contains. induction l as [|x l IH]; [done|]. simpl. rewrite IH.
  destruct (decide (x = w)) as [->|Hne].
  - rewrite (bool_decide_eq_true_2 (w = w)) by done.
    rewrite (bool_decide_eq_true_2 (w ∈ w :: l)) by (by left). done.
  - rewrite (bool_decide_eq_false_2 (x = w)) by done. simpl.
    apply bool_decide_ext. rewrite elem_of_cons. naive_solver.
Qed.

Lemma find_ext_in {A} (P Q : A → bool) (l : list A) :
  (∀ x, x ∈ l → P x = Q x) → List.find P l = List.find Q l.
Proof.
  induction l as [|x l IH]; intros Hext; [done|]. simpl.
  rewrite (Hext x) by (by left). destruct (Q x); [done|].
  apply IH. intros y Hy. apply Hext. by right.
Qed.

Lemma find_app {A} (P : A → bool) (l1 l2 : list A) :
  List.find P (l1 ++ l2)
  = match List.find P l1 with Some x => Some x | None => List.find P l2 end.
Proof. induction l1 as [|x l1 IH]; [done|]. simpl. by destruct (P x). Qed.

Lemma find_none_iff {A} (P : A → bool) (l : list A) :
  List.find P l = None ↔ ∀ x, x ∈ l → P x = false.
Proof.
  induction l as [|y l IH]; simpl.
  - split; [|done]. intros _ x Hx. by apply elem_of_nil in Hx.
  - destruct (P y) eqn:Hy.
    + split; [done|]. intros H. rewrite H in Hy; [done|by left].
    + rewrite IH. split.
      * intros H x [->|Hx]%elem_of_cons; [done|by apply H].
      * intros H x Hx. apply H. by right.
Qed.

(** [net] and [netFromWire] are the same search. *)
Lemma net_netFromWire w s : net w s = netFromWire w s.
Proof.
  unfold net, netFromWire. apply find_ext_in. intros n _.
  apply existsb_eq_contains.
Qed.

Lemma net_wires w s : is_Some (net w s) ↔ w ∈ wires s.
Proof.
  rewrite net_netFromWire. split.
  - intros [a Ha]. unfold netFromWire in Ha.
    destruct (find_first _ _ _ Ha) as (k & Hk & Hc & _).
    apply elem_of_wires. exists a. split; [by eapply list_elem_of_lookup_2|].
    unfold WireNet_contains, contains in Hc. by apply bool_decide_eq_true_1 in Hc.
  - intros Hw. destruct (netFromWire_wires s w Hw) as (a & -> & _). done.
Qed.

Section AddWire.
Variables (s : Scene) (w : WireId).
Hypothesis Halloc : ∀ n, n ∈ _nets s → n ∈ dom (netStore s).

Let newNet := fresh (dom (netStore s)).

Lemma addWire_newNet_fresh : newNet ∉ _nets s.
Proof. intros Hin. apply Halloc in Hin. by apply is_fresh in Hin. Qed.

Lemma addWire_nets : _nets (addWire w s) = _nets s ++ [newNet].
Proof. done. Qed.

Lemma addWire_netWires n :
  netWires (addWire w s) n = if decide (n = newNet) then [w] else netWires s n.
Proof.
  unfold addWire, newWireNet. cbv zeta. fold newNet.
  change (netWires (addWireNet newNet ?t) n) with (netWires t n).
  rewrite netWires_addWire. unfold netWires at 1 2, getNet. simpl.
  destruct (decide (newNet = n)) as [<-|Hne].
  - rewrite decide_True by done. by rewrite lookup_total_insert_eq.
  - rewrite decide_False by done. by rewrite lookup_total_insert_ne.
Qed.

Lemma addWire_connectedWires v :
  connectedWires (addWire w s) v = connectedWires s v.
Proof.
  unfold addWire, newWireNet. cbv zeta.
  change (connectedWires (addWireNet ?n ?t) v) with (connectedWires t v).
  by rewrite connectedWires_addWire.
Qed.

Lemma addWire_wires v : v ∈ wires (addWire w s) ↔ v ∈ wires s ∨ v = w.
Proof.
  rewrite !elem_of_wires. rewrite addWire_nets. split.
  - intros (n & Hn & Hv). rewrite addWire_netWires in Hv.
    destruct (decide (n = newNet)) as [->|Hne].
    + right. by apply list_elem_of_singleton in Hv.
    + left. exists n. split; [|done].
      apply elem_of_app in Hn as [Hn|Hn]; [done|].
      by apply list_elem_of_singleton in Hn.
  - intros [(n & Hn & Hv)| ->].
    + exists n. split; [apply elem_of_app; by left|].
      rewrite addWire_netWires. rewrite decide_False; [done|].
      intros ->. by apply addWire_newNet_fresh.
    + exists newNet. split; [apply elem_of_app; right; by left|].
      rewrite addWire_netWires. rewrite decide_True by done. by left.
Qed.

End AddWire.

(** [addWire] puts the wire in a new net of its own, at the end of the
    list of nets, and leaves every other net and every connection as it
    was.  Looking the wire up afterwards finds the new net when the wire
    was in no net; a wire that some net lists already is now listed twice
    and the lookup still finds the older net. *)
Theorem addWire_then_net (s : Scene) (w : WireId) :
  (∀ n, n ∈ _nets s → n ∈ dom (netStore s)) →
  ∃ newNet,
    (newNet ∉ _nets s)
    ∧ _nets (addWire w s) = _nets s ++ [newNet]
    ∧ netWires (addWire w s) newNet = [w]
    ∧ (∀ n, n ∈ _nets s → netWires (addWire w s) n = netWires s n)
    ∧ (∀ v, connectedWires (addWire w s) v = connectedWires s v)
    ∧ (∀ v, v ≠ w → net v (addWire w s) = net v s)
    ∧ (w ∉ wires s → net w (addWire w s) = Some newNet)
    ∧ (w ∈ wires s → net w (addWire w s) = net w s ∧ net w s ≠ Some newNet).
Proof.
  intros Halloc. set (newNet := fresh (dom (netStore s))).
  pose proof (addWire_newNet_fresh s Halloc) as Hfresh. fold newNet in Hfresh.
  assert (∀ n, n ∈ _nets s → netWires (addWire w s) n = netWires s n) as Hold.
  { intros n Hn. rewrite addWire_netWires. rewrite decide_False; [done|].
    intros ->. done. }
  assert (∀ v, net v (addWire w s)
               = match net v s with
                 | Some x => Some x
                 | None => if bool_decide (w = v) then Some newNet else None
                 end) as Hnet.
  { intros v. unfold net at 1. rewrite addWire_nets, find_app.
    rewrite (find_ext_in _ (λ n, existsb (λ w0, bool_decide (w0 = v)) (netWires s n))).
    2:{ intros n Hn. by rewrite Hold. }
    fold (net v s). destruct (net v s); [done|].
    simpl. rewrite addWire_netWires. fold newNet. rewrite decide_True by done.
    simpl. by rewrite orb_false_r. }
  exists newNet. split; [done|]. split; [apply addWire_nets|].
  split; [rewrite addWire_netWires; by rewrite decide_True|].
  split; [done|]. split; [apply addWire_connectedWires|]. split; [|split].
  - intros v Hv. rewrite Hnet. destruct (net v s); [done|].
    by rewrite bool_decide_eq_false_2 by congruence.
  - intros Hw. rewrite Hnet. destruct (net w s) eqn:Hn.
    + exfalso. apply Hw. apply net_wires. by rewrite Hn.
    + by rewrite bool_decide_eq_true_2.
  - intros Hw. apply net_wires in Hw as [a Ha]. rewrite Hnet, Ha.
    split; [done|]. intros [= ->]. apply Hfresh.
    rewrite net_netFromWire in Ha. unfold netFromWire in Ha.
    destruct (find_first _ _ _ Ha) as (k & Hk & _).
    by eapply list_elem_of_lookup_2.
Qed.

Lemma addWire_then_net_S1 :
  ∃ newNet, _nets (addWire 2 sceneS1) = [0%nat; 1%nat; newNet]
    ∧ net 2 (addWire 2 sceneS1) = Some newNet
    ∧ net 0 (addWire 2 sceneS1) = Some 0%nat.
Proof.
  destruct (addWire_then_net sceneS1 2) as (newNet & _ & Hnets & _ & _ & _ & Hother & Hnew & _).
  - intros n Hn. change (_nets sceneS1) with [0%nat; 1%nat] in Hn.
    members Hn; apply (bool_decide_unpack _); by vm_compute.
  - exists newNet. split; [exact Hnets|]. split.
    + apply Hnew. apply (bool_decide_unpack _). by vm_compute.
    + rewrite Hother by lia. reflexivity.
Defined.

(** Removing a wire right after adding it: [removeWire] returns, the new
    net is gone again, every net of the scene has its wires and every wire
    its connections as before.  The list of nets is the old one without
    its empty nets: [removeWire] deletes every net it finds empty, not
    only the net of the wire. *)
Theorem removeWire_after_addWire (s : Scene) (w : WireId) :
  (∀ n, n ∈ _nets s → n ∈ dom (netStore s)) →
  w ∉ wires s →
  ∃ s', removeWire w (addWire w s) = Some s'
    ∧ _nets s' = filter (λ n, netWires s n ≠ []) (_nets s)
    ∧ ((∀ n, n ∈ _nets s → netWires s n ≠ []) → _nets s' = _nets s)
    ∧ (∀ n, n ∈ _nets s → netWires s' n = netWires s n)
    ∧ (∀ v, connectedWires s' v = connectedWires s v)
    ∧ (∀ v, v ∈ wires s' ↔ v ∈ wires s).
Proof.
  intros Halloc Hw. set (newNet := fresh (dom (netStore s))).
  pose proof (addWire_newNet_fresh s Halloc) as Hfresh. fold newNet in Hfresh.
  set (s1 := addWire w s).
  assert (∀ n, n ∈ _nets s → netWires s1 n = netWires s n) as Hold.
  { intros n Hn. unfold s1. rewrite addWire_netWires. rewrite decide_False; [done|].
    intros ->. done. }
  assert (netWires s1 newNet = [w]) as Hnew.
  { unfold s1. rewrite addWire_netWires. by rewrite decide_True. }
  assert (∀ n, n ∈ _nets s → w ∉ netWires s n) as Hnot.
  { intros n Hn Hin. apply Hw, elem_of_wires. by exists n. }
  assert (_net (getWire s1 w) = Some newNet) as Hback.
  { unfold s1, addWire, newWireNet. cbv zeta.
    change (_net (getWire (addWireNet ?n ?t) w)) with (_net (getWire t w)).
    rewrite net_addWire. by rewrite decide_True. }
  unfold removeWire, wiresConnectedTo. rewrite Hback. cbn [mbind option_bind].
  rewrite Hnew. cbn [length wiresConnectedTo_loop].
  assert (connectedPass s1 [w] [w] = []) as ->.
  { unfold connectedPass. apply filter_none. intros x Hin [Hx _]. by apply Hx. }
  rewrite bool_decide_eq_true_2 by done. cbn [mbind option_bind app forEach].
  unfold disconnectFrom at 1. rewrite bool_decide_eq_false_2 by (intros H; by apply H).
  cbn [mbind option_bind].
  unfold removeFromNets.
  pose proof (removeWire_nets_loop w (_nets s1) s1 []) as Hloop. cbv zeta in Hloop.
  destruct (foldl _ (s1, []) (_nets s1)) as [s2 del].
  destruct Hloop as (Hwires2 & Hdel & Hstore2 & Hnets2 & _).
  cbn [fst snd app] in *.
  pose proof (removeWireNet_loop del s2) as Hrem. cbv zeta in Hrem.
  destruct Hrem as (Hnets3 & Hstore3 & Hnet3).
  eexists. split; [reflexivity|].
  assert (∀ n, n ∈ _nets s → netWires s2 n = netWires s n) as Hold2.
  { intros n Hn. rewrite Hwires2. rewrite decide_True.
    - rewrite Hold by done. apply removeAll_notin. by apply Hnot.
    - unfold s1. rewrite addWire_nets. apply elem_of_app. by left. }
  assert (_nets (foldl (λ s0 net0, removeWireNet net0 s0) s2 del)
          = filter (λ n, netWires s n ≠ []) (_nets s)) as Hresult.
  { rewrite Hnets3, Hnets2. unfold s1. rewrite addWire_nets. fold newNet.
    rewrite filter_app. rewrite (filter_none _ [newNet]).
    2:{ intros x Hx%list_elem_of_singleton Hx'. subst x. apply Hx'. rewrite Hdel.
        apply list_elem_of_filter. split.
        - fold s1. rewrite Hnew. unfold removeAll. apply filter_none.
          intros y Hy%list_elem_of_singleton. naive_solver.
        - apply elem_of_app. right. by left. }
    rewrite app_nil_r. apply filter_ext_in. intros n Hn. rewrite Hdel.
    rewrite list_elem_of_filter. fold s1. rewrite Hold by done.
    rewrite removeAll_notin by (by apply Hnot). split.
    - intros H Hempty. apply H. split; [done|]. apply elem_of_app. by left.
    - intros H [Hempty _]. done. }
  assert (∀ n, netWires (foldl (λ s0 net0, removeWireNet net0 s0) s2 del) n
               = netWires s2 n) as Hsame.
  { intros n. unfold netWires, getNet. by rewrite Hnet3. }
  split; [exact Hresult|]. split; [|split; [|split]].
  - intros Hnonempty. rewrite Hresult. apply filter_all. done.
  - intros n Hn. rewrite Hsame. by apply Hold2.
  - intros v. unfold connectedWires, getWire. rewrite Hstore3, Hstore2.
    apply (addWire_connectedWires s w v).
  - intros v. rewrite !elem_of_wires. rewrite Hresult. split.
    + intros (n & [Hne Hn]%list_elem_of_filter & Hv). exists n. split; [done|].
      rewrite Hsame in Hv. by rewrite <- Hold2.
    + intros (n & Hn & Hv). exists n. split.
      * apply list_elem_of_filter. split; [|done]. intros Hempty.
        rewrite Hempty in Hv. by apply elem_of_nil in Hv.
      * rewrite Hsame. by rewrite (Hold2 n Hn).
Qed.

Lemma removeWire_after_addWire_S1 :
  ∃ s', removeWire 2 (addWire 2 sceneS1) = Some s' ∧ _nets s' = [0%nat; 1%nat].
Proof.
  destruct (removeWire_after_addWire sceneS1 2) as (s' & Hrun & Hnets & _).
  - intros n Hn. change (_nets sceneS1) with [0%nat; 1%nat] in Hn.
    members Hn; apply (bool_decide_unpack _); by vm_compute.
  - apply (bool_decide_unpack _). by vm_compute.
  - exists s'. split; [exact Hrun|]. rewrite Hnets. by vm_compute.
Defined.

(** ** Joining two nets *)

Lemma mergeNets_fields net otherNet s r s' :
  mergeNets net otherNet s = Some (r, s') →
  _newWire s' = _newWire s ∧ _mode s' = _mode s
  ∧ _newWireSegment s' = _newWireSegment s.
Proof.
  unfold mergeNets. case_bool_decide; [by intros [= <- <-]|].
  destruct otherNet as [o|]; [simpl|done].
  destruct (forEach _ _ s) as [t|] eqn:Hrun; [simpl|done].
  intros [= <- <-].
  revert Hrun.
  apply (forEach_invariant (λ t, _newWire t = _newWire s ∧ _mode t = _mode s
                                 ∧ _newWireSegment t = _newWireSegment s)); [|done].
  intros x u u' _ Hstep Hu. destruct net as [n|]; [|done]. simpl in Hstep.
  by injection Hstep as <-.
Qed.

(** [connectWire] on wires of two different nets: the net of the guest is
    emptied into the net of the host and leaves the list of nets. *)
Lemma connectWire_merges wire rawWire a b s :
  netFromWire wire s = Some a → netFromWire rawWire s = Some b → a ≠ b →
  ∃ s', connectWire wire rawWire s = Some s'
    ∧ _nets s' = removeAll b (_nets s)
    ∧ netWires s' a = netWires s a ++ netWires s b
    ∧ (∀ m, m ≠ a → m ≠ b → netWires s' m = netWires s m)
    ∧ (∀ v, v ∈ connectedWires s' wire ↔ v ∈ connectedWires s wire ∨ v = rawWire)
    ∧ connectedWires s' wire
      = (if contains (connectedWires s wire) rawWire then connectedWires s wire
         else connectedWires s wire ++ [rawWire])
    ∧ (∀ v, v ≠ wire → connectedWires s' v = connectedWires s v)
    ∧ sameShape s s'
    ∧ nodes s' = nodes s ∧ _newWire s' = _newWire s ∧ _mode s' = _mode s
    ∧ _newWireSegment s' = _newWireSegment s.
Proof.
  intros Ha Hb Hab. unfold connectWire.
  set (s1 := updWire wire (Wire_connectWire rawWire) s).
  change (netFromWire wire s1) with (netFromWire wire s).
  change (netFromWire rawWire s1) with (netFromWire rawWire s).
  rewrite Ha, Hb.
  destruct (mergeNets_distinct a b s1 Hab)
    as (s2 & Hrun & Ha2 & Hb2 & Hm & _ & Hconn & Hnets & Hnodes).
  rewrite Hrun. simpl. exists (removeWireNet b s2). split; [done|].
  assert (connectedWires s1 wire
          = (if contains (connectedWires s wire) rawWire then connectedWires s wire
             else connectedWires s wire ++ [rawWire])) as Hrec.
  { unfold s1, connectedWires. rewrite getWire_updWire_eq. unfold Wire_connectWire.
    by destruct (contains _ _). }
  split; [simpl; by rewrite Hnets|]. split; [exact Ha2|]. split.
  { intros m Hma Hmb. change (netWires (removeWireNet b s2) m) with (netWires s2 m).
    unfold netWires. by rewrite Hm. }
  split.
  { intros v. change (connectedWires (removeWireNet b s2) wire)
      with (connectedWires s2 wire). rewrite Hconn.
    unfold s1, connectedWires. rewrite getWire_updWire_eq.
    apply Wire_connectWire_records. }
  split.
  { change (connectedWires (removeWireNet b s2) wire) with (connectedWires s2 wire).
    by rewrite Hconn. }
  split.
  { intros v Hv. change (connectedWires (removeWireNet b s2) v)
      with (connectedWires s2 v). rewrite Hconn.
    unfold s1, connectedWires. by rewrite getWire_updWire_ne. }
  split.
  { apply (sameShape_trans _ s1).
    - apply sameShape_updWire. intros x. unfold Wire_connectWire.
      by destruct (contains (_connectedWires x) rawWire).
    - by apply mergeNets_sameShape in Hrun. }
  split; [exact Hnodes|].
  apply mergeNets_fields in Hrun. exact Hrun.
Qed.

Lemma sameSession_refl s : sameSession s s.
Proof. by repeat split. Qed.

Lemma sameSession_trans s t u : sameSession s t → sameSession t u → sameSession s u.
Proof.
  intros (H1 & H2 & H3 & H4 & H5) (G1 & G2 & G3 & G4 & G5).
  repeat split; congruence.
Qed.

Lemma mergeNets_session net otherNet s r s' :
  mergeNets net otherNet s = Some (r, s') → sameSession s s'.
Proof.
  unfold mergeNets. case_bool_decide; [intros [= <- <-]; apply sameSession_refl|].
  destruct otherNet as [o|]; [simpl|done].
  destruct (forEach _ _ s) as [t|] eqn:Hrun; [simpl|done].
  intros [= <- <-].
  revert Hrun. apply (forEach_invariant (sameSession s)); [|apply sameSession_refl].
  intros x u u' _ Hstep Hu. destruct net as [n|]; [|done]. simpl in Hstep.
  injection Hstep as <-. apply (sameSession_trans _ _ _ Hu). by repeat split.
Qed.

Lemma connectWire_session wire rawWire s s' :
  connectWire wire rawWire s = Some s' → sameSession s s'.
Proof.
  unfold connectWire.
  set (s1 := updWire wire (Wire_connectWire rawWire) s).
  destruct (mergeNets _ _ s1) as [[merged s2]|] eqn:Hmerge; [simpl|done].
  apply mergeNets_session in Hmerge. destruct merged.
  - destruct (netFromWire rawWire s1); [simpl|done]. intros [= <-].
    apply (sameSession_trans _ s2); [exact Hmerge|by repeat split].
  - by intros [= <-].
Qed.

(** [connectWire] on two wires of the scene returns; the two wires are in
    one net afterwards, and wires that shared a net still do. *)
Lemma connectWire_sameNet wire rawWire s :
  wire ∈ wires s → rawWire ∈ wires s →
  ∃ s', connectWire wire rawWire s = Some s'
    ∧ (∀ v, v ∈ connectedWires s' wire ↔ v ∈ connectedWires s wire ∨ v = rawWire)
    ∧ (∀ v, v ≠ wire → connectedWires s' v = connectedWires s v)
    ∧ sameShape s s'
    ∧ (∀ x, x ∈ wires s' ↔ x ∈ wires s)
    ∧ sameNet s' wire rawWire
    ∧ (∀ x y, sameNet s x y → sameNet s' x y)
    ∧ sameSession s s'.
Proof.
  intros Hwire Hraw.
  destruct (connectWire_returns wire rawWire s Hwire Hraw)
    as (s' & Hrun & Hrec & Hother & Hshape & Hwires).
  exists s'. split; [done|]. split; [done|]. split; [done|]. split; [done|].
  split; [done|].
  pose proof (connectWire_session _ _ _ _ Hrun) as Hsession.
  destruct (netFromWire_wires s wire Hwire) as (a & Ha & Han & Hwa).
  destruct (netFromWire_wires s rawWire Hraw) as (b & Hb & Hbn & Hwb).
  destruct (decide (a = b)) as [<-|Hab].
  - assert (s' = updWire wire (Wire_connectWire rawWire) s) as ->.
    { unfold connectWire in Hrun.
      change (netFromWire wire (updWire wire ?f s)) with (netFromWire wire s) in Hrun.
      change (netFromWire rawWire (updWire wire ?f s)) with (netFromWire rawWire s) in Hrun.
      rewrite Ha, Hb, mergeNets_same in Hrun. simpl in Hrun. by injection Hrun as <-. }
    split; [by exists a|]. split; [|done].
    intros x y Hxy. exact Hxy.
  - destruct (connectWire_merges wire rawWire a b s Ha Hb Hab)
      as (s'' & Hrun' & Hnets & Hna & Hnm & _).
    rewrite Hrun in Hrun'. injection Hrun' as <-.
    assert (a ∈ _nets s') as Han'.
    { rewrite Hnets. by apply elem_of_removeAll. }
    split; [|split; [|done]].
    + exists a. split; [done|]. rewrite Hna. split; apply elem_of_app; [by left|by right].
    + intros x y (n & Hn & Hx & Hy).
      destruct (decide (n = a)) as [->|Hna'].
      { exists a. split; [done|]. rewrite Hna. split; apply elem_of_app; by left. }
      destruct (decide (n = b)) as [->|Hnb].
      { exists a. split; [done|]. rewrite Hna. split; apply elem_of_app; by right. }
      exists n. split; [rewrite Hnets; by apply elem_of_removeAll|].
      by rewrite Hnm.
Qed.

(** ** The net invariants under [addWire] and [connectWire] *)

Lemma mergeNets_dom net otherNet s r s' :
  mergeNets net otherNet s = Some (r, s') → dom (netStore s) ⊆ dom (netStore s').
Proof.
  unfold mergeNets. case_bool_decide; [by intros [= <- <-]|].
  destruct otherNet as [o|]; [simpl|done].
  destruct (forEach _ _ s) as [t|] eqn:Hrun; [simpl|done].
  intros [= <- <-].
  revert Hrun.
  apply (forEach_invariant (λ t, dom (netStore s) ⊆ dom (netStore t))); [|done].
  intros x u u' _ Hstep Hu. destruct net as [n|]; [|done]. simpl in Hstep.
  injection Hstep as <-. etrans; [exact Hu|].
  unfold WireNet_removeWire, WireNet_addWire, updNet, updWire. simpl.
  rewrite !dom_insert. set_solver.
Qed.

(** The back references after [connectWire] has joined two nets. *)
Lemma connectWire_merges_backrefs wire rawWire a b s s' :
  netFromWire wire s = Some a → netFromWire rawWire s = Some b → a ≠ b →
  connectWire wire rawWire s = Some s' →
  (∀ v, _net (getWire s' v)
        = if decide (v ∈ netWires s b) then Some a else _net (getWire s v))
  ∧ dom (netStore s) ⊆ dom (netStore s').
Proof.
  intros Ha Hb Hab. unfold connectWire.
  set (s1 := updWire wire (Wire_connectWire rawWire) s).
  change (netFromWire wire s1) with (netFromWire wire s).
  change (netFromWire rawWire s1) with (netFromWire rawWire s).
  rewrite Ha, Hb.
  destruct (mergeNets_distinct a b s1 Hab)
    as (s2 & Hrun & _ & _ & _ & Hback & _).
  rewrite Hrun. simpl. intros [= <-]. split.
  - intros v. change (getWire (removeWireNet b s2) v) with (getWire s2 v).
    rewrite Hback. change (netWires s1 b) with (netWires s b).
    destruct (decide (v ∈ netWires s b)); [done|].
    unfold s1. rewrite getWire_updWire. destruct (decide (wire = v)) as [<-|]; [|done].
    unfold Wire_connectWire. by destruct (contains (_connectedWires (getWire s wire)) rawWire).
  - apply mergeNets_dom in Hrun. exact Hrun.
Qed.

Section Joining.
Variables (s t : Scene) (host guest : WireId).
Hypothesis Hwf : wellFormed s.
Hypothesis Hne : host ≠ guest.
Hypothesis Hdir : host ∉ connectedWires s guest.
Hypothesis Hrec : ∀ v, v ∈ connectedWires t host ↔ v ∈ connectedWires s host ∨ v = guest.
Hypothesis Hother : ∀ v, v ≠ host → connectedWires t v = connectedWires s v.

Lemma joined_grows : grows s t.
Proof.
  intros X v Hv. destruct (decide (X = host)) as [->|HX].
  - apply Hrec. by left.
  - by rewrite Hother.
Qed.

Lemma joined_adjacent x y : adjacent s x y → adjacent t x y.
Proof. intros [H|H]; [left|right]; by apply joined_grows. Qed.

Lemma joined_edge : adjacent t host guest.
Proof. left. apply Hrec. by right. Qed.

Lemma joined_directional w v :
  w ∈ wires s → guest ∈ wires s → v ∈ connectedWires t w → w ∉ connectedWires t v.
Proof.
  intros Hw Hguest Hv Hback.
  assert (∀ x y, y ∈ connectedWires t x →
                 y ∈ connectedWires s x ∨ (x = host ∧ y = guest)) as Hsplit.
  { intros x y Hy. destruct (decide (x = host)) as [->|Hx].
    - apply Hrec in Hy as [Hy| ->]; [by left|by right].
    - rewrite Hother in Hy by done. by left. }
  destruct (Hsplit _ _ Hv) as [Hv'|[Hw1 Hv1]], (Hsplit _ _ Hback) as [Hb'|[Hv2 Hw2]].
  - by apply (wf_directional s Hwf w v).
  - apply Hdir. by rewrite <- Hv2, <- Hw2.
  - apply Hdir. by rewrite <- Hw1, <- Hv1.
  - apply Hne. by rewrite <- Hw1, Hw2.
Qed.

Lemma joined_reach N M a b :
  (∀ x, x ∈ N → x ∈ M) → reachableIn s N a b → reachableIn t M a b.
Proof.
  intros Hsub. apply reachableIn_mono. intros x y _ [Hy Hadj].
  split; [by apply Hsub|by apply joined_adjacent].
Qed.
End Joining.

(** [connectWire] keeps the invariants of the nets when the new record
    does not stand against an older one. *)
Lemma connectWire_wellFormed host guest s :
  wellFormed s → host ∈ wires s → guest ∈ wires s → host ≠ guest →
  host ∉ connectedWires s guest →
  ∃ s', connectWire host guest s = Some s'
    ∧ wellFormed s'
    ∧ (∀ x, x ∈ wires s' ↔ x ∈ wires s)
    ∧ (∀ v, v ∈ connectedWires s' host ↔ v ∈ connectedWires s host ∨ v = guest)
    ∧ (∀ v, v ≠ host → connectedWires s' v = connectedWires s v)
    ∧ sameNet s' host guest
    ∧ (∀ x y, sameNet s x y → sameNet s' x y)
    ∧ sameShape s s' ∧ sameSession s s'.
Proof.
  intros Hwf Hhost Hguest Hne Hdir.
  destruct (netFromWire_wires s host Hhost) as (a & Ha & Han & Hha).
  destruct (netFromWire_wires s guest Hguest) as (b & Hb & Hbn & Hgb).
  destruct (connectWire_sameNet host guest s Hhost Hguest)
    as (s' & Hrun & Hrec & Hother & Hshape & Hwires & Hnet & Hkeep & Hsess).
  exists s'. split; [done|]. split; [|by split_and!].
  assert (∀ n m w, n ∈ _nets s → m ∈ _nets s → w ∈ netWires s n → w ∈ netWires s m →
                   n = m) as Hdisj.
  { intros n m w. by apply wf_disjoint. }
  destruct (decide (a = b)) as [<-|Hab].
  - assert (s' = updWire host (Wire_connectWire guest) s) as ->.
    { unfold connectWire in Hrun.
      change (netFromWire host (updWire host ?f s)) with (netFromWire host s) in Hrun.
      change (netFromWire guest (updWire host ?f s)) with (netFromWire guest s) in Hrun.
      rewrite Ha, Hb, mergeNets_same in Hrun. simpl in Hrun. by injection Hrun as <-. }
    set (s' := updWire host (Wire_connectWire guest) s) in *.
    assert (∀ v, _net (getWire s' v) = _net (getWire s v)) as Hback.
    { intros v. unfold s'. rewrite getWire_updWire.
      destruct (decide (host = v)) as [<-|]; [|done].
      unfold Wire_connectWire. by destruct (contains (_connectedWires (getWire s host)) guest). }
    split.
    + exact (wf_nets_nodup s Hwf).
    + exact (wf_nets_alloc s Hwf).
    + exact (wf_wires_nodup s Hwf).
    + intros n w Hn Hw. rewrite Hback. by apply (wf_backref s Hwf).
    + intros n w v Hn Hw Hv. change (netWires s' n) with (netWires s n) in *.
      change (_nets s') with (_nets s) in Hn.
      destruct (decide (w = host)) as [->|Hwh].
      * apply Hrec in Hv as [Hv| ->]; [by apply (wf_within s Hwf n host)|].
        by rewrite (Hdisj n a host).
      * rewrite Hother in Hv by done. by apply (wf_within s Hwf n w).
    + intros w v Hw Hv. by apply (joined_directional s s' host guest).
    + intros n x y Hn Hx Hy. change (netWires s' n) with (netWires s n) in *.
      apply (joined_reach s s' host guest Hrec Hother (netWires s n)); [done|].
      by apply (wf_connected s Hwf).
  - destruct (connectWire_merges host guest a b s Ha Hb Hab)
      as (s'' & Hrun' & Hnets & Hna & Hnm & _).
    rewrite Hrun in Hrun'. injection Hrun' as <-.
    destruct (connectWire_merges_backrefs host guest a b s s' Ha Hb Hab Hrun)
      as [Hback Hdom].
    assert (∀ n, n ∈ _nets s' ↔ n ∈ _nets s ∧ n ≠ b) as Hnets'.
    { intros n. rewrite Hnets. apply elem_of_removeAll. }
    assert (∀ w, w ∈ netWires s a → w ∉ netWires s b) as HAB.
    { intros w HwA HwB. apply Hab. by apply (Hdisj a b w). }
    assert (∀ x, x ∈ netWires s a ++ netWires s b →
                 reachableIn s' (netWires s a ++ netWires s b) x host) as Htohost.
    { intros x [Hx|Hx]%elem_of_app.
      - apply (joined_reach s s' host guest Hrec Hother (netWires s a));
          [intros y Hy; apply elem_of_app; by left|].
        by apply (wf_connected s Hwf).
      - eapply rtc_r.
        + apply (joined_reach s s' host guest Hrec Hother (netWires s b));
            [intros y Hy; apply elem_of_app; by right|].
          by apply (wf_connected s Hwf b x guest).
        + split; [apply elem_of_app; by left|].
          apply adjacent_sym. by apply (joined_edge s s' host guest). }
    split.
    + rewrite Hnets. unfold removeAll. apply NoDup_filter. exact (wf_nets_nodup s Hwf).
    + intros n [Hn _]%Hnets'. apply Hdom. by apply (wf_nets_alloc s Hwf).
    + intros n [Hn Hnb]%Hnets'. destruct (decide (n = a)) as [->|Hna'].
      * rewrite Hna. apply NoDup_app. split; [by apply (wf_wires_nodup s Hwf)|].
        split; [exact HAB|by apply (wf_wires_nodup s Hwf)].
      * rewrite Hnm by done. by apply (wf_wires_nodup s Hwf).
    + intros n w [Hn Hnb]%Hnets' Hw. rewrite Hback.
      destruct (decide (n = a)) as [->|Hna'].
      * rewrite Hna in Hw. apply elem_of_app in Hw as [Hw|Hw].
        -- rewrite decide_False by (by apply HAB). by apply (wf_backref s Hwf).
        -- by rewrite decide_True.
      * rewrite Hnm in Hw by done. rewrite decide_False.
        -- by apply (wf_backref s Hwf).
        -- intros HwB. apply Hnb. by apply (Hdisj n b w).
    + intros n w v [Hn Hnb]%Hnets' Hw Hv. destruct (decide (n = a)) as [->|Hna'].
      * rewrite Hna in *. destruct (decide (w = host)) as [->|Hwh].
        -- apply Hrec in Hv as [Hv| ->]; apply elem_of_app.
           ++ left. by apply (wf_within s Hwf a host).
           ++ by right.
        -- rewrite Hother in Hv by done.
           apply elem_of_app in Hw as [Hw|Hw]; apply elem_of_app.
           ++ left. by apply (wf_within s Hwf a w).
           ++ right. by apply (wf_within s Hwf b w).
      * rewrite Hnm in * by done.
        assert (w ≠ host) as Hwh.
        { intros ->. apply Hna'. by apply (Hdisj n a host). }
        rewrite Hother in Hv by done. by apply (wf_within s Hwf n w).
    + intros w v Hw Hv. apply Hwires in Hw.
      by apply (joined_directional s s' host guest).
    + intros n x y [Hn Hnb]%Hnets' Hx Hy. destruct (decide (n = a)) as [->|Hna'].
      * rewrite Hna in *. eapply reachableIn_trans; [by apply Htohost|].
        apply reachableIn_sym; [done|]. by apply Htohost.
      * rewrite Hnm in * by done.
        apply (joined_reach s s' host guest Hrec Hother (netWires s n)); [done|].
        by apply (wf_connected s Hwf).
Qed.

(** The invariants of the nets read the list of nets, the wires of each
    net, and of each wire its back reference and its records only. *)
Lemma wellFormed_ext s t :
  _nets t = _nets s →
  dom (netStore s) ⊆ dom (netStore t) →
  (∀ n, netWires t n = netWires s n) →
  (∀ v, _net (getWire t v) = _net (getWire s v)) →
  (∀ v, connectedWires t v = connectedWires s v) →
  wellFormed s → wellFormed t.
Proof.
  intros Hnets Hdom Hnw Hback Hconn Hwf.
  assert (∀ x, x ∈ wires t ↔ x ∈ wires s) as Hwires.
  { intros x. rewrite !elem_of_wires. rewrite Hnets.
    split; intros (n & Hn & Hx); exists n; by rewrite ?Hnw in *. }
  split.
  - rewrite Hnets. exact (wf_nets_nodup s Hwf).
  - intros n Hn. rewrite Hnets in Hn. apply Hdom. by apply (wf_nets_alloc s Hwf).
  - intros n Hn. rewrite Hnets in Hn. rewrite Hnw. by apply (wf_wires_nodup s Hwf).
  - intros n w Hn Hw. rewrite Hnets in Hn. rewrite Hnw in Hw. rewrite Hback.
    by apply (wf_backref s Hwf).
  - intros n w v Hn Hw Hv. rewrite Hnets in Hn. rewrite Hnw in *. rewrite Hconn in Hv.
    by apply (wf_within s Hwf n w).
  - intros w v Hw Hv. rewrite Hconn in *. apply Hwires in Hw.
    by apply (wf_directional s Hwf).
  - intros n a b Hn Ha Hb. rewrite Hnets in Hn. rewrite Hnw in *.
    pose proof (wf_connected s Hwf n a b Hn Ha Hb) as Hreach.
    revert Hreach. apply reachableIn_mono. intros x y _ [Hy Hadj]. split; [done|].
    unfold adjacent in *. by rewrite !Hconn.
Qed.

(** [addWire] of a wire that is in no net and records nothing keeps the
    invariants of the nets. *)
Lemma addWire_wellFormed s w :
  wellFormed s → w ∉ wires s → connectedWires s w = [] →
  wellFormed (addWire w s).
Proof.
  intros Hwf Hw Hnone.
  pose proof (wf_nets_alloc s Hwf) as Halloc.
  set (newNet := fresh (dom (netStore s))).
  pose proof (addWire_newNet_fresh s Halloc) as Hfresh. fold newNet in Hfresh.
  assert (∀ v, getWire (addWire w s) v
               = if decide (w = v) then set_net (Some newNet) (getWire s v)
                 else getWire s v) as Hget.
  { intros v. unfold addWire, newWireNet. cbv zeta.
    change (fresh (dom (netStore s))) with newNet.
    change (getWire (addWireNet newNet ?u) v) with (getWire u v).
    unfold WireNet_addWire. by rewrite getWire_updWire, getWire_updNet. }
  assert (∀ n, n ∈ _nets s → netWires (addWire w s) n = netWires s n) as Hold.
  { intros n Hn. rewrite addWire_netWires. fold newNet.
    rewrite decide_False; [done|]. by intros ->. }
  assert (netWires (addWire w s) newNet = [w]) as Hnew.
  { rewrite addWire_netWires. fold newNet. by rewrite decide_True. }
  assert (∀ v, connectedWires (addWire w s) v = connectedWires s v) as Hconn
    by apply addWire_connectedWires.
  assert (∀ n, n ∈ _nets (addWire w s) ↔ n ∈ _nets s ∨ n = newNet) as Hnets.
  { intros n. rewrite addWire_nets. fold newNet.
    rewrite elem_of_app, list_elem_of_singleton. done. }
  split.
  - rewrite addWire_nets. fold newNet. apply NoDup_app.
    split; [exact (wf_nets_nodup s Hwf)|]. split; [|apply NoDup_singleton].
    intros n Hn ->%list_elem_of_singleton. done.
  - intros n [Hn| ->]%Hnets.
    + unfold addWire, newWireNet. cbv zeta. simpl. rewrite !dom_insert.
      apply Halloc in Hn. set_solver.
    + unfold addWire, newWireNet. cbv zeta. simpl. fold newNet. rewrite !dom_insert.
      set_solver.
  - intros n [Hn| ->]%Hnets.
    + rewrite Hold by done. by apply (wf_wires_nodup s Hwf).
    + rewrite Hnew. apply NoDup_singleton.
  - intros n v [Hn| ->]%Hnets Hv.
    + rewrite Hold in Hv by done. rewrite Hget. rewrite decide_False.
      * by apply (wf_backref s Hwf).
      * intros <-. apply Hw, elem_of_wires. by exists n.
    + rewrite Hnew in Hv. apply list_elem_of_singleton in Hv as ->.
      rewrite Hget. by rewrite decide_True.
  - intros n x v [Hn| ->]%Hnets Hx Hv; rewrite Hconn in Hv.
    + rewrite Hold in * by done. by apply (wf_within s Hwf n x).
    + rewrite Hnew in Hx. apply list_elem_of_singleton in Hx as ->.
      rewrite Hnone in Hv. by apply elem_of_nil in Hv.
  - intros x v Hx Hv. rewrite Hconn in *.
    apply (addWire_wires s w Halloc) in Hx as [Hx| ->].
    + destruct (decide (v = w)) as [->|Hvw].
      * rewrite Hnone. apply not_elem_of_nil.
      * by apply (wf_directional s Hwf).
    + rewrite Hnone in Hv. by apply elem_of_nil in Hv.
  - intros n x y [Hn| ->]%Hnets Hx Hy.
    + rewrite Hold in * by done.
      pose proof (wf_connected s Hwf n x y Hn Hx Hy) as Hreach.
      revert Hreach. apply reachableIn_mono. intros a b _ [Hb Hadj]. split; [done|].
      unfold adjacent in *. by rewrite !Hconn.
    + rewrite Hnew in *. apply list_elem_of_singleton in Hx as ->.
      apply list_elem_of_singleton in Hy as ->. apply rtc_refl.
Qed.

Lemma sceneS1_wellFormed : wellFormed sceneS1.
Proof.
  split.
  - apply (bool_decide_unpack _). by vm_compute.
  - intros n Hn. change (_nets sceneS1) with [0%nat; 1%nat] in Hn.
    members Hn; apply elem_of_dom; by eexists.
  - intros n Hn. change (_nets sceneS1) with [0%nat; 1%nat] in Hn.
    members Hn; apply NoDup_singleton.
  - intros n w Hn Hw. change (_nets sceneS1) with [0%nat; 1%nat] in Hn.
    members Hn; vm_compute in Hw; members Hw; reflexivity.
  - intros n w v Hn Hw Hv. change (_nets sceneS1) with [0%nat; 1%nat] in Hn.
    members Hn; vm_compute in Hw; members Hw; vm_compute in Hv; members Hv.
  - intros w v Hw Hv. change (wires sceneS1) with [0%nat; 1%nat] in Hw.
    members Hw; vm_compute in Hv; members Hv.
  - intros n a b Hn Ha Hb. change (_nets sceneS1) with [0%nat; 1%nat] in Hn.
    members Hn; vm_compute in Ha, Hb; members Ha; members Hb; apply rtc_refl.
Qed.

(** [connectWire host guest] on two different wires of a scene whose
    nets satisfy the invariants of the data model, where the guest does
    not record the host: it returns and the invariants hold again (each
    net is one connected component, no wire is in two nets, back
    references and records stay within the net, no connection is
    recorded both ways).  The scene has the wires it had, host and guest
    share a net, wires that shared a net still do, and only the host has
    a new record. *)
Theorem connectWire_keeps_net_invariants (s : Scene) (host guest : WireId) :
  wellFormed s → host ∈ wires s → guest ∈ wires s → host ≠ guest →
  host ∉ connectedWires s guest →
  ∃ s', connectWire host guest s = Some s'
    ∧ wellFormed s'
    ∧ (∀ x, x ∈ wires s' ↔ x ∈ wires s)
    ∧ (∀ v, v ∈ connectedWires s' host ↔ v ∈ connectedWires s host ∨ v = guest)
    ∧ (∀ v, v ≠ host → connectedWires s' v = connectedWires s v)
    ∧ sameNet s' host guest
    ∧ (∀ x y, sameNet s x y → sameNet s' x y).
Proof.
  intros Hwf Hhost Hguest Hne Hdir.
  destruct (connectWire_wellFormed host guest s Hwf Hhost Hguest Hne Hdir)
    as (s' & Hrun & Hwf' & Hwires & Hrec & Hother & Hnet & Hkeep & _).
  by exists s'.
Qed.

Lemma connectWire_keeps_net_invariants_S1 :
  ∃ s', connectWire 0 1 sceneS1 = Some s' ∧ wellFormed s' ∧ sameNet s' 0%nat 1%nat.
Proof.
  destruct (connectWire_keeps_net_invariants sceneS1 0 1)
    as (s' & Hrun & Hwf & _ & _ & _ & Hnet & _).
  - exact sceneS1_wellFormed.
  - apply (bool_decide_unpack _). by vm_compute.
  - apply (bool_decide_unpack _). by vm_compute.
  - lia.
  - apply (bool_decide_unpack _). by vm_compute.
  - by exists s'.
Defined.

(** ** Starting a wire with the mouse *)

Lemma point_sub_diag (p : Point) : point_sub p p = (0, 0).
Proof. unfold point_sub. f_equal; lia. Qed.

Lemma point_add_zero_l (p : Point) : point_add (0, 0) p = p.
Proof. unfold point_add. by destruct p. Qed.

Lemma removeAll_app_fresh (x : NetId) (l : list NetId) :
  x ∉ l → removeAll x (l ++ [x]) = l.
Proof.
  intros Hx. unfold removeAll. rewrite filter_app.
  rewrite (filter_none _ [x]).
  - rewrite app_nil_r. apply filter_all. intros y Hy ->. done.
  - intros y Hy%list_elem_of_singleton. naive_solver.
Qed.

Lemma bind_ext_in {A B} (f g : A → list B) (l : list A) :
  (∀ x, x ∈ l → f x = g x) → l ≫= f = l ≫= g.
Proof.
  induction l as [|x l IH]; intros Hext; [done|]. rewrite !bind_cons.
  rewrite (Hext x) by (by left). f_equal. apply IH. intros y Hy. apply Hext. by right.
Qed.

Section Drawing.
Variable pointOnPolyline : list Point → Point → bool.

(** The scene after the first part of a press that starts a wire: the
    new wire object, added to the scene by the command, with its origin
    and its one point at the snapped position. *)
Lemma startNewWire_state (s : Scene) (p : Point) :
  _newWire s = None →
  (∀ n, n ∈ _nets s → n ∈ dom (netStore s)) →
  let w := fresh (dom (wireStore s)) in
  let newNet := fresh (dom (netStore s)) in
  let t := set_newWireSegment true
             (updWire w (appendPoint p) (startNewWire p s)) in
  _newWire t = Some w
  ∧ _nets t = _nets s ++ [newNet]
  ∧ (∀ n, netWires t n = if decide (n = newNet) then [w] else netWires s n)
  ∧ (∀ v, v ≠ w → getWire t v = getWire s v)
  ∧ getWire t w = {| wire_pos := p; _points := [mkWirePoint (0, 0) false];
                     _connectedWires := []; _net := Some newNet;
                     wire_selectable := false |}
  ∧ nodes t = nodes s ∧ _mode t = _mode s ∧ _newWireSegment t = true.
Proof.
  intros Hnone Halloc w newNet t.
  unfold t, startNewWire. rewrite Hnone. fold w. unfold pushCommandItemAdd.
  set (sB := set_newWire (Some w) (upd_wireStore (λ m, <[w:=newWireObject]> m) s)).
  assert (∀ n, n ∈ _nets sB → n ∈ dom (netStore sB)) as HallocB by exact Halloc.
  set (sC := addWire w sB).
  assert (∀ v, getWire sC v = if decide (w = v) then set_net (Some newNet) (getWire sB v)
                              else getWire sB v) as HwireC.
  { intros v. unfold sC, addWire, newWireNet. cbv zeta.
    change (fresh (dom (netStore sB))) with newNet.
    change (getWire (addWireNet newNet ?u) v) with (getWire u v).
    unfold WireNet_addWire. by rewrite getWire_updWire, getWire_updNet. }
  assert (getWire sB w = newWireObject) as HwB.
  { unfold sB, getWire. simpl. by rewrite lookup_total_insert_eq. }
  assert (∀ v, v ≠ w → getWire sB v = getWire s v) as HvB.
  { intros v Hv. unfold sB, getWire. simpl. by rewrite lookup_total_insert_ne. }
  split; [done|]. split; [apply (addWire_nets sB w)|]. split.
  { intros n. apply (addWire_netWires sB w n). }
  split.
  { intros v Hv.
    change (getWire (set_newWireSegment true ?u) v) with (getWire u v).
    rewrite !getWire_updWire_ne by done. rewrite HwireC.
    rewrite decide_False by done. by apply HvB. }
  split.
  { change (getWire (set_newWireSegment true ?u) w) with (getWire u w).
    rewrite !getWire_updWire_eq. rewrite HwireC, decide_True by done. rewrite HwB.
    unfold appendPoint. simpl. by rewrite point_sub_diag. }
  done.
Qed.

(** The state after a left press that starts a wire. *)
Lemma mousePress_start (s : Scene) (p : Point) :
  _newWire s = None →
  (∀ n, n ∈ _nets s → n ∈ dom (netStore s)) →
  (∀ v, v ∈ wires s → v ∈ dom (wireStore s)) →
  ∃ s' w newNet,
    (wellFormed s → wellFormed s')
    ∧ mousePressEvent_WireMode pointOnPolyline p s = Some s'
    ∧ (w ∉ wires s) ∧ (newNet ∉ _nets s)
    ∧ _newWire s' = Some w ∧ _newWireSegment s' = true ∧ _mode s' = _mode s
    ∧ wire_pos (getWire s' w) = p
    ∧ pointsAbsolute (getWire s' w) = [p]
    ∧ connectedWires s' w = []
    ∧ (∀ v, v ≠ w → pointsAbsolute (getWire s' v) = pointsAbsolute (getWire s v))
    ∧ match List.find (λ v, pointIsOnWire pointOnPolyline (getWire s v) p) (wires s) with
      | None =>
          _nets s' = _nets s ++ [newNet]
          ∧ netWires s' newNet = [w]
          ∧ (∀ n, n ∈ _nets s → netWires s' n = netWires s n)
          ∧ (∀ v, v ≠ w → connectedWires s' v = connectedWires s v)
          ∧ isJunction <$> wirePointsAbsolute (getWire s' w) = [false]
      | Some host =>
          ∃ a, netFromWire host s = Some a
            ∧ _nets s' = _nets s
            ∧ netWires s' a = netWires s a ++ [w]
            ∧ (∀ n, n ∈ _nets s → n ≠ a → netWires s' n = netWires s n)
            ∧ (∀ v, v ∈ connectedWires s' host ↔ v ∈ connectedWires s host ∨ v = w)
            ∧ (∀ v, v ≠ host → v ≠ w → connectedWires s' v = connectedWires s v)
            ∧ isJunction <$> wirePointsAbsolute (getWire s' w) = [true]
      end.
Proof.
  intros Hnone Halloc Hstore.
  set (w := fresh (dom (wireStore s))). set (newNet := fresh (dom (netStore s))).
  destruct (startNewWire_state s p Hnone Halloc)
    as (HnewT & HnetsT & HnwT & HotherT & HwT & HnodesT & HmodeT & HsegT).
  fold w newNet in HnewT, HnetsT, HnwT, HotherT, HwT, HnodesT, HmodeT, HsegT.
  assert (w ∉ wires s) as Hw.
  { intros Hin. apply Hstore in Hin. by apply is_fresh in Hin. }
  assert (newNet ∉ _nets s) as HnewNet.
  { intros Hin. apply Halloc in Hin. by apply is_fresh in Hin. }
  unfold mousePressEvent_WireMode.
  set (t := set_newWireSegment true (updWire w (appendPoint p) (startNewWire p s))) in *.
  assert (_newWire (startNewWire p s) = Some w) as -> by exact HnewT.
  cbn [mbind option_bind]. fold t.
  set (g := upd_nodes _ t).
  assert (∀ v, getWire g v = getWire t v) as Hg by done.
  assert (pointsAbsolute (getWire g w) = [p]) as Hpts.
  { rewrite Hg, HwT. unfold pointsAbsolute, wirePointsAbsolute. simpl.
    by rewrite point_add_zero_l. }
  rewrite Hpts. rewrite bool_decide_eq_true_2 by done. cbn [head mbind option_bind].
  assert (wires g = wires s ++ [w]) as Hwires.
  { unfold wires. change (_nets g) with (_nets t). change (netWires g) with (netWires t).
    rewrite HnetsT, bind_app, bind_singleton. rewrite HnwT, decide_True by done.
    f_equal. apply bind_ext_in. intros n Hn. rewrite HnwT.
    rewrite decide_False; [done|]. by intros ->. }
  assert (List.find (λ wire, negb (bool_decide (wire = w))
                             && pointIsOnWire pointOnPolyline (getWire g wire) p) (wires g)
          = List.find (λ v, pointIsOnWire pointOnPolyline (getWire s v) p) (wires s))
    as ->.
  { rewrite Hwires, find_app.
    rewrite (find_ext_in _ (λ v, pointIsOnWire pointOnPolyline (getWire s v) p)).
    2:{ intros v Hv. assert (v ≠ w) as Hne by (by intros ->).
        rewrite bool_decide_eq_false_2 by done. simpl.
        by rewrite Hg, HotherT. }
    destruct (List.find _ (wires s)); [done|]. simpl.
    by rewrite bool_decide_eq_true_2. }
  assert (w ∉ dom (wireStore s)) as Hwdom by apply is_fresh.
  assert (getWire s w = newWireObject) as Hdefault.
  { unfold getWire. rewrite lookup_total_alt.
    by rewrite (proj1 (not_elem_of_dom (wireStore s) w) Hwdom). }
  assert (wellFormed s → wellFormed g) as Hwfg.
  { intros Hwf.
    set (sB := set_newWire (Some w) (upd_wireStore (λ m, <[w:=newWireObject]> m) s)).
    assert (∀ v, getWire sB v = getWire s v) as HsB.
    { intros v. unfold sB, getWire. simpl. destruct (decide (v = w)) as [->|Hv].
      - rewrite lookup_total_insert_eq. symmetry. exact Hdefault.
      - by rewrite lookup_total_insert_ne. }
    assert (wellFormed sB) as HwfB.
    { apply (wellFormed_ext s); [done|reflexivity|done| | |done].
      - intros v. by rewrite HsB.
      - intros v. unfold connectedWires. by rewrite HsB. }
    assert (wellFormed (addWire w sB)) as HwfC.
    { apply addWire_wellFormed; [done|done|].
      unfold connectedWires. by rewrite HsB, Hdefault. }
    assert (∀ v, _net (getWire g v) = _net (getWire (addWire w sB) v)
                 ∧ _connectedWires (getWire g v)
                   = _connectedWires (getWire (addWire w sB) v)) as Hsame.
    { intros v. rewrite Hg. unfold t, startNewWire. rewrite Hnone. fold w.
      unfold pushCommandItemAdd. fold sB.
      change (getWire (set_newWireSegment true ?u) v) with (getWire u v).
      rewrite !getWire_updWire. destruct (decide (w = v)) as [<-|]; [|done].
      unfold appendPoint. simpl.
      by destruct (last (_points (getWire (addWire w sB) w))) as [l|];
        [destruct (WirePoint_eqb l _)|]. }
    assert (startNewWire p s = updWire w (set_wire_pos p) (addWire w sB)) as Hstart.
    { unfold startNewWire. by rewrite Hnone. }
    assert (_nets g = _nets (addWire w sB) ∧ netStore g = netStore (addWire w sB))
      as [Hgnets Hgstore].
    { unfold g, t. rewrite Hstart. done. }
    apply (wellFormed_ext (addWire w sB)); [done| |  | | |done].
    - by rewrite Hgstore.
    - intros n. unfold netWires, getNet. by rewrite Hgstore.
    - intros v. apply Hsame.
    - intros v. apply Hsame. }
  destruct (List.find _ (wires s)) as [host|] eqn:Hfind.
  - (* the position lies on a wire of the scene *)
    destruct (find_first _ _ _ Hfind) as (k & Hk & Hon & _).
    assert (host ∈ wires s) as Hhost by (by eapply list_elem_of_lookup_2).
    assert (host ≠ w) as Hne by (by intros ->).
    destruct (netFromWire_wires s host Hhost) as (a & Ha & Han & Hha).
    assert (a ≠ newNet) as Hanew by (by intros ->).
    assert (netFromWire host g = Some a) as Hag.
    { unfold netFromWire. change (_nets g) with (_nets t). rewrite HnetsT, find_app.
      rewrite (find_ext_in _ (λ n, WireNet_contains n host s)).
      - fold (netFromWire host s). by rewrite Ha.
      - intros n Hn. unfold WireNet_contains. change (netWires g n) with (netWires t n).
        rewrite HnwT, decide_False; [done|]. by intros ->. }
    assert (netFromWire w g = Some newNet) as Hbg.
    { unfold netFromWire. change (_nets g) with (_nets t). rewrite HnetsT, find_app.
      rewrite (proj2 (find_none_iff _ (_nets s))).
      - simpl. unfold WireNet_contains, contains. change (netWires g) with (netWires t).
        rewrite HnwT, decide_True by done. by rewrite bool_decide_eq_true_2 by (by left).
      - intros n Hn. unfold WireNet_contains, contains.
        change (netWires g n) with (netWires t n).
        rewrite HnwT, decide_False by (by intros ->).
        apply bool_decide_eq_false_2. intros Hin. apply Hw, elem_of_wires. by exists n. }
    destruct (connectWire_merges host w a newNet g Hag Hbg Hanew)
      as (u & Hrun & Hnets & Hna & Hnm & Hrec & _ & Hother & Hshape & _ & Hnew & Hmode & Hseg).
    rewrite Hrun. cbn [mbind option_bind].
    exists (updWire w (setPointIsJunction 0 true) u), w, newNet.
    split.
    { intros Hwf.
      destruct (connectWire_wellFormed host w g (Hwfg Hwf))
        as (u' & Hrun' & Hwfu & _); [| |done| |].
      - rewrite Hwires. apply elem_of_app. by left.
      - rewrite Hwires. apply elem_of_app. right. by left.
      - unfold connectedWires. rewrite Hg, HwT. apply not_elem_of_nil.
      - rewrite Hrun in Hrun'. injection Hrun' as <-.
        assert (∀ v, _net (getWire (updWire w (setPointIsJunction 0 true) u) v)
                     = _net (getWire u v)
                     ∧ _connectedWires (getWire (updWire w (setPointIsJunction 0 true) u) v)
                       = _connectedWires (getWire u v)) as Hsame.
        { intros v. rewrite getWire_updWire. by destruct (decide (w = v)) as [<-|]. }
        apply (wellFormed_ext u);
          [done|reflexivity|done|intros v; apply Hsame|intros v; apply Hsame|done]. }
    split; [done|]. split; [done|]. split; [done|].
    assert (_points (getWire u w) = [mkWirePoint (0, 0) false]
            ∧ wire_pos (getWire u w) = p) as [Hpu Hposu].
    { destruct (Hshape w) as [-> ->]. by rewrite Hg, HwT. }
    assert (getWire (updWire w (setPointIsJunction 0 true) u) w
            = set_points (λ _, [mkWirePoint (0, 0) true]) (getWire u w)) as Hfinal.
    { rewrite getWire_updWire_eq. unfold setPointIsJunction. simpl.
      unfold set_points. by rewrite Hpu. }
    split; [simpl; by rewrite Hnew|]. split; [simpl; by rewrite Hseg|].
    split; [simpl; by rewrite Hmode|].
    split; [by rewrite Hfinal|]. split.
    { rewrite Hfinal. unfold pointsAbsolute, wirePointsAbsolute. simpl.
      by rewrite Hposu, point_add_zero_l. }
    split.
    { unfold connectedWires. rewrite Hfinal. simpl.
      fold (connectedWires u w). rewrite Hother by done.
      unfold connectedWires. by rewrite Hg, HwT. }
    split.
    { intros v Hv. rewrite getWire_updWire_ne by done.
      rewrite (sameShape_pointsAbsolute g u) by done. by rewrite Hg, HotherT. }
    exists a. split; [done|]. split.
    { change (_nets (updWire w ?f u)) with (_nets u). rewrite Hnets.
      change (_nets g) with (_nets t). rewrite HnetsT.
      by apply removeAll_app_fresh. }
    split.
    { change (netWires (updWire w ?f u) a) with (netWires u a). rewrite Hna.
      change (netWires g) with (netWires t). rewrite !HnwT.
      rewrite decide_False by done. by rewrite decide_True. }
    split.
    { intros n Hn Hna'. change (netWires (updWire w ?f u) n) with (netWires u n).
      rewrite Hnm; [|done|by intros ->].
      change (netWires g n) with (netWires t n). rewrite HnwT.
      rewrite decide_False; [done|]. by intros ->. }
    assert (∀ v, v ≠ w → connectedWires (updWire w (setPointIsJunction 0 true) u) v
                         = connectedWires u v) as Hconn.
    { intros v Hv. unfold connectedWires. by rewrite getWire_updWire_ne. }
    split.
    { intros v. rewrite Hconn by done. rewrite Hrec.
      unfold connectedWires. by rewrite Hg, HotherT. }
    split.
    { intros v Hvh Hvw. rewrite Hconn by done. rewrite Hother by done.
      unfold connectedWires. by rewrite Hg, HotherT. }
    rewrite Hfinal. unfold wirePointsAbsolute. by simpl.
  - (* the position lies on no wire *)
    exists g, w, newNet.
    split; [exact Hwfg|].
    split; [done|]. split; [done|]. split; [done|].
    split; [exact HnewT|]. split; [done|]. split; [exact HmodeT|].
    split; [by rewrite Hg, HwT|]. split; [exact Hpts|].
    split; [unfold connectedWires; by rewrite Hg, HwT|]. split.
    { intros v Hv. by rewrite Hg, HotherT. }
    split; [exact HnetsT|]. split.
    { change (netWires g) with (netWires t). by rewrite HnwT, decide_True. }
    split.
    { intros n Hn. change (netWires g n) with (netWires t n).
      rewrite HnwT, decide_False; [done|]. by intros ->. }
    split.
    { intros v Hv. unfold connectedWires. by rewrite Hg, HotherT. }
    rewrite Hg, HwT. by unfold wirePointsAbsolute.
Qed.

(** A left press in [WireMode] with no wire in progress starts a wire:
    a new wire object, the wire being drawn from now on, with its origin
    and its only point at the snapped position and no record of its own.
    When no wire of the scene holds the position, the wire is alone in a
    new net at the end of the list of nets.  Otherwise the first wire of
    the scene that holds it is the host: the new wire joins the host's
    net (the new net is gone again), the host records it, and its point
    is flagged as a junction.  The other wires and nets stay as they
    are. *)
Theorem mousePress_starts_wire (s : Scene) (p : Point) :
  _newWire s = None →
  (∀ n, n ∈ _nets s → n ∈ dom (netStore s)) →
  (∀ v, v ∈ wires s → v ∈ dom (wireStore s)) →
  ∃ s' w newNet,
    mousePressEvent_WireMode pointOnPolyline p s = Some s'
    ∧ (w ∉ wires s) ∧ (newNet ∉ _nets s)
    ∧ _newWire s' = Some w ∧ _newWireSegment s' = true ∧ _mode s' = _mode s
    ∧ wire_pos (getWire s' w) = p
    ∧ pointsAbsolute (getWire s' w) = [p]
    ∧ connectedWires s' w = []
    ∧ (∀ v, v ≠ w → pointsAbsolute (getWire s' v) = pointsAbsolute (getWire s v))
    ∧ match List.find (λ v, pointIsOnWire pointOnPolyline (getWire s v) p) (wires s) with
      | None =>
          _nets s' = _nets s ++ [newNet]
          ∧ netWires s' newNet = [w]
          ∧ (∀ n, n ∈ _nets s → netWires s' n = netWires s n)
          ∧ (∀ v, v ≠ w → connectedWires s' v = connectedWires s v)
          ∧ isJunction <$> wirePointsAbsolute (getWire s' w) = [false]
      | Some host =>
          ∃ a, netFromWire host s = Some a
            ∧ _nets s' = _nets s
            ∧ netWires s' a = netWires s a ++ [w]
            ∧ (∀ n, n ∈ _nets s → n ≠ a → netWires s' n = netWires s n)
            ∧ (∀ v, v ∈ connectedWires s' host ↔ v ∈ connectedWires s host ∨ v = w)
            ∧ (∀ v, v ≠ host → v ≠ w → connectedWires s' v = connectedWires s v)
            ∧ isJunction <$> wirePointsAbsolute (getWire s' w) = [true]
      end.
Proof.
  intros Hnone Halloc Hstore.
  destruct (mousePress_start s p Hnone Halloc Hstore) as (s' & w & newNet & _ & H).
  by exists s', w, newNet.
Qed.

(** A wire that is started and then abandoned stays in the scene.  After
    a left press that starts a wire, [setMode NormalMode] (or the release
    of the right button over an empty place) leaves [WireMode] and
    forgets the wire being drawn, but the wire, simplified, is still
    listed by a net of the scene; setting the mode the scene is in
    changes nothing. *)
Theorem abandoned_wire_stays_in_scene (simplify : Wire → Wire) (s : Scene) (p : Point) :
  _mode s = WireMode →
  _newWire s = None →
  (∀ n, n ∈ _nets s → n ∈ dom (netStore s)) →
  (∀ v, v ∈ wires s → v ∈ dom (wireStore s)) →
  ∃ s1 w,
    mousePressEvent_WireMode pointOnPolyline p s = Some s1
    ∧ _newWire s1 = Some w ∧ (w ∉ wires s)
    ∧ pointsAbsolute (getWire s1 w) = [p]
    ∧ setMode simplify WireMode s1 = s1
    ∧ mouseReleaseEvent_WireMode simplify true true s1 = setMode simplify NormalMode s1
    ∧ let s2 := setMode simplify NormalMode s1 in
      _mode s2 = NormalMode ∧ _newWire s2 = None
      ∧ w ∈ wires s2
      ∧ _nets s2 = _nets s1 ∧ (∀ n, netWires s2 n = netWires s1 n)
      ∧ getWire s2 w = simplify (getWire s1 w)
      ∧ (∀ v, v ≠ w → getWire s2 v = getWire s1 v).
Proof.
  intros Hmode Hnone Halloc Hstore.
  destruct (mousePress_start s p Hnone Halloc Hstore)
    as (s1 & w & newNet & _ & Hrun & Hw & HnewNet & Hnew & _ & Hmode1 & _ & Hpts & _ & _ & Hcase).
  exists s1, w. split; [done|]. split; [done|]. split; [done|]. split; [done|].
  rewrite Hmode in Hmode1.
  split; [unfold setMode; by rewrite Hmode1, bool_decide_eq_true_2|].
  split; [done|]. cbv zeta. unfold setMode. rewrite Hmode1, Hnew.
  rewrite bool_decide_eq_false_2 by done.
  split; [done|]. split; [done|]. split.
  - change (wires (set_mode NormalMode (set_newWire None (updWire w simplify s1))))
      with (wires s1).
    apply elem_of_wires.
    destruct (List.find _ (wires s)) as [host|].
    + destruct Hcase as (a & Ha & Hnets & Hna & _).
      exists a. split.
      * rewrite Hnets. unfold netFromWire in Ha.
        destruct (find_first _ _ _ Ha) as (k & Hk & _).
        by eapply list_elem_of_lookup_2.
      * rewrite Hna. apply elem_of_app. right. by left.
    + destruct Hcase as (Hnets & Hnew' & _).
      exists newNet. split; [rewrite Hnets; apply elem_of_app; right; by left|].
      rewrite Hnew'. by left.
  - split; [done|]. split; [done|]. split.
    + change (getWire (set_mode NormalMode (set_newWire None ?t)) w) with (getWire t w).
      by rewrite getWire_updWire_eq.
    + intros v Hv.
      change (getWire (set_mode NormalMode (set_newWire None ?t)) v) with (getWire t v).
      by rewrite getWire_updWire_ne.
Qed.

(** Starting a wire keeps the invariants of the nets.  In a scene whose
    nets satisfy them, [addWire] of a wire that is in no net and records
    nothing gives a scene that satisfies them, and so does a left press
    in [WireMode] that starts a wire, whether the wire starts on another
    wire or not. *)
Theorem starting_a_wire_keeps_net_invariants (s : Scene) (p : Point) :
  wellFormed s →
  (∀ v, v ∈ wires s → v ∈ dom (wireStore s)) →
  (∀ w, w ∉ wires s → connectedWires s w = [] → wellFormed (addWire w s))
  ∧ (_newWire s = None →
     ∃ s', mousePressEvent_WireMode pointOnPolyline p s = Some s' ∧ wellFormed s').
Proof.
  intros Hwf Hstore. split.
  - intros w Hw Hnone. by apply addWire_wellFormed.
  - intros Hnone.
    destruct (mousePress_start s p Hnone (wf_nets_alloc s Hwf) Hstore)
      as (s' & w & newNet & Hwf' & Hrun & _).
    exists s'. split; [done|]. by apply Hwf'.
Qed.

End Drawing.

Lemma mousePress_starts_wire_on_S1 :
  ∃ s' w, mousePressEvent_WireMode pointOnPolyline (50, 0) sceneS1 = Some s'
    ∧ _newWire s' = Some w
    ∧ pointsAbsolute (getWire s' w) = [(50, 0)]
    ∧ _nets s' = [0%nat; 1%nat].
Proof.
  destruct (mousePress_starts_wire pointOnPolyline sceneS1 (50, 0))
    as (s' & w & newNet & Hrun & _ & _ & Hnew & _ & _ & _ & Hpts & _ & _ & Hcase).
  - reflexivity.
  - intros n Hn. change (_nets sceneS1) with [0%nat; 1%nat] in Hn.
    members Hn; apply (bool_decide_unpack _); by vm_compute.
  - intros v Hv. change (wires sceneS1) with [0%nat; 1%nat] in Hv.
    members Hv; apply (bool_decide_unpack _); by vm_compute.
  - exists s', w. split; [exact Hrun|]. split; [exact Hnew|]. split; [exact Hpts|].
    assert (List.find (λ v, pointIsOnWire pointOnPolyline (getWire sceneS1 v) (50, 0))
                      (wires sceneS1) = Some 0%nat) as Hfind by (by vm_compute).
    rewrite Hfind in Hcase. destruct Hcase as (a & _ & Hnets & _). exact Hnets.
Defined.

Lemma starting_a_wire_keeps_net_invariants_S1 :
  wellFormed (addWire 2 sceneS1)
  ∧ ∃ s', mousePressEvent_WireMode pointOnPolyline (50, 0) sceneS1 = Some s'
          ∧ wellFormed s'.
Proof.
  destruct (starting_a_wire_keeps_net_invariants pointOnPolyline sceneS1 (50, 0))
    as [Hadd Hpress].
  - exact sceneS1_wellFormed.
  - intros v Hv. change (wires sceneS1) with [0%nat; 1%nat] in Hv.
    members Hv; apply (bool_decide_unpack _); by vm_compute.
  - split.
    + apply Hadd; [apply (bool_decide_unpack _); by vm_compute|reflexivity].
    + by apply Hpress.
Defined.

Lemma abandoned_wire_stays_in_scene_S1 :
  ∃ s1 w,
    mousePressEvent_WireMode pointOnPolyline (7, 7) (set_mode WireMode sceneS1) = Some s1
    ∧ _newWire (setMode simplify NormalMode s1) = None
    ∧ w ∈ wires (setMode simplify NormalMode s1)
    ∧ pointsAbsolute (getWire s1 w) = [(7, 7)].
Proof.
  destruct (abandoned_wire_stays_in_scene pointOnPolyline simplify
              (set_mode WireMode sceneS1) (7, 7))
    as (s1 & w & Hrun & _ & _ & Hpts & _ & _ & _ & Hnew & Hin & _).
  - reflexivity.
  - reflexivity.
  - intros n Hn. change (n ∈ [0%nat; 1%nat]) in Hn.
    members Hn; apply (bool_decide_unpack _); by vm_compute.
  - intros v Hv. change (v ∈ [0%nat; 1%nat]) in Hv.
    members Hv; apply (bool_decide_unpack _); by vm_compute.
  - exists s1, w. split; [exact Hrun|]. split; [exact Hnew|]. split; [exact Hin|exact Hpts].
Defined.

(** ** Finishing a wire on a connector or on a wire *)

#[global] Instance joining_preorder W i : PreOrder (joining W i).
Proof.
  split.
  - intros st. by repeat split.
  - intros st1 st2 st3 (H1 & H2 & H3 & H4) (G1 & G2 & G3 & G4).
    split; [by etrans|]. split; [naive_solver|]. split; naive_solver.
Qed.

Lemma last_at {A} (l : list A) : last l = at_ l (count l - 1).
Proof.
  unfold at_, count. destruct l as [|x l]; [done|].
  rewrite bool_decide_eq_true_2 by (simpl; lia).
  rewrite last_lookup. f_equal. simpl. lia.
Qed.

Section Finishing.
Variable pointOnPolyline : list Point → Point → bool.
Variable simplify : Wire → Wire.

(** The body of the loop of [attachLastPoint], for the wire [wire]. *)
Lemma attachLastPoint_step s W p wire (st : Scene * bool) :
  W ∈ wires s → last (pointsAbsolute (getWire s W)) = Some p →
  wire ∈ wires s → finishing pointOnPolyline s W p st →
  let i := count (pointsAbsolute (getWire s W)) - 1 in
  ∃ st',
    (let '(s0, floating) := st in
     if bool_decide (wire = W) then Some (s0, floating)
     else
       final ← last (pointsAbsolute (getWire s0 W));
       if pointIsOnWire pointOnPolyline (getWire s0 wire) final then
         s0 ← connectWire wire W s0;
         Some (updWire W
                 (setPointIsJunction
                    (count (pointsAbsolute (getWire s0 W)) - 1) true) s0,
               false)
       else Some (s0, floating)) = Some st'
    ∧ finishing pointOnPolyline s W p st'
    ∧ joining W i st st'
    ∧ (wire ≠ W → pointIsOnWire pointOnPolyline (getWire s wire) p = true →
       W ∈ connectedWires st'.1 wire ∧ st'.2 = false
       ∧ sameNet st'.1 wire W ∧ flagged W i st'.1).
Proof.
  intros HW Hp Hwire Hst i. destruct st as [t fl].
  destruct Hst as [Hshape Hown Hwires Horigin Hsession]. cbn [fst snd] in *.
  case_bool_decide as Hne.
  { exists (t, fl). split; [done|]. split; [done|]. split; [reflexivity|done]. }
  rewrite Hshape, Hp. cbn [mbind option_bind].
  unfold pointIsOnWire at 1. rewrite Hshape.
  fold (pointIsOnWire pointOnPolyline (getWire s wire) p).
  destruct (pointIsOnWire pointOnPolyline (getWire s wire) p) eqn:Hon.
  2:{ exists (t, fl). split; [done|]. split; [done|]. split; [reflexivity|done]. }
  destruct (connectWire_sameNet wire W t)
    as (u & Hrun & Hrec & Hother & Hsh & Hw & Hnet & Hkeep & Hsess);
    [by apply Hwires|by apply Hwires|].
  rewrite Hrun. cbn [mbind option_bind].
  assert (pointsAbsolute (getWire u W) = pointsAbsolute (getWire s W)) as HptsW.
  { by rewrite (sameShape_pointsAbsolute t u), Hshape. }
  rewrite HptsW. fold i.
  set (t' := updWire W (setPointIsJunction i true) u).
  assert (∀ v, connectedWires t' v = connectedWires u v) as Hconn.
  { intros v. unfold t', connectedWires. rewrite getWire_updWire.
    destruct (decide (W = v)) as [<-|]; [|done].
    unfold setPointIsJunction. by case_bool_decide. }
  assert (∀ v, pointsAbsolute (getWire t' v) = pointsAbsolute (getWire u v)) as Hshape'.
  { intros v. unfold t'. rewrite getWire_updWire.
    destruct (decide (W = v)) as [<-|]; [|done].
    apply pointsAbsolute_setPointIsJunction. }
  assert (flagged W i t') as Hflag.
  { unfold flagged, t'. rewrite getWire_updWire_eq. apply junction_setPointIsJunction.
    assert (is_Some (at_ (pointsAbsolute (getWire u W)) i)) as Hsome.
    { rewrite HptsW. unfold i. rewrite <- last_at. by rewrite Hp. }
    unfold pointsAbsolute in Hsome. rewrite at_fmap in Hsome.
    by apply fmap_is_Some in Hsome. }
  exists (t', false). split; [done|]. split; [|split].
  - split; cbn [fst snd].
    + intros v. by rewrite Hshape', (sameShape_pointsAbsolute t u), Hshape.
    + rewrite Hconn, Hother by congruence. done.
    + intros x. change (wires t') with (wires u). rewrite Hw. apply Hwires.
    + intros X v. rewrite Hconn. intros Hv. destruct (decide (X = wire)) as [->|HX].
      * apply Hrec in Hv as [Hv| ->]; [by apply Horigin|]. by right.
      * rewrite Hother in Hv by done. by apply Horigin.
    + apply (sameSession_trans _ t); [done|].
      apply (sameSession_trans _ u); [done|]. by repeat split.
  - split; cbn [fst snd]; [|split; [done|split; [|done]]].
    + intros X v Hv. rewrite Hconn. destruct (decide (X = wire)) as [->|HX].
      * apply Hrec. by left.
      * by rewrite Hother.
    + intros x y Hxy. apply Hkeep in Hxy. exact Hxy.
  - intros _ _. cbn [fst snd]. split; [rewrite Hconn; apply Hrec; by right|].
    split; [done|]. split; [exact Hnet|exact Hflag].
Qed.

(** A double click that ends the wire being drawn on a connector or on
    another wire finishes the wire: the provisional point is dropped, no
    message is shown, the wire is made selectable and simplified, and no
    wire is being drawn any more.  Every other wire that holds the last
    point comes to record the wire and shares its net with it, and the
    last point is flagged as a junction; nothing else is recorded, and
    the scene has the wires it had. *)
Theorem mouseDoubleClick_finishes_wire (s : Scene) (newWire : WireId) (final : Point) :
  _mode s = WireMode →
  _newWire s = Some newWire →
  newWire ∈ wires s →
  1 < count (wirePointsRelative (getWire s newWire)) →
  last (pointsAbsolute (removeLastPoint (getWire s newWire))) = Some final →
  final ∈ connectionPoints s
  ∨ (∃ X, X ∈ wires s ∧ X ≠ newWire
          ∧ pointIsOnWire pointOnPolyline (getWire s X) final = true) →
  ∃ s' wire0,
    mouseDoubleClickEvent pointOnPolyline simplify s = Some s'
    ∧ _newWire s' = None ∧ _mode s' = WireMode
    ∧ messageBoxes s' = messageBoxes s ∧ nodes s' = nodes s
    ∧ getWire s' newWire = simplify wire0
    ∧ wire_selectable wire0 = true
    ∧ pointsAbsolute wire0 = pointsAbsolute (removeLastPoint (getWire s newWire))
    ∧ _connectedWires wire0 = connectedWires s newWire
    ∧ (∀ x, x ∈ wires s' ↔ x ∈ wires s)
    ∧ (∀ v, v ≠ newWire → pointsAbsolute (getWire s' v) = pointsAbsolute (getWire s v))
    ∧ (∀ X, X ∈ wires s → X ≠ newWire →
            pointIsOnWire pointOnPolyline (getWire s X) final = true →
            newWire ∈ connectedWires s' X ∧ sameNet s' X newWire
            ∧ isJunction <$> at_ (wirePointsAbsolute wire0) (count (pointsAbsolute wire0) - 1)
              = Some true)
    ∧ (∀ X v, X ≠ newWire → v ∈ connectedWires s' X →
              v ∈ connectedWires s X
              ∨ (v = newWire
                 ∧ pointIsOnWire pointOnPolyline (getWire s X) final = true)).
Proof.
  intros Hmode Hnew Hin Hcount Hlast Hends.
  unfold mouseDoubleClickEvent, mouseDoubleClickEvent_WireMode.
  rewrite Hmode, Hnew. rewrite bool_decide_eq_true_2 by done.
  set (s1 := updWire newWire removeLastPoint s).
  assert (getWire s1 newWire = removeLastPoint (getWire s newWire)) as Hget
    by apply getWire_updWire_eq.
  assert (∀ v, v ≠ newWire → getWire s1 v = getWire s v) as Hget'.
  { intros v Hv. unfold s1. by rewrite getWire_updWire_ne. }
  assert (∀ v, connectedWires s1 v = connectedWires s v) as Hconn1.
  { intros v. unfold connectedWires. destruct (decide (v = newWire)) as [->|Hv].
    - by rewrite Hget.
    - by rewrite Hget'. }
  rewrite Hget, Hlast. cbn [mbind option_bind].
  set (fl0 := negb (existsb (λ connectionPoint, bool_decide (connectionPoint = final))
                            (connectionPoints s1))).
  assert (last (pointsAbsolute (getWire s1 newWire)) = Some final) as Hlast1
    by (by rewrite Hget).
  set (i := count (pointsAbsolute (getWire s1 newWire)) - 1).
  unfold attachLastPoint.
  destruct (forEach_along (finishing pointOnPolyline s1 newWire final)
              (joining newWire i)
              (λ X st, X ≠ newWire →
                       pointIsOnWire pointOnPolyline (getWire s1 X) final = true →
                       newWire ∈ connectedWires st.1 X ∧ st.2 = false
                       ∧ sameNet st.1 X newWire ∧ flagged newWire i st.1)
              (λ wire '(s0, floating),
                 if bool_decide (wire = newWire) then Some (s0, floating)
                 else
                   final ← last (pointsAbsolute (getWire s0 newWire));
                   if pointIsOnWire pointOnPolyline (getWire s0 wire) final then
                     s0 ← connectWire wire newWire s0;
                     Some (updWire newWire
                             (setPointIsJunction
                                (count (pointsAbsolute (getWire s0 newWire)) - 1) true) s0,
                           false)
                   else Some (s0, floating))
              (wires s1) (s1, fl0))
    as ([u fl] & Hrun & [Hshape Hown Hwires Horigin Hsession] & Hjoin & Hall).
  - intros wire st Hwire Hst.
    destruct (attachLastPoint_step s1 newWire final wire st)
      as (st' & Hstep & Hst' & Hj & Hq); [done|done|done|done|].
    exists st'. destruct st as [s0 floating]. split; [exact Hstep|]. done.
  - intros X st st' (Hg & Hf & Hn & Hfl) Hq H1 H2.
    destruct (Hq H1 H2) as (Q1 & Q2 & Q3 & Q4).
    split; [by apply Hg|]. split; [by apply Hf|]. split; [by apply Hn|by apply Hfl].
  - split; cbn [fst snd]; [done|done|done| |apply sameSession_refl].
    intros X v Hv. by left.
  - cbn [fst snd] in *. rewrite Hrun. cbn [mbind option_bind].
    destruct Hjoin as (_ & Hfloat & _ & _). cbn [fst snd] in Hfloat.
    assert (fl = false) as ->.
    { destruct Hends as [Hconn|(X & HX & HXne & HXon)].
      - apply Hfloat. unfold fl0. apply negb_false_iff. apply existsb_exists.
        exists final. split; [|by apply bool_decide_eq_true_2].
        apply list_elem_of_In. exact Hconn.
      - destruct (Hall X) as (_ & Hfl & _); [done|done| |done].
        by rewrite Hget'. }
    destruct Hsession as (Hnodes & Hmode' & Hnew' & _ & Hmsg).
    eexists. exists (set_selectable true (getWire u newWire)).
    split; [reflexivity|]. split; [done|]. split; [simpl; by rewrite Hmode'|].
    split; [simpl; by rewrite Hmsg|]. split; [simpl; by rewrite Hnodes|].
    split.
    { change (getWire (set_newWire None ?t) newWire) with (getWire t newWire).
      by rewrite getWire_updWire_eq. }
    split; [done|]. split.
    { change (pointsAbsolute (set_selectable true ?x)) with (pointsAbsolute x).
      by rewrite Hshape, Hget. }
    split.
    { change (_connectedWires (set_selectable true ?x)) with (_connectedWires x).
      fold (connectedWires u newWire). by rewrite Hown, Hconn1. }
    split; [exact Hwires|]. split.
    { intros v Hv. change (getWire (set_newWire None ?t) v) with (getWire t v).
      rewrite getWire_updWire_ne by done. by rewrite Hshape, Hget'. }
    assert (∀ X, X ≠ newWire →
                 connectedWires
                   (set_newWire None
                      (updWire newWire (λ w, simplify (set_selectable true w)) u)) X
                 = connectedWires u X) as Hkeep.
    { intros X HX. unfold connectedWires.
      change (getWire (set_newWire None ?t) X) with (getWire t X).
      by rewrite getWire_updWire_ne. }
    split.
    + intros X HX HXne HXon.
      destruct (Hall X) as (Hrec & _ & Hnet & Hflag);
        [exact HX|done|by rewrite Hget'|].
      split; [by rewrite Hkeep|]. split; [exact Hnet|].
      change (wirePointsAbsolute (set_selectable true ?x)) with (wirePointsAbsolute x).
      change (pointsAbsolute (set_selectable true ?x)) with (pointsAbsolute x).
      rewrite Hshape. exact Hflag.
    + intros X v HX Hv. rewrite Hkeep in Hv by done.
      apply Horigin in Hv as [Hv|(-> & _ & Hon)].
      * left. by rewrite <- Hconn1.
      * right. split; [done|]. by rewrite <- Hget'.
Qed.
End Finishing.

Lemma mouseDoubleClick_finishes_wire_onto :
  ∃ s', mouseDoubleClickEvent pointOnPolyline simplify sceneDrawingOnto = Some s'
    ∧ _newWire s' = None
    ∧ 1%nat ∈ connectedWires s' 0 ∧ sameNet s' 0%nat 1%nat.
Proof.
  destruct (mouseDoubleClick_finishes_wire pointOnPolyline simplify sceneDrawingOnto
              1%nat (50, 0))
    as (s' & wire0 & Hrun & Hnew & _ & _ & _ & _ & _ & _ & _ & _ & _ & Hjoin & _).
  - reflexivity.
  - reflexivity.
  - apply (bool_decide_unpack _). by vm_compute.
  - by vm_compute.
  - by vm_compute.
  - right. exists 0%nat. split; [apply (bool_decide_unpack _); by vm_compute|].
    split; [lia|by vm_compute].
  - exists s'. split; [exact Hrun|]. split; [exact Hnew|].
    destruct (Hjoin 0%nat) as (Hrec & Hnet & _).
    + apply (bool_decide_unpack _). by vm_compute.
    + lia.
    + by vm_compute.
    + split; [exact Hrec|exact Hnet].
Defined.

(** ** Binding the connectors of a moved node *)

Lemma elem_of_connectors s id c : (id, c) ∈ connectors s ↔ connectorAt s id = Some c.
Proof.
  unfold connectors, connectorAt. rewrite list_elem_of_join. split.
  - intros (l & Hin & Hl). apply elem_of_lookup_imap in Hl as (ni & n & -> & Hn).
    apply elem_of_lookup_imap in Hin as (ci & c' & [= -> ->] & Hc).
    simpl. by rewrite Hn.
  - destruct id as [ni ci]. simpl. intros H.
    destruct (nodes s !! ni) as [n|] eqn:Hn; [simpl in H|done].
    exists (imap (λ ci c, ((ni, ci), c)) (node_connectors n)). split.
    + apply elem_of_lookup_imap. by exists ci, c.
    + apply elem_of_lookup_imap. by exists ni, n.
Qed.

Lemma alreadyConnected_spec s id w i :
  alreadyConnected s id w i = true ↔ heldByOther s id w i.
Proof.
  unfold alreadyConnected, heldByOther. rewrite existsb_exists. split.
  - intros ([id' c'] & Hin & H). apply list_elem_of_In, elem_of_connectors in Hin.
    apply andb_true_iff in H as [H1 H2]. apply andb_true_iff in H2 as [H2 H3].
    apply negb_true_iff, bool_decide_eq_false in H1.
    apply bool_decide_eq_true in H2, H3. by exists id', c'.
  - intros (id' & c' & Hne & Hat & Hw & Hi). exists (id', c'). split.
    + by apply list_elem_of_In, elem_of_connectors.
    + rewrite (bool_decide_eq_false_2 (id' = id)) by done.
      by rewrite !bool_decide_eq_true_2.
Qed.

Lemma connectorAt_setConnector s id c0 c id' :
  connectorAt s id = Some c0 →
  connectorAt (setConnector id c s) id'
  = if decide (id' = id) then Some c else connectorAt s id'.
Proof.
  destruct id as [ni ci], id' as [nj cj]. unfold connectorAt, setConnector. simpl.
  intros H. destruct (nodes s !! ni) as [n|] eqn:Hn; [simpl in H|done].
  destruct (decide (nj = ni)) as [->|Hnj].
  - rewrite list_lookup_alter_eq, Hn. simpl.
    destruct (decide (cj = ci)) as [->|Hcj].
    + rewrite decide_True by done. apply list_lookup_insert_eq.
      by eapply lookup_lt_Some.
    + rewrite decide_False by congruence. by rewrite list_lookup_insert_ne.
  - rewrite list_lookup_alter_ne by done. by rewrite decide_False by congruence.
Qed.

Lemma connectorPos_setConnector s id c0 c id' :
  connectorAt s id = Some c0 → conn_pos c = conn_pos c0 →
  connectorPos (setConnector id c s) id' = connectorPos s id'.
Proof.
  destruct id as [ni ci], id' as [nj cj]. unfold connectorAt, connectorPos, setConnector.
  simpl. intros H Hpos. destruct (nodes s !! ni) as [n|] eqn:Hn; [simpl in H|done].
  destruct (decide (nj = ni)) as [->|Hnj].
  - rewrite list_lookup_alter_eq, Hn. simpl.
    destruct (decide (cj = ci)) as [->|Hcj].
    + rewrite list_lookup_insert_eq by (by eapply lookup_lt_Some). rewrite H. simpl.
      unfold scenePos. simpl. by rewrite Hpos.
    + rewrite list_lookup_insert_ne by done.
      by destruct (node_connectors n !! cj).
  - by rewrite list_lookup_alter_ne by done.
Qed.

Lemma head_at {A} (l : list A) : head l = at_ l 0.
Proof. unfold at_. rewrite bool_decide_eq_true_2 by done. by destruct l. Qed.

#[global] Instance tryingWires_preorder id : PreOrder (tryingWires id).
Proof.
  split.
  - intros t. split; [done|]. split; [|done]. intros c Hc Hb. by exists c.
  - intros t1 t2 t3 (H1 & H2 & H3) (G1 & G2 & G3). split; [|split].
    + intros id' Hne. by rewrite G1, H1.
    + intros c Hc Hb. destruct (H2 c Hc Hb) as (c' & Hc' & Hb'). by apply (G2 c').
    + intros c' Hc' Hf. apply H3; [by apply G3|done].
Qed.

#[global] Instance keepsBindings_preorder : PreOrder keepsBindings.
Proof.
  split.
  - intros t. by split.
  - intros t1 t2 t3 [H1 H2] [G1 G2]. split.
    + intros id c Hc Hb. apply G1; [by apply H1|done].
    + intros id c' Hc' Hf. apply H2; [by apply G2|done].
Qed.

Lemma wireInIntRange_absolute (w : Wire) (p : WirePoint) :
  wireInIntRange w → p ∈ wirePointsAbsolute w → inIntRange (wp_pos p).
Proof.
  intros Hw Hp. unfold wirePointsAbsolute in Hp.
  apply list_elem_of_fmap in Hp as (q & -> & Hq).
  destruct (Hw q Hq) as (_ & _ & Hsum). simpl. by rewrite point_add_comm.
Qed.

Section UpdateNodeConnections.
Variables (s : Scene) (ni : nat).
(** The positions that are compared lie within the range of [int]. *)
Hypothesis wires_inIntRange : ∀ w, w ∈ wires s → wireInIntRange (getWire s w).
Hypothesis connectors_inIntRange :
  ∀ id pos, id.1 = ni → connectorPos s id = Some pos → inIntRange pos.

(** The body of the loop over the wires, for a connector of the node
    that is not bound in [s]. *)
Lemma connectEndpoint_step (id : ConnectorId) c0 pos w t :
  id.1 = ni →
  connectorAt s id = Some c0 → attachedWire c0 = None →
  connectorPos s id = Some pos →
  w ∈ wires s → _points (getWire s w) ≠ [] →
  rebinding s ni t →
  ∃ t', connectEndpoint id w t = Some t'
    ∧ rebinding s ni t'
    ∧ tryingWires id t t'
    ∧ ((∀ c, connectorAt t id = Some c → attachedWire c = None → _wirePointIndex c = -1) →
       (∀ c', connectorAt t' id = Some c' → attachedWire c' = None →
              _wirePointIndex c' = -1 ∧ nothingToBind s id pos w t')).
Proof.
  intros Hni Hc0 Hfree Hpos Hw Hpoints Hrb.
  destruct Hrb as [Hws Hns Hnets Hnodes Hposs Hconn].
  destruct (Hconn id c0 Hc0) as (ct & Hct & Hcpos & Hcase).
  pose proof (Hposs id) as Hpost. rewrite Hpos in Hpost.
  unfold connectEndpoint. unfold connectorAt in Hct. unfold connectorPos in Hpost.
  destruct (nodes t !! id.1) as [n|] eqn:Hn; [|done]. simpl in Hct, Hpost.
  rewrite Hct in Hpost. simpl in Hpost. injection Hpost as Hpost.
  cbn [mbind option_bind]. rewrite Hct. cbn [mbind option_bind].
  assert (getWire t w = getWire s w) as Hget by (unfold getWire; by rewrite Hws).
  rewrite Hget. set (points := wirePointsAbsolute (getWire s w)).
  assert (points ≠ []) as Hne.
  { unfold points, wirePointsAbsolute. by destruct (_points (getWire s w)). }
  destruct (head points) as [first|] eqn:Hfirst; [|by apply head_None in Hfirst].
  destruct (last points) as [final|] eqn:Hfinal; [|by apply last_None in Hfinal].
  cbn [mbind option_bind]. rewrite Hpost.
  set (index := endpointIndex points first final pos).
  assert (connectorAt t id = Some ct) as Hat.
  { unfold connectorAt. rewrite Hn. done. }
  assert (∀ t', (∀ id', connectorAt t' id' = connectorAt t id') →
                (∀ c', connectorAt t' id = Some c' → attachedWire c' = None →
                       index ≠ -1 →
                       (∃ pt, at_ points index = Some pt ∧ isJunction pt = true)
                       ∨ heldByOther t' id w index) →
                (∀ c, connectorAt t id = Some c → attachedWire c = None →
                      _wirePointIndex c = -1) →
                ∀ c', connectorAt t' id = Some c' → attachedWire c' = None →
                      _wirePointIndex c' = -1 ∧ nothingToBind s id pos w t') as Hnothing.
  { intros t' Hsame Hcase' Hidx c' Hc' Hfree'. split.
    - apply Hidx; [by rewrite <- Hsame|done].
    - intros first' final' i Hf Hl Hi Hi'. fold points in Hf, Hl, Hi.
      rewrite Hfirst in Hf. rewrite Hfinal in Hl. injection Hf as <-. injection Hl as <-.
      fold index in Hi. subst i. by apply (Hcase' c'). }
  assert (rebinding s ni t) as Hrb by (by split).
  case_bool_decide as Hindex.
  2:{ exists t. split; [done|]. split; [done|]. split; [reflexivity|].
      apply Hnothing; [done|]. intros c' _ _ Hi. by destruct Hindex. }
  assert (is_Some (at_ points index)) as [pt Hpt].
  { unfold index, endpointIndex in *. case_bool_decide.
    - rewrite <- head_at. by rewrite Hfirst.
    - case_bool_decide; [|done]. rewrite <- last_at. by rewrite Hfinal. }
  rewrite Hpt. cbn [mbind option_bind].
  destruct (isJunction pt) eqn:Hjunction.
  { exists t. split; [done|]. split; [done|]. split; [reflexivity|].
    apply Hnothing; [done|]. intros c' _ _ _. left. by exists pt. }
  destruct (alreadyConnected t id w index) eqn:Hheld.
  { exists t. split; [done|]. split; [done|]. split; [reflexivity|].
    apply Hnothing; [done|]. intros c' _ _ _. right.
    by apply alreadyConnected_spec. }
  (* the connector is attached *)
  set (cn := attachWire (wireStore t) (Some w) index ct).
  assert (conn_pos cn = conn_pos ct) as Hcnpos.
  { unfold cn, attachWire. by destruct (_ || _). }
  assert (cn = ct ∨ (attachedWire cn = Some w ∧ attachedWirepoint cn = index)) as Hcn.
  { unfold cn, attachWire. destruct (_ || _); [by left|by right]. }
  assert (∀ id', connectorAt (setConnector id cn t) id'
                 = if decide (id' = id) then Some cn else connectorAt t id') as Hset.
  { intros id'. by apply (connectorAt_setConnector t id ct). }
  assert (¬ heldByOther t id w index) as Hnotheld.
  { intros H. apply alreadyConnected_spec in H. congruence. }
  assert (toPoint pos = pos) as Hfits
    by (by apply toPoint_inIntRange, (connectors_inIntRange id)).
  assert (∀ p, p ∈ points → toPoint (wp_pos p) = wp_pos p) as Hfit.
  { intros p Hp. apply toPoint_inIntRange.
    apply (wireInIntRange_absolute (getWire s w)); [by apply wires_inIntRange|done]. }
  assert (first ∈ points ∧ final ∈ points) as [Hfirst_in Hfinal_in].
  { split.
    - destruct points; [done|]. injection Hfirst as ->. by left.
    - rewrite last_lookup in Hfinal. by eapply list_elem_of_lookup_2. }
  assert (wp_pos pt = pos ∧ (index = 0 ∨ index = count points - 1)) as [Hptpos Hends].
  { unfold index, endpointIndex in *. rewrite Hfits, !Hfit in * by done.
    case_bool_decide as H1.
    - rewrite <- head_at, Hfirst in Hpt. injection Hpt as <-. split; [done|by left].
    - case_bool_decide as H2; [|done].
      rewrite <- last_at, Hfinal in Hpt. injection Hpt as <-. split; [done|by right]. }
  exists (setConnector id cn t). split; [done|]. split; [|split].
  - split; [done|done|done| | |].
    + intros nj Hnj. rewrite <- Hnodes by done. unfold setConnector. simpl.
      rewrite list_lookup_alter_ne; [done|]. congruence.
    + intros id'. rewrite <- Hposs.
      apply (connectorPos_setConnector t id ct); [done|done].
    + intros id' c Hc. rewrite Hset. destruct (decide (id' = id)) as [->|Hid'].
      * rewrite Hc0 in Hc. injection Hc as <-.
        exists cn. split; [done|]. split; [congruence|].
        destruct Hcn as [->|[Hcw Hci]].
        -- destruct Hcase as [->|(H1 & H2 & pos' & w' & H3 & H4 & H5)]; [by left|].
           right. split; [done|]. split; [done|]. exists pos', w'.
           split; [done|]. split; [done|].
           intros (id2 & c2 & Hne2 & Hc2 & Hb2). apply H5. exists id2, c2.
           split; [done|]. rewrite Hset, decide_False in Hc2 by done. done.
        -- right. split; [done|]. split; [done|]. exists pos, w.
           split; [done|]. split.
           ++ exists pt. rewrite Hci. fold points. by repeat split.
           ++ rewrite Hci. intros (id2 & c2 & Hne2 & Hc2 & Hb2). apply Hnotheld.
              exists id2, c2. split; [done|].
              rewrite Hset, decide_False in Hc2 by done. done.
      * destruct (Hconn id' c Hc) as (c' & Hc' & Hp' & Hcase').
        exists c'. split; [done|]. split; [done|].
        destruct Hcase' as [->|(H1 & H2 & pos' & w' & H3 & H4 & H5)]; [by left|].
        right. split; [done|]. split; [done|]. exists pos', w'.
        split; [done|]. split; [done|].
        intros (id2 & c2 & Hne2 & Hc2 & Hb2 & Hi2). rewrite Hset in Hc2.
        destruct (decide (id2 = id)) as [->|Hid2].
        -- injection Hc2 as <-. destruct Hcn as [->|[Hcw Hci]].
           ++ apply H5. by exists id, ct.
           ++ apply Hnotheld. exists id', c'. split; [done|]. split; [done|].
              destruct H4 as (pt' & Hw' & _). rewrite Hcw in Hb2. injection Hb2 as <-.
              split; [done|]. congruence.
        -- apply H5. by exists id2, c2.
  - split; [|split].
    + intros id' Hne'. rewrite Hset. by rewrite decide_False.
    + intros c Hc Hb. rewrite Hat in Hc. injection Hc as <-.
      exists cn. rewrite Hset, decide_True by done. split; [done|].
      destruct Hcn as [->|[-> _]]; done.
    + intros c' Hc' Hf. rewrite Hset, decide_True in Hc' by done.
      injection Hc' as <-. destruct Hcn as [->|[Hb _]]; [done|congruence].
  - intros Hidx c' Hc' Hfree'. rewrite Hset, decide_True in Hc' by done.
    injection Hc' as <-. exfalso.
    destruct Hcn as [Heq|[Hb _]]; [|congruence].
    (* the guard of attachWire lets an unbound connector through *)
    rewrite Heq in Hfree'. pose proof (Hidx ct Hat Hfree') as Hminus.
    unfold cn, attachWire in Heq. rewrite Hminus in Heq.
    rewrite (bool_decide_eq_false_2 (-1 < -1)) in Heq by lia.
    rewrite bool_decide_eq_false_2 in Heq by (unfold count; lia).
    simpl in Heq. rewrite <- Heq in Hfree'. done.
Qed.

Lemma rebinding_refl : rebinding s ni s.
Proof. split; try done. intros id c Hc. exists c. split; [done|]. split; [done|by left]. Qed.

Lemma rebinding_wires t : rebinding s ni t → wires t = wires s.
Proof.
  intros [Hws Hns Hnets _ _ _]. unfold wires, netWires, getNet. by rewrite Hns, Hnets.
Qed.

Lemma heldByOther_kept id w i t t' :
  keepsBindings t t' → heldByOther t id w i → heldByOther t' id w i.
Proof.
  intros [Hkeep _] (id' & c' & Hne & Hc' & Hw & Hi). exists id', c'.
  split; [done|]. split; [|done]. apply Hkeep; [done|]. by rewrite Hw.
Qed.

(** The body of the loop over the connectors, for the connector [id] of
    the node. *)
Lemma updateConnector_step (id : ConnectorId) c0 pos t :
  id.1 = ni →
  connectorAt s id = Some c0 →
  connectorPos s id = Some pos →
  (∀ w, w ∈ wires s → _points (getWire s w) ≠ []) →
  rebinding s ni t →
  ∃ t', updateConnector id t = Some t'
    ∧ rebinding s ni t'
    ∧ keepsBindings t t'
    ∧ ((attachedWire c0 = None → _wirePointIndex c0 = -1) →
       ∀ c', connectorAt t' id = Some c' → attachedWire c' = None →
             ∀ w, w ∈ wires s → nothingToBind s id pos w t').
Proof.
  intros Hni Hc0 Hpos Hpoints Hrb.
  destruct (rb_conn _ _ _ Hrb id c0 Hc0) as (ct & Hct & _ & Hcase).
  unfold updateConnector. rewrite Hct. cbn [mbind option_bind].
  case_bool_decide as Hbound.
  { exists t. split; [done|]. split; [done|]. split; [reflexivity|].
    intros _ c' Hc' Hfree. rewrite Hct in Hc'. injection Hc' as <-. done. }
  assert (attachedWire ct = None) as Hfree.
  { destruct (attachedWire ct) eqn:H; [|done]. by destruct Hbound. }
  assert (ct = c0) as ->.
  { destruct Hcase as [->|(_ & _ & pos' & w' & _ & (pt & Hw & _) & _)]; [done|].
    congruence. }
  rewrite (rebinding_wires t Hrb).
  destruct (forEach_along
              (λ u, rebinding s ni u
                    ∧ ((attachedWire c0 = None → _wirePointIndex c0 = -1) →
                       ∀ c, connectorAt u id = Some c → attachedWire c = None →
                            _wirePointIndex c = -1))
              (tryingWires id)
              (λ w u, (attachedWire c0 = None → _wirePointIndex c0 = -1) →
                      ∀ c', connectorAt u id = Some c' → attachedWire c' = None →
                            nothingToBind s id pos w u)
              (connectEndpoint id) (wires s) t)
    as (t' & Hrun & [Hrb' _] & Htry & Hall).
  - intros w u Hw [Hu Hidx].
    destruct (connectEndpoint_step id c0 pos w u Hni Hc0 Hfree Hpos Hw (Hpoints w Hw) Hu)
      as (u' & Hstep & Hu' & Htry & Hcond).
    exists u'. split; [done|]. split; [|split; [done|]].
    + split; [done|]. intros H0 c Hc Hf. by apply (Hcond (Hidx H0) c).
    + intros H0 c' Hc' Hf. by apply (Hcond (Hidx H0) c').
  - intros w u u' (Hothers & _ & Hsame) Hq H0 c' Hc' Hf.
    pose proof (Hq H0 c' (Hsame c' Hc' Hf) Hf) as Hnothing.
    intros first final i H1 H2 H3 H4.
    destruct (Hnothing first final i H1 H2 H3 H4) as [Hj|(id' & c'' & Hne & Hat & Hb)];
      [by left|]. right. exists id', c''. split; [done|]. split; [|done].
    by rewrite Hothers.
  - split; [done|]. intros H0 c Hc Hf. rewrite Hct in Hc. injection Hc as <-. by apply H0.
  - exists t'. split; [done|]. split; [done|].
    destruct Htry as (Hothers & _ & Hsame). split.
    + split.
      * intros id' c Hc Hb. destruct (decide (id' = id)) as [->|Hne].
        -- rewrite Hct in Hc. injection Hc as <-. congruence.
        -- by rewrite Hothers.
      * intros id' c' Hc' Hf. destruct (decide (id' = id)) as [->|Hne].
        -- by apply Hsame.
        -- by rewrite <- Hothers.
    + intros H0 c' Hc' Hf w Hw. by apply (Hall w Hw H0 c').
Qed.

(** The loop over the connectors of the node. *)
Lemma updateNodeConnections_loop n :
  nodes s !! ni = Some n →
  (∀ w, w ∈ wires s → _points (getWire s w) ≠ []) →
  ∃ s', updateNodeConnections ni s = Some s'
    ∧ rebinding s ni s'
    ∧ keepsBindings s s'
    ∧ ((∀ ci c, connectorAt s (ni, ci) = Some c → attachedWire c = None →
                _wirePointIndex c = -1) →
       ∀ ci c' pos, connectorAt s' (ni, ci) = Some c' → attachedWire c' = None →
                    connectorPos s (ni, ci) = Some pos →
                    ∀ w, w ∈ wires s → nothingToBind s (ni, ci) pos w s').
Proof.
  intros Hn Hpoints. unfold updateNodeConnections. rewrite Hn. cbn [mbind option_bind].
  destruct (forEach_along (rebinding s ni) keepsBindings
              (λ ci u, (∀ ci c, connectorAt s (ni, ci) = Some c → attachedWire c = None →
                                _wirePointIndex c = -1) →
                       ∀ c' pos, connectorAt u (ni, ci) = Some c' →
                                 attachedWire c' = None →
                                 connectorPos s (ni, ci) = Some pos →
                                 ∀ w, w ∈ wires s → nothingToBind s (ni, ci) pos w u)
              (λ ci u, updateConnector (ni, ci) u)
              (seq 0 (length (node_connectors n))) s)
    as (s' & Hrun & Hrb & Hkeep & Hall).
  - intros ci u Hci Hu.
    apply elem_of_seq in Hci as [_ Hci]. simpl in Hci.
    destruct (lookup_lt_is_Some_2 (node_connectors n) ci Hci) as [c0 Hc0].
    assert (connectorAt s (ni, ci) = Some c0) as Hat.
    { unfold connectorAt. simpl. by rewrite Hn. }
    assert (connectorPos s (ni, ci) = Some (scenePos n c0)) as Hpos.
    { unfold connectorPos. simpl. rewrite Hn. simpl. by rewrite Hc0. }
    destruct (updateConnector_step (ni, ci) c0 (scenePos n c0) u eq_refl Hat Hpos Hpoints Hu)
      as (u' & Hstep & Hu' & Hk & Hcond).
    exists u'. split; [done|]. split; [done|]. split; [done|].
    intros H0 c' pos Hc' Hf Hp w Hw. rewrite Hpos in Hp. injection Hp as <-.
    apply (Hcond (H0 ci c0 Hat) c'); done.
  - intros ci u u' Hk Hq H0 c' pos Hc' Hf Hp w Hw.
    pose proof (Hq H0 c' pos (proj2 Hk _ _ Hc' Hf) Hf Hp w Hw) as Hnothing.
    intros first final i H1 H2 H3 H4.
    destruct (Hnothing first final i H1 H2 H3 H4) as [Hj|Hheld]; [by left|].
    right. by apply (heldByOther_kept _ _ _ u).
  - apply rebinding_refl.
  - exists s'. split; [done|]. split; [done|]. split; [done|].
    intros H0 ci c' pos Hc' Hf Hp w Hw.
    assert (ci ∈ seq 0 (length (node_connectors n))) as Hci.
    { apply elem_of_seq. split; [lia|]. simpl.
      unfold connectorPos in Hp. simpl in Hp. rewrite Hn in Hp. simpl in Hp.
      destruct (node_connectors n !! ci) eqn:H; [|done].
      by eapply lookup_lt_Some. }
    exact (Hall ci Hci H0 c' pos Hc' Hf Hp w Hw).
Qed.
End UpdateNodeConnections.

Lemma connectorPos_inIntRange (s : Scene) (ni : nat) (n : Node) :
  nodes s !! ni = Some n → nodeInIntRange n →
  ∀ id pos, id.1 = ni → connectorPos s id = Some pos → inIntRange pos.
Proof.
  intros Hn Hrange id pos Hid Hpos. unfold connectorPos in Hpos.
  rewrite Hid, Hn in Hpos. simpl in Hpos.
  destruct (node_connectors n !! id.2) as [c|] eqn:Hc; [|done].
  injection Hpos as <-. apply list_elem_of_lookup_2 in Hc.
  by destruct (Hrange c Hc) as (_ & _ & Hsum).
Qed.

(** [updateNodeConnections] for a node of a scene without empty wires
    returns and changes nothing but bindings of connectors of that node:
    wires, nets, the other nodes and the places of all connectors stay.
    A connector that was bound keeps its binding.  A connector whose
    binding has changed is a connector of the node, and is now bound to
    the first or the last point of a wire of the scene, a point that
    lies at the connector's place and is no junction, and that no other
    connector of the scene is bound to.  The wires of the scene and the
    connectors of the node lie within the range of [int], where
    [toPoint()] keeps the positions it compares. *)
Theorem updateNodeConnections_binds_free_ends (s : Scene) (ni : nat) (n : Node) :
  nodes s !! ni = Some n →
  (∀ w, w ∈ wires s → wireInIntRange (getWire s w)) →
  nodeInIntRange n →
  (∀ w, w ∈ wires s → _points (getWire s w) ≠ []) →
  ∃ s', updateNodeConnections ni s = Some s'
    ∧ wireStore s' = wireStore s ∧ netStore s' = netStore s ∧ _nets s' = _nets s
    ∧ (∀ nj, nj ≠ ni → nodes s' !! nj = nodes s !! nj)
    ∧ (∀ id, connectorPos s' id = connectorPos s id)
    ∧ (∀ id c, connectorAt s id = Some c →
         ∃ c', connectorAt s' id = Some c' ∧ conn_pos c' = conn_pos c
           ∧ (attachedWire c ≠ None → c' = c)
           ∧ (c' ≠ c →
              id.1 = ni
              ∧ ∃ pos w, connectorPos s id = Some pos
                         ∧ boundToFreeEnd s pos w c'
                         ∧ ¬ heldByOther s' id w (attachedWirepoint c'))).
Proof.
  intros Hn Hwires Hnode Hpoints.
  destruct (updateNodeConnections_loop s ni Hwires
              (connectorPos_inIntRange s ni n Hn Hnode) n Hn Hpoints)
    as (s' & Hrun & [Hws Hns Hnets Hnodes Hpos Hconn] & _).
  exists s'. split; [done|]. split; [done|]. split; [done|]. split; [done|].
  split; [done|]. split; [done|].
  intros id c Hc. destruct (Hconn id c Hc) as (c' & Hc' & Hp & Hcase).
  exists c'. split; [done|]. split; [done|]. split.
  - intros Hb. destruct Hcase as [->|(_ & Hf & _)]; [done|]. congruence.
  - intros Hne. destruct Hcase as [->|(Hid & _ & Hrest)]; [done|]. by split.
Qed.

Lemma updateNodeConnections_binds_free_ends_moved :
  ∃ s', updateNodeConnections 0 sceneNodeMoved = Some s'
    ∧ _nets s' = [0%nat]
    ∧ ∃ c', connectorAt s' (0%nat, 0%nat) = Some c' ∧ conn_pos c' = (100, 0).
Proof.
  destruct (updateNodeConnections_binds_free_ends sceneNodeMoved 0
              {| node_pos := (0, 0);
                 node_connectors := [newConnector (100, 0); newConnector (50, 50);
                                     newConnector (100, 0)] |})
    as (s' & Hrun & _ & _ & Hnets & _ & _ & Hconn).
  - reflexivity.
  - intros w Hw. change (w ∈ [0%nat; 1%nat]) in Hw.
    members Hw; intros q Hq; vm_compute in Hq; members Hq; repeat split; by vm_compute.
  - intros c Hc. members Hc; repeat split; by vm_compute.
  - intros w Hw. change (w ∈ [0%nat; 1%nat]) in Hw. members Hw; by vm_compute.
  - exists s'. split; [exact Hrun|]. split; [exact Hnets|].
    destruct (Hconn (0%nat, 0%nat) (newConnector (100, 0))) as (c' & Hc' & Hp & _);
      [reflexivity|]. by exists c'.
Defined.

(** When the connectors of the node that are not bound carry the index
    -1, as [detachWire] and the constructor leave it, a connector of the
    node that [updateNodeConnections] leaves unbound had nothing to bind
    to: for every wire of the scene, the end that is tried for the
    connector (point 0 when it lies at the connector's place, else the
    last point when that one does) is a junction or is held by another
    connector.  The wires of the scene and the connectors of the node
    lie within the range of [int]. *)
Theorem updateNodeConnections_leaves_no_free_end (s : Scene) (ni : nat) (n : Node) :
  nodes s !! ni = Some n →
  (∀ w, w ∈ wires s → wireInIntRange (getWire s w)) →
  nodeInIntRange n →
  (∀ w, w ∈ wires s → _points (getWire s w) ≠ []) →
  (∀ c, c ∈ node_connectors n → attachedWire c = None → _wirePointIndex c = -1) →
  ∃ s', updateNodeConnections ni s = Some s'
    ∧ ∀ ci c' pos w first final,
        connectorAt s' (ni, ci) = Some c' → attachedWire c' = None →
        connectorPos s (ni, ci) = Some pos →
        w ∈ wires s →
        head (wirePointsAbsolute (getWire s w)) = Some first →
        last (wirePointsAbsolute (getWire s w)) = Some final →
        let i := endpointIndex (wirePointsAbsolute (getWire s w)) first final pos in
        i ≠ -1 →
        (∃ pt, at_ (wirePointsAbsolute (getWire s w)) i = Some pt ∧ isJunction pt = true)
        ∨ heldByOther s' (ni, ci) w i.
Proof.
  intros Hn Hwires Hnode Hpoints Hidx.
  destruct (updateNodeConnections_loop s ni Hwires
              (connectorPos_inIntRange s ni n Hn Hnode) n Hn Hpoints)
    as (s' & Hrun & _ & _ & Hall).
  exists s'. split; [done|].
  intros ci c' pos w first final Hc' Hf Hp Hw Hfirst Hfinal i Hi.
  apply (Hall) with (c' := c') (pos := pos) (first := first) (final := final); try done.
  intros cj c Hc Hfree. apply Hidx; [|done].
  unfold connectorAt in Hc. simpl in Hc. rewrite Hn in Hc. simpl in Hc.
  by eapply list_elem_of_lookup_2.
Qed.

Lemma updateNodeConnections_leaves_no_free_end_moved :
  ∃ s', updateNodeConnections 0 sceneNodeMoved = Some s'
    ∧ connectorAt s' (0%nat, 2%nat) = Some (newConnector (100, 0))
    ∧ heldByOther s' (0%nat, 2%nat) 0 1.
Proof.
  destruct (updateNodeConnections_leaves_no_free_end sceneNodeMoved 0
              {| node_pos := (0, 0);
                 node_connectors := [newConnector (100, 0); newConnector (50, 50);
                                     newConnector (100, 0)] |})
    as (s' & Hrun & Hall).
  - reflexivity.
  - intros w Hw. change (w ∈ [0%nat; 1%nat]) in Hw.
    members Hw; intros q Hq; vm_compute in Hq; members Hq; repeat split; by vm_compute.
  - intros c Hc. members Hc; repeat split; by vm_compute.
  - intros w Hw. change (w ∈ [0%nat; 1%nat]) in Hw. members Hw; by vm_compute.
  - intros c Hc _. members Hc; reflexivity.
  - exists s'. split; [exact Hrun|].
    assert (connectorAt s' (0%nat, 2%nat) = Some (newConnector (100, 0))) as Hat.
    { pose proof Hrun as Hrun'. vm_compute in Hrun'. injection Hrun' as <-. reflexivity. }
    split; [exact Hat|].
    destruct (Hall 2%nat (newConnector (100, 0)) (100, 0) 0%nat
                (mkWirePoint (0, 0) false) (mkWirePoint (100, 0) false))
      as [(pt & Hpt & Hj)|Hheld]; try reflexivity; try done.
    + apply (bool_decide_unpack _). by vm_compute.
    + vm_compute in Hpt. injection Hpt as <-. done.
Defined.

(** ** Connecting two wires and disconnecting them again *)

Lemma connectWire_records wire rawWire s s' :
  connectWire wire rawWire s = Some s' →
  ∀ v, connectedWires s' v
       = if decide (v = wire)
         then (if contains (connectedWires s wire) rawWire then connectedWires s wire
               else connectedWires s wire ++ [rawWire])
         else connectedWires s v.
Proof.
  unfold connectWire. intros Hrun v.
  destruct (mergeNets _ _ _) as [[merged s2]|] eqn:Hmerge; [simpl in Hrun|done].
  pose proof (mergeNets_connectedWires _ _ _ _ _ Hmerge v) as Hv.
  assert (connectedWires s' v = connectedWires s2 v) as ->.
  { destruct merged; [|by injection Hrun as <-].
    destruct (netFromWire rawWire _); [simpl in Hrun|done]. by injection Hrun as <-. }
  rewrite Hv. unfold connectedWires. rewrite getWire_updWire.
  destruct (decide (wire = v)) as [->|Hne].
  - rewrite decide_True by done. unfold Wire_connectWire.
    by destruct (contains _ _).
  - by rewrite decide_False by done.
Qed.

(** [connectWire host guest] followed by [disconnectWire guest host], on
    two wires of a scene with well-formed nets that did not record each
    other: both calls return, every wire has the records it had, the
    scene lists the wires it listed, the nets are well formed, and two
    wires share a net exactly when they did before.  (The wires that were
    in the net of [guest] may be in a net with another identity.) *)
Theorem connectWire_then_disconnectWire_restores (s : Scene) (host guest : WireId) :
  wellFormed s → host ∈ wires s → guest ∈ wires s → host ≠ guest →
  guest ∉ connectedWires s host → host ∉ connectedWires s guest →
  ∃ s1 s2, connectWire host guest s = Some s1
    ∧ disconnectWire guest host s1 = Some s2
    ∧ wellFormed s2
    ∧ (∀ x, connectedWires s2 x = connectedWires s x)
    ∧ (∀ x, x ∈ wires s2 ↔ x ∈ wires s)
    ∧ (∀ x y, sameNet s2 x y ↔ sameNet s x y).
Proof.
  intros Hwf Hhost Hguest Hne Hfree Hdir.
  destruct (connectWire_wellFormed host guest s Hwf Hhost Hguest Hne Hdir)
    as (s1 & Hrun1 & Hwf1 & Hwires1 & Hrec1 & _ & (n & Hn & Hhn & Hgn) & _).
  pose proof (connectWire_records _ _ _ _ Hrun1) as Hexact.
  assert (guest ∈ connectedWires s1 host) as Hin by (apply Hrec1; by right).
  destruct (disconnectWire_wellFormed s1 n guest host Hwf1 Hn Hgn Hhn Hin)
    as (s2 & Hrun2 & Hwf2 & Hrec2 & Hwires2 & _).
  assert (∀ x, connectedWires s2 x = connectedWires s x) as Hrec.
  { intros x. rewrite Hrec2. destruct (decide (x = host)) as [->|Hx].
    - rewrite Hexact, decide_True by done.
      unfold contains. rewrite bool_decide_eq_false_2 by done.
      by apply removeAll_app_fresh.
    - by rewrite Hexact, decide_False by done. }
  assert (∀ x, x ∈ wires s2 ↔ x ∈ wires s) as Hwires.
  { intros x. by rewrite Hwires2, Hwires1. }
  exists s1, s2. split; [done|]. split; [done|]. split; [done|].
  split; [done|]. split; [done|].
  assert (∀ x y, connectedInScene s2 x y ↔ connectedInScene s x y) as Hconn.
  { intros x y. unfold connectedInScene.
    split; apply rtc_subrel; intros a b [Hb Hadj]; (split; [by apply Hwires|]);
      unfold adjacent in *; by rewrite ?Hrec in *. }
  intros x y. split.
  - intros Hnet.
    assert (x ∈ wires s2) as Hx.
    { destruct Hnet as (m & Hm & Hxm & _). apply elem_of_wires. by exists m. }
    apply (nets_are_components s x y Hwf); [by apply Hwires|].
    apply Hconn. by apply (nets_are_components s2 x y Hwf2).
  - intros Hnet.
    assert (x ∈ wires s) as Hx.
    { destruct Hnet as (m & Hm & Hxm & _). apply elem_of_wires. by exists m. }
    apply (nets_are_components s2 x y Hwf2); [by apply Hwires|].
    apply Hconn. by apply (nets_are_components s x y Hwf).
Qed.

Lemma connectWire_then_disconnectWire_restores_S1 :
  ∃ s1 s2, connectWire 0 1 sceneS1 = Some s1
    ∧ disconnectWire 1 0 s1 = Some s2
    ∧ (∀ x, connectedWires s2 x = connectedWires sceneS1 x)
    ∧ (sameNet s1 0%nat 1%nat ∧ ¬ sameNet s2 0%nat 1%nat).
Proof.
  destruct (connectWire_then_disconnectWire_restores sceneS1 0 1)
    as (s1 & s2 & Hrun1 & Hrun2 & _ & Hrec & _ & Hnet).
  - exact sceneS1_wellFormed.
  - apply (bool_decide_unpack _). by vm_compute.
  - apply (bool_decide_unpack _). by vm_compute.
  - lia.
  - apply (bool_decide_unpack _). by vm_compute.
  - apply (bool_decide_unpack _). by vm_compute.
  - exists s1, s2. split; [exact Hrun1|]. split; [exact Hrun2|]. split; [exact Hrec|].
    split.
    + vm_compute in Hrun1. injection Hrun1 as <-. exists 0%nat.
      split; [|split]; apply (bool_decide_unpack _); by vm_compute.
    + rewrite Hnet. intros (m & Hm & H0 & H1).
      change (_nets sceneS1) with [0%nat; 1%nat] in Hm.
      members Hm.
      * apply (bool_decide_pack _) in H1. by vm_compute in H1.
      * apply (bool_decide_pack _) in H0. by vm_compute in H0.
Defined.

(** ** Moving a point of a wire: the passes over the wires *)

Lemma disconnectWire_sameShape wire otherWire s s' :
  disconnectWire wire otherWire s = Some s' → sameShape s s'.
Proof.
  unfold disconnectWire.
  set (s1 := updWire otherWire (Wire_disconnectWire wire) s).
  assert (sameShape s s1) as Hs1 by (by apply sameShape_updWire).
  destruct (_net _) as [net|]; [simpl|done].
  destruct (wiresConnectedTo _ _) as [oldWires|]; [simpl|done].
  case_bool_decide; [|by intros [= <-]].
  intros [= <-].
  apply (foldl_invariant (sameShape s)); [|done].
  intros x t _ Ht. destruct (contains oldWires x); [done|].
  apply (sameShape_trans _ _ _ Ht). intros v.
  unfold WireNet_removeWire, WireNet_addWire.
  rewrite getWire_updNet, getWire_updWire, getWire_updNet.
  by destruct (decide (x = v)).
Qed.

Lemma wellFormed_updWire s w (f : Wire → Wire) :
  (∀ x, _net (f x) = _net x ∧ _connectedWires (f x) = _connectedWires x) →
  wellFormed s → wellFormed (updWire w f s).
Proof.
  intros Hf. apply wellFormed_ext; try done.
  - intros v. rewrite getWire_updWire. destruct (decide (w = v)); [apply Hf|done].
  - intros v. unfold connectedWires. rewrite getWire_updWire.
    destruct (decide (w = v)); [apply Hf|done].
Qed.

Lemma setPointIsJunction_fields i b (w : Wire) :
  _net (setPointIsJunction i b w) = _net w
  ∧ _connectedWires (setPointIsJunction i b w) = _connectedWires w.
Proof. unfold setPointIsJunction. by case_bool_decide. Qed.

Lemma at_setPointIsJunction_ne i j b (w : Wire) :
  j ≠ i →
  at_ (wirePointsAbsolute (setPointIsJunction i b w)) j = at_ (wirePointsAbsolute w) j.
Proof.
  intros Hne. unfold setPointIsJunction. case_bool_decide as Hi; [|done].
  unfold at_. case_bool_decide as Hj; [|done].
  unfold wirePointsAbsolute. simpl. rewrite !list_lookup_fmap.
  rewrite list_lookup_alter_ne; [done|]. lia.
Qed.

Lemma at_setPointIsJunction_eq i b (w : Wire) :
  is_Some (at_ (wirePointsAbsolute w) i) →
  isJunction <$> at_ (wirePointsAbsolute (setPointIsJunction i b w)) i = Some b.
Proof.
  intros [q Hq]. apply at_Some in Hq as [Hi Hq].
  unfold setPointIsJunction, at_. rewrite !bool_decide_eq_true_2 by done.
  unfold wirePointsAbsolute in *. simpl.
  rewrite list_lookup_fmap in Hq. rewrite list_lookup_fmap, list_lookup_alter_eq.
  by destruct (_points w !! Z.to_nat i).
Qed.

Lemma moving_refl W s : wellFormed s → moving W s s.
Proof. intros Hwf. by split. Qed.

Section MovedPoint.
Variable pointOnPolyline : list Point → Point → bool.
Variables (s : Scene) (W : WireId) (i : Z).
Implicit Types (t : Scene) (X wire : WireId).

(** Resetting or setting the flag of point [i] of [W]. *)
Lemma moving_flag t b :
  moving W s t → moving W s (updWire W (setPointIsJunction i b) t).
Proof.
  intros [Hwf Hwires Hshape Hflags Hown Hother].
  assert (∀ v, connectedWires (updWire W (setPointIsJunction i b) t) v
               = connectedWires t v) as Hconn.
  { intros v. unfold connectedWires. rewrite getWire_updWire.
    destruct (decide (W = v)); [apply setPointIsJunction_fields|done]. }
  split.
  - apply wellFormed_updWire; [|done]. intros x. apply setPointIsJunction_fields.
  - done.
  - intros v. rewrite getWire_updWire. destruct (decide (W = v)) as [<-|]; [|done].
    by rewrite pointsAbsolute_setPointIsJunction.
  - intros v Hv. rewrite getWire_updWire_ne by done. by apply Hflags.
  - by rewrite Hconn.
  - intros x v Hv. rewrite Hconn. by apply Hother.
Qed.

(** The body of the loop of "Detach wires", for the wire [wire]. *)
Lemma detachWires_step t wire :
  moving W s t → wire ∈ wires s →
  ∃ t',
    (if bool_decide (wire = W) then Some t
     else if contains (connectedWires t wire) W then
            let shouldDisconnect :=
              negb (anotherJunctionOn pointOnPolyline t W i wire) in
            u ← (if shouldDisconnect then disconnectWire W wire t else Some t);
            Some (updWire W (setPointIsJunction i false) u)
          else Some t) = Some t'
    ∧ moving W s t'
    ∧ (∀ x, connectedWires t' x
            = if decide (x = wire ∧ wire ≠ W ∧ W ∈ connectedWires t wire
                         ∧ anotherJunctionOn pointOnPolyline t W i wire = false)
              then removeAll W (connectedWires t wire)
              else connectedWires t x)
    ∧ wirePointsAbsolute (getWire t' W)
      = wirePointsAbsolute
          (if decide (wire ≠ W ∧ W ∈ connectedWires t wire)
           then setPointIsJunction i false (getWire t W) else getWire t W).
Proof.
  intros Hmv Hwire.
  case_bool_decide as Heq.
  { exists t. split; [done|]. split; [done|]. split.
    - intros x. rewrite decide_False; [done|]. naive_solver.
    - rewrite decide_False; [done|]. naive_solver. }
  unfold contains. case_bool_decide as Hrec; cycle 1.
  { exists t. split; [done|]. split; [done|]. split.
    - intros x. rewrite decide_False; [done|]. naive_solver.
    - rewrite decide_False; [done|]. naive_solver. }
  cbv zeta. rewrite (decide_True (P := wire ≠ W ∧ _)) by done.
  destruct (anotherJunctionOn pointOnPolyline t W i wire) eqn:Hanother; simpl.
  { eexists. split; [done|]. split; [by apply moving_flag|]. split.
    - intros x. rewrite decide_False by naive_solver.
      unfold connectedWires. rewrite getWire_updWire.
      destruct (decide (W = x)) as [<-|]; [apply setPointIsJunction_fields|done].
    - by rewrite getWire_updWire_eq. }
  destruct Hmv as [Hwf Hwires Hshape Hflags Hown Hother].
  assert (wire ∈ wires t) as Hwt by (by apply Hwires).
  apply elem_of_wires in Hwt as (n & Hn & Hwn).
  assert (W ∈ netWires t n) as HWn by (by apply (wf_within t Hwf n wire W)).
  destruct (disconnectWire_wellFormed t n W wire Hwf Hn HWn Hwn Hrec)
    as (u & Hrun & Hwfu & Hrecu & Hwiresu & _).
  pose proof (disconnectWire_sameShape _ _ _ _ Hrun) as Hsh.
  rewrite Hrun. simpl. eexists. split; [done|].
  assert (moving W s u) as Hmu.
  { split.
    - done.
    - intros x. by rewrite Hwiresu.
    - intros v. by rewrite (sameShape_pointsAbsolute t u).
    - intros v Hv. rewrite (sameShape_wirePointsAbsolute t u) by done. by apply Hflags.
    - rewrite Hrecu. by rewrite decide_False by done.
    - intros x v Hv. rewrite Hrecu. destruct (decide (x = wire)) as [->|]; [|by apply Hother].
      rewrite elem_of_removeAll. rewrite <- Hother by done. naive_solver. }
  split; [by apply moving_flag|]. split.
  - intros x.
    assert (connectedWires (updWire W (setPointIsJunction i false) u) x
            = connectedWires u x) as ->.
    { unfold connectedWires. rewrite getWire_updWire.
      destruct (decide (W = x)) as [<-|]; [apply setPointIsJunction_fields|done]. }
    rewrite Hrecu. destruct (decide (x = wire)) as [->|Hx].
    + by rewrite decide_True by done.
    + rewrite decide_False; [done|]. naive_solver.
  - rewrite getWire_updWire_eq. destruct (Hsh W) as [Hp Ho].
    unfold setPointIsJunction. case_bool_decide; unfold wirePointsAbsolute; simpl;
      by rewrite Hp, Ho.
Qed.
(** With the points of [W] at different places, [indexOf] tells the
    moved point from the other junctions. *)
Lemma anotherJunctionOn_iff t X :
  NoDup (pointsAbsolute (getWire t W)) →
  anotherJunctionOn pointOnPolyline t W i X = true
  ↔ otherJunctionOn pointOnPolyline t W i X.
Proof.
  intros Hnd. unfold anotherJunctionOn, otherJunctionOn. rewrite existsb_exists.
  assert (∀ j q, at_ (wirePointsAbsolute (getWire t W)) j = Some q →
                 indexOf WirePoint_eqb (wirePointsAbsolute (getWire t W)) q = j) as Hidx.
  { intros j q [Hj Hq]%at_Some. unfold indexOf.
    rewrite (indexOf_from_first _ _ _ (Z.to_nat j)).
    - lia.
    - exists q. split; [done|]. unfold WirePoint_eqb. by apply bool_decide_eq_true_2.
    - intros k y Hk Hy. unfold WirePoint_eqb. apply bool_decide_eq_false_2. intros Heq.
      assert (k = Z.to_nat j); [|lia].
      apply (NoDup_lookup _ k (Z.to_nat j) (wp_pos q) Hnd);
        unfold pointsAbsolute; rewrite list_lookup_fmap.
      + by rewrite Hy, <- Heq.
      + by rewrite Hq. }
  split.
  - intros (q & Hin & Hq). apply andb_true_iff in Hq as [Hne Hon].
    apply list_elem_of_In in Hin. unfold junctions in Hin.
    apply list_elem_of_filter in Hin as [Hj Hin].
    apply list_elem_of_lookup in Hin as [k Hk].
    assert (at_ (wirePointsAbsolute (getWire t W)) (Z.of_nat k) = Some q) as Hat.
    { apply at_Some. split; [lia|]. by rewrite Nat2Z.id. }
    exists (Z.of_nat k), q. split; [|done].
    apply negb_true_iff, bool_decide_eq_false in Hne.
    by rewrite (Hidx _ _ Hat) in Hne.
  - intros (j & q & Hne & Hat & Hj & Hon). exists q. split.
    + apply list_elem_of_In. unfold junctions. apply list_elem_of_filter. split; [done|].
      apply at_Some in Hat as [_ Hat]. by eapply list_elem_of_lookup_2.
    + apply andb_true_iff. split; [|done].
      apply negb_true_iff, bool_decide_eq_false. by rewrite (Hidx _ _ Hat).
Qed.

Lemma otherJunctionOn_stable t X :
  detaching pointOnPolyline W i s t →
  otherJunctionOn pointOnPolyline t W i X ↔ otherJunctionOn pointOnPolyline s W i X.
Proof.
  intros [Hmv Hpts _ _ _]. unfold otherJunctionOn, pointIsOnWire.
  rewrite (mv_shape W s t Hmv X).
  split; intros (j & q & Hne & Hat & Hq); exists j, q; (split; [done|]);
    by rewrite ?Hpts in * by done.
Qed.

(** The body of the loop of "Detach wires", with the points of [W] at
    different places. *)
Lemma detachWires_step_due t wire :
  NoDup (pointsAbsolute (getWire s W)) →
  is_Some (at_ (wirePointsAbsolute (getWire s W)) i) →
  detaching pointOnPolyline W i s t → wire ∈ wires s →
  ∃ t',
    (if bool_decide (wire = W) then Some t
     else if contains (connectedWires t wire) W then
            let shouldDisconnect :=
              negb (anotherJunctionOn pointOnPolyline t W i wire) in
            u ← (if shouldDisconnect then disconnectWire W wire t else Some t);
            Some (updWire W (setPointIsJunction i false) u)
          else Some t) = Some t'
    ∧ detaching pointOnPolyline W i s t'
    ∧ detachedWhereDue pointOnPolyline W i s wire t'
    ∧ ∀ y, detachedWhereDue pointOnPolyline W i s y t →
           detachedWhereDue pointOnPolyline W i s y t'.
Proof.
  intros Hnd Hsome Hdt Hwire.
  pose proof (otherJunctionOn_stable t wire Hdt) as Hstable.
  destruct Hdt as [Hmv Hpts Hnoadd Hdropped Hunrec].
  destruct (detachWires_step t wire Hmv Hwire) as (t' & Hstep & Hmv' & Hcw & Hwpa).
  assert (NoDup (pointsAbsolute (getWire t W))) as Hndt
    by (by rewrite (mv_shape W s t Hmv)).
  pose proof (anotherJunctionOn_iff t wire Hndt) as Hiff.
  assert (is_Some (at_ (wirePointsAbsolute (getWire t W)) i)) as Hsomet.
  { destruct Hsome as [q Hq].
    assert (at_ (pointsAbsolute (getWire t W)) i = Some (wp_pos q)) as Hp.
    { rewrite (mv_shape W s t Hmv). unfold pointsAbsolute. by rewrite at_fmap, Hq. }
    unfold pointsAbsolute in Hp. rewrite at_fmap in Hp.
    by destruct (at_ (wirePointsAbsolute (getWire t W)) i). }
  assert (wire ≠ W ∧ W ∈ connectedWires t wire → unflagged W i t') as Hhit.
  { intros Hh. unfold unflagged. rewrite Hwpa, decide_True by done.
    by apply at_setPointIsJunction_eq. }
  assert (unflagged W i t → unflagged W i t') as Hkeep.
  { intros Hu. destruct (decide (wire ≠ W ∧ W ∈ connectedWires t wire)) as [Hh|Hh];
      [by apply Hhit|].
    unfold unflagged. by rewrite Hwpa. }
  assert (detachedWhereDue pointOnPolyline W i s wire t') as Hdue.
  { intros Hne Hrec.
    destruct (decide (W ∈ connectedWires t wire)) as [Hin|Hout].
    - split; [|by apply Hhit].
      rewrite Hcw. rewrite <- Hstable, <- Hiff.
      destruct (anotherJunctionOn pointOnPolyline t W i wire) eqn:Ha.
      + rewrite decide_False by naive_solver. done.
      + rewrite decide_True by done. rewrite elem_of_removeAll. naive_solver.
    - destruct (Hdropped wire Hrec Hout) as [Hno Hu]. split; [|by apply Hkeep].
      rewrite Hcw, decide_False by naive_solver. naive_solver. }
  exists t'. split; [done|]. split; [|split; [done|]].
  - split.
    + done.
    + intros j Hj. rewrite Hwpa, <- Hpts by done.
      destruct (decide _); [by apply at_setPointIsJunction_ne|done].
    + intros X v. rewrite Hcw.
      destruct (decide (X = wire ∧ _)) as [(HX & _)|_]; [|apply Hnoadd].
      subst X. rewrite elem_of_removeAll. intros [Hv _]. by apply Hnoadd.
    + intros X Hrec Hout. rewrite Hcw in Hout.
      destruct (decide (X = wire ∧ _)) as [(HX & Hne & Hin & Ha)|_].
      * subst X. split; [|by apply Hhit]. rewrite <- Hstable, <- Hiff. by rewrite Ha.
      * destruct (Hdropped X Hrec Hout) as [Hno Hu]. split; [done|by apply Hkeep].
    + intros Hnone. rewrite Hwpa, decide_False; [by apply Hunrec|].
      intros [Hne Hin]. by apply (Hnone wire Hwire Hne), Hnoadd.
  - intros y Hy. destruct (decide (y = wire)) as [->|Hyw]; [done|].
    intros Hne Hrec. destruct (Hy Hne Hrec) as [Hy1 Hy2]. split; [|by apply Hkeep].
    rewrite Hcw, decide_False by naive_solver. done.
Qed.

(** The body of the loop of "Attach point to wire if needed". *)
Lemma attachWires_step_moving t wire :
  moving W s t → wire ∈ wires s → W ∈ wires s →
  is_Some (at_ (pointsAbsolute (getWire s W)) i) →
  ∃ t',
    (if bool_decide (wire = W) then Some t
     else
       q ← at_ (wirePointsAbsolute (getWire t W)) i;
       if pointIsOnWire pointOnPolyline (getWire t wire) (wp_pos q) then
         if negb (contains (connectedWires t W) wire) then
           connectWire wire W (updWire W (setPointIsJunction i true) t)
         else Some t
       else Some t) = Some t'
    ∧ moving W s t'.
Proof.
  intros Hmv Hwire HW [p Hp].
  case_bool_decide as Hne; [by exists t|].
  assert (at_ (pointsAbsolute (getWire t W)) i = Some p) as Hpt
    by (by rewrite (mv_shape W s t Hmv)).
  unfold pointsAbsolute in Hpt. rewrite at_fmap in Hpt.
  destruct (at_ (wirePointsAbsolute (getWire t W)) i) as [q|] eqn:Hq; [simpl|done].
  destruct (pointIsOnWire _ _ _); [|by exists t].
  unfold contains. case_bool_decide as Hc; simpl; [by exists t|].
  pose proof (moving_flag t true Hmv) as Hm0.
  set (t0 := updWire W (setPointIsJunction i true) t) in *.
  destruct Hm0 as [Hwf0 Hwires0 Hshape0 Hflags0 Hown0 Hother0].
  assert (connectedWires t0 W = connectedWires t W) as HownT.
  { unfold t0, connectedWires. rewrite getWire_updWire_eq.
    apply setPointIsJunction_fields. }
  destruct (connectWire_wellFormed wire W t0) as
    (t' & Hrun & Hwf' & Hwires' & Hrec & Hoth & _ & _ & Hsh & _); try done.
  { by apply Hwires0. }
  { by apply Hwires0. }
  { by rewrite HownT. }
  exists t'. split; [done|]. split.
  - done.
  - intros x. by rewrite Hwires'.
  - intros v. by rewrite (sameShape_pointsAbsolute t0 t').
  - intros v Hv. rewrite (sameShape_wirePointsAbsolute t0 t') by done. by apply Hflags0.
  - rewrite Hoth by done. done.
  - intros x v Hv. destruct (decide (x = wire)) as [->|Hx].
    + rewrite Hrec. rewrite <- Hother0 by done. naive_solver.
    + rewrite Hoth by done. by apply Hother0.
Qed.

(** The three passes of [wirePointMovedByUser], one after the other. *)
Lemma wirePointMovedByUser_moving :
  wellFormed s → W ∈ wires s →
  is_Some (at_ (wirePointsRelative (getWire s W)) i) →
  ∃ s', wirePointMovedByUser pointOnPolyline W i s = Some s' ∧ moving W s s'.
Proof.
  intros Hwf HW [point Hpoint].
  assert (is_Some (at_ (pointsAbsolute (getWire s W)) i)) as Hnow.
  { unfold pointsAbsolute, wirePointsAbsolute. rewrite !at_fmap.
    unfold wirePointsRelative in Hpoint. by rewrite Hpoint. }
  unfold wirePointMovedByUser. rewrite Hpoint. simpl.
  destruct Hnow as [now Hnow]. rewrite Hnow. simpl.
  set (s1 := updateConnectors W i point now s).
  assert (moving W s s1) as Hm1.
  { split; try done. by apply (wellFormed_ext s s1). }
  assert (∃ s2, detachWires pointOnPolyline W i point s1 = Some s2 ∧ moving W s s2)
    as (s2 & Hrun2 & Hm2).
  { unfold detachWires. destruct (isEndpoint s1 W i); [|by exists s1].
    destruct (isJunction point); [|by exists s1].
    destruct (forEach_establish (moving W s) (λ _ _, True)
                (λ wire s0,
                   if bool_decide (wire = W) then Some s0
                   else if contains (connectedWires s0 wire) W then
                          let shouldDisconnect :=
                            negb (anotherJunctionOn pointOnPolyline s0 W i wire) in
                          s3 ← (if shouldDisconnect
                                then disconnectWire W wire s0 else Some s0);
                          Some (updWire W (setPointIsJunction i false) s3)
                        else Some s0)
                (wires s1) s1) as (s2 & Hrun & Hm & _); [|done|by exists s2].
    intros wire t Hwire Ht.
    destruct (detachWires_step t wire Ht Hwire) as (t' & Hstep & Ht' & _).
    by exists t'. }
  rewrite Hrun2. simpl.
  assert (∃ s3, attachWires pointOnPolyline W i s2 = Some s3 ∧ moving W s s3)
    as (s3 & Hrun3 & Hm3).
  { unfold attachWires. destruct (isEndpoint s2 W i); [|by exists s2].
    destruct (forEach_establish (moving W s) (λ _ _, True)
                (λ wire s0,
                   if bool_decide (wire = W) then Some s0
                   else
                     p ← at_ (wirePointsAbsolute (getWire s0 W)) i;
                     if pointIsOnWire pointOnPolyline (getWire s0 wire) (wp_pos p) then
                       if negb (contains (connectedWires s0 W) wire) then
                         connectWire wire W
                           (updWire W (setPointIsJunction i true) s0)
                       else Some s0
                     else Some s0)
                (wires s2) s2) as (s3 & Hrun & Hm & _); [|done|by exists s3].
    intros wire t Hwire Ht.
    destruct (attachWires_step_moving t wire Ht) as (t' & Hstep & Ht'); try done.
    - by apply (mv_wires W s s2 Hm2).
    - by exists t'. }
  by exists s3.
Qed.

(** [wirePointMovedByUser] for a point of a wire of a scene whose nets
    are well formed returns, and the nets are well formed again: each
    net is one connected component of the records, no wire is in two
    nets, no connection is recorded both ways.  The scene lists the
    wires it listed and they lie where they lay; the points of the
    other wires keep their junction flags; the moved wire records what
    it recorded, and a record of a wire other than the moved one is
    neither added nor dropped. *)
Theorem wirePointMovedByUser_keeps_net_invariants :
  wellFormed s → W ∈ wires s →
  is_Some (at_ (wirePointsRelative (getWire s W)) i) →
  ∃ s', wirePointMovedByUser pointOnPolyline W i s = Some s'
    ∧ wellFormed s'
    ∧ (∀ x, x ∈ wires s' ↔ x ∈ wires s)
    ∧ (∀ v, pointsAbsolute (getWire s' v) = pointsAbsolute (getWire s v))
    ∧ (∀ v, v ≠ W →
         wirePointsAbsolute (getWire s' v) = wirePointsAbsolute (getWire s v))
    ∧ connectedWires s' W = connectedWires s W
    ∧ (∀ x v, v ≠ W → v ∈ connectedWires s' x ↔ v ∈ connectedWires s x).
Proof.
  intros Hwf HW Hpoint.
  destruct (wirePointMovedByUser_moving Hwf HW Hpoint)
    as (s' & Hrun & [Hwf' Hwires Hshape Hflags Hown Hother]).
  by exists s'.
Qed.
(** The pass "Detach wires" for an end [i] of the wire [W] that carries
    the junction flag, in a scene with well-formed nets where the points
    of [W] lie at different places: the pass returns and the nets are
    well formed again.  A wire [X] that recorded [W] still records it
    exactly when a junction of [W] other than point [i] lies on [X]; the
    flag of point [i] is cleared as soon as one wire recorded [W], and
    stays when none did.  No record appears, no record of another wire
    than [W] is dropped, the set of [W] and its other points are as they
    were, and no wire has moved. *)
Theorem detachWires_cuts_where_no_other_junction (point : WirePoint) :
  wellFormed s → W ∈ wires s →
  isEndpoint s W i = true →
  at_ (wirePointsRelative (getWire s W)) i = Some point →
  isJunction point = true →
  NoDup (pointsAbsolute (getWire s W)) →
  ∃ s', detachWires pointOnPolyline W i point s = Some s'
    ∧ wellFormed s'
    ∧ (∀ X, X ∈ wires s → X ≠ W → W ∈ connectedWires s X →
         (W ∈ connectedWires s' X ↔ otherJunctionOn pointOnPolyline s W i X)
         ∧ unflagged W i s')
    ∧ ((∀ X, X ∈ wires s → X ≠ W → W ∉ connectedWires s X) →
       wirePointsAbsolute (getWire s' W) = wirePointsAbsolute (getWire s W))
    ∧ (∀ X v, v ∈ connectedWires s' X → v ∈ connectedWires s X)
    ∧ (∀ X v, v ≠ W → v ∈ connectedWires s X → v ∈ connectedWires s' X)
    ∧ connectedWires s' W = connectedWires s W
    ∧ (∀ j, j ≠ i →
         at_ (wirePointsAbsolute (getWire s' W)) j
         = at_ (wirePointsAbsolute (getWire s W)) j)
    ∧ (∀ x, x ∈ wires s' ↔ x ∈ wires s)
    ∧ (∀ v, pointsAbsolute (getWire s' v) = pointsAbsolute (getWire s v)).
Proof.
  intros Hwf HW Hend Hpoint Hj Hnd.
  assert (is_Some (at_ (wirePointsAbsolute (getWire s W)) i)) as Hsome.
  { unfold wirePointsAbsolute. rewrite at_fmap.
    unfold wirePointsRelative in Hpoint. by rewrite Hpoint. }
  unfold detachWires. rewrite Hend, Hj.
  destruct (forEach_establish (detaching pointOnPolyline W i s)
              (detachedWhereDue pointOnPolyline W i s)
              (λ wire s0,
                 if bool_decide (wire = W) then Some s0
                 else if contains (connectedWires s0 wire) W then
                        let shouldDisconnect :=
                          negb (anotherJunctionOn pointOnPolyline s0 W i wire) in
                        s3 ← (if shouldDisconnect
                              then disconnectWire W wire s0 else Some s0);
                        Some (updWire W (setPointIsJunction i false) s3)
                      else Some s0)
              (wires s) s)
    as (s' & Hrun & [[Hwf' Hwires Hshape Hflags Hown Hother] Hpts Hnoadd _ Hunrec]
           & Hall & _).
  - intros wire t Hwire Ht. by apply detachWires_step_due.
  - split; [by apply moving_refl|done|done| |done]. by intros X HX Hout.
  - exists s'. split; [done|]. split; [done|]. split; [|split; [done|]].
    + intros X HX Hne Hrec. by apply Hall.
    + split; [done|]. split; [|done]. intros X v Hv Hin. by apply Hother.
Qed.
End MovedPoint.

Lemma sceneGuestMoved_wellFormed : wellFormed sceneGuestMoved.
Proof.
  apply wellFormed_updWire; [|exact sceneTwoOnHost_wellFormed].
  intros x. unfold movePointBy. by case_bool_decide.
Qed.

Lemma wirePointMovedByUser_keeps_net_invariants_moved :
  ∃ s', wirePointMovedByUser pointOnPolyline 1 0 sceneGuestMoved = Some s'
    ∧ wellFormed s' ∧ connectedWires s' 0 = [2%nat].
Proof.
  destruct (wirePointMovedByUser_keeps_net_invariants pointOnPolyline sceneGuestMoved 1 0)
    as (s' & Hrun & Hwf & _).
  - exact sceneGuestMoved_wellFormed.
  - apply (bool_decide_unpack _). by vm_compute.
  - by eexists.
  - exists s'. split; [exact Hrun|]. split; [exact Hwf|].
    vm_compute in Hrun. injection Hrun as <-. reflexivity.
Defined.

Lemma detachWires_cuts_where_no_other_junction_moved :
  ∃ s', detachWires pointOnPolyline 1 0 (mkWirePoint (30, 20) true) sceneGuestMoved
        = Some s'
    ∧ wellFormed s'
    ∧ (1%nat ∈ connectedWires s' 0
       ↔ otherJunctionOn pointOnPolyline sceneGuestMoved 1 0 0)
    ∧ unflagged 1 0 s'
    ∧ 2%nat ∈ connectedWires s' 0.
Proof.
  destruct (detachWires_cuts_where_no_other_junction pointOnPolyline sceneGuestMoved 1 0
              (mkWirePoint (30, 20) true))
    as (s' & Hrun & Hwf & Hall & _ & _ & Hkeep & _).
  - exact sceneGuestMoved_wellFormed.
  - apply (bool_decide_unpack _). by vm_compute.
  - reflexivity.
  - reflexivity.
  - reflexivity.
  - apply (bool_decide_unpack _). by vm_compute.
  - exists s'. split; [exact Hrun|]. split; [exact Hwf|].
    destruct (Hall 0%nat) as [Hiff Hflag].
    + apply (bool_decide_unpack _). by vm_compute.
    + lia.
    + apply (bool_decide_unpack _). by vm_compute.
    + split; [exact Hiff|]. split; [exact Hflag|].
      apply Hkeep; [lia|]. apply (bool_decide_unpack _). by vm_compute.
Defined.

(** [wirePointMovedByUser] rewires nothing for a point inside the wire,
    and nothing for an end without the junction flag that comes to lie
    on no wire that the moved wire does not record already: it returns,
    and the wires, their records and the nets are what they were (only
    bindings of connectors can have changed). *)
Theorem wirePointMovedByUser_rewires_ends_only
    (pointOnPolyline : list Point → Point → bool) (s : Scene) (W : WireId) (i : Z)
    (point : WirePoint) :
  at_ (wirePointsRelative (getWire s W)) i = Some point →
  isEndpoint s W i = false
  ∨ (isJunction point = false
     ∧ ∀ X, X ∈ wires s → X ≠ W →
            pointIsOnWire pointOnPolyline (getWire s X)
              (point_add (wire_pos (getWire s W)) (wp_pos point)) = false
            ∨ X ∈ connectedWires s W) →
  ∃ s', wirePointMovedByUser pointOnPolyline W i s = Some s'
    ∧ wireStore s' = wireStore s ∧ netStore s' = netStore s ∧ _nets s' = _nets s.
Proof.
  intros Hpoint Hcase.
  assert (at_ (wirePointsAbsolute (getWire s W)) i
          = Some (movedBy (wire_pos (getWire s W)) point)) as Habs.
  { unfold wirePointsAbsolute. rewrite at_fmap.
    unfold wirePointsRelative in Hpoint. by rewrite Hpoint. }
  unfold wirePointMovedByUser. rewrite Hpoint. simpl.
  unfold pointsAbsolute. rewrite at_fmap, Habs. simpl.
  set (s1 := updateConnectors _ _ _ _ _).
  assert (detachWires pointOnPolyline W i point s1 = Some s1) as ->.
  { unfold detachWires. change (isEndpoint s1 W i) with (isEndpoint s W i).
    destruct Hcase as [->|[-> _]]; [done|]. by destruct (isEndpoint s W i). }
  simpl. exists s1. split; [|done].
  unfold attachWires. change (isEndpoint s1 W i) with (isEndpoint s W i).
  destruct (isEndpoint s W i); [|done].
  destruct Hcase as [?|[_ Hoff]]; [done|].
  apply forEach_unchanged. intros X HX.
  case_bool_decide as Hne; [done|].
  change (getWire s1) with (getWire s). rewrite Habs. simpl.
  change (connectedWires s1) with (connectedWires s).
  rewrite (point_add_comm (wp_pos point)).
  destruct (Hoff X HX Hne) as [->|Hrec]; [done|].
  destruct (pointIsOnWire _ _ _); [|done].
  unfold contains. by rewrite bool_decide_eq_true_2.
Qed.

Lemma wirePointMovedByUser_rewires_ends_only_inner :
  ∃ s', wirePointMovedByUser pointOnPolyline 1 1 sceneBothEndsOnHost = Some s'
    ∧ wireStore s' = wireStore sceneBothEndsOnHost
    ∧ _nets s' = _nets sceneBothEndsOnHost.
Proof.
  destruct (wirePointMovedByUser_rewires_ends_only pointOnPolyline sceneBothEndsOnHost
              1 1 (mkWirePoint (50, 50) false))
    as (s' & Hrun & Hw & _ & Hn).
  - reflexivity.
  - left. reflexivity.
  - by exists s'.
Defined.

(** ** The grid of the background *)

Lemma gridColumn_spec (fuel : nat) (x y bottom g : Z) :
  0 < g → Z.max 0 (bottom - y) < Z.of_nat fuel →
  ∃ l, gridColumn fuel x y bottom g = Some l
    ∧ NoDup l
    ∧ ∀ p, p ∈ l ↔ p.1 = x ∧ y ≤ p.2 < bottom ∧ (g | p.2 - y).
Proof.
  intros Hg. revert y. induction fuel as [|fuel IH]; intros y Hfuel.
  { lia. }
  simpl. case_bool_decide as Hy.
  - destruct (IH (y + g)) as (l & -> & Hnd & Hin); [lia|]. simpl.
    exists ((x, y) :: l). split; [done|]. split.
    + apply NoDup_cons. split; [|done]. rewrite Hin. simpl. lia.
    + intros [a b]. rewrite elem_of_cons, Hin. simpl. split.
      * intros [[= -> ->]|(-> & Hb & k & Hk)].
        -- split; [done|]. split; [lia|]. exists 0. lia.
        -- split; [done|]. split; [lia|]. exists (k + 1). lia.
      * intros (-> & Hb & k & Hk).
        destruct (decide (b = y)) as [->|Hne]; [by left|]. right.
        split; [done|]. assert (0 < k) by nia. split; [nia|].
        exists (k - 1). lia.
  - exists []. split; [done|]. split; [apply NoDup_nil_2|].
    intros p. rewrite elem_of_nil. lia.
Qed.

Lemma gridColumns_spec (fuel inner : nat) (x right top bottom g : Z) :
  0 < g → Z.max 0 (right - x) < Z.of_nat fuel →
  Z.max 0 (bottom - top) < Z.of_nat inner →
  ∃ l, gridColumns fuel inner x right top bottom g = Some l
    ∧ NoDup l
    ∧ ∀ p, p ∈ l ↔ (x ≤ p.1 < right ∧ (g | p.1 - x))
                   ∧ (top ≤ p.2 < bottom ∧ (g | p.2 - top)).
Proof.
  intros Hg Hfuel Hinner. revert x Hfuel.
  induction fuel as [|fuel IH]; intros x Hfuel; [lia|].
  simpl. case_bool_decide as Hx.
  - destruct (gridColumn_spec inner x top bottom g Hg Hinner) as (c & -> & Hndc & Hc).
    destruct (IH (x + g)) as (l & -> & Hnd & Hin); [lia|]. simpl.
    exists (c ++ l). split; [done|]. split.
    + apply NoDup_app. split; [done|]. split; [|done].
      intros p Hp Hp'. apply Hc in Hp as [Hp _]. apply Hin in Hp' as [[Hp' _] _]. lia.
    + intros [a b]. rewrite elem_of_app, Hc, Hin. simpl. split.
      * intros [(-> & Hb)|((Ha & k & Hk) & Hb)].
        -- split; [|done]. split; [lia|]. exists 0. lia.
        -- split; [|done]. split; [lia|]. exists (k + 1). lia.
      * intros ((Ha & k & Hk) & Hb).
        destruct (decide (a = x)) as [->|Hne]; [by left|]. right.
        split; [|done]. assert (0 < k) by nia. split; [nia|].
        exists (k - 1). lia.
  - exists []. split; [done|]. split; [apply NoDup_nil_2|].
    intros p. rewrite elem_of_nil. lia.
Qed.

(** The grid that [renderCachedBackground] draws, when the grid is shown
    and the grid size is positive: the loops come to an end, and the
    points are, each once, the points of the rectangle whose two
    coordinates are multiples of the grid size, from the multiple next
    to the left (top) edge in the direction of zero up to, and without,
    [right()] ([bottom()]).  So the origin of the scene is a grid point
    when it is in that range, an edge at a negative coordinate has its
    first grid line inside the rectangle, and an edge at a positive
    coordinate that is no multiple has it outside.  Without the grid, or
    with a grid size that is not positive, there are no points.  The
    grid size and the edges of the rectangle are [int]s, and the
    rectangle is valid (the function returns at once otherwise). *)
Theorem gridPoints_are_the_multiples_in_the_rectangle
    (fuel : nat) (g rectLeft rectTop rectRight rectBottom : Z) :
  0 < g ≤ INT_MAX →
  inIntRange (rectLeft, rectTop) → inIntRange (rectRight, rectBottom) →
  rectIsValid rectLeft rectTop rectRight rectBottom →
  Z.abs rectLeft + Z.abs rectRight < Z.of_nat fuel →
  Z.abs rectTop + Z.abs rectBottom < Z.of_nat fuel →
  let left := g * (rectLeft ÷ g) in
  let top := g * (rectTop ÷ g) in
  (∃ points, gridPoints fuel true g rectLeft rectTop rectRight rectBottom = Some points
     ∧ NoDup points
     ∧ ∀ x y, (x, y) ∈ points
              ↔ (g | x) ∧ (g | y) ∧ left ≤ x < rectRight ∧ top ≤ y < rectBottom)
  ∧ (Z.abs left ≤ Z.abs rectLeft ∧ Z.abs (rectLeft - left) < g)
  ∧ (Z.abs top ≤ Z.abs rectTop ∧ Z.abs (rectTop - top) < g)
  ∧ (∀ size, size ≤ 0 →
       gridPoints fuel true size rectLeft rectTop rectRight rectBottom = Some [])
  ∧ (∀ size, gridPoints fuel false size rectLeft rectTop rectRight rectBottom = Some []).
Proof.
  intros [Hg _] _ _ _ Hx Hy left top.
  assert (∀ a, Z.abs (g * (a ÷ g)) ≤ Z.abs a ∧ Z.abs (a - g * (a ÷ g)) < g
               ∧ a - Z.rem a g = g * (a ÷ g)) as Htrunc.
  { intros a. pose proof (Z.quot_rem' a g) as Hqr.
    destruct (Z.le_ge_cases 0 a) as [Hpos|Hneg].
    - pose proof (Z.rem_bound_pos a g Hpos Hg).
      assert (0 ≤ a ÷ g) by (apply Z.quot_pos; lia). nia.
    - assert (Z.rem (- a) g = - Z.rem a g) by (apply Z.rem_opp_l; lia).
      assert (0 ≤ Z.rem (- a) g < g) by (apply Z.rem_bound_pos; lia).
      assert ((- a) ÷ g = - (a ÷ g)) by (apply Z.quot_opp_l; lia).
      assert (0 ≤ (- a) ÷ g) by (apply Z.quot_pos; lia). nia. }
  destruct (Htrunc rectLeft) as (Hl1 & Hl2 & Hleft).
  destruct (Htrunc rectTop) as (Ht1 & Ht2 & Htop).
  fold left in Hl1, Hl2, Hleft. fold top in Ht1, Ht2, Htop.
  split; [|split; [done|split; [done|split]]].
  - unfold gridPoints. rewrite bool_decide_eq_true_2 by lia. simpl.
    rewrite Hleft, Htop.
    destruct (gridColumns_spec fuel fuel left rectRight top rectBottom g Hg)
      as (l & -> & Hnd & Hin); [lia|lia|].
    exists l. split; [done|]. split; [done|].
    intros x y. rewrite Hin. simpl.
    assert ((g | left)) as Hdl by (by exists (rectLeft ÷ g); unfold left; lia).
    assert ((g | top)) as Hdt by (by exists (rectTop ÷ g); unfold top; lia).
    split.
    + intros ((Hxr & Hxd) & (Hyr & Hyd)). split; [|split; [|done]].
      * replace x with ((x - left) + left) by lia. by apply Z.divide_add_r.
      * replace y with ((y - top) + top) by lia. by apply Z.divide_add_r.
    + intros (Hxd & Hyd & Hxr & Hyr). split; (split; [done|]); by apply Z.divide_sub_r.
  - intros size Hsize. unfold gridPoints. by rewrite bool_decide_eq_false_2 by lia.
  - done.
Qed.

Lemma gridPoints_are_the_multiples_in_the_rectangle_example :
  ∃ points, gridPoints 100 true 20 (-30) 10 45 40 = Some points
    ∧ ((-20, 20) ∈ points ∧ (0, 0) ∈ points ∧ (40, 20) ∈ points)
    ∧ length points = 8%nat.
Proof.
  destruct (gridPoints_are_the_multiples_in_the_rectangle 100 20 (-30) 10 45 40)
    as [(points & Hrun & _ & Hin) _];
    [by vm_compute|split; by vm_compute|split; by vm_compute
    |split; by vm_compute|lia|lia|].
  exists points. split; [exact Hrun|]. split.
  - rewrite !Hin. vm_compute.
    repeat split; try discriminate; try (by exists 1); try (by exists 0);
      try (by exists (-1)); try (by exists 2).
  - vm_compute in Hrun. injection Hrun as <-. reflexivity.
Defined.

(** ** The nets at a point *)

Section NetsAt.
Variable lineSegments : Scene → NetId → list (Point * Point).
Variable containsPoint : Point * Point → Point → bool.
Variables (point : Point) (s : Scene).

(** The inner loop appends the net at most once. *)
Lemma netsAt_inner (net : NetId) (segments : list (Point * Point)) (list : list NetId) :
  foldl (λ list line,
           if containsPoint line point && negb (contains list net)
           then list ++ [net] else list) list segments
  = if existsb (λ line, containsPoint line point) segments && negb (contains list net)
    then list ++ [net] else list.
Proof.
  revert list. induction segments as [|line segments IH]; intros list; [done|].
  simpl. rewrite IH. unfold contains.
  destruct (containsPoint line point); simpl; [|done].
  destruct (decide (net ∈ list)) as [Hin|Hin].
  - rewrite !(bool_decide_eq_true_2 (net ∈ list)) by done. simpl.
    by rewrite andb_false_r.
  - rewrite !(bool_decide_eq_false_2 (net ∈ list)) by done. simpl.
    rewrite (bool_decide_eq_true_2 (net ∈ list ++ [net])) by set_solver.
    simpl. by rewrite andb_false_r.
Qed.

Lemma netsAt_outer (nets list : list NetId) :
  let hit := λ net, existsb (λ line, containsPoint line point) (lineSegments s net) in
  let result :=
    foldl (λ list net,
             foldl (λ list line,
                      if containsPoint line point && negb (contains list net)
                      then list ++ [net] else list)
                   list (lineSegments s net))
          list nets in
  (NoDup list → NoDup result)
  ∧ (∀ n, n ∈ result ↔ n ∈ list ∨ (n ∈ nets ∧ hit n = true))
  ∧ (NoDup nets → (∀ n, n ∈ nets → n ∉ list) →
     result = list ++ filter (λ n, hit n = true) nets).
Proof.
  intros hit. revert list. induction nets as [|net nets IH]; intros list; simpl.
  { split; [done|]. split; [|by rewrite app_nil_r]. intros n. set_solver. }
  rewrite netsAt_inner. fold (hit net).
  destruct (IH (if hit net && negb (contains list net) then list ++ [net] else list))
    as (Hnd & Hin & Heq).
  unfold contains in *.
  split; [|split].
  - intros Hl. apply Hnd. destruct (hit net); simpl; [|done].
    case_bool_decide; simpl; [done|].
    apply NoDup_app. split; [done|]. split; [set_solver|apply NoDup_singleton].
  - intros n. rewrite Hin. destruct (hit net) eqn:Hhit; simpl.
    + case_bool_decide; simpl; set_solver.
    + split; [set_solver|].
      intros [?|[[->|?]%elem_of_cons ?]]; [by left|congruence|right; by split].
  - intros [Hnet Hnd']%NoDup_cons Hfresh. rewrite Heq; [|done|].
    + rewrite filter_cons. destruct (hit net) eqn:Hhit; simpl.
      * rewrite bool_decide_eq_false_2 by (apply Hfresh; by left). simpl.
        by rewrite <- app_assoc.
      * done.
    + intros n Hn. assert (n ∉ list) by (apply Hfresh; by right).
      destruct (hit net && _); [|done]. set_solver.
Qed.

(** [netsAt] returns each net of the scene that has a line segment
    holding the point, once, also when the scene lists a net twice; when
    the scene lists no net twice these nets come in the order of the
    scene. *)
Theorem netsAt_lists_each_net_once :
  NoDup (netsAt lineSegments containsPoint point s)
  ∧ (∀ n, n ∈ netsAt lineSegments containsPoint point s
          ↔ n ∈ _nets s
            ∧ ∃ line, line ∈ lineSegments s n ∧ containsPoint line point = true)
  ∧ (NoDup (_nets s) →
     netsAt lineSegments containsPoint point s
     = filter (λ n, existsb (λ line, containsPoint line point) (lineSegments s n) = true)
              (_nets s)).
Proof.
  destruct (netsAt_outer (_nets s) []) as (Hnd & Hin & Heq).
  split; [apply Hnd, NoDup_nil_2|]. split.
  - intros n. unfold netsAt. rewrite Hin, existsb_exists. split.
    + intros [Hn|[Hn (line & Hl & Hc)]]; [by apply elem_of_nil in Hn|].
      split; [done|]. exists line. by rewrite list_elem_of_In.
    + intros [Hn (line & Hl & Hc)]. right. split; [done|].
      exists line. by rewrite <- list_elem_of_In.
  - intros Hnets. unfold netsAt. rewrite Heq; [done|done|].
    intros n _. apply not_elem_of_nil.
Qed.
End NetsAt.

(** ** Releasing a dragged wire *)

Lemma rewired_trans s t u : rewired s t → rewired t u → rewired s u.
Proof.
  intros [Hwf1 Hw1 Hs1] [Hwf2 Hw2 Hs2]. split; [done| |].
  - intros x. by rewrite Hw2.
  - intros v. by rewrite Hs2.
Qed.

Lemma moving_rewired W s t : moving W s t → rewired s t.
Proof. intros [Hwf Hw Hs _ _ _]. by split. Qed.

Lemma count_points_pointsAbsolute (w : Wire) :
  count (wirePointsRelative w) = count (pointsAbsolute w).
Proof.
  unfold count, wirePointsRelative, pointsAbsolute, wirePointsAbsolute.
  by rewrite !length_fmap.
Qed.

Section WireDragged.
Variable pointOnPolyline : list Point → Point → bool.
Variable s : Scene.

(** One more point of some wire taken as moved. *)
Lemma rewired_step t W i :
  rewired s t → W ∈ wires s →
  0 ≤ i < count (wirePointsRelative (getWire t W)) →
  ∃ t', wirePointMovedByUser pointOnPolyline W i t = Some t' ∧ rewired s t'.
Proof.
  intros Hrw HW Hi.
  destruct (wirePointMovedByUser_moving pointOnPolyline t W i) as (t' & Hrun & Hmv).
  - apply Hrw.
  - by apply (rw_wires s t Hrw).
  - unfold at_. rewrite bool_decide_eq_true_2 by lia. apply lookup_lt_is_Some.
    unfold count in Hi. lia.
  - exists t'. split; [done|]. apply (rewired_trans s t t'); [done|].
    by apply (moving_rewired W).
Qed.

Lemma rewired_count t W :
  rewired s t →
  count (wirePointsRelative (getWire t W)) = count (wirePointsRelative (getWire s W)).
Proof.
  intros Hrw. by rewrite !count_points_pointsAbsolute, (rw_shape s t Hrw).
Qed.

Lemma movedPoints_rewired (fuel : nat) t W i :
  rewired s t → W ∈ wires s → 0 ≤ i →
  Z.max 0 (count (wirePointsRelative (getWire s W)) - i) < Z.of_nat fuel →
  ∃ t', movedPoints pointOnPolyline fuel W i t = Some t' ∧ rewired s t'.
Proof.
  revert t i. induction fuel as [|fuel IH]; intros t i Hrw HW Hi Hfuel; [lia|].
  simpl. case_bool_decide as Hlt; [|by exists t].
  destruct (rewired_step t W i Hrw HW) as (t1 & -> & Hrw1); [lia|]. simpl.
  rewrite (rewired_count t W Hrw) in Hlt. apply IH; [done|done|lia|lia].
Qed.

(** Releasing the mouse after a wire was dragged, in a scene whose nets
    are well formed and whose wires all have a point: every call of
    [wirePointMovedByUser] that the handler makes for the wire returns,
    and the nets are well formed again, over the same wires, which lie
    where they lay. *)
Theorem mouseRelease_after_wire_drag_keeps_net_invariants (fuel : nat) (wire : WireId) :
  wellFormed s → wire ∈ wires s →
  (∀ v, v ∈ wires s → _points (getWire s v) ≠ []) →
  count (wirePointsRelative (getWire s wire)) < Z.of_nat fuel →
  ∃ s', mouseReleaseEvent_wireMoved pointOnPolyline fuel wire s = Some s'
    ∧ wellFormed s'
    ∧ (∀ x, x ∈ wires s' ↔ x ∈ wires s)
    ∧ (∀ v, pointsAbsolute (getWire s' v) = pointsAbsolute (getWire s v)).
Proof.
  intros Hwf Hwire Hpoints Hfuel.
  assert (rewired s s) as Hrefl by (by split).
  assert (∀ v, v ∈ connectedWires s wire → v ∈ wires s) as Hrec.
  { intros v Hv. apply elem_of_wires in Hwire as (n & Hn & Hwn).
    apply elem_of_wires. exists n. split; [done|].
    by apply (wf_within s Hwf n wire v). }
  unfold mouseReleaseEvent_wireMoved.
  destruct (forEach_establish (rewired s) (λ _ _, True)
              (λ otherWire s0,
                 s1 ← wirePointMovedByUser pointOnPolyline otherWire 0 s0;
                 wirePointMovedByUser pointOnPolyline otherWire
                   (count (wirePointsRelative (getWire s1 otherWire)) - 1) s1)
              (connectedWires s wire) s) as (s1 & -> & Hrw1 & _); [|done|].
  - intros otherWire t Hother Ht.
    assert (0 < count (wirePointsRelative (getWire s otherWire))) as Hcount.
    { specialize (Hpoints otherWire (Hrec _ Hother)). unfold count, wirePointsRelative.
      destruct (_points (getWire s otherWire)); [done|simpl; lia]. }
    destruct (rewired_step t otherWire 0 Ht) as (t1 & -> & Ht1); [by apply Hrec| |].
    { rewrite (rewired_count t otherWire Ht). lia. }
    simpl.
    destruct (rewired_step t1 otherWire
                (count (wirePointsRelative (getWire t1 otherWire)) - 1) Ht1)
      as (t2 & -> & Ht2); [by apply Hrec| |].
    { rewrite (rewired_count t1 otherWire Ht1). lia. }
    by exists t2.
  - simpl.
    destruct (movedPoints_rewired fuel s1 wire 0 Hrw1 Hwire) as (s' & -> & [H1 H2 H3]);
      [lia|unfold count in *; lia|].
    by exists s'.
Qed.
End WireDragged.

Lemma mouseRelease_after_wire_drag_keeps_net_invariants_host :
  ∃ s', mouseReleaseEvent_wireMoved pointOnPolyline 5 0 sceneTwoOnHost = Some s'
    ∧ wellFormed s'.
Proof.
  destruct (mouseRelease_after_wire_drag_keeps_net_invariants pointOnPolyline
              sceneTwoOnHost 5 0) as (s' & Hrun & Hwf & _).
  - exact sceneTwoOnHost_wellFormed.
  - apply (bool_decide_unpack _). by vm_compute.
  - intros v Hv. change (wires sceneTwoOnHost) with [0%nat; 1%nat; 2%nat] in Hv.
    members Hv; by vm_compute.
  - vm_compute. reflexivity.
  - exists s'. split; [exact Hrun|exact Hwf].
Defined.
